(* ===== verification/_CoqProject ===== *)
-Q . S2P
Prelude.v
JsString.v
JsNum.v
JsDate.v
Json.v
JsonRoundtrip.v
ScopedClient.v
Shared.v
Queue.v
Auth.v
Pricing.v
Providers.v
Translate.v
FrameTap.v
Gateway.v
RateLimit.v
Sink.v
Stores.v
KeyCache.v
Proxy.v
GatewayServer.v
Rollups.v
Persist.v
Ingest.v
Housekeeping.v
Export.v
Zod.v
Config.v
Worker.v
Services.v
Mail.v
ApiDb.v
ApiAuth.v
ApiKeys.v
ApiMembers.v
ApiOrg.v
ApiPricing.v
ApiReports.v
ApiServer.v
ApiRules.v
ApiSteps.v
ApiRefine.v
ApiEffects.v
ApiSafety.v
ApiExample.v
ApiGuarantees.v
ApiGateway.v
ApiMoney.v
Seed.v
ApiSessions.v
ApiFamilies.v
ApiScope.v
ApiLate.v
ApiTracks.v
ApiLater.v
ApiConcurrent.v
ApiRaces.v
ApiBudget.v
WebClient.v
WebSession.v
WebEndpoints.v
WebRouter.v
WebUi.v
WebFormat.v
WebKeys.v
WebMembers.v
WebProviders.v
WebPricing.v
WebTeams.v
WebOnboarding.v
WebAnalytics.v
WebUsage.v
WebSignIn.v
WebAdmin.v
WebForms.v
WebJourney.v
WebPaging.v
WebReports.v
WebGrants.v
