(* ===== verification/Prelude.v ===== *)
(** * A verification of TokenLedger

    TokenLedger meters and bills the use of AI providers.  Developers call a
    gateway with virtual keys; the gateway forwards to a provider and emits one
    usage event per request; a worker stores the events and sums them into
    rollups; an API administers workspaces, keys, credentials, prices and reads
    the figures; a web console calls the API.  This library models the TypeScript
    of the shared packages (packages/), the gateway, the worker, the API and the
    console (apps/), and proves what the program promises of them.

    ** How the parts interact, and where they are

    - Language and libraries.  [Prelude] (this file): results that may throw,
      optional values, list and sum lemmas.  [JsString], [JsNum], [JsDate]:
      strings, numbers and BigInt text, dates.  [Json], [JsonRoundtrip]:
      JSON.parse and JSON.stringify.  [Zod]: the schema combinators of the API.
    - packages/.  [Shared] (enums, roles, errors, csv, uuidv7, slugs), [Queue]
      (the event and its stream), [Auth] (tokens, envelopes, passwords, access
      tokens), [Pricing] (price matching and exact cost, and the gateway's price
      source), [Providers] (seven adapters and their stream observers),
      [Translate] (OpenAI shapes to Anthropic and Gemini and back), [Config]
      (loadConfig and the services' environment schemas), [ScopedClient] (the
      workspace filter of packages/db), [Seed] (its seeding script).
    - At the edges.  [Services]: the Redis probe of packages/queue, the gateway's
      choice of its dependencies, the shutdown of gateway and API, the licence
      stub of ee/licensing.  [Mail]: apps/api/src/lib/mailer.ts.
    - apps/gateway.  [FrameTap] (the transform stream of proxy/core.ts),
      [Gateway] (key authorization, headers, the event finalizer), [RateLimit],
      [Sink] (the publisher with its retry buffer), [Stores] (keys and
      credentials), [KeyCache] (stores/cached.ts: a machine whose look-ups run
      side by side, waiting for Redis and the inner store), [Proxy] (the native and the unified
      handler: proxy/pipeline.ts and proxy/unified.ts), [GatewayServer] (the
      routes, readiness and the model list of server.ts).
    - apps/worker.  [Rollups], [Persist], [Ingest] (ingest/rollups.ts, persist.ts,
      consumer.ts), [Housekeeping] (jobs/reconcile.ts, retention.ts), [Export]
      (jobs/export-csv.ts), [Worker] (main.ts: the ingest loop and the jobs on
      the same tables, statement by statement, and shutdown).
    - apps/api.  [ApiDb]: the tables of schema.prisma and the operations of a
      Prisma delegate as the class [Table], and the monad [H] of handlers: a
      resumption, which an interpreter runs one database operation at a time.
      [ApiAuth] (plugins/guards.ts, modules/auth.ts), [ApiKeys] (keys.ts,
      credentials.ts), [ApiMembers] (invitations.ts), [ApiOrg] (org.ts, teams.ts,
      admin.ts), [ApiPricing] (pricing.ts), [ApiReports] (exports.ts,
      analytics.ts, analytics-query.ts), [ApiServer] (the routes and the error
      handler of server.ts: [serve] is one request).
    - apps/web.  [WebClient] (api/client.ts and providers/auth-context.tsx as a
      machine over the browser's events), [WebSession] (one tab against
      [ApiAuth.refresh], with the cookie between them), [WebEndpoints]
      (api/endpoints.ts), [WebRouter] (App.tsx: routes, guards, redirects).
      The pages: [WebUi] is what they share (elements, forms with their
      fields and rules, queries and mutations of TanStack Query, and which
      events a rendered tree offers), [WebFormat] lib/format.ts, and one file
      per group of features/: [WebKeys], [WebMembers], [WebProviders], [WebPricing],
      [WebTeams], [WebOnboarding] (dashboard, wizard, setup page),
      [WebAnalytics], [WebUsage], [WebSignIn], [WebAdmin] (workspaces and
      instance settings).  A page is a record of its state, a function from the
      state and the answers of its queries to a tree of elements, and a function
      from the events the tree offers to the next state and the calls made.

    A request's life in the model: [Proxy.makeGatewayHandler] asks
    [Gateway.authorizeKey] and a limiter, calls the provider through an adapter,
    lets [FrameTap] observe the answer, and [Gateway.finalize] prices it with
    [Pricing.calculateCostUsd]; [Sink] publishes what [Queue.encode_event]
    writes; [Ingest.ingest_pass] reads it back and [Persist.persistBatch] stores
    it; [Export] and [ApiReports] read the tables.

    ** What is shown

    - Metering.  A provider is called only for an admitted request, a request
      is metered at most once and, once it reached a provider and recording did
      not throw, exactly once, for the context of the key it presented (Proxy);
      the cost is the exact picodollar sum cut to eight decimals (Pricing); events
      are delivered at least once and counted once, over any interleaving of
      publications, consumer passes, failures, redelivery and re-created groups in
      which no single batch holds an event id twice (an example shows what happens
      when one does), and every acknowledged entry is stored or in the dead letter
      stream (Ingest); the usage that was charged is what the rollups grow by,
      costs rounded to their six decimals (Ingest); the sink loses nothing uncounted and recovers (Sink).
    - Streams and formats.  However the network cuts a stream between characters,
      the observer and the translator see its frames once (FrameTap); the reported usage is the
      last usage of the stream (Providers); translation keeps the text and the
      usage (Translate).
    - Gateway policy.  The fixed window admits exactly the first calls up to the
      limit (RateLimit); an answer of the key cache is at most 65 seconds and the
      duration of a look-up old, and not older than an invalidation that found no
      look-up of its key under way, while an example shows how one under way
      brings a revoked key back (KeyCache); no client credential reaches a
      provider (Proxy).
    - Worker jobs.  Over tables nothing else changes, reconciliation reports no
      request drift; retention removes what expired and nothing else
      (Housekeeping); an export file reads back as the rows asked for (Export).
      Over the life of a worker, with all of it interleaved, the rollups account
      for every row there ever was, the daily check never reports a shortage and
      is silent about requests when nothing is ingested meanwhile, and shutdown
      leaves no job or batch behind (Worker).  Examples show what is reported all
      the same: a batch between the check's two queries, a retention shorter than
      its window; and an event counted twice when it is delivered again after its
      row was removed.
    - Edges.  Seeding is idempotent and keeps edited prices, and a gateway on the
      seeded table charges as one with the bundled catalog (Seed); a probe of a
      dead Redis is answered in time, a gateway without a database calls nobody
      (Services); names cannot bring markup into a mail (Mail).
    - Secrets: envelope and password round trips, unbiased tokens (Auth).
    - The API.  [ApiSteps.api_step] is an abstract specification: 30 kinds of
      transition, each with who may make it and under which conditions.
      [ApiRules] is a calculus of handlers ([safe], one rule per operation),
      [ApiRefine] proves with it that every handler refines the specification on
      every path.  [ApiEffects] splits transitions into elementary effects on the
      rows of a workspace and proves what effects keep, [ApiSafety] proves by
      cases on the transitions which effects they have.  [ApiGuarantees] states
      it of [serve] and of runs of requests: refinement, well-formed tables,
      isolated workspaces, fixed ownership.
    - Concurrent requests of the API.  [ApiConcurrent] serves any number of
      requests at once, switching between them after every database operation as
      Node and Postgres do.  [ApiLate] restates the specification for requests
      that are overtaken: guards, look-ups and counts are of tables the request
      read earlier, keys and indexes are checked when it writes; [ApiTracks]
      proves that every handler implements it, [ApiLater] what each table may
      look like later (what is over stays over).  The theorems: every
      operation is permitted by what its request has read, tables stay well
      formed, revoked stays revoked, workspaces stay isolated, a sole owner
      stays, every request is answered after at most seven operations of the
      model ([ApiBudget]), and one of the orders is one request after the other.
      [ApiRaces] exhibits what does not survive: the last-owner check and the
      detection of a refresh token used twice.
      [ApiGateway] joins API and gateway on the same tables: an issued key works
      until it is revoked, a stored credential is the one the gateway uses.
      [ApiMoney] follows a price from text to charge, [ApiSessions] a refresh
      token through rotation and reuse, [ApiFamilies] shows that a login's sessions
      end by its own tokens only, [ApiScope] shows that a MEMBER's answers
      depend on their own rows only.  [ApiExample] is the instance the API's
      theorems are tried on.
    - The console.  Whatever the order of answers, every call ends, at most one
      refresh is open and all waiting calls share it (WebClient); single flight
      and rotation together never run into the detection of reused tokens in one
      tab, short of the mishaps [WebSession.tab_step] counts (WebSession); every caller reaches the handler it means (WebEndpoints);
      redirects end on a page the user may see, unless the first workspace's slug
      is a word of the route table (WebRouter).  What the members page offers,
      roles and removals, the API grants; its invite button is there for everybody
      and refused to all but admins (WebGrants).  What the console's forms send is
      what the API's schemas read, and which forms let through what the API
      refuses (WebForms); the wizard, the API and the gateway together: the key
      the wizard shows opens the provider whose credential it stored
      (WebJourney); the token of an issued key stays shown until it is
      acknowledged (WebKeys); loading more walks the events once each while no
      two share a millisecond, and skips an event otherwise (WebPaging); the
      analytics page's file reads back as the figures answered, unless two
      members of a team or two keys share a name (WebReports).

    ** Conventions

    - A string is the UTF-8 text of the JavaScript string; a number is an
      integer or an exact decimal; BigInt is Z; money is an integer in the unit
      of its column (1e-6, 1e-8 or 1e-12 USD); a Date is milliseconds, an
      invalid one is absent.
    - An exception is a value of [result]; a handler of the API also says which
      tables and messages it leaves behind when it throws.
    - Fuel occurs where recursion is not structural.  The JSON parser takes twice
      the length of the text and two (its round trip theorem shows that this
      suffices), [FrameTap.drain] the length of the pending text (each turn
      removes a delimiter), [dec] the binary logarithm of the number.  The page
      loops of [Housekeeping] and [Export] take a number of pages as an argument;
      their theorems ask for enough pages to hold the table and then prove that
      the loop ends with its result.
      [Auth.randomBase62] takes the blocks of random bytes it may use and answers
      nothing when they run out; its theorem says how many suffice.
    - Code outside the repository is an argument: node:crypto, jose, undici,
      Fastify's reply, zod's text formats, uuid parsing, and which usage rows
      Postgres takes and how it prints their ids ([Persist.Postgres]).
      Laws the code relies on are hypotheses ([PrimitivesOk], [FixedWindow],
      "the empty text is no uuid"), with an instance that has them.

    ** Not modelled

    - The statements inside one prisma.$transaction are one step: with READ
      COMMITTED other requests' statements fall between them.  The database
      answers every query of a request, a request reads the clock once, and the
      keys Prisma and uuidv7 generate are assumed not to be in use
      ([ApiConcurrent.fresh_run]).  The cipher's laws ([PrimitivesOk]) are asked
      of keys of any length, where node takes those of 32 bytes only.
      [ApiGuarantees], [ApiGateway], [ApiMoney],
      [ApiSessions], [ApiFamilies] and [ApiScope] speak of requests served one
      after another.
    - Tables and columns the code under apps/ does not use (pools, budgets,
      audit log, SSO, branding, settings, updatedAt); the range of integer
      columns other than prices; Unicode case mapping; collation of ORDER BY
      beyond byte order.
    - IEEE rounding of ratios shown in reports and of reconciliation's
      differences; they are exact rationals and integers here.
    - The browser and React between the events of [WebClient]: a promise's
      continuation runs with the event that settles it; other tabs and
      StrictMode's repeated effects appear as mishaps and in examples only.
    - Wiring: construction of the parts beyond [Services.build_deps], listening,
      telemetry (a logger and a registry of third-party libraries), Fastify
      plug-ins (per-IP limits, cookies, CORS), nodemailer's and BullMQ's insides
      (jobs arrive at any time), the Prisma client, the wording of configuration
      errors, the local start script.  The trimming of the stream at a million
      entries (MAXLEN) is Redis' and appears as the loss of the stream only.
    - Of the pages of apps/web: styles, icons, placeholders and help texts, the
      drawing of charts, sorting and paging of a table in the browser, and the
      mounting of the application (main.tsx).  The number and date formats of
      Intl and dayjs are arguments of the definitions that use them. *)

From Stdlib Require Export ZArith Lia.
From Stdlib Require Import Sorted.
From stdpp Require Export base numbers option list gmap strings.

#[global] Open Scope Z_scope.

(** Rewriting facts that normalise goals of every component. *)
Create HintDb ledger.

(** ** JavaScript results

    A call returns a value or throws; the thrown value is the [message] of the
    [Error] (or the error record of the API layer). *)
Inductive result (E A : Type) : Type :=
| Ok (a : A)
| Throw (e : E).
Arguments Ok {E A} a.
Arguments Throw {E A} e.

#[global] Instance result_ret {E} : MRet (result E) := fun A a => Ok a.
#[global] Instance result_bind {E} : MBind (result E) :=
  fun A B f m => match m with Ok a => f a | Throw e => Throw e end.
#[global] Instance result_fmap {E} : FMap (result E) :=
  fun A B f m => match m with Ok a => Ok (f a) | Throw e => Throw e end.
#[global] Instance result_eq_dec {E A} `{EqDecision E, EqDecision A} :
  EqDecision (result E A).
Proof. solve_decision. Defined.

(** Exceptions whose payload is an [Error] message. *)
Abbreviation js := (result string).

Definition is_ok {E A} (r : result E A) : bool :=
  match r with Ok _ => true | Throw _ => false end.

(** [try { r } catch { d }] *)
Definition catch {E A} (r : result E A) (d : A) : A :=
  match r with Ok a => a | Throw _ => d end.

(** [a ?? d] *)
Definition nullish {A} (o : option A) (d : A) : A := from_option id d o.
Notation "a ?? d" := (nullish a d) (at level 60, right associativity).

(** [a ?? b] where both sides may be missing. *)
Definition or_else {A} (a b : option A) : option A :=
  match a with Some x => Some x | None => b end.

(** The monadic traversal of a list, left to right, stopping at the first
    exception: what a [for] loop over a throwing body does. *)
Fixpoint mapR {E A B} (f : A -> result E B) (l : list A) : result E (list B) :=
  match l with
  | [] => Ok []
  | x :: l' => y ← f x; ys ← mapR f l'; Ok (y :: ys)
  end.

Fixpoint foldR {E A S} (f : S -> A -> result E S) (s : S) (l : list A) : result E S :=
  match l with
  | [] => Ok s
  | x :: l' => s' ← f s x; foldR f s' l'
  end.

(** ** Tactics *)

(** Case analysis on every match of the goal or of the hypotheses. *)
Ltac break_match_in H :=
  match type of H with
  | context [match ?x with _ => _ end] =>
      lazymatch x with
      | context [match _ with _ => _ end] => fail
      | _ => destruct x eqn:?
      end
  end.
Ltac break_match :=
  match goal with
  | |- context [match ?x with _ => _ end] =>
      lazymatch x with
      | context [match _ with _ => _ end] => fail
      | _ => destruct x eqn:?
      end
  end.
Ltac break := repeat (break_match; simplify_eq/=).
Ltac break_in H := repeat (break_match_in H; simplify_eq/=).

(** Opens a successful [result] computation into its steps. *)
Ltac inv_ok :=
  repeat match goal with
  | H : mbind ?f ?m = Ok _ |- _ =>
      let E := fresh "E" in
      destruct m eqn:E; cbn [mbind result_bind] in H; [|discriminate H]
  | H : Ok _ = Ok _ |- _ => injection H as H; subst
  | H : Throw _ = Ok _ |- _ => discriminate H
  | H : Ok _ = Throw _ |- _ => discriminate H
  end.

(** Boolean tests to propositions. *)
Ltac bool_to_prop :=
  repeat match goal with
  | H : _ && _ = true |- _ => apply andb_true_iff in H as [? ?]
  | H : _ || _ = false |- _ => apply orb_false_iff in H as [? ?]
  | H : negb _ = true |- _ => apply negb_true_iff in H
  | H : negb _ = false |- _ => apply negb_false_iff in H
  | H : (_ <? _) = true |- _ => apply Z.ltb_lt in H
  | H : (_ <? _) = false |- _ => apply Z.ltb_ge in H
  | H : (_ <=? _) = true |- _ => apply Z.leb_le in H
  | H : (_ <=? _) = false |- _ => apply Z.leb_gt in H
  | H : (_ =? _) = true |- _ => apply Z.eqb_eq in H
  | H : (_ =? _) = false |- _ => apply Z.eqb_neq in H
  | H : bool_decide _ = true |- _ => apply bool_decide_eq_true in H
  | H : bool_decide _ = false |- _ => apply bool_decide_eq_false in H
  end.

(** The last value [f] yields along a list: what a variable assigned in a loop
    holds after it. *)
Definition last_some {A B} (f : A -> option B) (l : list A) : option B :=
  fold_left (fun acc x => or_else (f x) acc) l None.
Lemma or_else_assoc {A} (a b c : option A) : or_else (or_else a b) c = or_else a (or_else b c).
Proof. by destruct a. Qed.
Lemma or_else_none {A} (a : option A) : or_else a None = a.
Proof. by destruct a. Qed.
Lemma last_some_fold {A B} (f : A -> option B) l a :
  fold_left (fun acc x => or_else (f x) acc) l a = or_else (last_some f l) a.
Proof.
  unfold last_some. revert a; induction l as [|x l IH]; intros a; [done|]. cbn.
  rewrite IH, (IH (or_else (f x) None)), or_else_none. apply eq_sym, or_else_assoc.
Qed.
Lemma last_some_cons {A B} (f : A -> option B) x l :
  last_some f (x :: l) = or_else (last_some f l) (f x).
Proof. unfold last_some at 1. cbn. by rewrite last_some_fold, or_else_none. Qed.
Lemma last_some_is_Some {A B} (f : A -> option B) l :
  is_Some (last_some f l) <-> exists x, x ∈ l /\ is_Some (f x).
Proof.
  induction l as [|x l IH]; [split; [by intros [? ?] | set_solver]|].
  rewrite last_some_cons. split.
  - destruct (last_some f l) as [y|] eqn:E; cbn; [|set_solver].
    intros _. destruct (proj1 IH) as (z & ? & ?); [by eexists|]. set_solver.
  - intros (z & Hz & Hs). destruct (last_some f l) as [y|] eqn:E; cbn; [by eexists|].
    apply elem_of_cons in Hz as [->|Hz]; [done|].
    exfalso. destruct (proj2 IH) as [? [=]]; eauto.
Qed.

(** A stable insertion sort; [le a b] says a may come first. *)
Fixpoint insert_by {A} (le : A -> A -> bool) (a : A) (l : list A) : list A :=
  match l with
  | [] => [a]
  | b :: rest => if le a b then a :: l else b :: insert_by le a rest
  end.
Definition order_by {A} (le : A -> A -> bool) (l : list A) : list A := foldr (insert_by le) [] l.
Lemma in_insert_by {A} le (a x : A) l : x ∈ insert_by le a l <-> x = a \/ x ∈ l.
Proof. induction l as [|b l IH]; cbn; [set_solver|]. destruct (le a b); set_solver. Qed.
Lemma in_order_by {A} le (x : A) l : x ∈ order_by le l <-> x ∈ l.
Proof. induction l as [|a l IH]; cbn; [done|]. rewrite in_insert_by, IH. set_solver. Qed.

Lemma order_by_perm {A} le (l : list A) : order_by le l ≡ₚ l.
Proof.
  assert (forall a k, insert_by le a k ≡ₚ a :: k) as Hi.
  { intros a. induction k as [|b k IH]; [done|]. cbn. destruct (le a b); [done|]. rewrite IH. constructor. }
  induction l as [|a l IH]; [done|]. cbn. by rewrite Hi, IH.
Qed.

(** Under a total and transitive test the result is sorted. *)
Section ordered.
Context {A : Type} (le : A -> A -> bool).
Hypothesis total : forall a b, le a b = true \/ le b a = true.
Hypothesis trans : forall a b c, le a b = true -> le b c = true -> le a c = true.
Lemma insert_sorted a l : StronglySorted (fun x y => le x y = true) l -> StronglySorted (fun x y => le x y = true) (insert_by le a l).
Proof.
  induction 1 as [|b l Hl IH Hb]; [repeat constructor|]. cbn. destruct (le a b) eqn:E.
  - constructor; [by constructor|]. constructor; [done|]. eapply Forall_impl; [exact Hb|]. cbn. eauto.
  - constructor; [done|]. apply Forall_forall. intros x [->|Hx]%in_insert_by.
    + destruct (total a b); congruence.
    + rewrite Forall_forall in Hb. by apply Hb.
Qed.
Lemma order_by_sorted l : StronglySorted (fun x y => le x y = true) (order_by le l).
Proof. induction l as [|a l IH]; [constructor|]. by apply insert_sorted. Qed.
End ordered.

(** The standard library's [filter] on a boolean test is stdpp's on its truth. *)
Lemma List_filter_filter {A} (f : A -> bool) (l : list A) :
  List.filter f l = base.filter (fun x => f x = true) l.
Proof.
  induction l as [|x l IH]; [done|]. rewrite filter_cons. cbn [List.filter].
  destruct (f x) eqn:Hx; [by rewrite decide_True, IH | by rewrite decide_False by congruence].
Qed.

Lemma filter_none {A} (f : A -> bool) l : (forall x, x ∈ l -> f x = false) -> List.filter f l = [].
Proof.
  induction l as [|x l IH]; intros H; [done|]. cbn. rewrite (H x) by left. apply IH. intros; apply H; by right.
Qed.
Lemma filter_all {A} (f : A -> bool) l : (forall x, x ∈ l -> f x = true) -> List.filter f l = l.
Proof.
  induction l as [|x l IH]; intros H; [done|]. cbn. rewrite (H x) by left. f_equal. apply IH. intros; apply H; by right.
Qed.
Lemma in_filter {A} (f : A -> bool) l x : x ∈ List.filter f l <-> x ∈ l /\ f x = true.
Proof. by rewrite !list_elem_of_In, List.filter_In. Qed.
Lemma filter_and {A} (f g : A -> bool) l :
  List.filter (fun x => f x && g x) l = List.filter g (List.filter f l).
Proof.
  induction l as [|x l IH]; [done|]. cbn [List.filter]. destruct (f x); cbn [andb List.filter]; [|done].
  destruct (g x); by rewrite IH.
Qed.
Lemma length_filterb {A} (f : A -> bool) l : (length (List.filter f l) <= length l)%nat.
Proof. induction l as [|x l IH]; [done|]. cbn. destruct (f x); cbn; lia. Qed.
Lemma NoDup_filter_map {A B} (f : A -> B) (p : A -> bool) l : NoDup (map f l) -> NoDup (map f (List.filter p l)).
Proof.
  induction l as [|x l IH]; [done|]. cbn [map List.filter]. rewrite NoDup_cons. intros [Hn Hnd].
  destruct (p x); [|by apply IH]. cbn [map]. apply NoDup_cons. split; [|by apply IH].
  intros (y & Hy & [Hin _]%in_filter)%list_elem_of_fmap. apply Hn. rewrite Hy. by apply list_elem_of_fmap_2.
Qed.
Lemma NoDup_map_inj {A B} (f : A -> B) l x y :
  NoDup (map f l) -> x ∈ l -> y ∈ l -> f x = f y -> x = y.
Proof.
  induction l as [|z l IH]; [set_solver|]. cbn [map]. rewrite NoDup_cons. intros [Hn Hnd].
  rewrite !elem_of_cons. intros [->|Hx] [->|Hy] H; [done| | |by apply IH];
    exfalso; apply Hn; [rewrite H|rewrite <- H]; by apply list_elem_of_fmap_2.
Qed.

(** ** Lemmas on results *)
Section results.
Context {E : Type}.

Lemma bind_ok {A B} (f : A -> result E B) m b :
  (x ← m; f x) = Ok b <-> exists a, m = Ok a /\ f a = Ok b.
Proof. destruct m; cbn; naive_solver. Qed.

Lemma mapR_ok {A B} (f : A -> result E B) l ys :
  mapR f l = Ok ys <-> Forall2 (fun x y => f x = Ok y) l ys.
Proof.
  revert ys; induction l as [|x l IH]; intros ys; cbn.
  - split; [intros [= <-]; constructor | by inversion 1].
  - rewrite bind_ok; setoid_rewrite bind_ok. split.
    + intros (y & Hy & ys' & Hys & [= <-]). constructor; [done | by apply IH].
    + inversion 1; subst. eexists; split; [done|]. eexists; split; [by apply IH|done].
Qed.

Lemma mapR_length {A B} (f : A -> result E B) l ys :
  mapR f l = Ok ys -> length ys = length l.
Proof. intros H%mapR_ok. symmetry. by eapply Forall2_length. Qed.

Lemma mapR_throw {A B} (f : A -> result E B) l :
  (exists e, mapR f l = Throw e) <-> exists x, x ∈ l /\ exists e, f x = Throw e.
Proof.
  induction l as [|x l IH]; cbn; [set_solver|].
  destruct (f x) as [y|e] eqn:Hx; cbn.
  - destruct (mapR f l) as [ys|e] eqn:Hl; cbn.
    + split; [intros [? ?]; discriminate|].
      intros (x' & [->|Hin]%elem_of_cons & e & He); [congruence|].
      exfalso. destruct (proj2 IH); eauto. discriminate.
    + split; [|eauto]. intros _. destruct (proj1 IH) as (x' & ? & ?); [eauto|].
      exists x'; split; [set_solver|done].
  - split; [|eauto]. intros _. exists x; split; [set_solver|eauto].
Qed.

Lemma foldR_app {A S} (f : S -> A -> result E S) s l1 l2 :
  foldR f s (l1 ++ l2) = (s' ← foldR f s l1; foldR f s' l2).
Proof.
  revert s; induction l1 as [|x l1 IH]; intros s; [done|].
  cbn. destruct (f s x); cbn; [apply IH | done].
Qed.

(** A property of the state that every step preserves holds at the end. *)
Lemma foldR_inv {A S} (P : S -> Prop) (f : S -> A -> result E S) s l s' :
  (forall s x s', x ∈ l -> P s -> f s x = Ok s' -> P s') ->
  P s -> foldR f s l = Ok s' -> P s'.
Proof.
  revert s; induction l as [|x l IH]; intros s Hf Hs; cbn; [naive_solver|].
  intros (s1 & Hs1 & Hrest)%bind_ok.
  eapply IH; [|eapply Hf, Hs1; [left|done] | done].
  intros; eapply Hf; [right| |]; eauto.
Qed.
End results.

(** ** Sums over lists *)
Fixpoint zsum {A} (f : A -> Z) (l : list A) : Z :=
  match l with [] => 0 | x :: l' => f x + zsum f l' end.

Section zsum.
Context {A : Type}.
Implicit Types (f g : A -> Z) (l : list A).

Lemma zsum_app f l1 l2 : zsum f (l1 ++ l2) = zsum f l1 + zsum f l2.
Proof. induction l1; cbn; lia. Qed.
Lemma zsum_nonneg f l : (forall x, x ∈ l -> 0 <= f x) -> 0 <= zsum f l.
Proof.
  induction l as [|x l IH]; cbn; intros H; [lia|].
  assert (0 <= f x) by (apply H; left). assert (0 <= zsum f l) by (apply IH; intros; apply H; by right).
  lia.
Qed.
Lemma zsum_ext f g l : (forall x, x ∈ l -> f x = g x) -> zsum f l = zsum g l.
Proof.
  induction l as [|x l IH]; cbn; intros H; [done|].
  rewrite (H x) by left. rewrite IH; [done|]. intros; apply H; by right.
Qed.
Lemma zsum_perm f l1 l2 : l1 ≡ₚ l2 -> zsum f l1 = zsum f l2.
Proof. induction 1; cbn; lia. Qed.
Lemma zsum_const1 l : zsum (fun _ => 1) l = Z.of_nat (length l).
Proof. induction l; cbn [zsum length] in *; lia. Qed.
Lemma zsum_plus f g l : zsum (fun x => f x + g x) l = zsum f l + zsum g l.
Proof. induction l; cbn; lia. Qed.
Lemma zsum_filter_split (P : A -> bool) f l :
  zsum f l = zsum f (List.filter P l) + zsum f (List.filter (fun x => negb (P x)) l).
Proof. induction l as [|x l IH]; cbn; [done|]. destruct (P x); cbn; lia. Qed.
End zsum.

Lemma zsum_map {A B} (h : B -> A) (f : A -> Z) l : zsum f (map h l) = zsum (fun x => f (h x)) l.
Proof. induction l; cbn; congruence. Qed.

#[export] Hint Rewrite @zsum_app @zsum_map : ledger.

(** Two splittings of one list point at the same element or at two in order. *)
Lemma split_trichotomy {A} (l1 l2 k1 k2 : list A) x y :
  l1 ++ x :: l2 = k1 ++ y :: k2 ->
  (l1 = k1 /\ x = y /\ l2 = k2) \/ (x ∈ k1 /\ y ∈ l2) \/ (y ∈ l1 /\ x ∈ k2).
Proof.
  revert k1; induction l1 as [|a l1 IH]; intros [|b k1]; cbn; intros [= -> H].
  - auto.
  - right; left. subst. split; [left | set_solver].
  - right; right. subst. split; [left | set_solver].
  - destruct (IH k1 H) as [(-> & -> & ->)|[[? ?]|[? ?]]]; [auto | |].
    + right; left. split; [by right | done].
    + right; right. split; [by right | done].
Qed.
