(* ===== verification/JsString.v ===== *)
(** * JavaScript strings

    The [String.prototype] functions the program calls, over Rocq strings.  A
    string is the UTF-8 encoding of the JavaScript string; character classes,
    [trim] and [toLowerCase] are those of ASCII, which is all the program's
    patterns and keys use.  The last parts hold the
    incremental UTF-8 decoder of [TextDecoder]/[StringDecoder] and reversal. *)

From S2P Require Import Prelude.
From Stdlib Require Import Ascii.

#[global] Arguments String.append !_ _ /.

(** ** Characters *)
Definition dquote : ascii := "034"%char.
Definition newline : ascii := "010"%char.
Definition nl : string := String newline "".
Definition code (c : ascii) : Z := Z.of_N (N_of_ascii c).
Definition char_of (z : Z) : ascii := ascii_of_N (Z.to_N z).
Definition in_range (lo hi : Z) (c : ascii) : bool := (lo <=? code c) && (code c <=? hi).
Definition is_digit : ascii -> bool := in_range 48 57.
Definition is_upper : ascii -> bool := in_range 65 90.
Definition is_lower : ascii -> bool := in_range 97 122.
Definition is_hex (c : ascii) : bool := is_digit c || in_range 97 102 c || in_range 65 70 c.
Definition is_space (c : ascii) : bool := in_range 9 13 c || (code c =? 32).
Definition lower_char (c : ascii) : ascii := if is_upper c then char_of (code c + 32) else c.

Lemma code_bound c : 0 <= code c < 256.
Proof. unfold code. pose proof (N_ascii_bounded c). lia. Qed.
Lemma char_of_code c : char_of (code c) = c.
Proof. unfold char_of, code. rewrite N2Z.id. apply ascii_N_embedding. Qed.
Lemma code_char_of z : 0 <= z < 256 -> code (char_of z) = z.
Proof. intros. unfold code, char_of. rewrite N_ascii_embedding; lia. Qed.
#[export] Hint Rewrite char_of_code : ledger.

(** ** Slicing and searching *)
Fixpoint slice_to (n : nat) (s : string) : string :=
  match n, s with S n', String c s' => String c (slice_to n' s') | _, _ => "" end.
Fixpoint slice_from (n : nat) (s : string) : string :=
  match n, s with S n', String _ s' => slice_from n' s' | O, _ => s | S _, "" => "" end.

(** [s.slice(0, -n)] and [s.slice(-n)] *)
Definition slice_drop_last (n : nat) (s : string) : string := slice_to (String.length s - n) s.
Definition slice_last (n : nat) (s : string) : string := slice_from (String.length s - n) s.

Fixpoint starts_with (p s : string) {struct p} : bool :=
  match p, s with
  | "", _ => true
  | String a p', String b s' => Ascii.eqb a b && starts_with p' s'
  | String _ _, "" => false
  end.
Definition ends_with (p s : string) : bool :=
  (String.length p <=? String.length s)%nat && String.eqb (slice_last (String.length p) s) p.

(** [s.indexOf(p)], [None] for -1. *)
Fixpoint index_of (p s : string) : option nat :=
  if starts_with p s then Some O
  else match s with "" => None | String _ s' => S <$> index_of p s' end.
Definition includes (p s : string) : bool :=
  match index_of p s with Some _ => true | None => false end.

(** [s.split(c)] for a one-character separator: never empty. *)
Fixpoint split_on (c : ascii) (s : string) : list string :=
  match s with
  | "" => [""]
  | String a s' =>
      if Ascii.eqb a c then "" :: split_on c s'
      else match split_on c s' with
           | w :: ws => String a w :: ws
           | [] => [String a ""]
           end
  end.
Fixpoint join (sep : string) (l : list string) : string :=
  match l with [] => "" | [s] => s | s :: l' => s +:+ sep +:+ join sep l' end.

Fixpoint sforall (f : ascii -> bool) (s : string) : bool :=
  match s with "" => true | String c s' => f c && sforall f s' end.
Fixpoint smap (f : ascii -> ascii) (s : string) : string :=
  match s with "" => "" | String c s' => String (f c) (smap f s') end.
Fixpoint sconcat_map (f : ascii -> string) (s : string) : string :=
  match s with "" => "" | String c s' => f c +:+ sconcat_map f s' end.
Definition to_lower : string -> string := smap lower_char.
Definition upper_char (c : ascii) : ascii := if is_lower c then char_of (code c - 32) else c.
Definition to_upper : string -> string := smap upper_char.

Fixpoint drop_while (f : ascii -> bool) (s : string) : string :=
  match s with String c s' => if f c then drop_while f s' else s | "" => "" end.
Fixpoint take_while (f : ascii -> bool) (s : string) : string :=
  match s with String c s' => if f c then String c (take_while f s') else "" | "" => "" end.
Fixpoint srev_app (s acc : string) : string :=
  match s with "" => acc | String c s' => srev_app s' (String c acc) end.
Definition srev (s : string) : string := srev_app s "".
Definition drop_while_end (f : ascii -> bool) (s : string) : string := srev (drop_while f (srev s)).
Definition trim (s : string) : string := drop_while_end is_space (drop_while is_space s).

(** ** Basic facts *)
Lemma string_app_assoc (a b c : string) : (a +:+ b) +:+ c = a +:+ (b +:+ c).
Proof. induction a as [|x a IH]; [done|]. cbn. f_equal. apply IH. Qed.
Lemma string_app_nil_r (a : string) : a +:+ "" = a.
Proof. induction a as [|x a IH]; [done|]. cbn. f_equal. apply IH. Qed.
Lemma string_app_nil_l (a : string) : "" +:+ a = a.
Proof. done. Qed.
Lemma string_app_cons c (a b : string) : String c a +:+ b = String c (a +:+ b).
Proof. done. Qed.
Lemma length_string_app (a b : string) :
  String.length (a +:+ b) = (String.length a + String.length b)%nat.
Proof. induction a as [|x a IH]; [done|]. cbn. f_equal. apply IH. Qed.
#[export] Hint Rewrite string_app_assoc string_app_nil_r string_app_nil_l string_app_cons
  length_string_app : ledger.

Lemma starts_with_spec p s : starts_with p s = true <-> exists t, s = p +:+ t.
Proof.
  revert s; induction p as [|a p IH]; intros s; cbn.
  - split; [eexists; done | done].
  - destruct s as [|b s]; [split; [done | by intros [? [=]]]|].
    rewrite andb_true_iff, IH, Ascii.eqb_eq. naive_solver.
Qed.
Lemma starts_with_app p t : starts_with p (p +:+ t) = true.
Proof. apply starts_with_spec. by exists t. Qed.
Lemma starts_with_nil s : starts_with "" s = true.
Proof. done. Qed.

Lemma slice_from_app (a b : string) : slice_from (String.length a) (a +:+ b) = b.
Proof. induction a as [|x a IH]; [by destruct b|]. cbn. apply IH. Qed.
Lemma slice_to_app (a b : string) : slice_to (String.length a) (a +:+ b) = a.
Proof. induction a as [|x a IH]; [by destruct b|]. cbn. f_equal. apply IH. Qed.
Lemma slice_to_from n (s : string) : slice_to n s +:+ slice_from n s = s.
Proof. revert s; induction n as [|n IH]; intros [|c s]; cbn; try done. f_equal. apply IH. Qed.
Lemma length_slice_to n (s : string) : String.length (slice_to n s) = (n `min` String.length s)%nat.
Proof. revert s; induction n as [|n IH]; intros [|c s]; cbn; try done. by rewrite IH. Qed.
Lemma length_slice_from n (s : string) : String.length (slice_from n s) = (String.length s - n)%nat.
Proof. revert s; induction n as [|n IH]; intros [|c s]; cbn; try done. Qed.
#[export] Hint Rewrite slice_from_app slice_to_app slice_to_from : ledger.

Lemma ends_with_spec p s : ends_with p s = true <-> exists t, s = t +:+ p.
Proof.
  unfold ends_with, slice_last. rewrite andb_true_iff, Nat.leb_le, String.eqb_eq. split.
  - intros [_ H]. exists (slice_to (String.length s - String.length p) s).
    pose proof (slice_to_from (String.length s - String.length p) s) as Hs.
    by rewrite H in Hs.
  - intros [t ->]. rewrite length_string_app. split; [lia|].
    replace (String.length t + String.length p - String.length p)%nat with (String.length t) by lia.
    apply slice_from_app.
Qed.
Lemma slice_drop_last_app t p : slice_drop_last (String.length p) (t +:+ p) = t.
Proof.
  unfold slice_drop_last. rewrite length_string_app.
  replace (String.length t + String.length p - String.length p)%nat with (String.length t) by lia.
  apply slice_to_app.
Qed.

Lemma string_app_inj_l (a b c : string) : a +:+ b = a +:+ c -> b = c.
Proof. induction a as [|x a IH]; [done|]. cbn. intros [= H]. by apply IH. Qed.
Lemma string_app_inj_len (a b c d : string) :
  String.length a = String.length c -> a +:+ b = c +:+ d -> a = c /\ b = d.
Proof.
  revert c; induction a as [|x a IH]; intros [|y c]; cbn; try done.
  intros [= Hl] [= -> H]. by destruct (IH c Hl H) as [-> ->].
Qed.

(** Two prefixes of one string are comparable. *)
Lemma prefix_comparable (p q s : string) :
  starts_with p s = true -> starts_with q s = true ->
  (String.length p <= String.length q)%nat -> starts_with p q = true.
Proof.
  rewrite !starts_with_spec. intros [t ->] [u H] Hl. exists (slice_from (String.length p) q).
  rewrite <- (slice_to_from (String.length p) q) in H.
  rewrite string_app_assoc in H. apply string_app_inj_len in H as [H _].
  - rewrite <- (slice_to_from (String.length p) q) at 1. by rewrite <- H.
  - rewrite length_slice_to. lia.
Qed.

Lemma index_of_Some p s n :
  index_of p s = Some n -> exists t, s = slice_to n s +:+ p +:+ t /\ (n <= String.length s)%nat.
Proof.
  revert n; induction s as [|c s IH]; intros n; cbn.
  - destruct (starts_with p "") eqn:H; [|done]. intros [= <-].
    apply starts_with_spec in H as [t H]. exists t. cbn. split; [done | lia].
  - destruct (starts_with p (String c s)) eqn:H.
    + intros [= <-]. apply starts_with_spec in H as [t H]. exists t. cbn. split; [done | lia].
    + intros (m & Hm & ->)%fmap_Some. destruct (IH m Hm) as (t & Ht & Hl).
      exists t. cbn. split; [by f_equal | lia].
Qed.

(** ** Splitting and joining *)
Lemma split_on_nonempty c s : exists w ws, split_on c s = w :: ws.
Proof. induction s as [|a s (w & ws & IH)]; cbn; [eauto|]. rewrite IH. destruct (Ascii.eqb a c); eauto. Qed.

Definition no_char (c : ascii) : string -> bool := sforall (fun a => negb (Ascii.eqb a c)).

Lemma split_on_no_char c s : no_char c s = true -> split_on c s = [s].
Proof.
  unfold no_char. induction s as [|a s IH]; cbn; [done|].
  intros [Ha Hs]%andb_true_iff. apply negb_true_iff in Ha. rewrite Ha, IH by done. done.
Qed.
Lemma split_on_app c a b :
  no_char c a = true -> split_on c (a +:+ String c b) = a :: split_on c b.
Proof.
  unfold no_char. induction a as [|x a IH]; cbn; [by rewrite Ascii.eqb_refl|].
  intros [Ha Hs]%andb_true_iff. apply negb_true_iff in Ha. cbn in IH. by rewrite Ha, IH.
Qed.
Lemma split_join c l :
  l <> [] -> Forall (fun w => no_char c w = true) l -> split_on c (join (String c "") l) = l.
Proof.
  induction l as [|w [|v l] IH]; [done| |]; intros _ Hf.
  - inversion Hf; subst. by apply split_on_no_char.
  - inversion Hf; subst. change (join (String c "") (w :: v :: l))
      with (w +:+ String c (join (String c "") (v :: l))).
    rewrite split_on_app by done. f_equal. by apply IH.
Qed.
Lemma join_split c s : join (String c "") (split_on c s) = s.
Proof.
  induction s as [|a s IH]; [done|]. cbn [split_on].
  destruct (split_on_nonempty c s) as (w & ws & Hs). rewrite Hs in *.
  destruct (Ascii.eqb_spec a c) as [->|]; destruct ws; cbn in *; by rewrite <- IH.
Qed.
Lemma sforall_app f a b : sforall f (a +:+ b) = sforall f a && sforall f b.
Proof. induction a as [|x a IH]; [done|]. cbn. rewrite <- andb_assoc. by f_equal. Qed.
Lemma no_char_app c a b : no_char c (a +:+ b) = no_char c a && no_char c b.
Proof. apply sforall_app. Qed.
Lemma sforall_impl (f g : ascii -> bool) s :
  (forall c, f c = true -> g c = true) -> sforall f s = true -> sforall g s = true.
Proof. intros H. induction s as [|c s IH]; cbn; [done|]. rewrite !andb_true_iff. naive_solver. Qed.
#[export] Hint Rewrite sforall_app : ledger.

(** ** [buffer.toString("utf8")]

    Bytes to text by the WHATWG decoder, a byte at a time: [u_needed] bytes are
    still to come, the next one between [u_lo] and [u_hi]; an ill-formed
    sequence is replaced by U+FFFD. *)
Record utf8_state := mkUtf8 { u_needed : nat; u_lo : Z; u_hi : Z; u_pend : string }.
Definition utf8_init : utf8_state := mkUtf8 0 128 191 "".
Definition REPLACEMENT : string := String "239" (String "191" (String "189" "")).
Definition utf8_lead (c : ascii) : string * utf8_state :=
  let p := String c "" in
  let z := code c in
  if z <? 128 then (p, utf8_init)
  else if in_range 194 223 c then ("", mkUtf8 1 128 191 p)
  else if in_range 224 239 c then
    ("", mkUtf8 2 (if z =? 224 then 160 else 128) (if z =? 237 then 159 else 191) p)
  else if in_range 240 244 c then
    ("", mkUtf8 3 (if z =? 240 then 144 else 128) (if z =? 244 then 143 else 191) p)
  else (REPLACEMENT, utf8_init).
Definition utf8_step (st : utf8_state) (c : ascii) : string * utf8_state :=
  match u_needed st with
  | O => utf8_lead c
  | S n =>
      if in_range (u_lo st) (u_hi st) c then
        let p := u_pend st +:+ String c "" in
        match n with O => (p, utf8_init) | _ => ("", mkUtf8 n 128 191 p) end
      else let '(out, st') := utf8_lead c in (REPLACEMENT +:+ out, st')
  end.
Fixpoint utf8_run (st : utf8_state) (s : string) : string * utf8_state :=
  match s with
  | "" => ("", st)
  | String c s' =>
      let '(o1, st1) := utf8_step st c in
      let '(o2, st2) := utf8_run st1 s' in (o1 +:+ o2, st2)
  end.
Definition utf8_decode (s : string) : string :=
  let '(out, st) := utf8_run utf8_init s in
  out +:+ (if (u_needed st =? 0)%nat then "" else REPLACEMENT).
(** The bytes end on a character boundary. *)
Definition utf8_closed (s : string) : Prop := (utf8_run utf8_init s).2 = utf8_init.

Lemma utf8_run_app st a b :
  utf8_run st (a +:+ b) =
  let '(o1, st1) := utf8_run st a in let '(o2, st2) := utf8_run st1 b in (o1 +:+ o2, st2).
Proof.
  revert st; induction a as [|c a IH]; intros st; cbn [String.append utf8_run].
  - by destruct (utf8_run st b).
  - destruct (utf8_step st c) as [o1 st1]. rewrite IH.
    destruct (utf8_run st1 a) as [o2 st2]. destruct (utf8_run st2 b). by rewrite string_app_assoc.
Qed.
Lemma utf8_decode_app a b :
  utf8_closed a -> utf8_decode (a +:+ b) = utf8_decode a +:+ utf8_decode b.
Proof.
  unfold utf8_closed, utf8_decode. rewrite utf8_run_app. destruct (utf8_run utf8_init a) as [o1 st1].
  cbn. intros ->. destruct (utf8_run utf8_init b) as [o2 st2]. cbn.
  by rewrite string_app_nil_r, string_app_assoc.
Qed.
Lemma utf8_ascii s :
  sforall (fun c => code c <? 128) s = true -> utf8_run utf8_init s = (s, utf8_init).
Proof.
  induction s as [|c s IH]; [done|]. cbn [sforall]. intros [Hc Hs]%andb_true_iff.
  cbn [utf8_run]. unfold utf8_step, utf8_lead; cbn. by rewrite Hc, IH.
Qed.
Lemma utf8_decode_ascii s : sforall (fun c => code c <? 128) s = true -> utf8_decode s = s.
Proof. intros H. unfold utf8_decode. rewrite utf8_ascii by done. cbn. apply string_app_nil_r. Qed.

(** ** Reversal *)
Lemma srev_app_acc s a b : srev_app s (a +:+ b) = srev_app s a +:+ b.
Proof. revert a; induction s as [|c s IH]; intros a; [done|]. cbn. apply (IH (String c a)). Qed.
Lemma srev_cons c s : srev (String c s) = srev s +:+ String c "".
Proof. unfold srev. cbn. apply (srev_app_acc s ""). Qed.
Lemma srev_snoc s c : srev (s +:+ String c "") = String c (srev s).
Proof. induction s as [|d s IH]; [done|]. cbn [String.append]. by rewrite srev_cons, IH, srev_cons. Qed.
Lemma srev_involutive s : srev (srev s) = s.
Proof. induction s as [|c s IH]; [done|]. by rewrite srev_cons, srev_snoc, IH. Qed.
Lemma srev_concat a b : srev (a +:+ b) = srev b +:+ srev a.
Proof.
  induction a as [|c a IH]; [by rewrite string_app_nil_r|]. change (String c a +:+ b) with (String c (a +:+ b)).
  by rewrite !srev_cons, IH, string_app_assoc.
Qed.
Lemma sforall_srev f s : sforall f (srev s) = sforall f s.
Proof.
  induction s as [|c s IH]; [done|]. rewrite srev_cons, sforall_app, IH. cbn. rewrite andb_true_r. apply andb_comm.
Qed.
