(* ===== verification/JsNum.v ===== *)
(** * JavaScript numbers and BigInt text

    [dec] and [digits_val] are the two directions of BigInt text; [pad_start]
    and [pad_end] are [padStart]/[padEnd].  A JavaScript number is kept as a
    [number]: an integer (rounded to the nearest double once it leaves the
    53-bit range, [fround]) or an exact decimal fraction.  IEEE rounding of
    fractions, infinities and NaN are not represented. *)

From S2P Require Import Prelude JsString.
From Stdlib Require Import Ascii.

(** ** Decimal digits *)
Definition digit_char (d : Z) : ascii := char_of (48 + d).
Definition digit_val (c : ascii) : Z := code c - 48.

Fixpoint dec_go (fuel : nat) (n : Z) (acc : string) : string :=
  match fuel with
  | O => acc
  | S fuel' =>
      let acc' := String (digit_char (n mod 10)) acc in
      if n <? 10 then acc' else dec_go fuel' (n / 10) acc'
  end.
(** [n.toString()] for a non-negative BigInt; [log2 n + 1] digits are enough. *)
Definition dec (n : Z) : string := dec_go (S (Z.to_nat (Z.log2 n))) n "".

(** [BigInt(s)] on a string of digits ([BigInt("")] is 0). *)
Fixpoint digits_val_acc (acc : Z) (s : string) : Z :=
  match s with "" => acc | String c s' => digits_val_acc (10 * acc + digit_val c) s' end.
Definition digits_val : string -> Z := digits_val_acc 0.
Definition all_digits : string -> bool := sforall is_digit.

Fixpoint repeat_char (c : ascii) (n : nat) : string :=
  match n with O => "" | S n' => String c (repeat_char c n') end.
Definition pad_start (s : string) (n : nat) (c : ascii) : string :=
  repeat_char c (n - String.length s) +:+ s.
Definition pad_end (s : string) (n : nat) (c : ascii) : string :=
  s +:+ repeat_char c (n - String.length s).

(** ** Facts about decimal text *)
Lemma digit_char_is_digit d : 0 <= d < 10 -> is_digit (digit_char d) = true.
Proof.
  intros. unfold is_digit, in_range, digit_char. rewrite code_char_of by lia.
  apply andb_true_iff; split; apply Z.leb_le; lia.
Qed.
Lemma digit_val_char d : 0 <= d < 10 -> digit_val (digit_char d) = d.
Proof. intros. unfold digit_val, digit_char. rewrite code_char_of; lia. Qed.
Lemma digit_val_bound c : is_digit c = true -> 0 <= digit_val c < 10.
Proof. unfold is_digit, in_range, digit_val. intros; bool_to_prop; lia. Qed.
Lemma digit_char_val c : is_digit c = true -> digit_char (digit_val c) = c.
Proof.
  intros _. unfold digit_char, digit_val.
  replace (48 + (code c - 48)) with (code c) by lia. apply char_of_code.
Qed.

Lemma digits_val_acc_app a s t :
  digits_val_acc a (s +:+ t) = digits_val_acc (digits_val_acc a s) t.
Proof. revert a; induction s as [|c s IH]; intros a; [done|]. apply IH. Qed.
Lemma digits_val_acc_linear a s :
  digits_val_acc a s = a * 10 ^ Z.of_nat (String.length s) + digits_val s.
Proof.
  unfold digits_val. revert a; induction s as [|c s IH]; intros a; [cbn; lia|].
  cbn [digits_val_acc String.length]. rewrite IH, (IH (10 * 0 + digit_val c)).
  rewrite Nat2Z.inj_succ, Z.pow_succ_r by lia. nia.
Qed.
Lemma digits_val_app s t :
  digits_val (s +:+ t) = digits_val s * 10 ^ Z.of_nat (String.length t) + digits_val t.
Proof. unfold digits_val. rewrite digits_val_acc_app. apply digits_val_acc_linear. Qed.
Lemma digits_val_bound s :
  all_digits s = true -> 0 <= digits_val s < 10 ^ Z.of_nat (String.length s).
Proof.
  induction s as [|c s IH]; [cbn; lia|].
  unfold all_digits; cbn [sforall]. intros [Hc Hs]%andb_true_iff.
  apply digit_val_bound in Hc. specialize (IH Hs).
  unfold digits_val in *. cbn [digits_val_acc String.length]. rewrite digits_val_acc_linear.
  rewrite Nat2Z.inj_succ, Z.pow_succ_r by lia. unfold digits_val. nia.
Qed.

Lemma dec_go_app fuel n acc : dec_go fuel n acc = dec_go fuel n "" +:+ acc.
Proof.
  revert n acc; induction fuel as [|f IH]; intros n acc; [done|]. cbn.
  destruct (n <? 10); [done|]. rewrite IH, (IH _ (String _ "")).
  by rewrite string_app_assoc.
Qed.
Lemma dec_go_spec fuel n :
  0 <= n < 2 ^ Z.of_nat fuel -> (0 < fuel)%nat ->
  all_digits (dec_go fuel n "") = true /\ digits_val (dec_go fuel n "") = n /\
  n < 10 ^ Z.of_nat (String.length (dec_go fuel n "")) /\
  (0 < n -> 10 ^ (Z.of_nat (String.length (dec_go fuel n "")) - 1) <= n) /\
  (0 < String.length (dec_go fuel n ""))%nat.
Proof.
  revert n; induction fuel as [|f IH]; [lia|]. intros n Hn _. cbn [dec_go].
  destruct (Z.ltb_spec n 10) as [Hlt|Hge].
  - rewrite Z.mod_small by lia. unfold all_digits, digits_val. cbn.
    rewrite digit_char_is_digit, digit_val_char by lia. repeat split; lia.
  - rewrite dec_go_app.
    assert (2 ^ Z.of_nat (S f) = 2 * 2 ^ Z.of_nat f) as Hp
      by (rewrite Nat2Z.inj_succ, Z.pow_succ_r; lia).
    pose proof (Z.div_mod n 10 ltac:(lia)) as Hdm.
    pose proof (Z.mod_pos_bound n 10 ltac:(lia)) as Hmb.
    assert (0 < n / 10) as Hpos by (apply Z.div_str_pos; lia).
    assert (n / 10 < 2 ^ Z.of_nat f) as Hq by (apply Z.div_lt_upper_bound; lia).
    assert (0 < f)%nat as Hf by (destruct f; cbn in Hq; lia).
    destruct (IH (n / 10) ltac:(lia) Hf) as (Hd & Hv & Hb & Hlb & Hl).
    rewrite length_string_app. cbn [String.length]. split_and!.
    + unfold all_digits in *. rewrite sforall_app, Hd. cbn. by rewrite digit_char_is_digit by lia.
    + rewrite digits_val_app, Hv. cbn. unfold digits_val; cbn. rewrite digit_val_char by lia. lia.
    + rewrite Nat2Z.inj_add, Z.pow_add_r by lia. change (10 ^ Z.of_nat 1) with 10. lia.
    + intros _. specialize (Hlb ltac:(lia)). rewrite Nat2Z.inj_add.
      replace (Z.of_nat (String.length (dec_go f (n / 10) "")) + Z.of_nat 1 - 1)
        with (Z.succ (Z.of_nat (String.length (dec_go f (n / 10) "")) - 1)) by lia.
      rewrite Z.pow_succ_r by lia. lia.
    + lia.
Qed.
Lemma dec_fuel n : 0 <= n -> 0 <= n < 2 ^ Z.of_nat (S (Z.to_nat (Z.log2 n))).
Proof.
  intros Hn. split; [done|]. rewrite Nat2Z.inj_succ, Z2Nat.id by apply Z.log2_nonneg.
  destruct (Z.eq_dec n 0) as [->|]; [cbn; lia|]. apply Z.log2_spec. lia.
Qed.
Lemma dec_digits n : 0 <= n -> all_digits (dec n) = true.
Proof. intros Hn. apply dec_go_spec; [by apply dec_fuel | lia]. Qed.
(** Whatever the number, only digits are written. *)
Lemma dec_all_digits n : all_digits (dec n) = true.
Proof.
  unfold dec. generalize (S (Z.to_nat (Z.log2 n))). intros fuel. assert (all_digits "" = true) as Hacc by done.
  revert n Hacc. generalize "". induction fuel as [|f IH]; intros acc n Hacc; [done|]. cbn [dec_go].
  assert (all_digits (String (digit_char (n mod 10)) acc) = true) as Hd.
  { cbn [all_digits sforall]. rewrite digit_char_is_digit by (apply Z.mod_pos_bound; lia). exact Hacc. }
  destruct (n <? 10); [exact Hd|by apply IH].
Qed.
Lemma digits_val_dec n : 0 <= n -> digits_val (dec n) = n.
Proof. intros Hn. apply dec_go_spec; [by apply dec_fuel | lia]. Qed.
Lemma dec_length_pos n : 0 <= n -> (0 < String.length (dec n))%nat.
Proof. intros Hn. apply dec_go_spec; [by apply dec_fuel | lia]. Qed.
(** [dec] writes no more digits than needed. *)
Lemma dec_length_le n k : 0 <= n < 10 ^ Z.of_nat k -> (0 < k)%nat -> (String.length (dec n) <= k)%nat.
Proof.
  intros [Hn Hlt] Hk. destruct (Z.eq_dec n 0) as [->|Hne]; [cbn; lia|].
  destruct (dec_go_spec _ n (dec_fuel n Hn) ltac:(lia)) as (_ & _ & _ & Hlb & Hl).
  fold (dec n) in *. specialize (Hlb ltac:(lia)).
  assert (Z.of_nat (String.length (dec n)) - 1 < Z.of_nat k); [|lia].
  apply (Z.pow_lt_mono_r_iff 10); lia.
Qed.

Lemma repeat_char_length c n : String.length (repeat_char c n) = n.
Proof. induction n; cbn; congruence. Qed.
Lemma repeat_char_digits n : all_digits (repeat_char "0" n) = true.
Proof. induction n; [done|]. by cbn. Qed.
Lemma digits_val_zeros n : digits_val (repeat_char "0" n) = 0.
Proof. unfold digits_val. induction n; [done|]. by cbn. Qed.
#[export] Hint Rewrite repeat_char_length repeat_char_digits digits_val_zeros : ledger.

Lemma pad_start_length s n c : (String.length s <= n)%nat -> String.length (pad_start s n c) = n.
Proof. intros. unfold pad_start. rewrite length_string_app, repeat_char_length. lia. Qed.
Lemma pad_start_digits s n : all_digits s = true -> all_digits (pad_start s n "0") = true.
Proof. intros H. unfold pad_start, all_digits in *. by rewrite sforall_app, H, repeat_char_digits. Qed.
Lemma digits_val_pad_start s n : digits_val (pad_start s n "0") = digits_val s.
Proof. unfold pad_start. rewrite digits_val_app, digits_val_zeros. lia. Qed.
Lemma pad_end_length s n c : (String.length s <= n)%nat -> String.length (pad_end s n c) = n.
Proof. intros. unfold pad_end. rewrite length_string_app, repeat_char_length. lia. Qed.
Lemma pad_end_digits s n : all_digits s = true -> all_digits (pad_end s n "0") = true.
Proof. intros H. unfold pad_end, all_digits in *. by rewrite sforall_app, H, repeat_char_digits. Qed.
Lemma digits_val_pad_end s n :
  digits_val (pad_end s n "0") = digits_val s * 10 ^ Z.of_nat (n - String.length s).
Proof. unfold pad_end. rewrite digits_val_app, digits_val_zeros, repeat_char_length. lia. Qed.

(** Text of equal length compares like the numbers it denotes. *)
Lemma digits_val_inj s t :
  all_digits s = true -> all_digits t = true -> String.length s = String.length t ->
  digits_val s = digits_val t -> s = t.
Proof.
  revert t; induction s as [|c s IH]; intros [|d t]; cbn; try done.
  unfold all_digits. cbn. intros [Hc Hs]%andb_true_iff [Hd Ht]%andb_true_iff [= Hl] Hv.
  unfold digits_val in Hv. cbn [digits_val_acc] in Hv.
  rewrite !digits_val_acc_linear, Hl in Hv.
  pose proof (digits_val_bound s Hs) as Bs. pose proof (digits_val_bound t Ht) as Bt.
  rewrite Hl in Bs. set (p := 10 ^ Z.of_nat (String.length t)) in *.
  assert (digit_val c = digit_val d) as E by nia.
  rewrite <- (digit_char_val c Hc), <- (digit_char_val d Hd), E. f_equal.
  apply IH; try done. nia.
Qed.

(** ** Numbers

    [NDec m k] is [m * 10^-k] with [k > 0] and [m] not a multiple of ten. *)
Inductive number := NInt (z : Z) | NDec (m : Z) (k : positive).

#[global] Instance number_eq_dec : EqDecision number.
Proof. solve_decision. Defined.

(** Nearest double of an integer, ties to even. *)
Definition fround (z : Z) : Z :=
  if Z.abs z <=? 2 ^ 53 then z
  else
    let u := 2 ^ (Z.log2 (Z.abs z) - 52) in
    let q := Z.abs z / u in
    let r := Z.abs z mod u in
    let q' := if 2 * r <? u then q else if u <? 2 * r then q + 1
              else if Z.even q then q else q + 1 in
    Z.sgn z * (q' * u).

Fixpoint strip_zeros (m : Z) (k : nat) : number :=
  match k with
  | O => NInt (fround m)
  | S k' => if m mod 10 =? 0 then strip_zeros (m / 10) k' else NDec m (Pos.of_nat k)
  end.
(** The number [m * 10^e]. *)
Definition mk_number (m e : Z) : number :=
  if 0 <=? e then NInt (fround (m * 10 ^ e)) else strip_zeros m (Z.to_nat (- e)).

Definition num_scale (n : number) : Z := match n with NInt _ => 0 | NDec _ k => Zpos k end.
Definition num_mant (n : number) : Z := match n with NInt z => z | NDec m _ => m end.
(** The mantissa of [n] over the common scale [k]. *)
Definition num_at (k : Z) (n : number) : Z := num_mant n * 10 ^ (k - num_scale n).
Definition num_op (f : Z -> Z -> Z) (a b : number) : number :=
  let k := Z.max (num_scale a) (num_scale b) in mk_number (f (num_at k a) (num_at k b)) (- k).
Definition num_add : number -> number -> number := num_op Z.add.
Definition num_sub : number -> number -> number := num_op Z.sub.
(** [Math.max(0, n)] *)
Definition num_max0 (n : number) : number := if num_mant n <? 0 then NInt 0 else n.
Definition num_is_zero (n : number) : bool := num_mant n =? 0.
(** [Number.isInteger(n) && n >= 0] read as the integer it denotes. *)
Definition num_nonneg_int (n : number) : option Z :=
  match n with NInt z => if 0 <=? z then Some z else None | NDec _ _ => None end.

(** [n.toFixed(8)] (below 1e21, where JavaScript switches to exponents). *)
Definition insert_point (digits : string) (places : nat) : string :=
  slice_drop_last places digits +:+ "." +:+ slice_last places digits.
Definition fixed8_units (n : number) : Z :=
  let m := Z.abs (num_mant n) in
  if num_scale n <=? 8 then m * 10 ^ (8 - num_scale n)
  else (m + 5 * 10 ^ (num_scale n - 9)) / 10 ^ (num_scale n - 8).
Definition to_fixed8 (n : number) : string :=
  (if num_mant n <? 0 then "-" else "") +:+
  insert_point (pad_start (dec (fixed8_units n)) 9 "0") 8.

(** [Number::toString]: [ds] the significant digits, [n] the position of the
    point counted from their left end. *)
Fixpoint strip_int (fuel : nat) (m e : Z) : Z * Z :=
  match fuel with
  | O => (m, e)
  | S f => if (m mod 10 =? 0) && negb (m =? 0) then strip_int f (m / 10) (e + 1) else (m, e)
  end.
Definition format_number (ds : string) (n : Z) : string :=
  let k := Z.of_nat (String.length ds) in
  if (k <=? n) && (n <=? 21) then ds +:+ repeat_char "0" (Z.to_nat (n - k))
  else if (0 <? n) && (n <=? 21) then slice_to (Z.to_nat n) ds +:+ "." +:+ slice_from (Z.to_nat n) ds
  else if (-6 <? n) && (n <=? 0) then "0." +:+ repeat_char "0" (Z.to_nat (- n)) +:+ ds
  else slice_to 1 ds +:+ (if k =? 1 then "" else "." +:+ slice_from 1 ds)
       +:+ "e" +:+ (if n - 1 <? 0 then "-" else "+") +:+ dec (Z.abs (n - 1)).
Definition number_to_string (n : number) : string :=
  let '(m, e) := match n with
                 | NInt z => strip_int (S (Z.to_nat (Z.log2 (Z.abs z)))) (Z.abs z) 0
                 | NDec m k => (Z.abs m, Zneg k)
                 end in
  let ds := dec m in
  (if num_mant n <? 0 then "-" else "") +:+ format_number ds (Z.of_nat (String.length ds) + e).

Example number_text :
  map number_to_string [NInt 0; NInt 100; NInt (-7); NInt (10 ^ 21); NDec 27 2; NDec 5 3; NDec (-15) 1; NDec 12 8]
  = ["0"; "100"; "-7"; "1e+21"; "0.27"; "0.005"; "-1.5"; "1.2e-7"].
Proof. vm_compute. reflexivity. Qed.
Example fixed8_text :
  map to_fixed8 [NInt 0; NInt 3; NDec 105 4; NDec 123456789 10; NDec (-1) 9; NDec 5 9]
  = ["0.00000000"; "3.00000000"; "0.01050000"; "0.01234568"; "-0.00000000"; "0.00000001"].
Proof. vm_compute. reflexivity. Qed.

(** Integers up to 2^53 are doubles; arithmetic on them is exact. *)
Lemma fround_exact z : Z.abs z <= 2 ^ 53 -> fround z = z.
Proof. intros H. unfold fround. by rewrite (proj2 (Z.leb_le _ _) H). Qed.
Lemma num_op_int f a b : num_op f (NInt a) (NInt b) = NInt (fround (f a b)).
Proof. unfold num_op, num_at, mk_number; cbn. by rewrite !Z.mul_1_r. Qed.
Lemma num_add_int a b : num_add (NInt a) (NInt b) = NInt (fround (a + b)).
Proof. apply num_op_int. Qed.
Lemma num_sub_int a b : num_sub (NInt a) (NInt b) = NInt (fround (a - b)).
Proof. apply num_op_int. Qed.
Lemma num_max0_int z : num_max0 (NInt z) = NInt (Z.max 0 z).
Proof. unfold num_max0; cbn. destruct (Z.ltb_spec z 0); f_equal; lia. Qed.
#[export] Hint Rewrite num_add_int num_sub_int num_max0_int : ledger.

(** [/^(\d+)(?:\.(\d+))?$/]: the groups of a match. *)
Definition match_decimal (s : string) : option (string * option string) :=
  let w := take_while is_digit s in
  if String.eqb w "" then None
  else match drop_while is_digit s with
       | "" => Some (w, None)
       | String "." r => if negb (String.eqb r "") && all_digits r then Some (w, Some r) else None
       | _ => None
       end.
Definition dec_signed (z : Z) : string := if z <? 0 then "-" +:+ dec (- z) else dec z.

Lemma take_drop_while f s : take_while f s +:+ drop_while f s = s.
Proof. induction s as [|c s IH]; cbn; [done|]. destruct (f c); cbn; congruence. Qed.
Lemma take_while_all f s : sforall f (take_while f s) = true.
Proof. induction s as [|c s IH]; cbn; [done|]. destruct (f c) eqn:E; cbn; by rewrite ?E. Qed.
Lemma take_while_app f a b :
  sforall f a = true -> match b with String c _ => f c = false | "" => True end ->
  take_while f (a +:+ b) = a /\ drop_while f (a +:+ b) = b.
Proof.
  intros Ha Hb. induction a as [|c a IH]; cbn in *.
  - destruct b as [|c b]; cbn; [done|]. by rewrite Hb.
  - apply andb_true_iff in Ha as [Hc Ha]. rewrite Hc. destruct (IH Ha) as [-> ->]. done.
Qed.

Lemma match_decimal_spec s w f :
  match_decimal s = Some (w, f) <->
  w <> "" /\ all_digits w = true /\
  match f with
  | None => s = w
  | Some g => g <> "" /\ all_digits g = true /\ s = w +:+ "." +:+ g
  end.
Proof.
  unfold match_decimal. split.
  - pose proof (take_drop_while is_digit s) as Hs. pose proof (take_while_all is_digit s) as Hd.
    destruct (String.eqb_spec (take_while is_digit s) "") as [|Hne]; [done|].
    destruct (drop_while is_digit s) as [|c r] eqn:E.
    + intros [= <- <-]. rewrite string_app_nil_r in Hs. auto.
    + destruct (Ascii.eqb_spec c ".") as [->|Hc].
      * destruct (String.eqb_spec r "") as [|Hr0]; cbn; [done|].
        destruct (all_digits r) eqn:Hr; [|done]. intros [= <- <-]. split_and!; done.
      * destruct c as [[] [] [] [] [] [] [] []]; done.
  - intros (Hne & Hw & Hf). destruct f as [g|].
    + destruct Hf as (Hg & Hgd & ->).
      destruct (take_while_app is_digit w ("." +:+ g) Hw eq_refl) as [-> ->].
      destruct (String.eqb_spec w ""); [done|]. cbn.
      destruct (String.eqb_spec g ""); [done|]. cbn. by rewrite Hgd.
    + subst s. destruct (take_while_app is_digit w "" Hw I) as [H1 H2].
      rewrite string_app_nil_r in H1, H2. rewrite H1, H2.
      by destruct (String.eqb_spec w "").
Qed.
