(* ===== verification/JsDate.v ===== *)
(** * Dates

    A [Date] is its time value: milliseconds since 1970-01-01T00:00:00Z.
    [toISOString] and the parsing of ISO texts follow the proleptic Gregorian
    calendar (eras of 400 years, years that start in March), for the years 0 to
    9999 that are written with four digits. *)

From S2P Require Import Prelude JsString JsNum.
From Stdlib Require Import Ascii.

Definition MS_HOUR : Z := 3600000.
Definition MS_DAY : Z := 86400000.

(** ** The calendar *)
(** Year of era, month and day of a day of the era: 4 centuries, 25 four-year
    cycles in each, 4 years in each (the last century and the last year of a
    cycle have one day more). *)
Definition era_date (doe : Z) : Z * Z * Z :=
  let c := Z.min (doe / 36524) 3 in
  let r := doe - c * 36524 in
  let y := Z.min (r mod 1461 / 365) 3 in
  let doy := r mod 1461 - y * 365 in
  let mp := (5 * doy + 2) / 153 in
  (c * 100 + r / 1461 * 4 + y, if mp <? 10 then mp + 3 else mp - 9, doy - (153 * mp + 2) / 5 + 1).
Definition era_day (yoe m d : Z) : Z :=
  let mp := if m <? 3 then m + 9 else m - 3 in
  yoe * 365 + yoe / 4 - yoe / 100 + (153 * mp + 2) / 5 + d - 1.
Definition civil_from_days (z : Z) : Z * Z * Z :=
  let z := z + 719468 in
  let '(yoe, m, d) := era_date (z mod 146097) in
  (yoe + z / 146097 * 400 + (if m <? 3 then 1 else 0), m, d).
Definition days_from_civil (y m d : Z) : Z :=
  let y := y - (if m <? 3 then 1 else 0) in
  y / 400 * 146097 + era_day (y mod 400) m d - 719468.

Fixpoint zforall (f : Z -> bool) (n : nat) (z : Z) : bool :=
  match n with O => true | S n' => f z && zforall f n' (z + 1) end.
Lemma zforall_spec f n z : zforall f n z = true -> forall x, z <= x < z + Z.of_nat n -> f x = true.
Proof.
  revert z; induction n as [|n IH]; intros z; cbn [zforall]; [lia|].
  intros [Hz H]%andb_true_iff x Hx. destruct (Z.eq_dec x z) as [->|]; [done|].
  apply (IH (z + 1)); [done|lia].
Qed.
Definition month_ok (doy : Z) : bool :=
  let mp := (5 * doy + 2) / 153 in
  let m := if mp <? 10 then mp + 3 else mp - 9 in
  let d := doy - (153 * mp + 2) / 5 + 1 in
  (mp =? if m <? 3 then m + 9 else m - 3) && (1 <=? m) && (m <=? 12) && (1 <=? d) && (d <=? 31).
(** Every day of the year, checked one by one. *)
Lemma months_checked : zforall month_ok 366 0 = true.
Proof. vm_compute. reflexivity. Qed.

Lemma era_spec doe : 0 <= doe < 146097 ->
  let '(yoe, m, d) := era_date doe in
  era_day yoe m d = doe /\ 0 <= yoe < 400 /\ 1 <= m <= 12 /\ 1 <= d <= 31.
Proof.
  intros Hd. unfold era_date, era_day. cbv zeta.
  set (c := Z.min (doe / 36524) 3). set (r := doe - c * 36524).
  assert (0 <= c <= 3 /\ 0 <= r <= 36524) as [Hc Hr]
    by (subst c r; pose proof (Z.div_mod doe 36524 ltac:(lia));
        pose proof (Z.mod_pos_bound doe 36524 ltac:(lia)); lia).
  pose proof (Z.div_mod r 1461 ltac:(lia)) as Hq. pose proof (Z.mod_pos_bound r 1461 ltac:(lia)).
  set (q := r / 1461) in *. set (s := r mod 1461) in *. set (y := Z.min (s / 365) 3).
  assert (0 <= y <= 3 /\ 0 <= s - y * 365 <= 365) as [Hy Hs]
    by (subst y; pose proof (Z.div_mod s 365 ltac:(lia));
        pose proof (Z.mod_pos_bound s 365 ltac:(lia)); lia).
  assert (0 <= q <= 24) by lia.
  pose proof (zforall_spec _ _ _ months_checked (s - y * 365) ltac:(lia)) as Hm.
  unfold month_ok in Hm. bool_to_prop.
  assert ((c * 100 + q * 4 + y) / 4 = 25 * c + q) as ->
    by (symmetry; apply Z.div_unique with y; lia).
  assert ((c * 100 + q * 4 + y) / 100 = c) as ->
    by (symmetry; apply Z.div_unique with (q * 4 + y); lia).
  match goal with H : _ = (if _ <? 3 then _ else _) |- _ => rewrite <- H end.
  split_and!; lia.
Qed.

Lemma civil_spec z :
  let '(y, m, d) := civil_from_days z in
  days_from_civil y m d = z /\ 1 <= m <= 12 /\ 1 <= d <= 31 /\
  (z + 719468) / 146097 * 400 <= y <= (z + 719468) / 146097 * 400 + 400.
Proof.
  unfold civil_from_days, days_from_civil.
  set (q := (z + 719468) / 146097). pose proof (Z.div_mod (z + 719468) 146097 ltac:(lia)) as Hd.
  pose proof (Z.mod_pos_bound (z + 719468) 146097 ltac:(lia)) as Hb.
  set (r := (z + 719468) mod 146097) in *. fold q in Hd.
  pose proof (era_spec r Hb) as H.
  destruct (era_date r) as [[yoe m] d]. destruct H as (He & Hyo & Hm & Hdd).
  replace (yoe + q * 400 + (if m <? 3 then 1 else 0) - (if m <? 3 then 1 else 0))
    with (yoe + q * 400) by lia.
  rewrite Z.div_add, Z.mod_add, (Z.div_small yoe), (Z.mod_small yoe) by lia.
  split_and!; try lia; destruct (m <? 3); lia.
Qed.

(** ** ISO text *)
Definition toISOString (t : Z) : string :=
  let '(y, m, d) := civil_from_days (t / MS_DAY) in
  let ms := t mod MS_DAY in
  pad_start (dec y) 4 "0" +:+ "-" +:+ pad_start (dec m) 2 "0" +:+ "-" +:+ pad_start (dec d) 2 "0"
  +:+ "T" +:+ pad_start (dec (ms / MS_HOUR)) 2 "0" +:+ ":" +:+ pad_start (dec (ms / 60000 mod 60)) 2 "0"
  +:+ ":" +:+ pad_start (dec (ms / 1000 mod 60)) 2 "0" +:+ "." +:+ pad_start (dec (ms mod 1000)) 3 "0"
  +:+ "Z".

Definition take_digits (n : nat) (s : string) : option (Z * string) :=
  let h := slice_to n s in
  if (String.length h =? n)%nat && all_digits h then Some (digits_val h, slice_from n s) else None.
Definition expect (c : ascii) (s : string) : option string :=
  match s with String a r => if Ascii.eqb a c then Some r else None | "" => None end.
(** The fraction of a second, to the millisecond. *)
Definition take_fraction (s : string) : option (Z * string) :=
  let d := take_while is_digit s in
  if String.eqb d "" then None else Some (digits_val (slice_to 3 (pad_end d 3 "0")), drop_while is_digit s).
(** [Z], or an offset from UTC in milliseconds. *)
Definition take_zone (s : string) : option Z :=
  if String.eqb s "Z" then Some 0
  else
    sign ← match s with String "+" _ => Some 1 | String "-" _ => Some (-1) | _ => None end;
    '(hh, s) ← take_digits 2 (slice_from 1 s); s ← expect ":" s; '(mi, s) ← take_digits 2 s;
    if String.eqb s "" && (hh <? 24) && (mi <? 60) then Some (sign * (hh * MS_HOUR + mi * 60000)) else None.
(** Seconds are optional, and so is their fraction. *)
Definition take_seconds (s : string) : option (Z * string) :=
  match expect ":" s with
  | None => Some (0, s)
  | Some s =>
      '(ss, s) ← take_digits 2 s;
      if ss <? 60 then
        match expect "." s with
        | None => Some (ss * 1000, s)
        | Some s => '(ml, s) ← take_fraction s; Some (ss * 1000 + ml, s)
        end
      else None
  end.
(** [new Date(s).getTime()] on ISO texts: a day (midnight UTC), or a day and a
    time with its zone.  [None] is an invalid date; texts in other forms, which
    engines read as they please or as local time, are taken for invalid. *)
Definition date_parse (s : string) : option Z :=
  '(y, s) ← take_digits 4 s; s ← expect "-" s;
  '(m, s) ← take_digits 2 s; s ← expect "-" s;
  '(d, s) ← take_digits 2 s;
  if (1 <=? m) && (m <=? 12) && (1 <=? d) && (d <=? 31) then
    let day := days_from_civil y m d * MS_DAY in
    if String.eqb s "" then Some day
    else
      s ← expect "T" s;
      '(hh, s) ← take_digits 2 s; s ← expect ":" s;
      '(mi, s) ← take_digits 2 s;
      '(ms, s) ← take_seconds s;
      zone ← take_zone s;
      if (hh <? 24) && (mi <? 60) || (hh =? 24) && (mi =? 0) && (ms =? 0)
      then Some (day + hh * MS_HOUR + mi * 60000 + ms - zone)
      else None
  else None.

Example iso_example : toISOString 1800000000123 = "2027-01-15T08:00:00.123Z".
Proof. vm_compute. reflexivity. Qed.
Example iso_forms :
  map date_parse ["2027-01-15T08:00:00.123Z"; "2027-01-15T08:00:00Z"; "2027-01-15T08:00Z"; "2027-01-15";
                  "2027-01-15T10:00:00.1234+02:00"; "2027-13-15"; "2027-01-15T08:00"; "15/01/2027"]
  = [Some 1800000000123; Some 1800000000000; Some 1800000000000; Some 1799971200000; Some 1800000000123; None; None; None].
Proof. vm_compute. reflexivity. Qed.

Section iso.

Lemma take_digits_padded n v r :
  0 <= v < 10 ^ Z.of_nat n -> (0 < n)%nat ->
  take_digits n (pad_start (dec v) n "0" +:+ r) = Some (v, r).
Proof.
  intros Hv Hn. unfold take_digits.
  assert (String.length (pad_start (dec v) n "0") = n) as Hl
    by (apply pad_start_length, dec_length_le; lia).
  assert (slice_to n (pad_start (dec v) n "0" +:+ r) = pad_start (dec v) n "0") as ->
    by (rewrite <- Hl at 1; apply slice_to_app).
  assert (slice_from n (pad_start (dec v) n "0" +:+ r) = r) as ->
    by (rewrite <- Hl at 1; apply slice_from_app).
  rewrite Hl, Nat.eqb_refl, pad_start_digits by (apply dec_digits; lia). cbn [andb].
  by rewrite digits_val_pad_start, digits_val_dec by lia.
Qed.

Lemma take_fraction_padded v :
  0 <= v < 1000 -> take_fraction (pad_start (dec v) 3 "0" +:+ "Z") = Some (v, "Z").
Proof.
  intros Hv. unfold take_fraction.
  assert (String.length (pad_start (dec v) 3 "0") = 3%nat) as Hl by (apply pad_start_length, dec_length_le; lia).
  destruct (take_while_app is_digit (pad_start (dec v) 3 "0") "Z") as [-> ->]; [apply pad_start_digits, dec_digits; lia|done|].
  destruct (String.eqb_spec (pad_start (dec v) 3 "0") "") as [E|_]; [by rewrite E in Hl|].
  assert (pad_end (pad_start (dec v) 3 "0") 3 "0" = pad_start (dec v) 3 "0") as ->.
  { unfold pad_end. rewrite Hl. apply string_app_nil_r. }
  rewrite <- (string_app_nil_r (pad_start (dec v) 3 "0")), <- Hl at 1. rewrite slice_to_app.
  by rewrite digits_val_pad_start, digits_val_dec by lia.
Qed.

(** Every instant from 1970 to the end of 9999 survives its ISO text. *)
Lemma date_roundtrip t : 0 <= t < 253402300800000 -> date_parse (toISOString t) = Some t.
Proof.
  intros Ht. unfold toISOString, date_parse.
  pose proof (civil_spec (t / MS_DAY)) as Hc.
  destruct (civil_from_days (t / MS_DAY)) as [[y m] d]. destruct Hc as (Hz & Hm & Hd & Hy).
  unfold MS_DAY, MS_HOUR in *.
  pose proof (Z.div_mod t 86400000 ltac:(lia)). pose proof (Z.mod_pos_bound t 86400000 ltac:(lia)).
  set (ms := t mod 86400000) in *.
  assert (0 <= t / 86400000 < 2932897) as Hday
    by (split; [apply Z.div_pos; lia | apply Z.div_lt_upper_bound; lia]).
  assert (0 <= y < 10 ^ Z.of_nat 4) as Hyb.
  { assert (0 <= (t / 86400000 + 719468) / 146097 < 25) as Hq
      by (split; [apply Z.div_pos; lia | apply Z.div_lt_upper_bound; lia]).
    change (10 ^ Z.of_nat 4) with 10000. split; [lia|].
    destruct (Z.lt_ge_cases y 10000) as [|Hge]; [done|]. exfalso.
    assert (y = 10000) as -> by lia.
    unfold days_from_civil, era_day in Hz. set (w := t / 86400000) in *. clearbody w.
    destruct (Z.ltb_spec m 3).
    - change ((10000 - 1) / 400) with 24 in Hz. change ((10000 - 1) mod 400) with 399 in Hz.
      change (399 / 4) with 99 in Hz. change (399 / 100) with 3 in Hz.
      assert (m = 1 \/ m = 2) as [-> | ->] by lia;
        [change ((153 * (1 + 9) + 2) / 5) with 306 in Hz | change ((153 * (2 + 9) + 2) / 5) with 337 in Hz]; lia.
    - change ((10000 - 0) / 400) with 25 in Hz. change ((10000 - 0) mod 400) with 0 in Hz.
      assert (0 <= (153 * (m - 3) + 2) / 5) by (apply Z.div_pos; lia).
      change (0 / 4) with 0 in Hz. change (0 / 100) with 0 in Hz. lia. }
  assert (0 <= ms / 3600000 < 24) by (split; [apply Z.div_pos; lia | apply Z.div_lt_upper_bound; lia]).
  pose proof (Z.mod_pos_bound (ms / 60000) 60 ltac:(lia)).
  pose proof (Z.mod_pos_bound (ms / 1000) 60 ltac:(lia)).
  pose proof (Z.mod_pos_bound ms 1000 ltac:(lia)).
  repeat (rewrite ?string_app_assoc; rewrite take_digits_padded by (cbn; lia); cbn [mbind option_bind];
          rewrite ?string_app_cons, ?string_app_nil_l; cbn [expect Ascii.eqb Bool.eqb mbind option_bind];
          rewrite ?(proj2 (Z.leb_le _ _)) by lia; cbn [andb String.eqb]; unfold take_seconds).
  rewrite !(proj2 (Z.ltb_lt (_ mod 60) 60)) by lia. rewrite ?string_app_assoc. rewrite take_fraction_padded by lia.
  cbn [mbind option_bind].
  change (take_zone "Z") with (Some 0). cbn [mbind option_bind].
  rewrite !(proj2 (Z.ltb_lt _ _)) by lia. cbn [andb orb]. f_equal. rewrite Hz.
  assert (ms / 1000 / 60 = ms / 60000) as E1 by (rewrite Z.div_div by lia; done).
  assert (ms / 60000 / 60 = ms / 3600000) as E2 by (rewrite Z.div_div by lia; done).
  pose proof (Z.div_mod ms 1000 ltac:(lia)). pose proof (Z.div_mod (ms / 1000) 60 ltac:(lia)).
  pose proof (Z.div_mod (ms / 60000) 60 ltac:(lia)). lia.
Qed.

End iso.
