(* ===== verification/Json.v ===== *)
(** * JSON values, [JSON.parse] and [JSON.stringify]

    Values as the program receives them from [JSON.parse]; [option json] is a
    JavaScript value that may be [undefined].  The parser follows RFC 8259 with
    fuel bounded by the input length; an object keeps the first position and
    the last value of a repeated key, as the language does. *)

From S2P Require Import Prelude JsString JsNum.
From Stdlib Require Import Ascii.

Inductive json :=
| JNull
| JBool (b : bool)
| JNum (n : number)
| JStr (s : string)
| JArr (l : list json)
| JObj (o : list (string * json)).

Notation fields := (list (string * json)).

(** ** Objects *)
Fixpoint obj_get (o : fields) (k : string) : option json :=
  match o with
  | [] => None
  | (k', v) :: o' => if String.eqb k' k then Some v else obj_get o' k
  end.
(** [o[k] = v]: in place when the key is there, else at the end. *)
Fixpoint obj_set (o : fields) (k : string) (v : json) : fields :=
  match o with
  | [] => [(k, v)]
  | (k', v') :: o' => if String.eqb k' k then (k', v) :: o' else (k', v') :: obj_set o' k v
  end.
(** [{ ...a, ...b }] *)
Definition obj_spread (a b : fields) : fields :=
  fold_left (fun acc kv => obj_set acc kv.1 kv.2) b a.

Lemma obj_get_set o k v k' :
  obj_get (obj_set o k v) k' = if String.eqb k k' then Some v else obj_get o k'.
Proof.
  induction o as [|[k0 v0] o IH]; cbn; [done|].
  destruct (String.eqb_spec k0 k) as [->|Hne]; cbn.
  - by destruct (String.eqb_spec k k').
  - rewrite IH. destruct (String.eqb_spec k0 k') as [->|]; [|done].
    destruct (String.eqb_spec k k'); congruence.
Qed.
#[export] Hint Rewrite obj_get_set : ledger.

(** [v.k] on an object; [undefined] on every other non-null value. *)
Definition field (v : json) (k : string) : option json :=
  match v with JObj o => obj_get o k | _ => None end.
(** [v.k] throws on null. *)
Definition get_field (v : json) (k : string) : js (option json) :=
  match v with JNull => Throw "TypeError" | _ => Ok (field v k) end.
(** [v?.k] *)
Definition opt_field (v : option json) (k : string) : option json := v ≫= fun v => field v k.
(** [v ?? undefined]: null counts as missing. *)
Definition non_null (v : option json) : option json :=
  match v with Some JNull => None | _ => v end.

(** A field read at its declared TypeScript type; null and absent read as
    [None]. *)
Definition num_field (v : option json) (k : string) : option number :=
  match opt_field v k with Some (JNum n) => Some n | _ => None end.
Definition str_field (v : option json) (k : string) : option string :=
  match opt_field v k with Some (JStr s) => Some s | _ => None end.

Definition truthy (v : option json) : bool :=
  match v with
  | None | Some JNull => false
  | Some (JBool b) => b
  | Some (JNum n) => negb (num_is_zero n)
  | Some (JStr s) => negb (String.eqb s "")
  | Some (JArr _) | Some (JObj _) => true
  end.
(** [typeof v === "object" && v !== null] *)
Definition is_object (v : option json) : bool :=
  match v with Some (JArr _) | Some (JObj _) => true | _ => false end.
Definition is_true (v : option json) : bool :=
  match v with Some (JBool true) => true | _ => false end.
Definition is_str (v : option json) (s : string) : bool :=
  match v with Some (JStr t) => String.eqb t s | _ => false end.
(** An array of strings; its other elements are left out. *)
Definition texts_of (v : option json) : list string :=
  match v with Some (JArr l) => omap (fun x => match x with JStr s => Some s | _ => None end) l | _ => [] end.
Lemma texts_of_strings l : texts_of (Some (JArr (map JStr l))) = l.
Proof. cbn. induction l as [|s l IH]; [done|]. cbn. by rewrite IH. Qed.

(** [String(v)]; arrays print their elements joined by commas, null and
    undefined elements as nothing. *)
Fixpoint to_text (v : json) : string :=
  match v with
  | JNull => "null"
  | JBool b => if b then "true" else "false"
  | JNum n => number_to_string n
  | JStr s => s
  | JArr l => join "," (map (fun x => match x with JNull => "" | _ => to_text x end) l)
  | JObj _ => "[object Object]"
  end.

(** ** JSON.stringify *)
Definition hex_digit (d : Z) : ascii := if d <? 10 then char_of (48 + d) else char_of (87 + d).
Definition hex2 (z : Z) : string := String (hex_digit (z / 16)) (String (hex_digit (z mod 16)) "").
Definition escape_char (c : ascii) : string :=
  if Ascii.eqb c dquote then String "\" (String dquote "")
  else if Ascii.eqb c "\" then "\\"
  else if Ascii.eqb c "008" then "\b"
  else if Ascii.eqb c "012" then "\f"
  else if Ascii.eqb c newline then "\n"
  else if Ascii.eqb c "013" then "\r"
  else if Ascii.eqb c "009" then "\t"
  else if code c <? 32 then "\u00" +:+ hex2 (code c)
  else String c "".
Definition quote (s : string) : string :=
  String dquote (sconcat_map escape_char s +:+ String dquote "").
Fixpoint stringify (v : json) : string :=
  match v with
  | JNull => "null"
  | JBool b => if b then "true" else "false"
  | JNum n => number_to_string n
  | JStr s => quote s
  | JArr l => "[" +:+ join "," (map stringify l) +:+ "]"
  | JObj o => "{" +:+ join "," (map (fun kv => quote kv.1 +:+ ":" +:+ stringify kv.2) o) +:+ "}"
  end.

(** ** JSON.parse *)
Definition is_json_ws (c : ascii) : bool :=
  (code c =? 32) || (code c =? 9) || (code c =? 10) || (code c =? 13).
Definition skip_ws : string -> string := drop_while is_json_ws.

Definition hex_val (c : ascii) : Z :=
  if is_digit c then code c - 48
  else if in_range 97 102 c then code c - 87 else code c - 55.
(** The UTF-8 bytes of a code point below 0x10000. *)
Definition utf8_of (z : Z) : string :=
  if z <? 128 then String (char_of z) ""
  else if z <? 2048 then String (char_of (192 + z / 64)) (String (char_of (128 + z mod 64)) "")
  else String (char_of (224 + z / 4096))
         (String (char_of (128 + (z / 64) mod 64)) (String (char_of (128 + z mod 64)) "")).

(** The characters of a string literal after its opening quote. *)
Fixpoint parse_string (s : string) (acc : string) {struct s} : option (string * string) :=
  match s with
  | "" => None
  | String c s1 =>
      if Ascii.eqb c dquote then Some (acc, s1)
      else if Ascii.eqb c "\" then
        match s1 with
        | String e s2 =>
            if Ascii.eqb e dquote || Ascii.eqb e "\" || Ascii.eqb e "/"
            then parse_string s2 (acc +:+ String e "")
            else if Ascii.eqb e "b" then parse_string s2 (acc +:+ String "008" "")
            else if Ascii.eqb e "f" then parse_string s2 (acc +:+ String "012" "")
            else if Ascii.eqb e "n" then parse_string s2 (acc +:+ String "010" "")
            else if Ascii.eqb e "r" then parse_string s2 (acc +:+ String "013" "")
            else if Ascii.eqb e "t" then parse_string s2 (acc +:+ String "009" "")
            else if Ascii.eqb e "u" then
              match s2 with
              | String h1 (String h2 (String h3 (String h4 s3))) =>
                  if is_hex h1 && is_hex h2 && is_hex h3 && is_hex h4
                  then parse_string s3 (acc +:+ utf8_of
                         (((hex_val h1 * 16 + hex_val h2) * 16 + hex_val h3) * 16 + hex_val h4))
                  else None
              | _ => None
              end
            else None
        | "" => None
        end
      else if code c <? 32 then None
      else parse_string s1 (acc +:+ String c "")
  end.

(** [int frac? exp?] after an optional minus sign. *)
Definition parse_frac (s : string) : option (string * string) :=
  match s with
  | String "." r =>
      let f := take_while is_digit r in
      if String.eqb f "" then None else Some (f, drop_while is_digit r)
  | _ => Some ("", s)
  end.
Definition parse_exp (s : string) : option (Z * string) :=
  match s with
  | String c r =>
      if Ascii.eqb c "e" || Ascii.eqb c "E" then
        let '(sg, r1) := match r with
                         | String "+" r1 => (1, r1) | String "-" r1 => (-1, r1) | _ => (1, r)
                         end in
        let ds := take_while is_digit r1 in
        if String.eqb ds "" then None else Some (sg * digits_val ds, drop_while is_digit r1)
      else Some (0, s)
  | _ => Some (0, s)
  end.
Definition parse_number (s : string) : option (number * string) :=
  let '(sg, s1) := match s with String "-" r => (-1, r) | _ => (1, s) end in
  let ip := take_while is_digit s1 in
  let valid := match ip with "" => false | String "0" (String _ _) => false | _ => true end in
  if valid then
    '(fp, s2) ← parse_frac (drop_while is_digit s1);
    '(ex, s3) ← parse_exp s2;
    Some (mk_number (sg * digits_val (ip +:+ fp)) (ex - Z.of_nat (String.length fp)), s3)
  else None.

Definition literal (w : string) (v : json) (s : string) : option (json * string) :=
  if starts_with w s then Some (v, slice_from (String.length w) s) else None.

Fixpoint parse_value (fuel : nat) (s : string) : option (json * string) :=
  match fuel with
  | O => None
  | S f =>
      match skip_ws s with
      | String "{" r =>
          match skip_ws r with
          | String "}" r' => Some (JObj [], r')
          | _ => parse_members f r []
          end
      | String "[" r =>
          match skip_ws r with
          | String "]" r' => Some (JArr [], r')
          | _ => parse_elements f r
          end
      | String "t" _ => literal "true" (JBool true) (skip_ws s)
      | String "f" _ => literal "false" (JBool false) (skip_ws s)
      | String "n" _ => literal "null" JNull (skip_ws s)
      | String c r =>
          if Ascii.eqb c dquote then
            '(t, r') ← parse_string r ""; Some (JStr t, r')
          else '(n, r') ← parse_number (skip_ws s); Some (JNum n, r')
      | "" => None
      end
  end
with parse_members (fuel : nat) (s : string) (acc : fields) : option (json * string) :=
  match fuel with
  | O => None
  | S f =>
      match skip_ws s with
      | String c r =>
          if Ascii.eqb c dquote then
            '(k, r1) ← parse_string r "";
            match skip_ws r1 with
            | String ":" r2 =>
                '(v, r3) ← parse_value f r2;
                match skip_ws r3 with
                | String "," r4 => parse_members f r4 (obj_set acc k v)
                | String "}" r4 => Some (JObj (obj_set acc k v), r4)
                | _ => None
                end
            | _ => None
            end
          else None
      | "" => None
      end
  end
with parse_elements (fuel : nat) (s : string) : option (json * string) :=
  match fuel with
  | O => None
  | S f =>
      '(v, r1) ← parse_value f s;
      match skip_ws r1 with
      | String "," r2 =>
          '(l, r3) ← parse_elements f r2;
          match l with JArr vs => Some (JArr (v :: vs), r3) | _ => None end
      | String "]" r2 => Some (JArr [v], r2)
      | _ => None
      end
  end.

(** [JSON.parse(s)]: the whole text must be one value. *)
Definition json_parse (s : string) : js json :=
  match parse_value (2 * String.length s + 2) s with
  | Some (v, r) => if String.eqb (skip_ws r) "" then Ok v else Throw "SyntaxError"
  | None => Throw "SyntaxError"
  end.

(** JSON text written with single quotes, for examples. *)
Definition dq (s : string) : string := smap (fun c => if Ascii.eqb c "'" then dquote else c) s.

Example parse_ex :
  json_parse (dq "{'a': [1, 2.50, -3e2], 'b': 'x\n\u0041', 'a2': {'n': null}}")
  = Ok (JObj [("a", JArr [JNum (NInt 1); JNum (NDec 25 1); JNum (NInt (-300))]);
              ("b", JStr ("x" +:+ nl +:+ "A")); ("a2", JObj [("n", JNull)])]).
Proof. vm_compute. reflexivity. Qed.
Example stringify_ex :
  stringify (JObj [("a", JArr [JNum (NInt 1); JNull]); ("b", JStr ("x" +:+ nl))])
  = dq "{'a':[1,null],'b':'x\n'}".
Proof. vm_compute. reflexivity. Qed.
