(* ===== verification/JsonRoundtrip.v ===== *)
(** * [JSON.parse] reads back what [JSON.stringify] writes

    For every value whose numbers are integers a double holds exactly and whose
    objects have no repeated key: the values the program itself builds (usage
    events, translated bodies, stream chunks). *)

From S2P Require Import Prelude JsString JsNum Json.
From Stdlib Require Import Ascii.

(** ** Canonical decimal text *)
Section decimal.

Lemma dec_bounds n :
  0 < n -> 10 ^ (Z.of_nat (String.length (dec n)) - 1) <= n < 10 ^ Z.of_nat (String.length (dec n)).
Proof.
  intros Hn. destruct (dec_go_spec _ n (dec_fuel n ltac:(lia)) ltac:(lia)) as (_ & _ & Hu & Hl & _).
  fold (dec n) in *. split; [by apply Hl | done].
Qed.

Lemma dec_length_unique n k : 0 < n -> (0 < k)%nat -> 10 ^ (Z.of_nat k - 1) <= n < 10 ^ Z.of_nat k ->
  String.length (dec n) = k.
Proof.
  intros Hn Hk [Hl Hu]. pose proof (dec_bounds n Hn) as [Hl' Hu'].
  pose proof (dec_length_pos n ltac:(lia)).
  destruct (Nat.lt_trichotomy (String.length (dec n)) k) as [H1|[H1|H1]]; [|done|]; exfalso.
  - assert (10 ^ Z.of_nat (String.length (dec n)) <= 10 ^ (Z.of_nat k - 1)); [|lia].
    apply Z.pow_le_mono_r; lia.
  - assert (10 ^ Z.of_nat k <= 10 ^ (Z.of_nat (String.length (dec n)) - 1)); [|lia].
    apply Z.pow_le_mono_r; lia.
Qed.

Lemma dec_zeros n e : 0 < n -> dec (n * 10 ^ Z.of_nat e) = dec n +:+ repeat_char "0" e.
Proof.
  intros Hn. assert (0 < 10 ^ Z.of_nat e) by lia.
  pose proof (dec_bounds n Hn) as [Hl Hu]. pose proof (dec_length_pos n ltac:(lia)).
  apply digits_val_inj.
  - apply dec_digits. nia.
  - unfold all_digits. rewrite sforall_app. apply andb_true_iff.
    split; [apply dec_digits; lia | apply repeat_char_digits].
  - rewrite length_string_app, repeat_char_length. apply dec_length_unique; [nia|lia|].
    rewrite Nat2Z.inj_add. split.
    + replace (Z.of_nat (String.length (dec n)) + Z.of_nat e - 1)
        with (Z.of_nat (String.length (dec n)) - 1 + Z.of_nat e) by lia.
      rewrite Z.pow_add_r by lia. nia.
    + rewrite Z.pow_add_r by lia. nia.
  - rewrite digits_val_dec, digits_val_app, digits_val_dec, digits_val_zeros, repeat_char_length by nia.
    lia.
Qed.

Lemma strip_int_spec fuel m e m' e' :
  strip_int fuel m e = (m', e') ->
  exists j : nat, e' = e + Z.of_nat j /\ m = m' * 10 ^ Z.of_nat j /\ (m <> 0 -> m' <> 0).
Proof.
  revert m e; induction fuel as [|f IH]; intros m e; cbn [strip_int].
  { intros [= <- <-]. exists O. cbn. split_and!; try done; lia. }
  destruct (m mod 10 =? 0) eqn:E; cbn [andb]; [destruct (m =? 0) eqn:E0; cbn [negb]|];
    try (intros [= <- <-]; exists O; cbn; split_and!; try done; lia).
  intros H. apply IH in H as (j & -> & Hm & Hn). bool_to_prop.
  exists (S j). pose proof (Z.div_mod m 10 ltac:(lia)).
  rewrite Nat2Z.inj_succ, Z.pow_succ_r by lia. split_and!; [lia|nia|nia].
Qed.

Lemma number_to_string_int z : Z.abs z <= 2 ^ 53 -> number_to_string (NInt z) = dec_signed z.
Proof.
  intros Hz. destruct (Z.eq_dec z 0) as [->|Hz0]; [reflexivity|].
  unfold number_to_string, dec_signed. cbn [num_mant].
  destruct (strip_int _ (Z.abs z) 0) as [m e] eqn:E.
  apply strip_int_spec in E as (j & -> & Hm & Hn).
  assert (format_number (dec m) (Z.of_nat (String.length (dec m)) + (0 + Z.of_nat j)) = dec (Z.abs z)) as ->.
  2:{ destruct (Z.ltb_spec z 0); [rewrite Z.abs_neq by lia | rewrite Z.abs_eq by lia]; done. }
  assert (0 < m) by nia. rewrite Hm, dec_zeros by done.
  assert (Z.of_nat (String.length (dec m)) + Z.of_nat j <= 21) as Hlen.
  { assert (String.length (dec (Z.abs z)) <= 21)%nat as Hl by (apply dec_length_le; lia).
    rewrite Hm, dec_zeros, length_string_app, repeat_char_length in Hl by done. lia. }
  unfold format_number. rewrite (proj2 (Z.leb_le _ _)), (proj2 (Z.leb_le _ 21)) by lia. cbn [andb].
  do 2 f_equal. lia.
Qed.

Lemma dec_first n : 0 <= n -> exists c s, dec n = String c s /\ is_digit c = true /\
  (s = "" \/ c <> "0"%char).
Proof.
  intros Hn. pose proof (dec_length_pos n Hn). pose proof (dec_digits n Hn) as Hd.
  pose proof (digits_val_dec n Hn) as Hv.
  destruct (dec n) as [|c s] eqn:E; [cbn in *; lia|]. unfold all_digits in Hd; cbn in Hd.
  apply andb_true_iff in Hd as [Hc Hs]. exists c, s. split_and!; [done|done|].
  destruct s as [|d s]; [by left|]. right. intros ->.
  destruct (Z.eq_dec n 0) as [->|]; [discriminate E|].
  pose proof (dec_bounds n ltac:(lia)) as [Hl _]. rewrite E in Hl.
  change (digits_val (String "0" (String d s))) with (digits_val (String d s)) in Hv.
  pose proof (digits_val_bound (String d s) Hs). cbn [String.length] in *.
  replace (Z.of_nat (S (S (String.length s))) - 1) with (Z.of_nat (S (String.length s))) in Hl by lia.
  lia.
Qed.

End decimal.

(** What may follow a number inside a document. *)
Definition ends_number (r : string) : Prop :=
  match r with "" => True | String c _ => c = ","%char \/ c = "}"%char \/ c = "]"%char end.

Section parsing.

Lemma ends_number_class r : ends_number r ->
  match r with String c _ => is_digit c = false | "" => True end /\
  parse_frac r = Some ("", r) /\ parse_exp r = Some (0, r) /\ skip_ws r = r.
Proof. destruct r as [|c r]; [done|]. intros [->|[->| ->]]; done. Qed.

Lemma digit_cases c (P : ascii -> Prop) :
  (forall d, 0 <= d < 10 -> P (digit_char d)) -> is_digit c = true -> P c.
Proof. intros H Hc. rewrite <- (digit_char_val c Hc). apply H. by apply digit_val_bound. Qed.

Lemma parse_digits n r :
  0 <= n -> ends_number r ->
  exists c s, dec n = String c s /\ is_digit c = true /\
  match dec n with "" => false | String "0" (String _ _) => false | _ => true end = true /\
  take_while is_digit (dec n +:+ r) = dec n /\ drop_while is_digit (dec n +:+ r) = r.
Proof.
  intros Hn Hr. destruct (ends_number_class r Hr) as (Hd & _).
  destruct (take_while_app is_digit (dec n) r (dec_digits n Hn) Hd) as [H1 H2].
  destruct (dec_first n Hn) as (c & s & E & Hc & Hz). exists c, s. split_and!; try done.
  rewrite E. destruct s as [|d s]; [by destruct c as [[] [] [] [] [] [] [] []]|].
  destruct Hz as [[=]|Hz]. by destruct c as [[] [] [] [] [] [] [] []].
Qed.

Lemma parse_number_int z r :
  Z.abs z <= 2 ^ 53 -> ends_number r -> parse_number (dec_signed z +:+ r) = Some (NInt z, r).
Proof.
  intros Hz Hr. destruct (ends_number_class r Hr) as (_ & Hf & He & _).
  assert (forall n sg, 0 <= n -> sg * n = z ->
    (let ip := take_while is_digit (dec n +:+ r) in
     let valid := match ip with "" => false | String "0" (String _ _) => false | _ => true end in
     if valid then
       '(fp, s2) ← parse_frac (drop_while is_digit (dec n +:+ r));
       '(ex, s3) ← parse_exp s2;
       Some (mk_number (sg * digits_val (ip +:+ fp)) (ex - Z.of_nat (String.length fp)), s3)
     else None) = Some (NInt z, r)) as H.
  { intros n sg Hn <-. destruct (parse_digits n r Hn Hr) as (c & s & _ & _ & Hv & -> & ->).
    cbv zeta. rewrite Hv, Hf; cbn [mbind option_bind]. rewrite He; cbn [mbind option_bind].
    rewrite string_app_nil_r, digits_val_dec by done. unfold mk_number; cbn.
    by rewrite Z.mul_1_r, fround_exact. }
  unfold parse_number, dec_signed. destruct (Z.ltb_spec z 0).
  - cbn [String.append]. apply (H (- z) (-1)); lia.
  - destruct (parse_digits z r ltac:(lia) Hr) as (c & s & E & Hc & _).
    specialize (H z 1 ltac:(lia) ltac:(lia)). rewrite E in *. cbn [String.append] in *.
    revert H. pattern c. revert Hc. apply digit_cases. intros d Hd.
    assert (d = 0 \/ d = 1 \/ d = 2 \/ d = 3 \/ d = 4 \/ d = 5 \/ d = 6 \/ d = 7 \/ d = 8 \/ d = 9)
      as Hcases by lia.
    repeat destruct Hcases as [->|Hcases]; try (exact id). subst d. exact id.
Qed.

Lemma parse_string_char c rest acc :
  parse_string (escape_char c +:+ rest) acc = parse_string rest (acc +:+ String c "").
Proof. destruct c as [[] [] [] [] [] [] [] []]; reflexivity. Qed.
Lemma parse_string_quoted s r acc :
  parse_string (sconcat_map escape_char s +:+ String dquote r) acc = Some (acc +:+ s, r).
Proof.
  revert acc; induction s as [|c s IH]; intros acc; cbn [sconcat_map].
  - by rewrite string_app_nil_r.
  - rewrite string_app_assoc, parse_string_char, IH. by rewrite string_app_assoc.
Qed.

End parsing.

(** ** Values *)
Fixpoint wf_json (v : json) : bool :=
  match v with
  | JNum (NInt z) => Z.abs z <=? 2 ^ 53
  | JNum (NDec _ _) => false
  | JArr l => forallb wf_json l
  | JObj o => bool_decide (NoDup (map fst o)) && forallb (fun kv => wf_json kv.2) o
  | _ => true
  end.
Lemma wf_strings l : forallb wf_json (map JStr l) = true.
Proof. by induction l. Qed.
Definition member (kv : string * json) : string := quote kv.1 +:+ ":" +:+ stringify kv.2.

Section values.

Lemma obj_set_fresh o k v : k ∉ map fst o -> obj_set o k v = o ++ [(k, v)].
Proof.
  induction o as [|[k0 v0] o IH]; [done|]. cbn. intros H.
  apply not_elem_of_cons in H as [H1 H2]. rewrite (proj2 (String.eqb_neq k0 k)) by congruence.
  by rewrite IH.
Qed.

Lemma parse_value_digit f c s :
  Ascii.eqb c "-" || is_digit c = true ->
  parse_value (S f) (String c s) = ('(n, r) ← parse_number (String c s); Some (JNum n, r)).
Proof. destruct c as [[] [] [] [] [] [] [] []]; intros H; try discriminate H; reflexivity. Qed.

Lemma parse_value_number f z r :
  Z.abs z <= 2 ^ 53 -> ends_number r ->
  parse_value (S f) (dec_signed z +:+ r) = Some (JNum (NInt z), r).
Proof.
  intros Hz Hr. pose proof (parse_number_int z r Hz Hr) as Hp.
  assert (exists c s, dec_signed z = String c s /\ Ascii.eqb c "-" || is_digit c = true)
    as (c & s & E & Hc).
  { unfold dec_signed. destruct (Z.ltb_spec z 0); [by do 2 eexists|].
    destruct (dec_first z ltac:(lia)) as (c & s & -> & Hc & _). exists c, s.
    by rewrite Hc, orb_true_r. }
  rewrite E, string_app_cons in *. by rewrite parse_value_digit, Hp.
Qed.

(** No value starts with white space or a closing bracket. *)
Lemma stringify_head v :
  wf_json v = true -> exists c s, stringify v = String c s /\ is_json_ws c = false /\ c <> "]"%char.
Proof.
  destruct v as [|b|n|s|l|o]; cbn; intros H;
    try (eexists _, _; split_and!; [reflexivity|reflexivity|discriminate]).
  - destruct b; (eexists _, _; split_and!; [reflexivity|reflexivity|discriminate]).
  - destruct n as [z|]; [|done]. bool_to_prop. rewrite number_to_string_int by done.
    unfold dec_signed. destruct (z <? 0) eqn:E;
      [eexists _, _; split_and!; [reflexivity|reflexivity|discriminate]|]. bool_to_prop.
    destruct (dec_first z ltac:(lia)) as (c & s & -> & Hc & _). exists c, s. split; [done|].
    pattern c. apply digit_cases; [|exact Hc]. intros d Hd. unfold is_json_ws, digit_char.
    rewrite code_char_of by lia. split.
    + repeat (apply orb_false_iff; split); apply Z.eqb_neq; lia.
    + intros H1%(f_equal code). rewrite code_char_of in H1 by lia. change (code "]") with 93 in H1. lia.
Qed.

Lemma parse_value_bracket f c t res :
  is_json_ws c = false -> c <> "]"%char -> parse_elements f (String c t) = res ->
  parse_value (S f) (String "[" (String c t)) = res.
Proof.
  intros Hc Hne H. change (parse_value (S f) (String "[" (String c t)))
    with (match skip_ws (String c t) with
          | String "]" r' => Some (JArr [], r')
          | _ => parse_elements f (String c t)
          end).
  unfold skip_ws. cbn [drop_while]. rewrite Hc.
  destruct c as [[] [] [] [] [] [] [] []]; try exact H; by destruct Hne.
Qed.

Lemma parse_value_array f l r :
  wf_json (JArr l) = true ->
  (forall v l', l = v :: l' -> parse_elements f (join "," (map stringify l) +:+ "]" +:+ r)
     = Some (JArr l, r)) ->
  parse_value (S f) (stringify (JArr l) +:+ r) = Some (JArr l, r).
Proof.
  intros Hwf H. destruct l as [|v l]; [reflexivity|]. specialize (H v l eq_refl).
  cbn [wf_json forallb] in Hwf. bool_to_prop.
  destruct (stringify_head v) as (c & s & Hs & Hc & Hne); [done|].
  change (stringify (JArr (v :: l))) with (String "[" (join "," (map stringify (v :: l)) +:+ "]")).
  rewrite string_app_cons, string_app_assoc.
  assert (exists t, join "," (map stringify (v :: l)) +:+ "]" +:+ r = String c t) as [t Ht].
  { cbn [map]. rewrite Hs. destruct (map stringify l); cbn; eauto. }
  rewrite Ht in *. by apply parse_value_bracket.
Qed.

Lemma parse_value_object f o r :
  (forall kv o', o = kv :: o' -> parse_members f (join "," (map member o) +:+ "}" +:+ r) []
     = Some (JObj o, r)) ->
  parse_value (S f) (stringify (JObj o) +:+ r) = Some (JObj o, r).
Proof.
  intros H. destruct o as [|kv o]; [reflexivity|]. specialize (H kv o eq_refl).
  change (stringify (JObj (kv :: o))) with (String "{" (join "," (map member (kv :: o)) +:+ "}")).
  rewrite string_app_cons, string_app_assoc.
  assert (exists t, join "," (map member (kv :: o)) +:+ "}" +:+ r = String dquote t) as [t Ht].
  { destruct o; cbn [map join]; unfold member at 1, quote at 1; eexists;
      by rewrite !string_app_cons. }
  rewrite Ht in *. exact H.
Qed.

Definition parses (f : nat) : Prop :=
  (forall v r, wf_json v = true -> ends_number r -> (String.length (stringify v) < f)%nat ->
     parse_value f (stringify v +:+ r) = Some (v, r)) /\
  (forall kv o acc r, forallb (fun kv => wf_json kv.2) (kv :: o) = true ->
     NoDup (map fst acc ++ map fst (kv :: o)) ->
     (S (String.length (join "," (map member (kv :: o)))) < f)%nat ->
     parse_members f (join "," (map member (kv :: o)) +:+ "}" +:+ r) acc = Some (JObj (acc ++ kv :: o), r)) /\
  (forall v l r, forallb wf_json (v :: l) = true ->
     (S (String.length (join "," (map stringify (v :: l)))) < f)%nat ->
     parse_elements f (join "," (map stringify (v :: l)) +:+ "]" +:+ r) = Some (JArr (v :: l), r)).

Lemma join_cons2 (a b : string) l : join "," (a :: b :: l) = a +:+ "," +:+ join "," (b :: l).
Proof. done. Qed.

Lemma parse_elements_step f : parses f -> forall v l r, forallb wf_json (v :: l) = true ->
  (S (String.length (join "," (map stringify (v :: l)))) < S f)%nat ->
  parse_elements (S f) (join "," (map stringify (v :: l)) +:+ "]" +:+ r) = Some (JArr (v :: l), r).
Proof.
  intros (IHv & _ & IHe) v l r Hwf Hl. cbn [forallb] in Hwf. bool_to_prop. cbn [map] in *.
  destruct l as [|w l]; cbn [map] in *.
  - cbn [join] in *. cbn [parse_elements]. by rewrite IHv by (done || (cbn; tauto) || lia).
  - rewrite join_cons2 in *. rewrite !length_string_app in Hl. cbn [String.length] in Hl.
    cbn [parse_elements]. rewrite !string_app_assoc. cbn [String.append].
    rewrite IHv by (done || (cbn; tauto) || lia). cbn [mbind option_bind].
    specialize (IHe w l r ltac:(done) ltac:(cbn [map]; lia)). cbn [map String.append] in IHe.
    generalize dependent (join "," (stringify w :: map stringify l) +:+ String "]" r).
    intros x Hx. change (skip_ws (String "," x)) with (String "," x). cbv iota. by rewrite Hx.
Qed.

Lemma parse_member f kv x acc :
  parses f -> wf_json kv.2 = true -> ends_number x ->
  (String.length (stringify kv.2) < f)%nat ->
  parse_members (S f) (member kv +:+ x) acc =
  match skip_ws x with
  | String "," r4 => parse_members f r4 (obj_set acc kv.1 kv.2)
  | String "}" r4 => Some (JObj (obj_set acc kv.1 kv.2), r4)
  | _ => None
  end.
Proof.
  intros (IHv & _ & _) Hwf Hx Hl. destruct kv as [k v]. unfold member, quote; cbn [fst snd] in *.
  rewrite !string_app_assoc. cbn [String.append].
  change (parse_members (S f) (String dquote ?t) acc) with (match parse_string t "" with
    | Some (k, r1) => match skip_ws r1 with
        | String ":" r2 => '(v, r3) ← parse_value f r2; match skip_ws r3 with
             | String "," r4 => parse_members f r4 (obj_set acc k v)
             | String "}" r4 => Some (JObj (obj_set acc k v), r4)
             | _ => None
             end
        | _ => None end
    | None => None end).
  rewrite !string_app_assoc. cbn [String.append]. rewrite parse_string_quoted, string_app_nil_l.
  change (skip_ws (String ":" ?y)) with (String ":" y). cbv iota beta.
  rewrite IHv by done. reflexivity.
Qed.

Lemma parse_members_step f : parses f -> forall kv o acc r,
  forallb (fun kv => wf_json kv.2) (kv :: o) = true -> NoDup (map fst acc ++ map fst (kv :: o)) ->
  (S (String.length (join "," (map member (kv :: o)))) < S f)%nat ->
  parse_members (S f) (join "," (map member (kv :: o)) +:+ "}" +:+ r) acc
  = Some (JObj (acc ++ kv :: o), r).
Proof.
  intros Hf kv o acc r Hwf Hnd Hl. cbn [forallb] in Hwf. bool_to_prop.
  assert (kv.1 ∉ map fst acc) as Hfresh.
  { apply NoDup_app in Hnd as (_ & Hnd & _). intros Hin. apply (Hnd _ Hin). cbn. left. }
  assert (String.length (stringify kv.2) < String.length (member kv))%nat as Hm.
  { unfold member. rewrite !length_string_app. cbn. lia. }
  destruct o as [|kv2 o]; cbn [map] in *.
  - cbn [join] in *. rewrite parse_member by (done || (cbn; tauto) || lia).
    change (skip_ws ("}" +:+ r)) with (String "}" r). cbv iota.
    rewrite obj_set_fresh by done. by destruct kv.
  - rewrite join_cons2, !string_app_assoc in *. rewrite !length_string_app in Hl. cbn [String.length] in Hl.
    rewrite parse_member by (done || (cbn; tauto) || lia).
    change ("," +:+ ?y) with (String "," y).
    change (skip_ws (String "," ?y)) with (String "," y). cbv iota. rewrite obj_set_fresh by done.
    destruct Hf as (_ & IHm & _). change (member kv2 :: map member o) with (map member (kv2 :: o)).
    rewrite IHm; [rewrite <- app_assoc; by destruct kv|done| |cbn [map] in *; lia].
    rewrite map_app, <- app_assoc. done.
Qed.

Lemma parse_value_step f : parses f -> forall v r,
  wf_json v = true -> ends_number r -> (String.length (stringify v) < S f)%nat ->
  parse_value (S f) (stringify v +:+ r) = Some (v, r).
Proof.
  intros (IHv & IHm & IHe) v r Hwf Hr Hl. destruct v as [|b|n|s|l|o].
  - reflexivity.
  - by destruct b.
  - cbn in Hwf. destruct n as [z|]; [|done]. bool_to_prop. cbn [stringify].
    rewrite number_to_string_int by done. by apply parse_value_number.
  - cbn [stringify]. unfold quote. rewrite string_app_cons, string_app_assoc.
    cbn [String.append].
    change (parse_value (S f) (String dquote ?t))
      with (match parse_string t "" with Some (u, r') => Some (JStr u, r') | None => None end).
    by rewrite parse_string_quoted.
  - apply parse_value_array; [done|]. intros v l' ->. apply IHe; [done|].
    cbn [stringify] in Hl. rewrite !length_string_app in Hl. cbn [String.length] in Hl.
    cbn [map] in *. lia.
  - apply parse_value_object. intros kv o' ->. cbn [wf_json] in Hwf. bool_to_prop. apply IHm; try done.
    change (stringify (JObj (kv :: o'))) with ("{" +:+ join "," (map member (kv :: o')) +:+ "}") in Hl.
    rewrite !length_string_app in Hl. cbn [String.length] in Hl. lia.
Qed.

Lemma parses_all f : parses f.
Proof.
  induction f as [|f IH]; [split_and!; intros; lia|].
  split_and!; [by apply parse_value_step | by apply parse_members_step | by apply parse_elements_step].
Qed.

Lemma json_parse_stringify v : wf_json v = true -> json_parse (stringify v) = Ok v.
Proof.
  intros Hwf. unfold json_parse. destruct (parses_all (2 * String.length (stringify v) + 2)) as (H & _).
  specialize (H v "" Hwf I ltac:(lia)). rewrite string_app_nil_r in H. by rewrite H.
Qed.

End values.
