(* ===== verification/ScopedClient.v ===== *)
(** * packages/db/src/index.ts: the workspace-scoped client

    [scopedClient] wraps Prisma's client and adds the workspace to the filter of
    some operations on models that carry a workspaceId.  A query's arguments and
    rows are objects; how Prisma evaluates one condition is a parameter. *)

From S2P Require Import Prelude JsString JsNum JsDate Json.

Inductive Operation :=
| findMany | findFirst | count | updateMany | deleteMany
| findUnique | create | update | upsert | delete | aggregate | groupBy.
(** The operations the extension names. *)
Definition intercepted (op : Operation) : bool :=
  match op with findMany | findFirst | count | updateMany | deleteMany => true | _ => false end.
Definition WORKSPACE_SCOPED_MODELS : list string :=
  [ "WorkspaceMember"; "Team"; "Project"; "Invitation"; "ProviderCredential"; "ProviderPool"; "VirtualKey";
    "ModelPriceOverride"; "UsageEvent"; "UsageRollupHourly"; "UsageRollupDaily"; "Budget"; "ExportJob";
    "ScheduledReport"; "AuditLog"; "SsoConnection"; "SlackIntegration"; "Branding" ].

(** [args.where = { ...(args.where ?? {}), workspaceId }] *)
Definition where_of (args : fields) : fields :=
  match non_null (obj_get args "where") with Some (JObj w) => w | _ => [] end.
Definition injectWorkspaceFilter (args : fields) (workspaceId : string) : fields :=
  obj_set args "where" (JObj (obj_set (where_of args) "workspaceId" (JStr workspaceId))).
(** The arguments that reach the wrapped client. *)
Definition scopedClient (workspaceId model : string) (op : Operation) (args : fields) : fields :=
  if intercepted op && existsb (String.eqb model) WORKSPACE_SCOPED_MODELS
  then injectWorkspaceFilter args workspaceId else args.

(** ** What a filter selects *)
Section rows.
(** [holds c v]: the condition [c] accepts the column's value. *)
Context (holds : json -> option json -> bool).
Definition selects (where_ row : fields) : bool :=
  forallb (fun kc => holds kc.2 (obj_get row kc.1)) where_.
Definition selected (args : fields) (table : list fields) : list fields := List.filter (selects (where_of args)) table.

Lemma obj_get_in o k v : obj_get o k = Some v -> (k, v) ∈ o.
Proof.
  induction o as [|[k0 v0] o IH]; cbn; [done|]. destruct (String.eqb_spec k0 k) as [->|].
  - intros [= ->]. set_solver.
  - set_solver.
Qed.
Lemma where_inject args ws :
  where_of (injectWorkspaceFilter args ws) = obj_set (where_of args) "workspaceId" (JStr ws).
Proof. unfold where_of at 1, injectWorkspaceFilter. by rewrite obj_get_set. Qed.
(** A text as a condition is equality with it. *)
Hypothesis holds_text : forall s v, holds (JStr s) v = true -> v = Some (JStr s).

(** Whatever filter the caller gives, and whichever workspace it names, an
    intercepted query on a scoped model touches rows of the client's workspace
    only. *)
Theorem scoped_rows ws model op args table row :
  intercepted op = true -> model ∈ WORKSPACE_SCOPED_MODELS ->
  row ∈ selected (scopedClient ws model op args) table -> row ∈ table /\ obj_get row "workspaceId" = Some (JStr ws).
Proof.
  intros Hop Hm [Hrow Hsel]%in_filter. split; [done|]. unfold scopedClient in Hsel.
  rewrite Hop in Hsel. cbn [andb] in Hsel.
  assert (existsb (String.eqb model) WORKSPACE_SCOPED_MODELS = true) as Hx
    by (apply existsb_exists; exists model; rewrite <- list_elem_of_In; by rewrite String.eqb_refl).
  rewrite Hx, where_inject in Hsel. unfold selects in Hsel. rewrite forallb_forall in Hsel.
  apply holds_text. apply (Hsel ("workspaceId", JStr ws)), list_elem_of_In, obj_get_in.
  by rewrite obj_get_set, String.eqb_refl.
Qed.
End rows.

(** The other operations pass unchanged, on every model. *)
Lemma unscoped_operations ws model op args : intercepted op = false -> scopedClient ws model op args = args.
Proof. unfold scopedClient. by intros ->. Qed.
Example update_is_not_scoped :
  let args := [("where", JObj [("id", JStr "key of another workspace")])] in
  scopedClient "w1" "VirtualKey" update args = args /\
  scopedClient "w1" "VirtualKey" findUnique args = args.
Proof. done. Qed.
Example named_workspace_is_overridden :
  scopedClient "w1" "Team" findMany [("where", JObj [("workspaceId", JStr "w2")])] =
    [("where", JObj [("workspaceId", JStr "w1")])].
Proof. done. Qed.
