(* ===== verification/Shared.v ===== *)
(** * packages/shared: enums, roles, errors, CSV, UUIDv7, slugs

    The vocabulary every tier shares: [enums.ts], [rbac.ts], [errors.ts],
    [csv.ts], [uuid.ts], and the [slugify] helper the API modules repeat. *)

From S2P Require Import Prelude JsString JsNum Json.
From Stdlib Require Import Ascii.

(** ** enums.ts *)
Inductive Provider := ANTHROPIC | OPENAI | GEMINI | MINIMAX | OPENROUTER | DEEPSEEK | OLLAMA.
Definition PROVIDERS : list Provider :=
  [ANTHROPIC; OPENAI; GEMINI; MINIMAX; OPENROUTER; DEEPSEEK; OLLAMA].
Definition provider_text (p : Provider) : string :=
  match p with
  | ANTHROPIC => "ANTHROPIC" | OPENAI => "OPENAI" | GEMINI => "GEMINI" | MINIMAX => "MINIMAX"
  | OPENROUTER => "OPENROUTER" | DEEPSEEK => "DEEPSEEK" | OLLAMA => "OLLAMA"
  end.
#[global] Instance Provider_eq_dec : EqDecision Provider.
Proof. solve_decision. Defined.
Definition provider_eqb (a b : Provider) : bool := bool_decide (a = b).

(** [PROVIDERS.find((p) => p.toLowerCase() === slug)] *)
Definition find_provider (slug : string) : option Provider :=
  List.find (fun p => String.eqb (to_lower (provider_text p)) slug) PROVIDERS.
(** The member of the "Provider" enum a text names. *)
Definition provider_of_text (s : string) : option Provider :=
  List.find (fun p => String.eqb (provider_text p) s) PROVIDERS.
Lemma provider_of_text_of p : provider_of_text (provider_text p) = Some p.
Proof. by destruct p. Qed.

Inductive WorkspaceRole := OWNER | ADMIN | MEMBER | VIEWER.
#[global] Instance WorkspaceRole_eq_dec : EqDecision WorkspaceRole.
Proof. solve_decision. Defined.
Inductive TeamRole := LEAD | TEAM_MEMBER.
#[global] Instance TeamRole_eq_dec : EqDecision TeamRole.
Proof. solve_decision. Defined.

Inductive EventStatus := OK | PROVIDER_ERROR | BLOCKED_BUDGET | BLOCKED_RATELIMIT | AUTH_ERROR.
#[global] Instance EventStatus_eq_dec : EqDecision EventStatus.
Proof. solve_decision. Defined.
Inductive CostBasis := ACTUAL | ESTIMATED | OVERRIDDEN | UNPRICED.
#[global] Instance CostBasis_eq_dec : EqDecision CostBasis.
Proof. solve_decision. Defined.

Definition TOKEN_PREFIX_virtualKey : string := "tl_live_".
Definition TOKEN_PREFIX_personalAccessToken : string := "tlp_".
Definition TOKEN_PREFIX_invite : string := "tli_".
Definition LEGACY_TOKEN_PREFIX : string := "tt_live_".

(** ** rbac.ts *)
Definition ROLE_RANK (r : WorkspaceRole) : Z :=
  match r with OWNER => 3 | ADMIN => 2 | MEMBER => 1 | VIEWER => 0 end.
Definition hasMinimumRole (actual required : WorkspaceRole) : bool :=
  ROLE_RANK required <=? ROLE_RANK actual.

Inductive Capability :=
| workspace_manage | members_manage | teams_manage | projects_manage | credentials_manage
| budgets_manage | keys_issue | analytics_view | audit_view.
Definition CAPABILITIES (c : Capability) : WorkspaceRole :=
  match c with
  | workspace_manage => OWNER
  | members_manage | teams_manage | projects_manage | credentials_manage | budgets_manage => ADMIN
  | keys_issue => MEMBER
  | analytics_view => VIEWER
  | audit_view => ADMIN
  end.
Definition can (role : WorkspaceRole) (capability : Capability) : bool :=
  hasMinimumRole role (CAPABILITIES capability).

(** ** errors.ts *)
Record DomainError := mkDomainError { err_code : string; httpStatus : Z; err_message : string }.
Definition NotFoundError (resource : string) (id : option string) : DomainError :=
  mkDomainError "not_found" 404
    match id with
    | Some i => if String.eqb i "" then resource +:+ " not found"
                else resource +:+ " '" +:+ i +:+ "' not found"
    | None => resource +:+ " not found"
    end.
Definition ForbiddenError (message : string) : DomainError := mkDomainError "forbidden" 403 message.
Definition UnauthorizedError (message : string) : DomainError :=
  mkDomainError "unauthorized" 401 message.
Definition ValidationError (message : string) : DomainError :=
  mkDomainError "validation_failed" 400 message.
Definition ConflictError (message : string) : DomainError := mkDomainError "conflict" 409 message.
Definition LicenseRequiredError (feature : string) : DomainError :=
  mkDomainError "license_required" 402 ("'" +:+ feature +:+ "' requires an enterprise license").
Definition RateLimitedError : DomainError :=
  mkDomainError "rate_limited" 429 "Rate limit exceeded".

(** The API's handlers throw domain errors. *)
Abbreviation api := (result DomainError).

(** ** csv.ts *)
Inductive csv_value := CText (s : string) | CNum (n : number) | CBool (b : bool) | CNull.
(** [String(value)], nothing for null and undefined *)
Definition csv_text (v : csv_value) : string :=
  match v with
  | CText s => s
  | CNum n => number_to_string n
  | CBool b => if b then "true" else "false"
  | CNull => ""
  end.
Definition csv_special (c : ascii) : bool :=
  Ascii.eqb c dquote || Ascii.eqb c "," || Ascii.eqb c "013" || Ascii.eqb c newline.
Definition double_quotes : string -> string :=
  sconcat_map (fun c => if Ascii.eqb c dquote then String dquote (String dquote "") else String c "").
Definition csvCell (v : csv_value) : string :=
  match v with
  | CNull => ""
  | _ =>
      let s := csv_text v in
      if sforall (fun c => negb (csv_special c)) s then s
      else String dquote (double_quotes s +:+ String dquote "")
  end.
Definition csvRow (cells : list csv_value) : string := join "," (map csvCell cells).

(** ** uuid.ts

    [rnd] is the 16 bytes [crypto.getRandomValues] left in the array. *)
Definition uuid_bytes (nowMs : Z) (rnd : list Z) : list Z :=
  let b := <[5%nat := Z.land nowMs 255]> (<[4%nat := Z.land (nowMs / 2 ^ 8) 255]>
           (<[3%nat := Z.land (nowMs / 2 ^ 16) 255]> (<[2%nat := Z.land (nowMs / 2 ^ 24) 255]>
           (<[1%nat := Z.land (nowMs / 2 ^ 32) 255]> (<[0%nat := Z.land (nowMs / 2 ^ 40) 255]> rnd))))) in
  let b := <[6%nat := Z.lor (Z.land (nth 6 b 0) 15) 112]> b in
  <[8%nat := Z.lor (Z.land (nth 8 b 0) 63) 128]> b.
Fixpoint hex_bytes (bs : list Z) : string :=
  match bs with [] => "" | b :: bs' => hex2 b +:+ hex_bytes bs' end.
Definition substr (i j : nat) (s : string) : string := slice_to (j - i) (slice_from i s).
Definition uuidv7 (nowMs : Z) (rnd : list Z) : string :=
  let hex := hex_bytes (uuid_bytes nowMs rnd) in
  substr 0 8 hex +:+ "-" +:+ substr 8 12 hex +:+ "-" +:+ substr 12 16 hex +:+ "-" +:+
  substr 16 20 hex +:+ "-" +:+ slice_from 20 hex.

(** ** slugify (org.ts, teams.ts, auth.ts) *)
Definition is_slug_char (c : ascii) : bool := is_lower c || is_digit c.
(** [s.replace(/[^a-z0-9]+/g, "-")]; [run] says the previous character was
    already replaced. *)
Fixpoint dash_runs (run : bool) (s : string) : string :=
  match s with
  | "" => ""
  | String c s' =>
      if is_slug_char c then String c (dash_runs false s')
      else if run then dash_runs true s' else String "-" (dash_runs true s')
  end.
Definition is_dash (c : ascii) : bool := Ascii.eqb c "-".
Definition slugify (max : nat) (default name : string) : string :=
  let s := slice_to max
             (drop_while_end is_dash (drop_while is_dash (dash_runs false (to_lower name)))) in
  if String.eqb s "" then default else s.

Example csv_ex : csvRow [CText "a,b"; CNum (NInt 3); CNull; CBool true; CText "x"]
  = dq "'a,b',3,,true,x".
Proof. vm_compute. reflexivity. Qed.
Example uuid_ex : uuidv7 1800000000000 (repeat 255 16) = "01a3185c-5000-7fff-bfff-ffffffffffff".
Proof. vm_compute. reflexivity. Qed.
Example slug_ex : slugify 50 "project" "  Hello, World! 42 " = "hello-world-42".
Proof. vm_compute. reflexivity. Qed.

(** ** A reader of RFC 4180 text

    The reference the writer is checked against: quoted cells may hold commas,
    quotes (doubled) and line breaks; records end in a line feed. *)
Inductive csv_mode := CellStart | Plain | Quoted | QuoteSeen.
Record csv_reader := CsvReader { rmode : csv_mode; rcell : string; rrow : list string }.
Definition csv_start : csv_reader := CsvReader CellStart "" [].

(** One character: the new state and the record it completes, if any. *)
Definition csv_step (st : csv_reader) (c : ascii) : option (csv_reader * list (list string)) :=
  let '(CsvReader m cell row) := st in
  let next_cell := Some (CsvReader CellStart "" (row ++ [cell]), []) in
  let next_row := Some (csv_start, [row ++ [cell]]) in
  let plain := Some (CsvReader Plain (cell +:+ String c "") row, []) in
  match m with
  | CellStart =>
      if Ascii.eqb c dquote then Some (CsvReader Quoted cell row, [])
      else if Ascii.eqb c "," then next_cell
      else if Ascii.eqb c newline then next_row else plain
  | Plain =>
      if Ascii.eqb c dquote then None
      else if Ascii.eqb c "," then next_cell
      else if Ascii.eqb c newline then next_row else plain
  | Quoted =>
      if Ascii.eqb c dquote then Some (CsvReader QuoteSeen cell row, [])
      else Some (CsvReader Quoted (cell +:+ String c "") row, [])
  | QuoteSeen =>
      if Ascii.eqb c dquote then Some (CsvReader Quoted (cell +:+ String c "") row, [])
      else if Ascii.eqb c "," then next_cell
      else if Ascii.eqb c newline then next_row else None
  end.
Fixpoint csv_run (st : csv_reader) (s : string) : option (csv_reader * list (list string)) :=
  match s with
  | "" => Some (st, [])
  | String c s' =>
      '(st1, r1) ← csv_step st c;
      '(st2, r2) ← csv_run st1 s';
      Some (st2, r1 ++ r2)
  end.
Definition csv_read (s : string) : option (list (list string)) :=
  '(st, rows) ← csv_run csv_start s;
  match st with CsvReader CellStart "" [] => Some rows | _ => None end.

Section csv.
Lemma csv_run_app st a b :
  csv_run st (a +:+ b) =
  ('(st1, r1) ← csv_run st a; '(st2, r2) ← csv_run st1 b; Some (st2, r1 ++ r2)).
Proof.
  revert st; induction a as [|c a IH]; intros st; cbn.
  - by destruct (csv_run st b) as [[? ?]|].
  - destruct (csv_step st c) as [[st1 r1]|]; cbn; [|done].
    rewrite IH. destruct (csv_run st1 a) as [[st2 r2]|]; cbn; [|done].
    destruct (csv_run st2 b) as [[st3 r3]|]; cbn; [|done]. by rewrite app_assoc.
Qed.

(** What ends an unquoted cell, or has no place in it. *)
Definition cell_break (c : ascii) : bool := Ascii.eqb c dquote || Ascii.eqb c "," || Ascii.eqb c newline.
(** Unquoted text accumulates in the cell. *)
Lemma csv_run_plain s m cell row :
  sforall (fun c => negb (cell_break c)) s = true -> m = CellStart \/ m = Plain ->
  csv_run (CsvReader m cell row) s
  = Some (CsvReader (if String.eqb s "" then m else Plain) (cell +:+ s) row, []).
Proof.
  revert m cell; induction s as [|c s IH]; intros m cell; [by rewrite string_app_nil_r|].
  cbn [sforall]. intros [Hc Hs]%andb_true_iff Hm. apply negb_true_iff in Hc.
  unfold cell_break in Hc. bool_to_prop.
  assert (csv_step (CsvReader m cell row) c
          = Some (CsvReader Plain (cell +:+ String c "") row, [])) as Hstep.
  { unfold csv_step. destruct Hm as [-> | ->];
      repeat match goal with H : Ascii.eqb c _ = false |- _ => rewrite H; clear H end; done. }
  cbn [csv_run]. rewrite Hstep; cbn. rewrite IH by auto. cbn.
  rewrite string_app_assoc. by destruct (String.eqb s "").
Qed.

(** Doubled quotes read back as single ones. *)
Lemma csv_run_quoted s cell row :
  csv_run (CsvReader Quoted cell row) (double_quotes s)
  = Some (CsvReader Quoted (cell +:+ s) row, []).
Proof.
  unfold double_quotes. revert cell; induction s as [|c s IH]; intros cell; cbn;
    [by rewrite string_app_nil_r|].
  destruct (Ascii.eqb c dquote) eqn:E; cbn [csv_run String.append mbind option_bind];
    unfold csv_step at 1; [apply Ascii.eqb_eq in E; subst c|]; cbn.
  - rewrite IH; cbn. by rewrite string_app_assoc.
  - rewrite E; cbn. rewrite IH; cbn. by rewrite string_app_assoc.
Qed.

(** A written cell, whatever its value, leaves its text in the reader, which
    then accepts a separator. *)
Lemma csv_run_cell v row :
  exists m, csv_run (CsvReader CellStart "" row) (csvCell v)
            = Some (CsvReader m (csv_text v) row, []) /\ m <> Quoted.
Proof.
  assert (forall s, exists m,
    csv_run (CsvReader CellStart "" row)
      (if sforall (fun c => negb (csv_special c)) s then s
       else String dquote (double_quotes s +:+ String dquote ""))
    = Some (CsvReader m s row, []) /\ m <> Quoted) as H.
  { intros s. destruct (sforall _ s) eqn:E.
    - eexists. split; [apply csv_run_plain; [|by left]|by destruct (String.eqb s "")].
      eapply sforall_impl; [|exact E]. intros c. unfold csv_special, cell_break.
      by destruct (Ascii.eqb c dquote), (Ascii.eqb c ","), (Ascii.eqb c "013"), (Ascii.eqb c newline).
    - exists QuoteSeen. split; [|done]. cbn.
      rewrite csv_run_app, csv_run_quoted. done. }
  destruct v; try apply H. exists CellStart. done.
Qed.

Lemma csv_run_comma m cell row s :
  m <> Quoted ->
  csv_run (CsvReader m cell row) (String "," s) = csv_run (CsvReader CellStart "" (row ++ [cell])) s.
Proof. destruct m; [| |done|]; intros _; cbn; by destruct (csv_run _ s) as [[? ?]|]. Qed.

Lemma csv_run_cells cells v row :
  csv_run (CsvReader CellStart "" row) (join "," (map csvCell (v :: cells)) +:+ nl)
  = Some (csv_start, [row ++ map csv_text (v :: cells)]).
Proof.
  revert v row; induction cells as [|w cells IH]; intros v row;
    destruct (csv_run_cell v row) as (m & Hm & Hq).
  - cbn [map join]. rewrite csv_run_app, Hm; cbn. by destruct m.
  - change (join "," (map csvCell (v :: w :: cells)))
      with (csvCell v +:+ "," +:+ join "," (map csvCell (w :: cells))).
    rewrite !string_app_assoc, csv_run_app, Hm; cbn [mbind option_bind].
    rewrite string_app_cons, string_app_nil_l, csv_run_comma, IH by done.
    by rewrite <- app_assoc.
Qed.

(** The file the export job writes: one [csvRow] and a line feed per record. *)
Definition csv_file (rows : list (list csv_value)) : string :=
  join "" (map (fun r => csvRow r +:+ nl) rows).

Lemma csv_file_cons r rows : csv_file (r :: rows) = (csvRow r +:+ nl) +:+ csv_file rows.
Proof. unfold csv_file. destruct rows; cbn; by rewrite ?string_app_nil_r. Qed.

Lemma csv_file_run rows :
  Forall (fun r => r <> []) rows ->
  csv_run csv_start (csv_file rows) = Some (csv_start, map (map csv_text) rows).
Proof.
  induction rows as [|r rows IH]; [done|]. intros [Hr Hrows]%Forall_cons.
  rewrite csv_file_cons, csv_run_app. destruct r as [|v cells]; [done|].
  unfold csvRow, csv_start. rewrite csv_run_cells; cbn. rewrite IH by done. done.
Qed.
End csv.

(** ** UUIDv7 layout *)
Definition thenc (c d : comparison) : comparison := match c with Eq => d | _ => c end.

Section uuid.
Lemma thenc_assoc a b c : thenc (thenc a b) c = thenc a (thenc b c).
Proof. by destruct a. Qed.

Lemma compare_digits a b :
  (a ?= b) = thenc (a / 256 ?= b / 256) (a mod 256 ?= b mod 256).
Proof.
  pose proof (Z.div_mod a 256 ltac:(lia)). pose proof (Z.div_mod b 256 ltac:(lia)).
  pose proof (Z.mod_pos_bound a 256 ltac:(lia)). pose proof (Z.mod_pos_bound b 256 ltac:(lia)).
  unfold thenc. destruct (Z.compare_spec (a / 256) (b / 256)).
  - destruct (Z.compare_spec (a mod 256) (b mod 256));
      [apply Z.compare_eq_iff | apply Z.compare_lt_iff | apply Z.compare_gt_iff]; lia.
  - apply Z.compare_lt_iff. lia.
  - apply Z.compare_gt_iff. lia.
Qed.

Lemma hex_digit_compare d e :
  0 <= d < 16 -> 0 <= e < 16 -> Ascii.compare (hex_digit d) (hex_digit e) = (d ?= e).
Proof.
  intros Hd He.
  assert (forallb (fun x => forallb (fun y =>
    bool_decide (Ascii.compare (hex_digit (Z.of_nat x)) (hex_digit (Z.of_nat y))
                 = (Z.of_nat x ?= Z.of_nat y))) (seq 0 16)) (seq 0 16) = true) as H
    by (vm_compute; reflexivity).
  rewrite forallb_forall in H. specialize (H (Z.to_nat d) ltac:(apply in_seq; lia)).
  rewrite forallb_forall in H. specialize (H (Z.to_nat e) ltac:(apply in_seq; lia)).
  apply bool_decide_eq_true in H. by rewrite !Z2Nat.id in H by lia.
Qed.

Lemma hex2_compare a b s t :
  0 <= a < 256 -> 0 <= b < 256 ->
  String.compare (hex2 a +:+ s) (hex2 b +:+ t) = thenc (a ?= b) (String.compare s t).
Proof.
  intros Ha Hb.
  assert (0 <= a / 16 < 16) by (split; [apply Z.div_pos | apply Z.div_lt_upper_bound]; lia).
  assert (0 <= b / 16 < 16) by (split; [apply Z.div_pos | apply Z.div_lt_upper_bound]; lia).
  pose proof (Z.mod_pos_bound a 16 ltac:(lia)). pose proof (Z.mod_pos_bound b 16 ltac:(lia)).
  pose proof (Z.div_mod a 16 ltac:(lia)). pose proof (Z.div_mod b 16 ltac:(lia)).
  unfold hex2. cbn [String.append String.compare]. rewrite !hex_digit_compare by lia.
  unfold thenc.
  destruct (Z.compare_spec (a / 16) (b / 16)); [destruct (Z.compare_spec (a mod 16) (b mod 16))| |];
    destruct (Z.compare_spec a b); try done; lia.
Qed.

Lemma dash_compare s t : String.compare ("-" +:+ s) ("-" +:+ t) = String.compare s t.
Proof. done. Qed.

Lemma land_255 x : Z.land x 255 = x mod 256.
Proof. change 255 with (Z.ones 8). by rewrite Z.land_ones. Qed.

(** What follows the timestamp. *)
Definition uuid_tail (rnd : list Z) : string :=
  match rnd with
  | [_; _; _; _; _; _; r6; r7; r8; r9; r10; r11; r12; r13; r14; r15] =>
      "-" +:+ hex2 (Z.lor (Z.land r6 15) 112) +:+ hex2 r7 +:+ "-" +:+
      hex2 (Z.lor (Z.land r8 63) 128) +:+ hex2 r9 +:+ "-" +:+
      hex2 r10 +:+ hex2 r11 +:+ hex2 r12 +:+ hex2 r13 +:+ hex2 r14 +:+ hex2 r15
  | _ => ""
  end.
Definition uuid_time (now : Z) : string :=
  hex2 (now / 2 ^ 40 mod 256) +:+ hex2 (now / 2 ^ 32 mod 256) +:+ hex2 (now / 2 ^ 24 mod 256)
  +:+ hex2 (now / 2 ^ 16 mod 256) +:+ "-" +:+ hex2 (now / 2 ^ 8 mod 256) +:+ hex2 (now mod 256).

Lemma uuidv7_split now rnd :
  length rnd = 16%nat -> uuidv7 now rnd = uuid_time now +:+ uuid_tail rnd.
Proof.
  intros Hl. do 17 (destruct rnd as [|? rnd]; try done).
  unfold uuidv7, uuid_bytes, uuid_time, uuid_tail. rewrite <- !land_255. reflexivity.
Qed.

Lemma uuid_time_compare a b s t :
  0 <= a < 2 ^ 48 -> 0 <= b < 2 ^ 48 ->
  String.compare (uuid_time a +:+ s) (uuid_time b +:+ t) = thenc (a ?= b) (String.compare s t).
Proof.
  intros Ha Hb. unfold uuid_time. rewrite !string_app_assoc.
  rewrite !hex2_compare, !dash_compare, !hex2_compare by (apply Z.mod_pos_bound; lia).
  assert (forall x, 0 <= x < 2 ^ 48 -> x / 2 ^ 40 mod 256 = x / 2 ^ 40) as Htop.
  { intros x Hx. apply Z.mod_small. split; [apply Z.div_pos; lia|].
    apply Z.div_lt_upper_bound; lia. }
  rewrite !Htop by done.
  assert (forall x k, 0 <= k -> x / 2 ^ (8 + k) = x / 2 ^ k / 256) as Hdd.
  { intros x k Hk. rewrite Z.add_comm, Z.pow_add_r, Z.div_div by lia. done. }
  rewrite (compare_digits a b), (compare_digits (a / 256) (b / 256)).
  rewrite (compare_digits (a / 256 / 256) (b / 256 / 256)).
  rewrite (compare_digits (a / 256 / 256 / 256) (b / 256 / 256 / 256)).
  rewrite (compare_digits (a / 256 / 256 / 256 / 256) (b / 256 / 256 / 256 / 256)).
  rewrite !thenc_assoc.
  rewrite !(Hdd _ 32), !(Hdd _ 24), !(Hdd _ 16), !(Hdd _ 8) by lia.
  change (2 ^ 8) with 256. done.
Qed.
End uuid.

Section uuid_fields.
Lemma low_nibble_cases x : 0 <= Z.land x 15 < 16.
Proof. change 15 with (Z.ones 4). rewrite Z.land_ones by lia. apply Z.mod_pos_bound. lia. Qed.
Lemma low_six_cases x : 0 <= Z.land x 63 < 64.
Proof. change 63 with (Z.ones 6). rewrite Z.land_ones by lia. apply Z.mod_pos_bound. lia. Qed.

Lemma version_digit x : Z.lor (Z.land x 15) 112 / 16 = 7.
Proof.
  pose proof (low_nibble_cases x) as H. generalize dependent (Z.land x 15). intros y H.
  assert (forallb (fun n => Z.lor (Z.of_nat n) 112 / 16 =? 7) (seq 0 16) = true) as F
    by (vm_compute; reflexivity).
  rewrite forallb_forall in F. specialize (F (Z.to_nat y) ltac:(apply in_seq; lia)).
  rewrite Z2Nat.id in F by lia. by apply Z.eqb_eq.
Qed.
Lemma variant_digit x : 8 <= Z.lor (Z.land x 63) 128 / 16 <= 11.
Proof.
  pose proof (low_six_cases x) as H. generalize dependent (Z.land x 63). intros y H.
  assert (forallb (fun n => (8 <=? Z.lor (Z.of_nat n) 128 / 16) &&
            (Z.lor (Z.of_nat n) 128 / 16 <=? 11)) (seq 0 64) = true) as F
    by (vm_compute; reflexivity).
  rewrite forallb_forall in F. specialize (F (Z.to_nat y) ltac:(apply in_seq; lia)).
  rewrite Z2Nat.id in F by lia. bool_to_prop. lia.
Qed.

(** Digits 14 and 19 of the text: the version and the RFC 4122 variant. *)
Lemma uuidv7_fields now rnd :
  length rnd = 16%nat ->
  String.length (uuidv7 now rnd) = 36%nat /\
  String.get 14 (uuidv7 now rnd) = Some "7"%char /\
  (exists d, 8 <= d <= 11 /\ String.get 19 (uuidv7 now rnd) = Some (hex_digit d)).
Proof.
  intros Hl. rewrite uuidv7_split by done. do 17 (destruct rnd as [|? rnd]; try done).
  split_and!; [reflexivity| |].
  - cbn. unfold hex2. rewrite version_digit. reflexivity.
  - eexists; split; [apply variant_digit|]. reflexivity.
Qed.
End uuid_fields.

(** ** Theorems *)

(** The file the export writes is RFC 4180 text: whatever the cells hold
    (commas, quotes, line breaks, nulls), reading it back gives the rows and
    cells that were written. *)
Theorem csv_file_roundtrip rows :
  Forall (fun r => r <> []) rows -> csv_read (csv_file rows) = Some (map (map csv_text) rows).
Proof. intros H. unfold csv_read. by rewrite csv_file_run. Qed.

Lemma csv_file_roundtrip_witness :
  csv_read (csv_file [[CText (dq "a'b"); CText ("x," +:+ nl)]; [CNum (NInt 3); CNull]])
  = Some [[dq "a'b"; "x," +:+ nl]; ["3"; ""]].
Proof.
  rewrite (csv_file_roundtrip [[CText (dq "a'b"); CText ("x," +:+ nl)]; [CNum (NInt 3); CNull]]);
    [vm_compute; reflexivity | repeat constructor; discriminate].
Defined.

(** An id minted in an earlier millisecond sorts before one minted later,
    for every choice of random bytes (so ids order events by creation time);
    the text is 36 characters with version 7 and the RFC 4122 variant. *)
Theorem uuidv7_time_ordered a b ra rb :
  0 <= a < b -> b < 2 ^ 48 -> length ra = 16%nat -> length rb = 16%nat ->
  String.compare (uuidv7 a ra) (uuidv7 b rb) = Lt /\
  String.length (uuidv7 a ra) = 36%nat /\
  String.get 14 (uuidv7 a ra) = Some "7"%char /\
  exists d, 8 <= d <= 11 /\ String.get 19 (uuidv7 a ra) = Some (hex_digit d).
Proof.
  intros Hab Hb Hra Hrb. split; [|by apply uuidv7_fields].
  rewrite !uuidv7_split, uuid_time_compare by (done || lia).
  by rewrite (proj2 (Z.compare_lt_iff a b)) by lia.
Qed.

Lemma uuidv7_time_ordered_witness :
  String.compare (uuidv7 1800000000000 (repeat 255 16)) (uuidv7 1800000000001 (repeat 0 16)) = Lt.
Proof.
  apply (uuidv7_time_ordered 1800000000000 1800000000001 (repeat 255 16) (repeat 0 16));
    [lia | vm_compute; reflexivity | reflexivity | reflexivity].
Defined.
