(* ===== verification/Queue.v ===== *)
(** * packages/queue: the usage event and its stream

    The message the gateway publishes and the worker consumes, and its JSON
    text.  [encode_event] is the object literal's [JSON.stringify]; reading it
    back is in [Ingest]. *)

From S2P Require Import Prelude JsString JsNum Json Shared.

Definition STREAM_usageEvents : string := "usage:events".
Definition STREAM_usageDlq : string := "usage:dlq".
Definition CONSUMER_GROUP_ingest : string := "ingest".
Definition invalidateVk (keyHash : string) : string := "invalidate:vk:" +:+ keyHash.
Definition invalidateCred (credentialId : string) : string := "invalidate:cred:" +:+ credentialId.

Record UnitPrices := mkUnitPrices {
  up_in : string; up_out : string; up_cr : string; up_cw : string; up_source : string }.
#[global] Instance UnitPrices_eq_dec : EqDecision UnitPrices.
Proof. solve_decision. Defined.

Record UsageEventMessage := mkEvent {
  ev_id : string;
  ev_occurredAt : string;
  ev_workspaceId : string;
  ev_projectId : string;
  ev_teamId : option string;
  ev_userId : string;
  ev_virtualKeyId : string;
  ev_credentialId : option string;
  ev_poolId : option string;
  ev_provider : Provider;
  ev_modelRaw : string;
  ev_model : string;
  ev_endpoint : string;
  ev_requestId : string;
  ev_status : EventStatus;
  ev_httpStatus : Z;
  ev_streamed : bool;
  ev_inputTokens : number;
  ev_outputTokens : number;
  ev_cacheReadTokens : number;
  ev_cacheWriteTokens : number;
  ev_reasoningTokens : number;
  ev_costUsd : string;
  ev_unitPrices : option UnitPrices;
  ev_costBasis : CostBasis;
  ev_latencyMs : Z;
  ev_ttftMs : option Z;
  ev_tags : option (list string);
}.
#[global] Instance UsageEventMessage_eq_dec : EqDecision UsageEventMessage.
Proof. solve_decision. Defined.

Definition status_text (s : EventStatus) : string :=
  match s with
  | OK => "OK" | PROVIDER_ERROR => "PROVIDER_ERROR" | BLOCKED_BUDGET => "BLOCKED_BUDGET"
  | BLOCKED_RATELIMIT => "BLOCKED_RATELIMIT" | AUTH_ERROR => "AUTH_ERROR"
  end.
Definition basis_text (b : CostBasis) : string :=
  match b with
  | ACTUAL => "ACTUAL" | ESTIMATED => "ESTIMATED" | OVERRIDDEN => "OVERRIDDEN" | UNPRICED => "UNPRICED"
  end.

(** A key that is left out when undefined. *)
Definition opt_key (k : string) (v : option json) : fields :=
  match v with Some x => [(k, x)] | None => [] end.
Definition event_json (e : UsageEventMessage) : json :=
  JObj ([("id", JStr (ev_id e)); ("occurredAt", JStr (ev_occurredAt e));
         ("workspaceId", JStr (ev_workspaceId e)); ("projectId", JStr (ev_projectId e))]
    ++ opt_key "teamId" (JStr <$> ev_teamId e)
    ++ [("userId", JStr (ev_userId e)); ("virtualKeyId", JStr (ev_virtualKeyId e))]
    ++ opt_key "credentialId" (JStr <$> ev_credentialId e)
    ++ opt_key "poolId" (JStr <$> ev_poolId e)
    ++ [("provider", JStr (provider_text (ev_provider e))); ("modelRaw", JStr (ev_modelRaw e));
        ("model", JStr (ev_model e)); ("endpoint", JStr (ev_endpoint e));
        ("requestId", JStr (ev_requestId e)); ("status", JStr (status_text (ev_status e)));
        ("httpStatus", JNum (NInt (ev_httpStatus e))); ("streamed", JBool (ev_streamed e));
        ("inputTokens", JNum (ev_inputTokens e)); ("outputTokens", JNum (ev_outputTokens e));
        ("cacheReadTokens", JNum (ev_cacheReadTokens e));
        ("cacheWriteTokens", JNum (ev_cacheWriteTokens e));
        ("reasoningTokens", JNum (ev_reasoningTokens e)); ("costUsd", JStr (ev_costUsd e))]
    ++ opt_key "unitPrices"
         ((fun p => JObj [("in", JStr (up_in p)); ("out", JStr (up_out p)); ("cr", JStr (up_cr p));
                          ("cw", JStr (up_cw p)); ("source", JStr (up_source p))]) <$> ev_unitPrices e)
    ++ [("costBasis", JStr (basis_text (ev_costBasis e))); ("latencyMs", JNum (NInt (ev_latencyMs e)))]
    ++ opt_key "ttftMs" ((fun t => JNum (NInt t)) <$> ev_ttftMs e)
    ++ opt_key "tags" ((fun l => JArr (map JStr l)) <$> ev_tags e)).
Definition encode_event (e : UsageEventMessage) : string := stringify (event_json e).

(** One [XADD usage:events MAXLEN ~ 1000000 * payload <json>]: the stream's
    entries, oldest first; trimming beyond a million entries is Redis's. *)
Definition publishUsageEvent (stream : list string) (e : UsageEventMessage) : list string :=
  stream ++ [encode_event e].
