(* ===== verification/Auth.v ===== *)
(** * packages/auth: tokens, secret envelopes, passwords, access tokens

    [tokens.ts], [crypto.ts], [password.ts] and [jwt.ts].  Byte buffers are
    strings of bytes.  The primitives of node:crypto (random bytes, SHA-256,
    AES-256-GCM, scrypt) and the jose library are parameters: [Primitives]
    collects them, and [PrimitivesOk] states what the code relies on. *)

From S2P Require Import Prelude JsString JsNum Json Shared.
From Stdlib Require Import Ascii.

(** ** Buffer encodings *)
Definition byte_at (i : nat) (s : string) : Z := match String.get i s with Some c => code c | None => 0 end.
(** [Buffer.from(s, "hex")] stops at the first pair that is not two hex digits. *)
Fixpoint hex_decode (s : string) : string :=
  match s with
  | String a (String b r) =>
      if is_hex a && is_hex b then String (char_of (hex_val a * 16 + hex_val b)) (hex_decode r) else ""
  | _ => ""
  end.

Definition B64 : string := "ABCDEFGHIJKLMNOPQRSTUVWXYZabcdefghijklmnopqrstuvwxyz0123456789+/".
Definition b64_char (z : Z) : ascii := nth (Z.to_nat z) (String.list_ascii_of_string B64) "="%char.
Definition b64_val (c : ascii) : option Z :=
  if is_upper c then Some (code c - 65)
  else if is_lower c then Some (code c - 71)
  else if is_digit c then Some (code c + 4)
  else if Ascii.eqb c "+" || Ascii.eqb c "-" then Some 62
  else if Ascii.eqb c "/" || Ascii.eqb c "_" then Some 63
  else None.
Fixpoint base64_encode (s : string) : string :=
  match s with
  | String a (String b (String c r)) =>
      let '(x, y, z) := (code a, code b, code c) in
      String (b64_char (x / 4)) (String (b64_char (x mod 4 * 16 + y / 16))
        (String (b64_char (y mod 16 * 4 + z / 64)) (String (b64_char (z mod 64)) (base64_encode r))))
  | String a (String b "") =>
      let '(x, y) := (code a, code b) in
      String (b64_char (x / 4)) (String (b64_char (x mod 4 * 16 + y / 16))
        (String (b64_char (y mod 16 * 4)) "="))
  | String a "" =>
      String (b64_char (code a / 4)) (String (b64_char (code a mod 4 * 16)) "==")
  | "" => ""
  end.
(** [Buffer.from(s, "base64")]: other characters are skipped, [=] ends it. *)
Fixpoint sextets (s : string) : list Z :=
  match s with
  | "" => []
  | String c r =>
      if Ascii.eqb c "=" then []
      else match b64_val c with Some v => v :: sextets r | None => sextets r end
  end.
Fixpoint from_sextets (l : list Z) : string :=
  match l with
  | p :: q :: r :: s :: l' =>
      String (char_of (p * 4 + q / 16)) (String (char_of (q mod 16 * 16 + r / 4))
        (String (char_of (r mod 4 * 64 + s)) (from_sextets l')))
  | [p; q; r] => String (char_of (p * 4 + q / 16)) (String (char_of (q mod 16 * 16 + r / 4)) "")
  | [p; q] => String (char_of (p * 4 + q / 16)) ""
  | _ => ""
  end.
Definition base64_decode (s : string) : string := from_sextets (sextets s).

Example base64_example : base64_encode "hello" = "aGVsbG8=" /\ base64_decode "aGVsbG8=" = "hello".
Proof. vm_compute. split; reflexivity. Qed.

(** ** The primitives *)
Record Primitives := mkPrimitives {
  sha256_hex : string -> string;                                  (** createHash("sha256")...digest("hex") *)
  gcm_encrypt : string -> string -> string -> string * string;    (** key, iv, plaintext: ciphertext, tag *)
  gcm_decrypt : string -> string -> string -> string -> js string; (** key, iv, ciphertext, tag *)
  scrypt : string -> string -> Z -> Z -> Z -> Z -> js string;     (** password, salt, keylen, N, r, p *)
}.
Class PrimitivesOk (P : Primitives) := {
  sha_hex : forall s, String.length (sha256_hex P s) = 64%nat /\
                      sforall (fun c => is_digit c || in_range 97 102 c) (sha256_hex P s) = true;
  gcm_tag : forall k iv p, String.length (gcm_encrypt P k iv p).2 = 16%nat;
  gcm_correct : forall k iv p,
    gcm_decrypt P k iv (gcm_encrypt P k iv p).1 (gcm_encrypt P k iv p).2 = Ok p;
  scrypt_length : forall pw salt len n r p h, 0 <= len -> scrypt P pw salt len n r p = Ok h ->
    Z.of_nat (String.length h) = len;
}.

Abbreviation MasterKeyRing := (gmap Z string).

Section auth.
Context (P : Primitives).

(** ** tokens.ts *)
Definition BASE62 : string := "0123456789ABCDEFGHIJKLMNOPQRSTUVWXYZabcdefghijklmnopqrstuvwxyz".
Definition base62_char (byte : Z) : ascii :=
  nth (Z.to_nat (byte mod 62)) (String.list_ascii_of_string BASE62) "0"%char.
(** The [for] loop over one block of random bytes, with its early [break]. *)
Fixpoint take_block (length : nat) (out : list ascii) (block : list Z) : list ascii :=
  match block with
  | [] => out
  | byte :: rest =>
      if byte <? 248 then
        let out := out ++ [base62_char byte] in
        if (List.length out =? length)%nat then out else take_block length out rest
      else take_block length out rest
  end.
(** The [while] loop; [blocks] are the successive [randomBytes(length)].  None:
    the blocks did not suffice. *)
Fixpoint base62_loop (length : nat) (out : list ascii) (blocks : list (list Z)) : option (list ascii) :=
  if (length <=? List.length out)%nat then Some out
  else match blocks with
       | [] => None
       | b :: bs => base62_loop length (take_block length out b) bs
       end.
Definition randomBase62 (length : nat) (blocks : list (list Z)) : option string :=
  String.string_of_list_ascii <$> base62_loop length [] blocks.

Record MintedToken := mkMinted { mt_token : string; mt_hash : string; mt_last4 : string }.
Definition sha256Hex (value : string) : string := sha256_hex P value.
Definition mint (prefix : string) (entropyChars : nat) (blocks : list (list Z)) : option MintedToken :=
  r ← randomBase62 entropyChars blocks;
  let token := prefix +:+ r in
  Some (mkMinted token (sha256Hex token) (slice_last 4 token)).
Definition mintVirtualKey := mint TOKEN_PREFIX_virtualKey 24.
Definition mintPersonalAccessToken := mint TOKEN_PREFIX_personalAccessToken 32.
Definition mintInviteToken := mint TOKEN_PREFIX_invite 32.
Definition mintRefreshToken := mint "ttr_" 48.
Definition verifyTokenHash (presentedToken storedHash : string) : bool :=
  let presented := hex_decode (sha256Hex presentedToken) in
  let stored := hex_decode storedHash in
  (String.length presented =? String.length stored)%nat && String.eqb presented stored.

(** ** crypto.ts *)
Definition IV_LENGTH : nat := 12.
Definition TAG_LENGTH : nat := 16.
Definition keyRingFromEnv (masterKeyBase64 : string) : js MasterKeyRing :=
  let key := base64_decode masterKeyBase64 in
  if (String.length key =? 32)%nat then Ok {[ 0 := key ]}
  else Throw "TOKENLEDGER_MASTER_KEY must decode to exactly 32 bytes".
(** [Math.max(...ring.keys.keys())]; no key at all makes createCipheriv throw. *)
Definition max_key (ring : MasterKeyRing) : option Z :=
  map_fold (fun k _ acc => Some (match acc with Some m => Z.max k m | None => k end)) None ring.
Definition encryptSecret (iv : string) (plaintext : string) (ring : MasterKeyRing) : js string :=
  match (keyId ← max_key ring; key ← ring !! keyId; Some (keyId, key)) with
  | None => Throw "Invalid key"
  | Some (keyId, key) =>
      let '(ciphertext, tag) := gcm_encrypt P key iv plaintext in
      Ok (String (char_of (keyId mod 256)) (iv +:+ ciphertext +:+ tag))
  end.
Definition decryptSecret (envelope : string) (ring : MasterKeyRing) : js string :=
  let n := String.length envelope in
  if (n <? 1 + IV_LENGTH + TAG_LENGTH)%nat then Throw "Invalid secret envelope"
  else
    let keyId := byte_at 0 envelope in
    match ring !! keyId with
    | None => Throw ("Unknown master key id " +:+ dec keyId +:+ " — was the key rotated away?")
    | Some key =>
        let iv := slice_to IV_LENGTH (slice_from 1 envelope) in
        let tag := slice_from (n - TAG_LENGTH) envelope in
        let ciphertext := slice_from (1 + IV_LENGTH) (slice_to (n - TAG_LENGTH) envelope) in
        p ← gcm_decrypt P key iv ciphertext tag; Ok (utf8_decode p)
    end.

(** ** password.ts *)
Definition SCRYPT_N : Z := 2 ^ 15.
Definition SCRYPT_R : Z := 8.
Definition SCRYPT_P : Z := 1.
Definition KEYLEN : Z := 32.
Definition hashPassword (salt password : string) : js string :=
  hash ← scrypt P password salt KEYLEN SCRYPT_N SCRYPT_R SCRYPT_P;
  Ok (join "$" ["scrypt"; dec SCRYPT_N; dec SCRYPT_R; dec SCRYPT_P; base64_encode salt; base64_encode hash]).
(** [Number(s)] on the digits the hash holds; anything else makes scrypt throw. *)
Definition scrypt_params (a b c : string) : js (Z * Z * Z) :=
  if all_digits a && all_digits b && all_digits c
  then Ok (digits_val a, digits_val b, digits_val c) else Throw "Invalid scrypt params".
Definition verifyPassword (password stored : string) : js bool :=
  match split_on "$" stored with
  | [scheme; nStr; rStr; pStr; saltB64; hashB64] =>
      if negb (String.eqb scheme "scrypt") then Ok false
      else
        let salt := base64_decode saltB64 in
        let expected := base64_decode hashB64 in
        '(n, r, p) ← scrypt_params nStr rStr pStr;
        actual ← scrypt P password salt (Z.of_nat (String.length expected)) n r p;
        Ok ((String.length actual =? String.length expected)%nat && String.eqb actual expected)
  | _ => Ok false
  end.

End auth.

(** ** jwt.ts *)
Record AccessClaims := mkClaims { cl_sub : string; cl_email : string }.
Definition ISSUER : string := "tokenledger".
Definition ACCESS_TOKEN_TTL_S : Z := 15 * 60.
Definition REFRESH_TOKEN_TTL_S : Z := 30 * 24 * 60 * 60.
(** jose: [SignJWT] over a payload, [jwtVerify] with the expected issuer at a
    time in seconds. *)
Record Jose := mkJose {
  jose_sign : json -> string -> string;
  jose_verify : string -> string -> string -> Z -> js json;
}.
Section jwt.
Context (J : Jose).
Definition signAccessToken (claims : AccessClaims) (secret : string) (now ttlSeconds : Z) : string :=
  jose_sign J (JObj [("email", JStr (cl_email claims)); ("sub", JStr (cl_sub claims));
                     ("iss", JStr ISSUER); ("iat", JNum (NInt now));
                     ("exp", JNum (NInt (now + ttlSeconds)))]) secret.
Definition verifyAccessToken (token secret : string) (now : Z) : option AccessClaims :=
  match jose_verify J token secret ISSUER now with
  | Ok payload =>
      match field payload "sub", field payload "email" with
      | Some (JStr sub), Some (JStr email) => Some (mkClaims sub email)
      | _, _ => None
      end
  | Throw _ => None
  end.
End jwt.

(** ** Facts about the encodings *)
Section encodings.

Lemma b64_round z : 0 <= z < 64 -> b64_val (b64_char z) = Some z.
Proof.
  intros Hz.
  assert (forallb (fun n => bool_decide (b64_val (b64_char (Z.of_nat n)) = Some (Z.of_nat n))) (seq 0 64)
          = true) as H by (vm_compute; reflexivity).
  rewrite forallb_forall in H. specialize (H (Z.to_nat z) ltac:(apply in_seq; lia)).
  apply bool_decide_eq_true in H. by rewrite Z2Nat.id in H by lia.
Qed.
Lemma sextets_char z r : 0 <= z < 64 -> sextets (String (b64_char z) r) = z :: sextets r.
Proof.
  intros Hz. cbn [sextets]. rewrite b64_round by done.
  destruct (Ascii.eqb_spec (b64_char z) "="%char) as [E|]; [|done].
  pose proof (b64_round z Hz) as H. rewrite E in H. discriminate H.
Qed.
Lemma div_bound x n k : 0 <= x < n * k -> 0 < n -> 0 <= x / n < k.
Proof. intros. split; [apply Z.div_pos; lia | apply Z.div_lt_upper_bound; lia]. Qed.

(** Three bytes are four sextets and back. *)
Lemma byte_triple x y z :
  0 <= x < 256 -> 0 <= y < 256 -> 0 <= z < 256 ->
  x / 4 * 4 + (x mod 4 * 16 + y / 16) / 16 = x /\
  (x mod 4 * 16 + y / 16) mod 16 * 16 + (y mod 16 * 4 + z / 64) / 4 = y /\
  (y mod 16 * 4 + z / 64) mod 4 * 64 + z mod 64 = z.
Proof.
  intros Hx Hy Hz.
  pose proof (div_bound y 16 16 ltac:(lia) ltac:(lia)). pose proof (div_bound z 64 4 ltac:(lia) ltac:(lia)).
  pose proof (Z.mod_pos_bound x 4 ltac:(lia)). pose proof (Z.mod_pos_bound y 16 ltac:(lia)).
  pose proof (Z.div_mod x 4 ltac:(lia)). pose proof (Z.div_mod y 16 ltac:(lia)).
  pose proof (Z.div_mod z 64 ltac:(lia)).
  rewrite (Z.div_add_l (x mod 4) 16 (y / 16)) by lia.
  rewrite (Z.add_comm (x mod 4 * 16)), Z.mod_add, (Z.mod_small (y / 16)), (Z.div_small (y / 16)) by lia.
  rewrite (Z.div_add_l (y mod 16) 4 (z / 64)) by lia.
  rewrite (Z.add_comm (y mod 16 * 4)), Z.mod_add, (Z.mod_small (z / 64)), (Z.div_small (z / 64)) by lia.
  lia.
Qed.
Lemma sextet_bounds x y :
  0 <= x < 256 -> 0 <= y < 256 ->
  0 <= x / 4 < 64 /\ 0 <= x mod 4 * 16 + y / 16 < 64 /\ 0 <= x mod 16 * 4 + y / 64 < 64 /\
  0 <= x mod 64 < 64.
Proof.
  intros Hx Hy.
  pose proof (div_bound x 4 64 ltac:(lia) ltac:(lia)). pose proof (div_bound y 16 16 ltac:(lia) ltac:(lia)).
  pose proof (div_bound y 64 4 ltac:(lia) ltac:(lia)). pose proof (Z.mod_pos_bound x 4 ltac:(lia)).
  pose proof (Z.mod_pos_bound x 16 ltac:(lia)). pose proof (Z.mod_pos_bound x 64 ltac:(lia)). lia.
Qed.

Lemma base64_roundtrip s : base64_decode (base64_encode s) = s.
Proof.
  unfold base64_decode.
  remember (String.length s) as n eqn:Hn. revert s Hn.
  induction n as [n IH] using lt_wf_ind; intros s ->.
  destruct s as [|a [|b [|c r]]]; [done| | |];
    pose proof (code_bound a) as Ha; try pose proof (code_bound b) as Hb; try pose proof (code_bound c) as Hc.
  - destruct (sextet_bounds (code a) 0 Ha ltac:(lia)) as (H1 & H2 & _).
    cbn [base64_encode]. rewrite Z.div_0_l, Z.add_0_r in H2 by lia.
    rewrite !sextets_char by lia. cbn [sextets Ascii.eqb Bool.eqb from_sextets].
    destruct (byte_triple (code a) 0 0) as (E & _); [lia..|]. rewrite Z.div_0_l, Z.add_0_r in E by lia.
    by rewrite E, char_of_code.
  - destruct (sextet_bounds (code a) (code b) Ha Hb) as (H1 & H2 & _).
    destruct (sextet_bounds (code b) 0 Hb ltac:(lia)) as (_ & _ & H3 & _).
    cbn [base64_encode]. rewrite Z.div_0_l, Z.add_0_r in H3 by lia.
    rewrite !sextets_char by lia. cbn [sextets Ascii.eqb Bool.eqb from_sextets].
    destruct (byte_triple (code a) (code b) 0) as (E1 & E2 & _); [lia..|].
    rewrite Z.div_0_l, Z.add_0_r in E2 by lia. by rewrite E1, E2, !char_of_code.
  - destruct (sextet_bounds (code a) (code b) Ha Hb) as (H1 & H2 & _).
    destruct (sextet_bounds (code b) (code c) Hb Hc) as (_ & _ & H3 & _).
    destruct (sextet_bounds (code c) 0 Hc ltac:(lia)) as (_ & _ & _ & H4).
    cbn [base64_encode]. rewrite !sextets_char by done. cbn [from_sextets].
    destruct (byte_triple (code a) (code b) (code c) Ha Hb Hc) as (E1 & E2 & E3).
    rewrite E1, E2, E3, !char_of_code, (IH (String.length r)) by (cbn; lia). done.
Qed.
Lemma base64_no_dollar s : no_char "$" (base64_encode s) = true.
Proof.
  assert (forall z, Ascii.eqb (b64_char z) "$" = false) as Hb.
  { intros z. unfold b64_char.
    destruct (Nat.lt_ge_cases (Z.to_nat z) 64) as [Hlt|Hge].
    - assert (forallb (fun n => negb (Ascii.eqb (nth n (String.list_ascii_of_string B64) "="%char) "$"))
                (seq 0 64) = true) as H by (vm_compute; reflexivity).
      rewrite forallb_forall in H. apply negb_true_iff, H, in_seq. lia.
    - by rewrite nth_overflow by (cbn; lia). }
  remember (String.length s) as n eqn:Hn. revert s Hn.
  induction n as [n IH] using lt_wf_ind; intros s ->. unfold no_char.
  destruct s as [|a [|b [|c r]]]; cbn [base64_encode sforall]; rewrite ?Hb; cbn; [done..|].
  apply (IH (String.length r)); [cbn; lia|done].
Qed.

(** Lower-case hex text of even length determines the bytes and back. *)
Lemma hex_pair_inj a b c d :
  is_digit a || in_range 97 102 a = true -> is_digit b || in_range 97 102 b = true ->
  is_digit c || in_range 97 102 c = true -> is_digit d || in_range 97 102 d = true ->
  char_of (hex_val a * 16 + hex_val b) = char_of (hex_val c * 16 + hex_val d) -> a = c /\ b = d.
Proof.
  intros Ha Hb Hc Hd H.
  assert (forall x, is_digit x || in_range 97 102 x = true ->
    0 <= hex_val x < 16 /\ code x = (if hex_val x <? 10 then hex_val x + 48 else hex_val x + 87)) as Hv.
  { intros x Hx. unfold hex_val. unfold is_digit, in_range in *.
    destruct ((48 <=? code x) && (code x <=? 57)) eqn:E1; bool_to_prop.
    - rewrite (proj2 (Z.ltb_lt _ 10)) by lia. lia.
    - cbn in Hx. rewrite Hx. bool_to_prop. rewrite (proj2 (Z.ltb_ge _ 10)) by lia. lia. }
  apply (f_equal code) in H.
  destruct (Hv a Ha) as [Ba Ea], (Hv b Hb) as [Bb Eb], (Hv c Hc) as [Bc Ec], (Hv d Hd) as [Bd Ed].
  rewrite !code_char_of in H by lia.
  assert (hex_val a = hex_val c) as E1 by lia. assert (hex_val b = hex_val d) as E2 by lia.
  rewrite E1 in Ea. rewrite E2 in Eb. rewrite <- Ec in Ea. rewrite <- Ed in Eb.
  by rewrite <- (char_of_code a), <- (char_of_code b), Ea, Eb, !char_of_code.
Qed.
Lemma is_hex_lower c : is_digit c || in_range 97 102 c = true -> is_hex c = true.
Proof. unfold is_hex. by intros ->. Qed.
Lemma hex_decode_inj n s t :
  String.length s = (2 * n)%nat -> String.length t = (2 * n)%nat ->
  sforall (fun c => is_digit c || in_range 97 102 c) s = true ->
  sforall (fun c => is_digit c || in_range 97 102 c) t = true ->
  hex_decode s = hex_decode t -> s = t.
Proof.
  revert s t; induction n as [|n IH]; intros s t Hs Ht Fs Ft; [by destruct s, t|].
  destruct s as [|a [|b s]]; cbn in Hs; try lia. destruct t as [|c [|d t]]; cbn in Ht; try lia.
  cbn [sforall] in Fs, Ft.
  apply andb_true_iff in Fs as [Fa [Fb Fs]%andb_true_iff].
  apply andb_true_iff in Ft as [Fc [Fd Ft]%andb_true_iff].
  cbn [hex_decode]. rewrite !is_hex_lower by done. cbn [andb]. intros [= H1 H2].
  destruct (hex_pair_inj a b c d) as [-> ->]; try done. do 2 f_equal. apply IH; try done; lia.
Qed.

End encodings.

Section minting.

(** The bytes rejection sampling accepts, and the characters they give. *)
Definition accepted (bytes : list Z) : list ascii :=
  map base62_char (List.filter (fun b => b <? 248) bytes).

Lemma take_block_spec n out block :
  (List.length out < n)%nat -> take_block n out block = take n (out ++ accepted block).
Proof.
  revert out; induction block as [|b bs IH]; intros out Hl; cbn [take_block].
  - unfold accepted; cbn. rewrite app_nil_r, take_ge by lia. done.
  - unfold accepted; cbn [List.filter]. destruct (b <? 248) eqn:Eb; [|by apply IH].
    cbn [map]. destruct (Nat.eqb_spec (List.length (out ++ [base62_char b])) n) as [He|Hne].
    + rewrite (cons_middle _ out (map _ _)), (app_assoc out), take_app_length' by congruence. done.
    + rewrite IH, <- app_assoc; [done|]. rewrite length_app in *; cbn in *. lia.
Qed.
Lemma base62_loop_spec n out blocks :
  (List.length out <= n)%nat ->
  base62_loop n out blocks =
  if (n <=? List.length (out ++ accepted (concat blocks)))%nat
  then Some (take n (out ++ accepted (concat blocks))) else None.
Proof.
  revert out; induction blocks as [|b bs IH]; intros out Hl; cbn [base62_loop concat].
  - unfold accepted; cbn. rewrite app_nil_r. destruct (Nat.leb_spec n (List.length out)); [|done].
    by rewrite take_ge by lia.
  - assert (accepted (b ++ concat bs) = accepted b ++ accepted (concat bs)) as ->
      by (unfold accepted; by rewrite List.filter_app, map_app).
    destruct (Nat.leb_spec n (List.length out)) as [Hge|Hlt].
    + rewrite !length_app, (proj2 (Nat.leb_le _ _)) by lia.
      by rewrite take_app_le, take_ge by lia.
    + rewrite take_block_spec, IH by (rewrite ?length_take; lia).
      rewrite app_assoc. set (x := out ++ accepted b).
      destruct (Nat.le_gt_cases n (List.length x)) as [Hx|Hx].
      * rewrite !length_app, length_take, (proj2 (Nat.leb_le n _)), (proj2 (Nat.leb_le n _)) by lia.
        rewrite !take_app_le by (rewrite ?length_take; lia). by rewrite take_take, Nat.min_id.
      * by rewrite (take_ge x) by lia.
Qed.

Lemma length_list_of_string s : List.length (String.list_ascii_of_string s) = String.length s.
Proof. induction s as [|c s IH]; cbn; congruence. Qed.
Lemma length_string_of_list l : String.length (String.string_of_list_ascii l) = List.length l.
Proof. induction l as [|c l IH]; cbn; congruence. Qed.

End minting.

Section envelopes.
Context (P : Primitives) `{!PrimitivesOk P}.

Lemma max_key_spec ring :
  match max_key ring with
  | None => ring = ∅
  | Some m => is_Some (ring !! m) /\ forall k, is_Some (ring !! k) -> k <= m
  end.
Proof.
  unfold max_key. apply (map_fold_weak_ind (fun acc ring =>
    match acc with
    | None => ring = ∅
    | Some m => is_Some (ring !! m) /\ forall k, is_Some (ring !! k) -> k <= m
    end)); [done|].
  intros k v r [m|] Hk; [intros [Hm Hmax] | intros ->].
  - split.
    + destruct (Z.max_spec k m) as [[_ ->]|[_ ->]]; [|by rewrite lookup_insert_eq].
      destruct (decide (k = m)) as [->|]; [by rewrite lookup_insert_eq|by rewrite lookup_insert_ne].
    + intros j. destruct (decide (k = j)) as [->|]; [lia|]. rewrite lookup_insert_ne by done.
      intros Hj%Hmax. lia.
  - split; [by rewrite lookup_insert_eq|]. intros j. destruct (decide (k = j)) as [->|]; [lia|].
    rewrite lookup_insert_ne, lookup_empty by done. by intros [? [=]].
Qed.

Lemma decrypt_envelope ring keyId key iv p :
  ring !! keyId = Some key -> 0 <= keyId < 256 -> String.length iv = IV_LENGTH ->
  decryptSecret P (String (char_of (keyId mod 256))
    (iv +:+ (gcm_encrypt P key iv p).1 +:+ (gcm_encrypt P key iv p).2)) ring = Ok (utf8_decode p).
Proof.
  intros Hk Hid Hiv. destruct (gcm_encrypt P key iv p) as [ct tag] eqn:E.
  pose proof (gcm_tag key iv p) as Ht. pose proof (gcm_correct key iv p) as Hd. rewrite E in Ht, Hd.
  cbn [fst snd] in *. unfold decryptSecret, IV_LENGTH, TAG_LENGTH in *.
  cbn [String.length]. rewrite !length_string_app, Hiv, Ht.
  rewrite (proj2 (Nat.ltb_ge _ _)) by lia.
  unfold byte_at. cbn [String.get]. rewrite code_char_of by (apply Z.mod_pos_bound; lia).
  rewrite Z.mod_small, Hk by lia.
  set (env := String (char_of keyId) (iv +:+ ct +:+ tag)).
  assert (env = (String (char_of keyId) (iv +:+ ct)) +:+ tag) as Henv
    by (subst env; cbn; by rewrite string_app_assoc).
  assert (S (12 + (String.length ct + 16)) - 16 = String.length (String (char_of keyId) (iv +:+ ct)))%nat as ->
    by (cbn [String.length]; rewrite length_string_app; lia).
  rewrite Henv, slice_from_app, slice_to_app, <- Henv.
  change (slice_from 1 env) with (iv +:+ ct +:+ tag).
  change (slice_from (1 + 12) (String (char_of keyId) (iv +:+ ct))) with (slice_from 12 (iv +:+ ct)).
  rewrite <- Hiv, slice_from_app, slice_to_app. by rewrite Hd.
Qed.

End envelopes.

(** ** Theorems *)

(** A random token body is the first [length] accepted bytes of the random
    source, in order, wherever the blocks are cut; every character of the
    alphabet comes from exactly four of the accepted byte values, so uniform
    bytes give uniform characters; and the loop ends as soon as the source has
    yielded enough accepted bytes. *)
Theorem random_base62_unbiased length blocks :
  (forall s, randomBase62 length blocks = Some s ->
     s = String.string_of_list_ascii (take length (accepted (concat blocks))) /\
     String.length s = length) /\
  ((length <= List.length (accepted (concat blocks)))%nat -> is_Some (randomBase62 length blocks)) /\
  (forall c, c ∈ String.list_ascii_of_string BASE62 ->
     List.length (List.filter (fun b : Z => (b <? 248) && Ascii.eqb (base62_char b) c)
       (map Z.of_nat (seq 0 256))) = 4%nat).
Proof.
  unfold randomBase62. rewrite base62_loop_spec by (cbn; lia). rewrite app_nil_l. split_and!.
  - intros s. destruct (Nat.leb_spec length (List.length (accepted (concat blocks)))); cbn; [|done].
    intros [= <-]. split; [done|]. rewrite length_string_of_list, length_take. lia.
  - intros H. rewrite (proj2 (Nat.leb_le _ _) H). by eexists.
  - assert (forallb (fun c : ascii => Nat.eqb (List.length (List.filter
       (fun b : Z => (b <? 248) && Ascii.eqb (base62_char b) c) (map Z.of_nat (seq 0 256)))) 4) (String.list_ascii_of_string BASE62) = true) as H
      by (vm_compute; reflexivity).
    rewrite forallb_forall in H. intros c Hc%list_elem_of_In. apply Nat.eqb_eq. by apply H.
Qed.

Lemma random_base62_unbiased_witness :
  exists s, randomBase62 3 [[255; 10]; [250; 61; 247; 9]] = Some s /\ s = "Azz".
Proof.
  destruct (proj1 (proj2 (random_base62_unbiased 3 [[255; 10]; [250; 61; 247; 9]])))
    as [s Hs]; [vm_compute; lia|].
  exists s. split; [exact Hs|].
  destruct (proj1 (random_base62_unbiased 3 [[255; 10]; [250; 61; 247; 9]]) s Hs) as [-> _].
  vm_compute. reflexivity.
Defined.

(** C31: A sealed credential opens to the text that was sealed with the ring that
    sealed it and with every ring that still has its key, so adding a newer
    master key keeps old envelopes readable while new ones use the newest key;
    with that key gone the envelope is refused by name. *)
Theorem envelope_roundtrip (P : Primitives) `{!PrimitivesOk P} ring iv plaintext :
  utf8_decode plaintext = plaintext -> String.length iv = IV_LENGTH -> ring <> ∅ ->
  (forall k, is_Some (ring !! k) -> 0 <= k < 256) ->
  exists keyId key envelope,
    ring !! keyId = Some key /\ (forall k, is_Some (ring !! k) -> k <= keyId) /\
    encryptSecret P iv plaintext ring = Ok envelope /\
    (forall ring', ring' !! keyId = Some key -> decryptSecret P envelope ring' = Ok plaintext) /\
    (forall ring', ring' !! keyId = None -> decryptSecret P envelope ring' =
       Throw ("Unknown master key id " +:+ dec keyId +:+ " — was the key rotated away?")).
Proof.
  intros Htext Hiv Hne Hids. pose proof (max_key_spec ring) as Hmax.
  destruct (max_key ring) as [keyId|] eqn:Emax; [|done].
  destruct Hmax as ([key Hkey] & Hmax). pose proof (Hids keyId ltac:(eauto)) as Hid.
  exists keyId, key. eexists. split_and!; [done|done| | |].
  - unfold encryptSecret. rewrite Emax; cbn. rewrite Hkey; cbn.
    rewrite (surjective_pairing (gcm_encrypt P key iv plaintext)). reflexivity.
  - intros ring' Hr. rewrite (decrypt_envelope P ring' keyId key iv plaintext Hr Hid Hiv).
    by rewrite Htext.
  - intros ring' Hr. unfold decryptSecret. cbn [String.length].
    rewrite !length_string_app, Hiv, gcm_tag. unfold IV_LENGTH, TAG_LENGTH.
    rewrite (proj2 (Nat.ltb_ge _ _)) by lia. unfold byte_at; cbn [String.get].
    rewrite code_char_of by (apply Z.mod_pos_bound; lia). by rewrite Z.mod_small, Hr by lia.
Qed.

(** Stand-ins that satisfy [PrimitivesOk]: a cipher that is the identity with a
    constant tag, a constant digest, and a key derivation that repeats a byte. *)
Definition toy_primitives : Primitives :=
  mkPrimitives (fun _ => repeat_char "a" 64) (fun _ _ p => (p, repeat_char "t" 16))
    (fun _ _ c _ => Ok c)
    (fun pw _ len _ _ _ => Ok (repeat_char (match pw with String c _ => c | "" => "0"%char end) (Z.to_nat len))).
#[export] Instance toy_ok : PrimitivesOk toy_primitives.
Proof.
  split.
  - intros s. split; reflexivity.
  - reflexivity.
  - reflexivity.
  - cbn. intros pw salt len n r p h Hlen [= <-]. rewrite repeat_char_length. lia.
Qed.
Definition toy_ring : gmap Z string := {[ 0 := "old"; 1 := "new" ]}.

Lemma envelope_roundtrip_witness :
  exists envelope, encryptSecret toy_primitives "iviviviviviv" "sk-secret" toy_ring = Ok envelope /\
    decryptSecret toy_primitives envelope toy_ring = Ok "sk-secret".
Proof.
  destruct (envelope_roundtrip toy_primitives toy_ring "iviviviviviv" "sk-secret")
    as (k & key & env & Hk & _ & He & Hd & _).
  - vm_compute. reflexivity.
  - reflexivity.
  - vm_compute. discriminate.
  - intros k [v Hv]. unfold toy_ring in Hv. apply lookup_insert_Some in Hv as [[<- _]|[_ Hv]]; [lia|].
    apply lookup_singleton_Some in Hv as [<- _]. lia.
  - exists env. split; [exact He | apply Hd; exact Hk].
Defined.

(** A stored password verifies exactly the passwords that derive the stored
    key: the one that was hashed always, any other only if the key derivation
    collides on it. *)
Theorem password_roundtrip (P : Primitives) `{!PrimitivesOk P} salt password other stored key :
  scrypt P password salt KEYLEN SCRYPT_N SCRYPT_R SCRYPT_P = Ok key ->
  hashPassword P salt password = Ok stored ->
  verifyPassword P password stored = Ok true /\
  verifyPassword P other stored =
    (k ← scrypt P other salt KEYLEN SCRYPT_N SCRYPT_R SCRYPT_P; Ok (String.eqb k key)).
Proof.
  intros Hk Hs. unfold hashPassword in Hs. rewrite Hk in Hs. cbn [mbind result_bind] in Hs.
  injection Hs as <-.
  assert (forall pw, verifyPassword P pw (join "$" ["scrypt"; dec SCRYPT_N; dec SCRYPT_R; dec SCRYPT_P;
      base64_encode salt; base64_encode key])
    = (k ← scrypt P pw salt KEYLEN SCRYPT_N SCRYPT_R SCRYPT_P; Ok (String.eqb k key))) as Hv.
  { intros pw. unfold verifyPassword. rewrite split_join.
    2: done.
    2: { repeat (apply Forall_cons; split; [first [reflexivity | apply base64_no_dollar]|]). constructor. }
    cbn [String.eqb Ascii.eqb Bool.eqb negb]. rewrite !base64_roundtrip.
    change (scrypt_params (dec SCRYPT_N) (dec SCRYPT_R) (dec SCRYPT_P)) with (Ok (E := string) (SCRYPT_N, SCRYPT_R, SCRYPT_P)).
    cbn [mbind result_bind].
    pose proof (scrypt_length password salt KEYLEN _ _ _ key ltac:(unfold KEYLEN; lia) Hk) as Hl. rewrite Hl.
    destruct (scrypt P pw salt KEYLEN SCRYPT_N SCRYPT_R SCRYPT_P) as [k|] eqn:Ek; [|done].
    pose proof (scrypt_length pw salt KEYLEN _ _ _ k ltac:(unfold KEYLEN; lia) Ek) as Hl'.
    cbn [mbind result_bind]. by rewrite (proj2 (Nat.eqb_eq _ _)) by lia. }
  split; rewrite Hv; [|done]. rewrite Hk. cbn. by rewrite String.eqb_refl.
Qed.

Lemma password_roundtrip_witness :
  exists stored, hashPassword toy_primitives "salt" "hunter2" = Ok stored /\
    verifyPassword toy_primitives "hunter2" stored = Ok true /\
    verifyPassword toy_primitives "guess" stored = Ok false.
Proof.
  eexists. split; [reflexivity|].
  destruct (password_roundtrip toy_primitives "salt" "hunter2" "guess" _ _ eq_refl eq_refl) as [H1 H2].
  split; [exact H1|]. rewrite H2. vm_compute. reflexivity.
Defined.

(** The constant-time comparison accepts a presented token exactly when its
    digest is the stored one, for every digest the service stores. *)
Theorem token_hash_check (P : Primitives) `{!PrimitivesOk P} presented minted :
  verifyTokenHash P presented (sha256Hex P minted) = true <->
  sha256Hex P presented = sha256Hex P minted.
Proof.
  unfold verifyTokenHash, sha256Hex. rewrite andb_true_iff, Nat.eqb_eq, String.eqb_eq.
  destruct (sha_hex presented) as [Hl1 Hh1], (sha_hex minted) as [Hl2 Hh2]. split.
  - intros [_ H]. by apply (hex_decode_inj 32).
  - by intros ->.
Qed.
