(* ===== verification/Pricing.v ===== *)
(** * packages/pricing, packages/db seed, gateway pricing source

    [matcher.ts] (which price applies to a model), [calculator.ts] (exact cost
    in picodollars), the bundled catalog [seed/pricing.ts] and the gateway's
    catalog holder [apps/gateway/src/pricing.ts]. *)

From S2P Require Import Prelude JsString JsNum Json Shared.
From Stdlib Require Import Ascii.

(** ** matcher.ts *)
Inductive PriceSource := SEED | SYNC | MANUAL | OVERRIDE.
#[global] Instance PriceSource_eq_dec : EqDecision PriceSource.
Proof. solve_decision. Defined.

Record PriceEntry := mkPriceEntry {
  pe_provider : Provider;
  modelPattern : string;
  inputPerMtok : string;
  outputPerMtok : string;
  cacheReadPerMtok : string;
  cacheWritePerMtok : string;
  pe_source : PriceSource;
}.
#[global] Instance PriceEntry_eq_dec : EqDecision PriceEntry.
Proof. solve_decision. Defined.

Definition patternPrefix (pattern : string) : option string :=
  if negb (ends_with "*" pattern) then None else Some (slice_drop_last 1 pattern).

(** The loop of [findIn] over the entries left, with its two variables. *)
Fixpoint findIn_loop (provider : Provider) (model : string) (entries : list PriceEntry)
    (bestPrefix : option PriceEntry) (bestPrefixLen : Z) : option PriceEntry :=
  match entries with
  | [] => bestPrefix
  | entry :: rest =>
      if negb (provider_eqb (pe_provider entry) provider)
      then findIn_loop provider model rest bestPrefix bestPrefixLen
      else if String.eqb (modelPattern entry) model then Some entry
      else match patternPrefix (modelPattern entry) with
           | Some prefix =>
               if starts_with prefix model && (bestPrefixLen <? Z.of_nat (String.length prefix))
               then findIn_loop provider model rest (Some entry) (Z.of_nat (String.length prefix))
               else findIn_loop provider model rest bestPrefix bestPrefixLen
           | None => findIn_loop provider model rest bestPrefix bestPrefixLen
           end
  end.
Definition findIn (entries : list PriceEntry) (provider : Provider) (model : string)
  : option PriceEntry := findIn_loop provider model entries None (-1).
Definition matchPrice (provider : Provider) (model : string) (catalog overrides : list PriceEntry)
  : option PriceEntry := or_else (findIn overrides provider model) (findIn catalog provider model).

(** ** calculator.ts *)
Record TokenCounts := mkTokenCounts {
  tc_input : number;
  tc_output : number;
  tc_cacheRead : option number;
  tc_cacheWrite : option number;
}.

Definition microUsdPerMtok (decimal : string) : js Z :=
  match match_decimal decimal with
  | Some (whole, frac) =>
      if (6 <? String.length (frac ?? ""))%nat
      then Throw ("Invalid price '" +:+ decimal +:+ "': expected ≤ 6 decimal places")
      else Ok (digits_val whole * 1000000 + digits_val (pad_end (frac ?? "") 6 "0"))
  | None => Throw ("Invalid price '" +:+ decimal +:+ "': expected ≤ 6 decimal places")
  end.

Definition tokenCostPico (tokens : number) (perMtok : string) : js Z :=
  if num_is_zero tokens then Ok 0
  else match num_nonneg_int tokens with
       | None => Throw ("Token count must be a non-negative integer, got "
                        +:+ number_to_string tokens)
       | Some t => price ← microUsdPerMtok perMtok; Ok (t * price)
       end.

(** BigInt [/] and [%] truncate towards zero. *)
Definition formatPicoUsd (pico : Z) : string :=
  let scale := 1000000000000 in
  let whole := pico ÷ scale in
  let fracPico := Z.rem pico scale in
  let frac8 := pad_start (dec_signed (fracPico ÷ 10000)) 8 "0" in
  dec_signed whole +:+ "." +:+ frac8.

Definition calculatePico (tokens : TokenCounts) (price : PriceEntry) : js Z :=
  a ← tokenCostPico (tc_input tokens) (inputPerMtok price);
  b ← tokenCostPico (tc_output tokens) (outputPerMtok price);
  c ← tokenCostPico (tc_cacheRead tokens ?? NInt 0) (cacheReadPerMtok price);
  d ← tokenCostPico (tc_cacheWrite tokens ?? NInt 0) (cacheWritePerMtok price);
  Ok (a + b + c + d).
Definition calculateCostUsd (tokens : TokenCounts) (price : PriceEntry) : js string :=
  pico ← calculatePico tokens price; Ok (formatPicoUsd pico).

(** ** packages/db/src/seed/pricing.ts *)
Record PriceSeed := mkPriceSeed {
  ps_provider : Provider;
  ps_pattern : string;
  ps_input : number;
  ps_output : number;
  ps_cacheRead : option number;
  ps_cacheWrite : option number;
}.
Definition PRICING_SEED : list PriceSeed :=
  let d (m k : Z) := NDec m (Z.to_pos k) in
  let i (z : Z) := NInt z in
  [ mkPriceSeed ANTHROPIC "claude-opus-4*" (i 15) (i 75) (Some (d 15 1)) (Some (d 1875 2));
    mkPriceSeed ANTHROPIC "claude-sonnet-4*" (i 3) (i 15) (Some (d 3 1)) (Some (d 375 2));
    mkPriceSeed ANTHROPIC "claude-haiku-4*" (i 1) (i 5) (Some (d 1 1)) (Some (d 125 2));
    mkPriceSeed ANTHROPIC "claude-3-5-haiku*" (d 8 1) (i 4) (Some (d 8 2)) (Some (i 1));
    mkPriceSeed OPENAI "gpt-4o" (d 25 1) (i 10) (Some (d 125 2)) None;
    mkPriceSeed OPENAI "gpt-4o-mini" (d 15 2) (d 6 1) (Some (d 75 3)) None;
    mkPriceSeed OPENAI "gpt-4.1*" (i 2) (i 8) (Some (d 5 1)) None;
    mkPriceSeed OPENAI "o3*" (i 2) (i 8) (Some (d 5 1)) None;
    mkPriceSeed OPENAI "text-embedding-3-small" (d 2 2) (i 0) None None;
    mkPriceSeed GEMINI "gemini-2.5-pro*" (d 125 2) (i 10) (Some (d 31 2)) None;
    mkPriceSeed GEMINI "gemini-2.5-flash*" (d 3 1) (d 25 1) (Some (d 75 3)) None;
    mkPriceSeed DEEPSEEK "deepseek-chat" (d 27 2) (d 11 1) (Some (d 7 2)) None;
    mkPriceSeed DEEPSEEK "deepseek-reasoner" (d 55 2) (d 219 2) (Some (d 14 2)) None;
    mkPriceSeed MINIMAX "MiniMax-Text-01" (d 2 1) (d 11 1) None None;
    mkPriceSeed MINIMAX "MiniMax-M1*" (d 4 1) (d 22 1) None None;
    mkPriceSeed OPENROUTER "openrouter/auto" (i 0) (i 0) None None;
    mkPriceSeed OLLAMA "*" (i 0) (i 0) None None ].

(** ** apps/gateway/src/pricing.ts *)
Definition seedCatalog : list PriceEntry :=
  map (fun seed =>
    mkPriceEntry (ps_provider seed) (ps_pattern seed)
      (number_to_string (ps_input seed)) (number_to_string (ps_output seed))
      (number_to_string (ps_cacheRead seed ?? NInt 0))
      (number_to_string (ps_cacheWrite seed ?? NInt 0)) SEED) PRICING_SEED.

(** Rows of [model_price] and [model_price_override] (prices as ::text). *)
Record PriceRow := mkPriceRow {
  row_workspaceId : string;    (** overrides only *)
  row_provider : Provider;
  row_pattern : string;
  row_input : string;
  row_output : string;
  row_cacheRead : string;
  row_cacheWrite : string;
  row_effectiveFrom : Z;       (** catalog only, milliseconds *)
  row_effectiveTo : option Z;
}.
Definition toEntry (source : PriceSource) (row : PriceRow) : PriceEntry :=
  mkPriceEntry (row_provider row) (row_pattern row) (row_input row) (row_output row)
    (row_cacheRead row) (row_cacheWrite row) source.

(** [WHERE "effectiveFrom" <= now() AND ("effectiveTo" IS NULL OR "effectiveTo" > now())] *)
Definition effective (now : Z) (r : PriceRow) : bool :=
  (row_effectiveFrom r <=? now) &&
  match row_effectiveTo r with None => true | Some t => now <? t end.

Record PgPricingSource := mkPgPricing {
  catalogRows : list PriceEntry;
  overridesByWorkspace : gmap string (list PriceEntry);
}.
Definition newPgPricing : PgPricingSource := mkPgPricing seedCatalog ∅.

(** The grouping loop over the override rows. *)
Definition group_overrides (rows : list PriceRow) : gmap string (list PriceEntry) :=
  fold_left (fun byWs row =>
    let list := byWs !! row_workspaceId row ?? [] in
    <[row_workspaceId row := list ++ [toEntry OVERRIDE row]]> byWs) rows ∅.

(** [refresh]: the two queries answer with rows or reject; on rejection the
    caller logs and the snapshot stays. *)
Definition refresh (now : Z) (answer : js (list PriceRow * list PriceRow)) (st : PgPricingSource)
  : PgPricingSource :=
  match answer with
  | Throw _ => st
  | Ok (model_price, model_price_override) =>
      let prices := List.filter (effective now) model_price in
      mkPgPricing
        (match prices with [] => catalogRows st | _ => map (toEntry SYNC) prices end)
        (group_overrides model_price_override)
  end.

Definition pg_match (st : PgPricingSource) (provider : Provider) (model : string)
    (workspaceId : option string) : option PriceEntry :=
  let overrides := match workspaceId with
                   | Some ws => if String.eqb ws "" then [] else overridesByWorkspace st !! ws ?? []
                   | None => []
                   end in
  matchPrice provider model (catalogRows st) overrides.

(** The interface [PricingSource] of types.ts: what the finalizer calls. *)
Class PricingSourceI (S : Type) := {
  price_match : S -> Provider -> string -> option string -> option PriceEntry;
  price_catalog : S -> list PriceEntry;
}.
#[export] Instance PgPricing_source : PricingSourceI PgPricingSource :=
  {| price_match := pg_match; price_catalog := catalogRows |}.
(** [StaticPricingSource]: the bundled catalog, no overrides. *)
Inductive StaticPricingSource := StaticPricing.
#[export] Instance StaticPricing_source : PricingSourceI StaticPricingSource :=
  {| price_match _ provider model _ := matchPrice provider model seedCatalog [];
     price_catalog _ := seedCatalog |}.

(** ** Which entry [findIn] picks *)
Definition applies (provider : Provider) (model : string) (e : PriceEntry) : Prop :=
  pe_provider e = provider /\
  (modelPattern e = model \/
   exists prefix, modelPattern e = prefix +:+ "*" /\ starts_with prefix model = true).
Definition exact_for (provider : Provider) (model : string) (e : PriceEntry) : Prop :=
  pe_provider e = provider /\ modelPattern e = model.
(** The length of the literal part of a pattern. *)
Definition specificity (e : PriceEntry) : nat := String.length (modelPattern e).

(** The reference: the first exact entry; failing that, the first among the
    applicable wildcard entries of greatest length. *)
Definition best_in (entries : list PriceEntry) (provider : Provider) (model : string)
    (e : PriceEntry) : Prop :=
  exists before after, entries = before ++ e :: after /\
  ((exact_for provider model e /\ Forall (fun x => ~ exact_for provider model x) before) \/
   (applies provider model e /\ Forall (fun x => ~ exact_for provider model x) entries /\
    Forall (fun x => applies provider model x -> (specificity x < specificity e)%nat) before /\
    Forall (fun x => applies provider model x -> (specificity x <= specificity e)%nat) after)).
Definition none_in (entries : list PriceEntry) (provider : Provider) (model : string) : Prop :=
  Forall (fun x => ~ applies provider model x) entries.

Section matcher.
Context (provider : Provider) (model : string).

Lemma patternPrefix_spec p prefix : patternPrefix p = Some prefix <-> p = prefix +:+ "*".
Proof.
  unfold patternPrefix. destruct (ends_with "*" p) eqn:E; cbn.
  - apply ends_with_spec in E as [t ->]. change 1%nat with (String.length "*").
    rewrite slice_drop_last_app. split; [by intros [= ->]|].
    intros H. apply (f_equal (slice_drop_last (String.length "*"))) in H.
    rewrite !slice_drop_last_app in H. by rewrite H.
  - split; [done|]. intros ->. exfalso.
    assert (ends_with "*" (prefix +:+ "*") = true) by (apply ends_with_spec; eauto). congruence.
Qed.

(** The entry is a wildcard whose prefix the model has. *)
Definition wild (e : PriceEntry) (n : Z) : Prop :=
  pe_provider e = provider /\
  exists prefix, modelPattern e = prefix +:+ "*" /\ starts_with prefix model = true /\
                 n = Z.of_nat (String.length prefix).

Lemma wild_specificity e n : wild e n -> Z.of_nat (specificity e) = n + 1.
Proof.
  intros (_ & p & Hp & _ & ->). unfold specificity. rewrite Hp, length_string_app. cbn. lia.
Qed.
Lemma applies_cases e :
  applies provider model e <-> exact_for provider model e \/ exists n, wild e n.
Proof. unfold applies, exact_for, wild. naive_solver. Qed.

(** One iteration of the loop, by kind of entry. *)
Lemma findIn_step e rest best len :
  findIn_loop provider model (e :: rest) best len =
  (if bool_decide (exact_for provider model e) then Some e
   else match bool_decide (pe_provider e = provider), patternPrefix (modelPattern e) with
        | true, Some p =>
            if starts_with p model && (len <? Z.of_nat (String.length p))
            then findIn_loop provider model rest (Some e) (Z.of_nat (String.length p))
            else findIn_loop provider model rest best len
        | _, _ => findIn_loop provider model rest best len
        end).
Proof.
  cbn [findIn_loop]. unfold provider_eqb, exact_for.
  destruct (bool_decide (pe_provider e = provider)) eqn:Ep; cbn [negb].
  - apply bool_decide_eq_true in Ep.
    destruct (String.eqb_spec (modelPattern e) model).
    + by rewrite bool_decide_eq_true_2.
    + rewrite bool_decide_eq_false_2 by naive_solver. done.
  - apply bool_decide_eq_false in Ep. by rewrite bool_decide_eq_false_2 by naive_solver.
Qed.

Definition no_exact (l : list PriceEntry) : Prop :=
  Forall (fun x => ~ exact_for provider model x) l.
Definition wild_le (n : Z) (l : list PriceEntry) : Prop :=
  Forall (fun x => forall m, wild x m -> m <= n) l.
Definition wild_lt (n : Z) (l : list PriceEntry) : Prop :=
  Forall (fun x => forall m, wild x m -> m < n) l.

(** What the loop returns from [best], a candidate of length [len]: the first
    exact entry, else the first longest wildcard longer than [len], else
    [best] itself. *)
Definition loop_result (entries : list PriceEntry) (best : option PriceEntry) (len : Z)
    (r : option PriceEntry) : Prop :=
  (exists e before after, r = Some e /\ entries = before ++ e :: after /\
     exact_for provider model e /\ no_exact before)
  \/ (no_exact entries /\ exists e before after n,
       r = Some e /\ entries = before ++ e :: after /\ wild e n /\ len < n /\
       wild_lt n before /\ wild_le n after)
  \/ (no_exact entries /\ r = best /\ wild_le len entries).

Lemma loop_result_skip e rest best len r :
  ~ exact_for provider model e -> (forall m, wild e m -> m <= len) ->
  loop_result rest best len r -> loop_result (e :: rest) best len r.
Proof.
  intros Hex Hlen [(e' & bf & af & -> & -> & ? & ?)
    |[(? & e' & bf & af & n & -> & -> & ? & ? & ? & ?)|(? & -> & ?)]].
  - left. exists e', (e :: bf), af. split_and!; try done. by constructor.
  - right; left. split; [by constructor|]. exists e', (e :: bf), af, n. split_and!; try done.
    constructor; [|done]. intros m Hm. specialize (Hlen m Hm). lia.
  - right; right. split_and!; try done; by constructor.
Qed.

Lemma loop_result_take e rest best len n r :
  ~ exact_for provider model e -> wild e n -> len < n ->
  loop_result rest (Some e) n r -> loop_result (e :: rest) best len r.
Proof.
  intros Hex Hw Hlen [(e' & bf & af & -> & -> & ? & ?)
    |[(? & e' & bf & af & n' & -> & -> & ? & ? & ? & ?)|(? & -> & ?)]].
  - left. exists e', (e :: bf), af. split_and!; try done. by constructor.
  - right; left. split; [by constructor|]. exists e', (e :: bf), af, n'.
    split_and!; try done; [lia|]. constructor; [|done]. intros m Hm.
    pose proof (wild_specificity _ _ Hm). pose proof (wild_specificity _ _ Hw). lia.
  - right; left. split; [by constructor|]. exists e, [], rest, n. split_and!; try done.
    constructor.
Qed.

Lemma findIn_loop_result entries best len :
  loop_result entries best len (findIn_loop provider model entries best len).
Proof.
  revert best len; induction entries as [|e rest IH]; intros best len.
  { right; right. split_and!; constructor. }
  rewrite findIn_step. case_bool_decide as Hex.
  { left. exists e, [], rest. split_and!; try done. constructor. }
  case_bool_decide as Ep; [|apply loop_result_skip; [done | by intros m [? _] | done]].
  assert (forall m, wild e m -> exists p, patternPrefix (modelPattern e) = Some p /\
    starts_with p model = true /\ m = Z.of_nat (String.length p)) as Hw.
  { intros m (_ & p & Hpat & Hs & ->). exists p. by rewrite patternPrefix_spec. }
  destruct (patternPrefix (modelPattern e)) as [p|] eqn:Epat;
    [|apply loop_result_skip; [done | naive_solver | done]].
  destruct (starts_with p model && _) eqn:Hc; bool_to_prop.
  - apply loop_result_take with (n := Z.of_nat (String.length p)); try done.
    split; [done|]. exists p. by rewrite <- patternPrefix_spec.
  - apply loop_result_skip; try done. intros m Hm.
    destruct (Hw m Hm) as (p' & [= <-] & Hs & ->). rewrite Hs in Hc. cbn in Hc. bool_to_prop. lia.
Qed.

Lemma wild_applies e n : wild e n -> applies provider model e.
Proof. intros H. apply applies_cases. eauto. Qed.

(** The loop started empty returns the reference's choice, and nothing
    exactly when nothing applies. *)
Lemma findIn_best entries e :
  findIn entries provider model = Some e -> best_in entries provider model e.
Proof.
  unfold findIn. intros He. pose proof (findIn_loop_result entries None (-1)) as H.
  rewrite He in H. destruct H as [(e' & bf & af & [= <-] & -> & ? & ?)
    |[(Hno & e' & bf & af & n & [= <-] & -> & Hw & ? & Hlt & Hle)|(_ & [=] & _)]].
  - exists bf, af. split; [done|]. by left.
  - exists bf, af. split; [done|]. right.
    assert (no_exact bf /\ no_exact af) as [Hb Ha]
      by (unfold no_exact in *; rewrite Forall_app, Forall_cons in Hno; tauto).
    pose proof (wild_specificity _ _ Hw). split_and!; [by eapply wild_applies | done | |].
    + apply Forall_forall. intros x Hx Hap. unfold no_exact, wild_lt in *.
      rewrite Forall_forall in Hb, Hlt. apply applies_cases in Hap as [|[m Hm]]; [by destruct (Hb x)|].
      specialize (Hlt x Hx m Hm). pose proof (wild_specificity _ _ Hm). lia.
    + apply Forall_forall. intros x Hx Hap. unfold no_exact, wild_le in *.
      rewrite Forall_forall in Ha, Hle. apply applies_cases in Hap as [|[m Hm]]; [by destruct (Ha x)|].
      specialize (Hle x Hx m Hm). pose proof (wild_specificity _ _ Hm). lia.
Qed.
Lemma findIn_none entries :
  findIn entries provider model = None <-> none_in entries provider model.
Proof.
  unfold findIn. pose proof (findIn_loop_result entries None (-1)) as H. split.
  - intros Hn. rewrite Hn in H. destruct H as [(? & ? & ? & [=] & _)
      |[(_ & ? & ? & ? & ? & [=] & _)|(Hno & _ & Hle)]].
    apply Forall_forall. intros x Hx Hap. unfold no_exact, wild_le in *.
    rewrite Forall_forall in Hno, Hle. apply applies_cases in Hap as [|[m Hm]]; [by destruct (Hno x)|].
    specialize (Hle x Hx m Hm). destruct Hm as (_ & ? & _ & _ & ->). lia.
  - unfold none_in. rewrite Forall_forall. intros Hno.
    destruct H as [(e & bf & af & -> & -> & Hex & _)
      |[(_ & e & bf & af & n & -> & -> & Hw & _)|(_ & -> & _)]]; [| |done].
    + exfalso. apply (Hno e); [set_solver|]. apply applies_cases. by left.
    + exfalso. apply (Hno e); [set_solver|]. by eapply wild_applies.
Qed.
End matcher.

Section cost.
Lemma formatPicoUsd_nonneg pico :
  0 <= pico ->
  formatPicoUsd pico = dec (pico / 10 ^ 12) +:+ "." +:+
                       pad_start (dec (pico mod 10 ^ 12 / 10 ^ 4)) 8 "0".
Proof.
  intros H. unfold formatPicoUsd, dec_signed.
  change 1000000000000 with (10 ^ 12). change 10000 with (10 ^ 4).
  pose proof (Z.mod_pos_bound pico (10 ^ 12) ltac:(lia)).
  rewrite Z.quot_div_nonneg, Z.rem_mod_nonneg, (Z.quot_div_nonneg (_ mod _)) by lia.
  rewrite !(proj2 (Z.ltb_ge _ 0)); [done| |]; apply Z.div_pos; lia.
Qed.

(** The fraction is exactly eight digits and worth the truncated rest. *)
Lemma frac8_spec pico :
  0 <= pico ->
  let f := pad_start (dec (pico mod 10 ^ 12 / 10 ^ 4)) 8 "0" in
  String.length f = 8%nat /\ all_digits f = true /\ digits_val f = pico mod 10 ^ 12 / 10 ^ 4.
Proof.
  intros H f. pose proof (Z.mod_pos_bound pico (10 ^ 12) ltac:(lia)).
  assert (0 <= pico mod 10 ^ 12 / 10 ^ 4 < 10 ^ Z.of_nat 8) as Hb.
  { split; [apply Z.div_pos; lia|]. apply Z.div_lt_upper_bound; lia. }
  subst f. split_and!.
  - apply pad_start_length, dec_length_le; [done | lia].
  - apply pad_start_digits, dec_digits. lia.
  - rewrite digits_val_pad_start. apply digits_val_dec. lia.
Qed.

(** The value of a price text in micro-dollars: digits, optionally a point and
    one to six more; the fraction counts in units of its own length. *)
Definition price_text (s : string) (v : Z) : Prop :=
  exists w f, w <> "" /\ all_digits w = true /\ all_digits f = true /\
    (String.length f <= 6)%nat /\ (s = w /\ f = "" \/ s = w +:+ "." +:+ f /\ f <> "") /\
    v = digits_val w * 10 ^ 6 + digits_val f * 10 ^ (6 - Z.of_nat (String.length f)).
Lemma microUsdPerMtok_ok s v : microUsdPerMtok s = Ok v <-> price_text s v.
Proof.
  unfold microUsdPerMtok, price_text. split.
  - destruct (match_decimal s) as [[w g]|] eqn:E; [|done].
    apply match_decimal_spec in E as (Hw & Hwd & Hg).
    destruct (Nat.ltb_spec 6 (String.length (g ?? ""))) as [|Hl]; [done|].
    intros [= <-]. exists w, (g ?? ""). rewrite digits_val_pad_end.
    rewrite Nat2Z.inj_sub by done. destruct g as [g|]; cbn in *; naive_solver.
  - intros (w & f & Hw & Hwd & Hfd & Hl & Hs & ->).
    assert (exists g, match_decimal s = Some (w, g) /\ g ?? "" = f) as (g & -> & Hg).
    { destruct Hs as [[-> ->]|[-> Hf]]; [exists None | exists (Some f)];
        (split; [by apply match_decimal_spec|done]). }
    rewrite Hg, digits_val_pad_end, Nat2Z.inj_sub by done.
    by rewrite (proj2 (Nat.ltb_ge _ _) Hl).
Qed.
Lemma microUsdPerMtok_nonneg s v : microUsdPerMtok s = Ok v -> 0 <= v.
Proof.
  intros (w & f & _ & Hw & Hf & Hl & _ & ->)%microUsdPerMtok_ok.
  apply digits_val_bound in Hw, Hf. nia.
Qed.

(** The price a token class is charged at, 0 when the class is empty. *)
Definition charge (tokens : number) (perMtok : string) (c : Z) : Prop :=
  (num_is_zero tokens = true /\ c = 0) \/
  exists t p, tokens = NInt t /\ 0 < t /\ price_text perMtok p /\ c = t * p.

Lemma tokenCostPico_ok tokens s c : tokenCostPico tokens s = Ok c <-> charge tokens s c.
Proof.
  unfold tokenCostPico, charge. setoid_rewrite <- microUsdPerMtok_ok. destruct (num_is_zero tokens) eqn:Ez.
  { split; [intros [= <-]; by left|]. intros [[_ ->]|(t & p & -> & Ht & _)]; [done|].
    unfold num_is_zero in Ez; cbn in Ez. bool_to_prop; lia. }
  destruct tokens as [t|m k]; cbn.
  2:{ split; [done|]. intros [[[=] _]|(t & p & [=] & _)]. }
  unfold num_is_zero in Ez; cbn in Ez. bool_to_prop.
  destruct (Z.leb_spec 0 t).
  - rewrite bind_ok. split.
    + intros (p & Hp & [= <-]). right. exists t, p. split_and!; try done. lia.
    + intros [[[=] _]|(t' & p & [= <-] & _ & Hp & ->)]. eauto.
  - split; [done|]. intros [[[=] _]|(t' & p & [= <-] & ? & _)]. lia.
Qed.
Lemma charge_nonneg tokens s c : charge tokens s c -> 0 <= c.
Proof. intros [[_ ->]|(t & p & _ & Ht & Hp & ->)]; [lia|]. apply microUsdPerMtok_ok, microUsdPerMtok_nonneg in Hp. nia. Qed.

(** The reference cost of a request, in picodollars. *)
Definition total_charge (tokens : TokenCounts) (price : PriceEntry) (pico : Z) : Prop :=
  exists a b c d,
    charge (tc_input tokens) (inputPerMtok price) a /\
    charge (tc_output tokens) (outputPerMtok price) b /\
    charge (tc_cacheRead tokens ?? NInt 0) (cacheReadPerMtok price) c /\
    charge (tc_cacheWrite tokens ?? NInt 0) (cacheWritePerMtok price) d /\
    pico = a + b + c + d.
Lemma calculatePico_ok tokens price pico :
  calculatePico tokens price = Ok pico <-> total_charge tokens price pico.
Proof.
  unfold calculatePico, total_charge. split.
  - rewrite bind_ok. intros (a & Ha & H). rewrite bind_ok in H. destruct H as (b & Hb & H).
    rewrite bind_ok in H. destruct H as (c & Hc & H).
    rewrite bind_ok in H. destruct H as (d & Hd & [= <-]).
    apply tokenCostPico_ok in Ha, Hb, Hc, Hd. by exists a, b, c, d.
  - intros (a & b & c & d & Ha & Hb & Hc & Hd & ->).
    apply tokenCostPico_ok in Ha, Hb, Hc, Hd. by rewrite Ha; cbn; rewrite Hb; cbn; rewrite Hc; cbn; rewrite Hd.
Qed.
Lemma total_charge_nonneg tokens price pico : total_charge tokens price pico -> 0 <= pico.
Proof. intros (a & b & c & d & Ha & Hb & Hc & Hd & ->). apply charge_nonneg in Ha, Hb, Hc, Hd. lia. Qed.
End cost.

Section uniqueness.
Context (provider : Provider) (model : string).
Lemma best_in_unique entries e1 e2 :
  best_in entries provider model e1 -> best_in entries provider model e2 -> e1 = e2.
Proof.
  intros (b1 & a1 & -> & H1) (b2 & a2 & Heq & H2).
  destruct (split_trichotomy _ _ _ _ _ _ Heq) as [(_ & -> & _)|[[Hx Hy]|[Hy Hx]]]; [done| |];
    exfalso; destruct H1 as [[X1 F1]|(X1 & F1 & L1 & G1)], H2 as [[X2 F2]|(X2 & F2 & L2 & G2)];
    rewrite ?Heq in *; repeat match goal with H : Forall _ _ |- _ => rewrite Forall_forall in H end;
    try (by eapply F1; [|done]; set_solver); try (by eapply F2; [|done]; set_solver).
  - specialize (L2 _ Hx X1). specialize (G1 _ Hy X2). lia.
  - specialize (L1 _ Hy X2). specialize (G2 _ Hx X1). lia.
Qed.
Lemma best_in_applies entries e : best_in entries provider model e -> e ∈ entries /\ applies provider model e.
Proof.
  intros (b & a & -> & [[H _]|[H _]]); (split; [set_solver|]); [|done].
  apply applies_cases. by left.
Qed.
Lemma findIn_iff entries e :
  findIn entries provider model = Some e <-> best_in entries provider model e.
Proof.
  split; [apply findIn_best|]. intros H. destruct (findIn entries provider model) as [e'|] eqn:E.
  - f_equal. eapply best_in_unique; [by apply findIn_best | done].
  - apply findIn_none in E. apply best_in_applies in H as [Hin Hap].
    unfold none_in in E. rewrite Forall_forall in E. by destruct (E e).
Qed.
End uniqueness.

Section source.
Lemma group_overrides_lookup rows w :
  (group_overrides rows !! w) ?? [] =
  map (toEntry OVERRIDE) (filter (fun r => row_workspaceId r = w) rows).
Proof.
  unfold group_overrides.
  assert (forall acc : gmap string (list PriceEntry), (fold_left (fun byWs row =>
      let list := byWs !! row_workspaceId row ?? [] in
      <[row_workspaceId row := list ++ [toEntry OVERRIDE row]]> byWs) rows acc) !! w ?? []
    = (acc !! w ?? []) ++ map (toEntry OVERRIDE) (filter (fun r => row_workspaceId r = w) rows))
    as H; [|rewrite H, lookup_empty; done].
  induction rows as [|r rows IH]; intros acc; cbn [fold_left]; [by rewrite app_nil_r|].
  rewrite IH, filter_cons. case_decide as Hw.
  - rewrite Hw, lookup_insert_eq. cbn. by rewrite <- app_assoc.
  - by rewrite lookup_insert_ne.
Qed.
End source.

(** ** Theorems *)

(** C21: The price a request is charged at: the workspace's overrides come
    before the catalog; within a list an exact model name beats every wildcard,
    among wildcards the longest prefix wins and the earliest on a tie; there is
    no price exactly when no entry of either list covers the model. *)
Theorem match_price_spec provider model catalog overrides :
  (forall e, matchPrice provider model catalog overrides = Some e <->
     best_in overrides provider model e \/
     none_in overrides provider model /\ best_in catalog provider model e) /\
  (matchPrice provider model catalog overrides = None <->
     none_in overrides provider model /\ none_in catalog provider model).
Proof.
  unfold matchPrice. setoid_rewrite <- findIn_iff. setoid_rewrite <- findIn_none. split.
  - intros e. destruct (findIn overrides provider model) as [o|]; cbn.
    + split; [auto | by intros [?|[? _]]].
    + split; [auto | by intros [?|[_ ?]]].
  - destruct (findIn overrides provider model) as [o|]; cbn.
    + split; [done | by intros [? _]].
    + split; [auto | by intros [_ ?]].
Qed.

(** C10: A cost is a text exactly when every non-empty token class has a
    positive whole count and a price text of digits with at most six decimals;
    the text is then the exact total in dollars - each count times the number its
    price spells, per million - truncated to eight decimals, with no rounding
    anywhere before. *)
Theorem cost_exact tokens price s :
  calculateCostUsd tokens price = Ok s <->
  exists pico frac8, total_charge tokens price pico /\ 0 <= pico /\
    s = dec (pico / 10 ^ 12) +:+ "." +:+ frac8 /\
    String.length frac8 = 8%nat /\ all_digits frac8 = true /\
    digits_val frac8 = pico mod 10 ^ 12 / 10 ^ 4.
Proof.
  unfold calculateCostUsd. rewrite bind_ok. setoid_rewrite calculatePico_ok. split.
  - intros (pico & Hp & [= <-]). pose proof (total_charge_nonneg _ _ _ Hp) as Hn.
    pose proof (frac8_spec pico Hn) as Hf; cbn zeta in Hf.
    exists pico. eexists. split_and!; try done; try apply Hf. by apply formatPicoUsd_nonneg.
  - intros (pico & f & Hp & Hn & -> & Hl & Hd & Hv). exists pico. split; [done|].
    rewrite formatPicoUsd_nonneg by done. do 3 f_equal.
    pose proof (frac8_spec pico Hn) as (Hl' & Hd' & Hv'); cbn zeta in *.
    apply digits_val_inj; congruence.
Qed.

(** Every entry of the bundled catalog can be charged: its four prices
    parse, and a model named like its pattern finds a price. *)
Theorem seed_catalog_chargeable :
  Forall (fun e =>
    Forall (fun s => exists v, microUsdPerMtok s = Ok v)
      [inputPerMtok e; outputPerMtok e; cacheReadPerMtok e; cacheWritePerMtok e] /\
    findIn seedCatalog (pe_provider e) (modelPattern e) = Some e) seedCatalog.
Proof.
  apply (list.Forall_impl (fun e =>
    Forall (fun s => is_ok (microUsdPerMtok s) = true)
      [inputPerMtok e; outputPerMtok e; cacheReadPerMtok e; cacheWritePerMtok e] /\
    findIn seedCatalog (pe_provider e) (modelPattern e) = Some e)).
  - repeat (apply Forall_cons; split; [split; [repeat constructor | vm_compute; reflexivity]|]).
    apply Forall_nil_2.
  - intros e [H ?]. split; [|done]. eapply list.Forall_impl; [exact H|].
    intros s; cbn beta. destruct (microUsdPerMtok s); [by eexists|by intros].
Qed.

(** After a refresh a workspace is charged by its own override rows and
    the shared catalog only, whatever rows other workspaces have; a refresh
    whose queries fail leaves the prices as they were, and one that finds no
    catalog row in force keeps the previous catalog. *)
Theorem workspace_price_isolation now model_price model_price_override st provider model w :
  w <> "" ->
  let st' := refresh now (Ok (model_price, model_price_override)) st in
  pg_match st' provider model (Some w) =
    matchPrice provider model (catalogRows st')
      (map (toEntry OVERRIDE) (filter (fun r => row_workspaceId r = w) model_price_override)) /\
  pg_match st' provider model None = matchPrice provider model (catalogRows st') [] /\
  catalogRows st' = (if bool_decide (filter (fun r => effective now r = true) model_price = [])
                     then catalogRows st
                     else map (toEntry SYNC) (filter (fun r => effective now r = true) model_price)) /\
  (forall e, refresh now (Throw e) st = st).
Proof.
  intros Hw st'. unfold pg_match. cbn -[group_overrides].
  rewrite (proj2 (String.eqb_neq w "")), group_overrides_lookup by done.
  split_and!; try done.
  assert (List.filter (effective now) model_price
          = filter (fun r => effective now r = true) model_price) as ->.
  { apply List_filter_filter. }
  by destruct (filter _ model_price).
Qed.

Lemma workspace_price_isolation_witness :
  let row w m := mkPriceRow w OPENAI m "1" "2" "0" "0" 0 None in
  pg_match (refresh 5 (Ok ([row "" "gpt*"], [row "w1" "gpt-4o"; row "w2" "*"])) newPgPricing)
    OPENAI "gpt-4o" (Some "w1")
  = Some (mkPriceEntry OPENAI "gpt-4o" "1" "2" "0" "0" OVERRIDE).
Proof.
  cbv zeta. eapply eq_trans.
  - apply (workspace_price_isolation 5 [mkPriceRow "" OPENAI "gpt*" "1" "2" "0" "0" 0 None]
      [mkPriceRow "w1" OPENAI "gpt-4o" "1" "2" "0" "0" 0 None;
       mkPriceRow "w2" OPENAI "*" "1" "2" "0" "0" 0 None]). discriminate.
  - vm_compute. reflexivity.
Defined.
