(* ===== verification/Providers.v ===== *)
(** * packages/providers: the seven upstream adapters

    [types.ts], [anthropic.ts], [openai-compatible.ts] (and the four adapters
    built from it), [gemini.ts], [ollama.ts] and the registry of [index.ts].  A
    response body is a [json] value; a field read through a TypeScript cast is
    taken at its declared type, an ill-typed one as missing.  A stream observer
    is a record of its state, its step on one frame and its result. *)

From S2P Require Import Prelude JsString JsNum Json Shared.
From Stdlib Require Import Ascii.

(** ** types.ts *)
Record ResolvedCredential := mkResolvedCredential {
  rc_secret : option string;
  rc_baseUrl : option string;
}.
Record UpstreamRequest := mkUpstream { up_url : string; up_headers : gmap string string }.
Record NormalizedUsage := mkUsage {
  nu_model : string;
  inputTokens : number;
  outputTokens : number;
  cacheReadTokens : number;
  cacheWriteTokens : number;
  reasoningTokens : number;
  complete : bool;
  upstreamCostUsd : option string;
}.
Record GatewayError := mkGatewayError { ge_type : string; ge_status : Z; ge_message : string }.

(** [onFrame] and [finish] over the variables the closure captures. *)
Record StreamUsageExtractor := mkExtractor {
  ex_state : Type;
  ex_init : ex_state;
  onFrame : ex_state -> string -> ex_state;
  finish : ex_state -> NormalizedUsage;
}.
Definition extract (e : StreamUsageExtractor) (frames : list string) : NormalizedUsage :=
  finish e (fold_left (onFrame e) frames (ex_init e)).

Record ProviderAdapter := mkAdapter {
  ad_id : Provider;
  defaultBaseUrl : string;
  buildUpstream : string -> ResolvedCredential -> UpstreamRequest;
  ensureUsageInStream : json -> js json;
  parseUsage : json -> js NormalizedUsage;
  streamUsageExtractor : StreamUsageExtractor;
  mapError : Z -> option json -> GatewayError;
  modelFromPath : option (string -> string);
}.

(** ** Shared by the adapters *)
(** [frame.split("\n").find((l) => l.startsWith("data:"))], then the JSON after
    it; null for no data line, an empty one, [DONE] or unparseable text. *)
Definition ssePayload (frame : string) : option json :=
  match List.find (starts_with "data:") (split_on newline frame) with
  | None => None
  | Some line =>
      let raw := trim (slice_from 5 line) in
      if String.eqb raw "" || String.eqb raw "[DONE]" then None
      else match json_parse raw with Ok v => Some v | Throw _ => None end
  end.
(** [const data = ssePayload(frame); if (!data) return;] *)
Definition frame_data (frame : string) : option json :=
  match ssePayload frame with
  | Some v => if truthy (Some v) then Some v else None
  | None => None
  end.

(** [v.k = x] on a value: throws on primitives; a property of an array is not
    printed by JSON.stringify. *)
Definition put_field (v : json) (k : string) (x : json) : js json :=
  match v with
  | JObj o => Ok (JObj (obj_set o k x))
  | JArr _ => Ok v
  | _ => Throw "TypeError"
  end.
(** The own enumerable properties [{ ...v }] copies. *)
Definition spread_of (v : json) : fields :=
  match v with
  | JObj o => o
  | JArr l => imap (fun i x => (dec (Z.of_nat i), x)) l
  | JStr s => imap (fun i c => (dec (Z.of_nat i), JStr (String c ""))) (String.list_ascii_of_string s)
  | _ => []
  end.

(** [String(body.error?.message ?? "")] when there is an [error] key. *)
Definition errorMessage (body : option json) : string :=
  match body with
  | Some (JObj o) =>
      match obj_get o "error" with
      | Some e => match non_null (field e "message") with Some m => to_text m | None => "" end
      | None => "Upstream error"
      end
  | _ => "Upstream error"
  end.
Definition defaultMapError (httpStatus : Z) (body : option json) : GatewayError :=
  mkGatewayError "provider_error" httpStatus (errorMessage body).

(** [String(json.k ?? "")] *)
Definition text_or_empty (v : option json) : string :=
  match non_null v with Some m => to_text m | None => "" end.
Definition keepBody (body : json) : js json := Ok body.

(** ** anthropic.ts *)
Definition anthropic_normalize (model : string) (usage : option json) (complete : bool)
  : NormalizedUsage :=
  mkUsage model
    (num_field usage "input_tokens" ?? NInt 0)
    (num_field usage "output_tokens" ?? NInt 0)
    (num_field usage "cache_read_input_tokens" ?? NInt 0)
    (num_field usage "cache_creation_input_tokens" ?? NInt 0)
    (NInt 0) complete None.
Definition anthropic_parseUsage (body : json) : js NormalizedUsage :=
  usage ← get_field body "usage";
  model ← get_field body "model";
  Ok (anthropic_normalize (text_or_empty model) (non_null usage)
        (bool_decide (is_Some (non_null usage)))).

Record AnthropicStream := mkAStream { as_model : string; as_acc : fields; as_sawDelta : bool }.
(** [if (usage.k != null) acc.k = usage.k] *)
Definition copy_present (k : string) (usage : json) (acc : fields) : fields :=
  match non_null (field usage k) with Some v => obj_set acc k v | None => acc end.
Definition anthropic_onFrame (st : AnthropicStream) (frame : string) : AnthropicStream :=
  match frame_data frame with
  | None => st
  | Some data =>
      if is_str (field data "type") "message_start" && is_object (field data "message") then
        let message := field data "message" in
        mkAStream (str_field message "model" ?? as_model st)
          (match opt_field message "usage" with
           | Some (JObj u) => obj_spread (as_acc st) u
           | _ => as_acc st
           end) (as_sawDelta st)
      else if is_str (field data "type") "message_delta" then
        match field data "usage" with
        | Some usage =>
            if truthy (Some usage)
            then mkAStream (as_model st)
                   (copy_present "input_tokens" usage (copy_present "output_tokens" usage (as_acc st)))
                   true
            else st
        | None => st
        end
      else st
  end.
Definition anthropicExtractor : StreamUsageExtractor :=
  mkExtractor AnthropicStream (mkAStream "" [] false) anthropic_onFrame
    (fun st => anthropic_normalize (as_model st) (Some (JObj (as_acc st))) (as_sawDelta st)).
Definition anthropicAdapter : ProviderAdapter :=
  mkAdapter ANTHROPIC "https://api.anthropic.com"
    (fun path credential =>
       mkUpstream ((rc_baseUrl credential ?? "https://api.anthropic.com") +:+ path)
         {[ "x-api-key" := rc_secret credential ?? ""; "anthropic-version" := "2023-06-01" ]})
    keepBody anthropic_parseUsage anthropicExtractor defaultMapError None.

(** ** openai-compatible.ts *)
Definition normalizeOpenAiUsage (model : string) (usage : option json) (complete : bool)
  : NormalizedUsage :=
  let cached := num_field (opt_field usage "prompt_tokens_details") "cached_tokens" ?? NInt 0 in
  mkUsage model
    (num_max0 (num_sub (num_field usage "prompt_tokens" ?? NInt 0) cached))
    (num_field usage "completion_tokens" ?? NInt 0)
    cached (NInt 0)
    (num_field (opt_field usage "completion_tokens_details") "reasoning_tokens" ?? NInt 0)
    complete
    (match opt_field usage "cost" with Some (JNum c) => Some (to_fixed8 c) | _ => None end).

Record OpenAiCompatibleOptions := mkOpts {
  opt_id : Provider;
  opt_defaultBaseUrl : string;
  opt_requestUsage : bool;
  opt_mapError : option (Z -> option json -> GatewayError);
}.
Definition openai_ensureUsageInStream (requestUsage : bool) (body : json) : js json :=
  body ← (stream ← get_field body "stream";
          if is_true stream then
            let streamOpts := match non_null (field body "stream_options") with
                              | Some v => spread_of v | None => [] end in
            put_field body "stream_options" (JObj (obj_set streamOpts "include_usage" (JBool true)))
          else Ok body);
  if requestUsage then
    usage ← get_field body "usage";
    let usageOpt := match non_null usage with Some v => spread_of v | None => [] end in
    put_field body "usage" (JObj (obj_set usageOpt "include" (JBool true)))
  else Ok body.
Definition openai_parseUsage (body : json) : js NormalizedUsage :=
  usage ← get_field body "usage";
  model ← get_field body "model";
  Ok (normalizeOpenAiUsage (text_or_empty model) (non_null usage)
        (bool_decide (is_Some (non_null usage)))).

Record OpenAiStream := mkOStream { os_model : string; os_usage : option json }.
Definition openai_onFrame (st : OpenAiStream) (frame : string) : OpenAiStream :=
  match frame_data frame with
  | None => st
  | Some data =>
      mkOStream
        (match field data "model" with
         | Some (JStr m) => if String.eqb m "" then os_model st else m
         | _ => os_model st
         end)
        (if is_object (field data "usage") then field data "usage" else os_usage st)
  end.
Definition openaiExtractor : StreamUsageExtractor :=
  mkExtractor OpenAiStream (mkOStream "" None) openai_onFrame
    (fun st => normalizeOpenAiUsage (os_model st) (os_usage st) (bool_decide (is_Some (os_usage st)))).
Definition createOpenAiCompatibleAdapter (opts : OpenAiCompatibleOptions) : ProviderAdapter :=
  mkAdapter (opt_id opts) (opt_defaultBaseUrl opts)
    (fun path credential =>
       mkUpstream ((rc_baseUrl credential ?? opt_defaultBaseUrl opts) +:+ path)
         {[ "authorization" := "Bearer " +:+ (rc_secret credential ?? "") ]})
    (openai_ensureUsageInStream (opt_requestUsage opts)) openai_parseUsage openaiExtractor
    (opt_mapError opts ?? defaultMapError) None.

Definition openaiAdapter : ProviderAdapter :=
  createOpenAiCompatibleAdapter (mkOpts OPENAI "https://api.openai.com" false None).
Definition deepseekAdapter : ProviderAdapter :=
  createOpenAiCompatibleAdapter (mkOpts DEEPSEEK "https://api.deepseek.com" false None).
Definition openrouterAdapter : ProviderAdapter :=
  createOpenAiCompatibleAdapter (mkOpts OPENROUTER "https://openrouter.ai/api" true None).

(** [minimax.ts]: an error envelope that may come with HTTP 200. *)
Definition mapMinimaxError (httpStatus : Z) (body : option json) : GatewayError :=
  let base := opt_field body "base_resp" in
  match num_field base "status_code" with
  | Some c =>
      if negb (num_is_zero c)
      then mkGatewayError "provider_error" (if 400 <=? httpStatus then httpStatus else 400)
             (str_field base "status_msg" ?? "Minimax error " +:+ number_to_string c)
      else defaultMapError httpStatus body
  | None => defaultMapError httpStatus body
  end.
Definition minimaxAdapter : ProviderAdapter :=
  createOpenAiCompatibleAdapter
    (mkOpts MINIMAX "https://api.minimax.chat" false (Some mapMinimaxError)).

(** ** gemini.ts *)
Definition is_model_char (c : ascii) : bool :=
  negb (Ascii.eqb c ":" || Ascii.eqb c "/" || Ascii.eqb c "?").
(** [/\/models\/([^:/?]+)/.exec(path)?.[1] ?? ""]: the leftmost match. *)
Fixpoint gemini_modelFromPath (path : string) : string :=
  let here := if starts_with "/models/" path then take_while is_model_char (slice_from 8 path) else "" in
  if String.eqb here "" then match path with "" => "" | String _ rest => gemini_modelFromPath rest end
  else here.
Definition gemini_normalize (model : string) (usage : option json) : NormalizedUsage :=
  let cached := num_field usage "cachedContentTokenCount" ?? NInt 0 in
  mkUsage model
    (num_max0 (num_sub (num_field usage "promptTokenCount" ?? NInt 0) cached))
    (num_field usage "candidatesTokenCount" ?? NInt 0)
    cached (NInt 0)
    (num_field usage "thoughtsTokenCount" ?? NInt 0)
    (bool_decide (is_Some usage)) None.
Definition gemini_parseUsage (body : json) : js NormalizedUsage :=
  usage ← get_field body "usageMetadata";
  version ← get_field body "modelVersion";
  model ← get_field body "model";
  Ok (gemini_normalize (match version with Some (JStr v) => v | _ => text_or_empty model end)
        (non_null usage)).
Definition gemini_onFrame (st : OpenAiStream) (frame : string) : OpenAiStream :=
  match frame_data frame with
  | None => st
  | Some data =>
      mkOStream
        (match field data "modelVersion" with
         | Some (JStr m) => if String.eqb m "" then os_model st else m
         | _ => os_model st
         end)
        (if is_object (field data "usageMetadata") then field data "usageMetadata" else os_usage st)
  end.
Definition geminiExtractor : StreamUsageExtractor :=
  mkExtractor OpenAiStream (mkOStream "" None) gemini_onFrame
    (fun st => gemini_normalize (os_model st) (os_usage st)).
Definition geminiAdapter : ProviderAdapter :=
  mkAdapter GEMINI "https://generativelanguage.googleapis.com"
    (fun path credential =>
       mkUpstream ((rc_baseUrl credential ?? "https://generativelanguage.googleapis.com") +:+ path)
         {[ "x-goog-api-key" := rc_secret credential ?? "" ]})
    keepBody gemini_parseUsage geminiExtractor defaultMapError (Some gemini_modelFromPath).

(** ** ollama.ts *)
Definition ollama_normalize (final : option json) (complete : bool) : NormalizedUsage :=
  mkUsage (str_field final "model" ?? "")
    (num_field final "prompt_eval_count" ?? NInt 0)
    (num_field final "eval_count" ?? NInt 0)
    (NInt 0) (NInt 0) (NInt 0) complete None.
Definition ollama_parseUsage (body : json) : js NormalizedUsage :=
  done ← get_field body "done"; Ok (ollama_normalize (Some body) (is_true done)).
Record OllamaStream := mkLStream { ls_final : fields; ls_done : bool }.
Definition ollama_onFrame (st : OllamaStream) (frame : string) : OllamaStream :=
  match json_parse frame with
  | Ok (JObj o) =>
      if is_true (obj_get o "done") then mkLStream o true
      else match obj_get o "model" with
           | Some m => if truthy (Some m) then mkLStream (obj_set (ls_final st) "model" m) (ls_done st)
                       else st
           | None => st
           end
  | _ => st
  end.
Definition ollamaExtractor : StreamUsageExtractor :=
  mkExtractor OllamaStream (mkLStream [] false) ollama_onFrame
    (fun st => ollama_normalize (Some (JObj (ls_final st))) (ls_done st)).
Definition ollama_mapError (httpStatus : Z) (body : option json) : GatewayError :=
  mkGatewayError "provider_error" httpStatus
    match body with
    | Some (JObj o) => match obj_get o "error" with Some e => to_text e | None => "Upstream error" end
    | _ => "Upstream error"
    end.
Definition ollamaAdapter : ProviderAdapter :=
  mkAdapter OLLAMA "http://localhost:11434"
    (fun path credential =>
       mkUpstream ((rc_baseUrl credential ?? "http://localhost:11434") +:+ path) ∅)
    keepBody ollama_parseUsage ollamaExtractor ollama_mapError None.

(** ** index.ts *)
Definition getAdapter (provider : Provider) : ProviderAdapter :=
  match provider with
  | ANTHROPIC => anthropicAdapter
  | OPENAI => openaiAdapter
  | OLLAMA => ollamaAdapter
  | GEMINI => geminiAdapter
  | DEEPSEEK => deepseekAdapter
  | OPENROUTER => openrouterAdapter
  | MINIMAX => minimaxAdapter
  end.
Definition supportedProviders : list Provider :=
  [ANTHROPIC; OPENAI; OLLAMA; GEMINI; DEEPSEEK; OPENROUTER; MINIMAX].

Example anthropic_body : anthropic_parseUsage (JObj [("model", JStr "claude");
    ("usage", JObj [("input_tokens", JNum (NInt 100)); ("output_tokens", JNum (NInt 40));
                    ("cache_read_input_tokens", JNum (NInt 900))])])
  = Ok (mkUsage "claude" (NInt 100) (NInt 40) (NInt 900) (NInt 0) (NInt 0) true None).
Proof. vm_compute. reflexivity. Qed.
Example anthropic_stream : extract anthropicExtractor
    ["event: message_start" +:+ nl +:+ dq "data: {'type':'message_start','message':{'model':'c','usage':{'input_tokens':25,'cache_read_input_tokens':10}}}";
     dq "data: {'type':'message_delta','usage':{'output_tokens':123}}"]
  = mkUsage "c" (NInt 25) (NInt 123) (NInt 10) (NInt 0) (NInt 0) true None.
Proof. vm_compute. reflexivity. Qed.
Example gemini_path :
  gemini_modelFromPath "/v1beta/models/gemini-2.5-pro:streamGenerateContent?alt=sse" = "gemini-2.5-pro".
Proof. vm_compute. reflexivity. Qed.
Example ollama_stream : extract ollamaExtractor
    [dq "{'model':'llama3','done':false}"; dq "{'model':'llama3','done':true,'prompt_eval_count':26,'eval_count':98}"]
  = mkUsage "llama3" (NInt 26) (NInt 98) (NInt 0) (NInt 0) (NInt 0) true None.
Proof. vm_compute. reflexivity. Qed.

(** ** What a stream adds up to *)
Section objects.

Lemma obj_get_spread a b k :
  obj_get (obj_spread a b) k = or_else (obj_get (obj_spread [] b) k) (obj_get a k).
Proof.
  unfold obj_spread. revert a; induction b as [|[k' v] b IH]; intros a; [done|]. cbn [fold_left fst snd].
  rewrite IH, (IH (obj_set [] k' v)), or_else_assoc. f_equal. cbn [obj_set obj_get].
  rewrite obj_get_set. by destruct (String.eqb k' k).
Qed.

End objects.

(** The model and the usage object one frame of an OpenAI-style or Gemini stream
    carries. *)
Definition frame_model (key frame : string) : option string :=
  data ← frame_data frame;
  match field data key with Some (JStr m) => if String.eqb m "" then None else Some m | _ => None end.
Definition frame_usage (key frame : string) : option json :=
  data ← frame_data frame;
  if is_object (field data key) then field data key else None.
(** What one Anthropic frame assigns to a usage counter, and whether it is a
    [message_delta] with usage. *)
Definition anthropic_counter (k frame : string) : option json :=
  data ← frame_data frame;
  if is_str (field data "type") "message_start" && is_object (field data "message") then
    match opt_field (field data "message") "usage" with
    | Some (JObj u) => obj_get (obj_spread [] u) k
    | _ => None
    end
  else if is_str (field data "type") "message_delta"
          && (String.eqb k "input_tokens" || String.eqb k "output_tokens")
       then u ← field data "usage"; if truthy (Some u) then non_null (field u k) else None
       else None.
Definition anthropic_final (frame : string) : option unit :=
  data ← frame_data frame;
  if is_str (field data "type") "message_start" && is_object (field data "message") then None
  else if is_str (field data "type") "message_delta" && truthy (field data "usage") then Some tt
       else None.

Section streams.

Lemma openai_step st frame :
  openai_onFrame st frame =
  mkOStream (frame_model "model" frame ?? os_model st)
    (or_else (frame_usage "usage" frame) (os_usage st)).
Proof.
  unfold openai_onFrame, frame_model, frame_usage. destruct st as [m u].
  destruct (frame_data frame) as [data|]; cbn; [|done].
  f_equal; [by break|]. destruct (field data "usage") as [[]|]; done.
Qed.
Lemma gemini_step st frame :
  gemini_onFrame st frame =
  mkOStream (frame_model "modelVersion" frame ?? os_model st)
    (or_else (frame_usage "usageMetadata" frame) (os_usage st)).
Proof.
  unfold gemini_onFrame, frame_model, frame_usage. destruct st as [m u].
  destruct (frame_data frame) as [data|]; cbn; [|done].
  f_equal; [by break|]. destruct (field data "usageMetadata") as [[]|]; done.
Qed.

Lemma frame_usage_object key frames v :
  last_some (frame_usage key) frames = Some v -> is_object (Some v) = true.
Proof.
  revert v; induction frames as [|f fs IH]; [done|]. intros v. rewrite last_some_cons.
  destruct (last_some (frame_usage key) fs) as [w|]; cbn [or_else].
  { intros [= <-]. by apply IH. }
  unfold frame_usage. destruct (frame_data f) as [d|]; cbn [mbind option_bind]; [|done].
  destruct (is_object (field d key)) eqn:E; [|done]. intros Hf. by rewrite Hf in E.
Qed.

(** A loop that keeps the last model and the last usage. *)
Lemma last_two_fold (step : OpenAiStream -> string -> OpenAiStream) fm fu frames st :
  (forall st f, step st f = mkOStream (fm f ?? os_model st) (or_else (fu f) (os_usage st))) ->
  fold_left step frames st =
  mkOStream (last_some fm frames ?? os_model st) (or_else (last_some fu frames) (os_usage st)).
Proof.
  intros Hs. revert st; induction frames as [|f frames IH]; intros st; [by destruct st|].
  cbn [fold_left]. rewrite IH, Hs, !last_some_cons. cbn.
  by destruct (last_some fm frames), (last_some fu frames).
Qed.

Lemma anthropic_step st frame k :
  k ∈ ["input_tokens"; "output_tokens"; "cache_read_input_tokens"; "cache_creation_input_tokens"] ->
  obj_get (as_acc (anthropic_onFrame st frame)) k
  = or_else (anthropic_counter k frame) (obj_get (as_acc st) k).
Proof.
  intros Hk. unfold anthropic_onFrame, anthropic_counter. destruct (frame_data frame) as [data|]; [|done].
  cbn [mbind option_bind]. destruct (is_str (field data "type") "message_start" && _).
  { cbn [as_acc]. destruct (opt_field (field data "message") "usage") as [[]|]; try done.
    apply obj_get_spread. }
  destruct (is_str (field data "type") "message_delta"); [|done].
  destruct (field data "usage") as [u|]; [|by rewrite andb_comm; destruct (_ || _)].
  cbn [mbind option_bind andb]. destruct (truthy (Some u)); [|by destruct (_ || _)].
  unfold copy_present. cbn [as_acc].
  repeat (apply elem_of_cons in Hk as [->|Hk]); [| | | |by apply elem_of_nil in Hk];
    cbn [String.eqb Ascii.eqb Bool.eqb orb];
    destruct (non_null (field u "input_tokens")), (non_null (field u "output_tokens"));
    rewrite ?obj_get_set; reflexivity.
Qed.
Lemma anthropic_fold frames st k :
  k ∈ ["input_tokens"; "output_tokens"; "cache_read_input_tokens"; "cache_creation_input_tokens"] ->
  obj_get (as_acc (fold_left anthropic_onFrame frames st)) k
  = or_else (last_some (anthropic_counter k) frames) (obj_get (as_acc st) k).
Proof.
  intros Hk. revert st; induction frames as [|f frames IH]; intros st; [done|]. cbn [fold_left].
  rewrite IH, anthropic_step, last_some_cons by done. apply eq_sym, or_else_assoc.
Qed.
Lemma anthropic_final_step st frame :
  as_sawDelta (anthropic_onFrame st frame)
  = bool_decide (is_Some (anthropic_final frame)) || as_sawDelta st.
Proof.
  unfold anthropic_onFrame, anthropic_final. destruct (frame_data frame) as [data|]; [|done].
  cbn [mbind option_bind]. destruct (_ && is_object _); [done|].
  destruct (is_str _ _); [|done]. cbn [andb].
  destruct (field data "usage") as [u|]; [|done]. by destruct (truthy (Some u)).
Qed.
Lemma anthropic_final_fold frames st :
  as_sawDelta (fold_left anthropic_onFrame frames st)
  = bool_decide (is_Some (last_some anthropic_final frames)) || as_sawDelta st.
Proof.
  revert st; induction frames as [|f frames IH]; intros st; [done|]. cbn [fold_left].
  rewrite IH, anthropic_final_step, last_some_cons.
  destruct (last_some anthropic_final frames); [done|]. by destruct (anthropic_final f).
Qed.

End streams.

(** The providers whose adapters [createOpenAiCompatibleAdapter] builds. *)
Definition openai_compatible (p : Provider) : bool :=
  match p with ANTHROPIC | GEMINI | OLLAMA => false | _ => true end.
(** What [ensureUsageInStream] writes into a body. *)
Definition request_stream_usage (o : fields) : fields :=
  if is_true (obj_get o "stream") then
    obj_set o "stream_options"
      (JObj (obj_set (match non_null (obj_get o "stream_options") with
                      | Some v => spread_of v | None => [] end) "include_usage" (JBool true)))
  else o.
Definition request_usage (o : fields) : fields :=
  obj_set o "usage"
    (JObj (obj_set (match non_null (obj_get o "usage") with
                    | Some v => spread_of v | None => [] end) "include" (JBool true))).

Section usage_options.

Lemma openai_ensure_ok req o :
  openai_ensureUsageInStream req (JObj o)
  = Ok (JObj (if req : bool then request_usage (request_stream_usage o) else request_stream_usage o)).
Proof.
  unfold openai_ensureUsageInStream, request_stream_usage; cbn.
  destruct (is_true (obj_get o "stream")), req; done.
Qed.
Lemma request_stream_other o k :
  k <> "stream_options" -> obj_get (request_stream_usage o) k = obj_get o k.
Proof.
  intros Hk. unfold request_stream_usage. destruct (is_true _); [|done].
  by rewrite obj_get_set, (proj2 (String.eqb_neq _ _)) by congruence.
Qed.
Lemma request_usage_other o k : k <> "usage" -> obj_get (request_usage o) k = obj_get o k.
Proof.
  intros Hk. unfold request_usage. by rewrite obj_get_set, (proj2 (String.eqb_neq _ _)) by congruence.
Qed.
Lemma request_stream_flag o :
  is_true (obj_get o "stream") = true ->
  is_true (opt_field (obj_get (request_stream_usage o) "stream_options") "include_usage") = true.
Proof. intros H. unfold request_stream_usage. rewrite H, obj_get_set; cbn. by rewrite obj_get_set. Qed.
Lemma request_stream_keeps o so k :
  is_true (obj_get o "stream") = true -> obj_get o "stream_options" = Some (JObj so) ->
  k <> "include_usage" ->
  opt_field (obj_get (request_stream_usage o) "stream_options") k = obj_get so k.
Proof.
  intros H Hso Hk. unfold request_stream_usage. rewrite H, obj_get_set, Hso; cbn.
  by rewrite obj_get_set, (proj2 (String.eqb_neq _ _)) by congruence.
Qed.
Lemma request_usage_flag o :
  is_true (opt_field (obj_get (request_usage o) "usage") "include") = true.
Proof. unfold request_usage. rewrite obj_get_set; cbn. by rewrite obj_get_set. Qed.

End usage_options.

(** ** Theorems *)

(** A request body that asks for a stream leaves the gateway with the usage
    report requested (and OpenRouter's cost report in any case); every other
    field, and every other stream option, reaches the provider as the client
    wrote it, and the other providers' bodies are untouched. *)
Theorem ensure_usage_requested p o :
  exists o', ensureUsageInStream (getAdapter p) (JObj o) = Ok (JObj o') /\
  (forall k, k <> "stream_options" -> k <> "usage" -> obj_get o' k = obj_get o k) /\
  (openai_compatible p = false -> o' = o) /\
  (openai_compatible p = true -> is_true (obj_get o "stream") = true ->
     is_true (opt_field (obj_get o' "stream_options") "include_usage") = true /\
     forall so k, obj_get o "stream_options" = Some (JObj so) -> k <> "include_usage" ->
       opt_field (obj_get o' "stream_options") k = obj_get so k) /\
  (p = OPENROUTER -> is_true (opt_field (obj_get o' "usage") "include") = true).
Proof.
  exists (match p with
          | ANTHROPIC | GEMINI | OLLAMA => o
          | OPENROUTER => request_usage (request_stream_usage o)
          | _ => request_stream_usage o
          end).
  destruct p; cbn [getAdapter ensureUsageInStream anthropicAdapter geminiAdapter ollamaAdapter];
    (split; [first [reflexivity | by apply openai_ensure_ok]|]); split_and!; intros;
    try done;
    rewrite ?request_usage_other by done;
    eauto using request_stream_other, request_stream_flag, request_stream_keeps, request_usage_flag.
Qed.

(** Over a stream an OpenAI-compatible or Gemini observer ends with the last
    model and the last usage object the frames carry, complete exactly when
    some frame carried usage; that is the usage the same data gives as one
    non-streaming body. *)
Theorem stream_usage_is_last_usage opts frames :
  let m := last_some (frame_model "model") frames ?? "" in
  let u := last_some (frame_usage "usage") frames in
  let gm := last_some (frame_model "modelVersion") frames ?? "" in
  let gu := last_some (frame_usage "usageMetadata") frames in
  let openai := createOpenAiCompatibleAdapter opts in
  extract (streamUsageExtractor openai) frames = normalizeOpenAiUsage m u (bool_decide (is_Some u)) /\
  extract (streamUsageExtractor geminiAdapter) frames = gemini_normalize gm gu /\
  (forall v, u = Some v ->
     parseUsage openai (JObj [("model", JStr m); ("usage", v)])
     = Ok (extract (streamUsageExtractor openai) frames)) /\
  (forall v, gu = Some v ->
     parseUsage geminiAdapter (JObj [("modelVersion", JStr gm); ("usageMetadata", v)])
     = Ok (extract (streamUsageExtractor geminiAdapter) frames)).
Proof.
  intros m u gm gu openai.
  assert (extract (streamUsageExtractor openai) frames
          = normalizeOpenAiUsage m u (bool_decide (is_Some u))) as Ho.
  { unfold openai, extract; cbn. rewrite (last_two_fold _ _ _ _ _ openai_step); cbn.
    by rewrite or_else_none. }
  assert (extract (streamUsageExtractor geminiAdapter) frames = gemini_normalize gm gu) as Hg.
  { unfold extract; cbn. rewrite (last_two_fold _ _ _ _ _ gemini_step); cbn. by rewrite or_else_none. }
  split_and!; [done | done | |]; intros v Hv; rewrite ?Ho, ?Hg, Hv; cbn -[normalizeOpenAiUsage];
    unfold openai_parseUsage, gemini_parseUsage; cbn -[normalizeOpenAiUsage];
    pose proof (frame_usage_object _ _ _ Hv) as Hn; destruct v; cbn in *; done.
Qed.

(** Anthropic's observer reports, for each of the four counters, the last
    value a frame assigned to it ([message_start] sets all four, a later
    [message_delta] the cumulative input and output), and the usage counts as
    complete exactly when a [message_delta] with usage arrived. *)
Theorem anthropic_stream_counters frames :
  let nu := extract anthropicExtractor frames in
  let counter k := match last_some (anthropic_counter k) frames with
                   | Some (JNum n) => n | _ => NInt 0 end in
  inputTokens nu = counter "input_tokens" /\
  outputTokens nu = counter "output_tokens" /\
  cacheReadTokens nu = counter "cache_read_input_tokens" /\
  cacheWriteTokens nu = counter "cache_creation_input_tokens" /\
  (complete nu = true <-> exists f, f ∈ frames /\ is_Some (anthropic_final f)).
Proof.
  intros nu counter. unfold nu, extract; cbn. unfold num_field; cbn.
  rewrite !anthropic_fold, anthropic_final_fold by set_solver. cbn. rewrite !or_else_none, orb_false_r.
  rewrite bool_decide_eq_true, last_some_is_Some.
  split_and!; try done; unfold counter; by destruct (last_some _ frames) as [[]|].
Qed.

(** Where the provider's prompt count includes the cached tokens (the
    OpenAI-compatible ones and Gemini), the uncached and the cached part add up
    to it, so no token is billed twice or dropped; a provider that reports more
    cached than prompt tokens is charged the cached ones. *)
Theorem prompt_tokens_partition prompt cached m :
  0 <= prompt <= 2 ^ 53 -> 0 <= cached <= 2 ^ 53 ->
  exists i, 0 <= i /\ i + cached = Z.max prompt cached /\
  let openai := normalizeOpenAiUsage m (Some (JObj [("prompt_tokens", JNum (NInt prompt));
    ("prompt_tokens_details", JObj [("cached_tokens", JNum (NInt cached))])])) true in
  let gemini := gemini_normalize m (Some (JObj [("promptTokenCount", JNum (NInt prompt));
    ("cachedContentTokenCount", JNum (NInt cached))])) in
  inputTokens openai = NInt i /\ cacheReadTokens openai = NInt cached /\
  inputTokens gemini = NInt i /\ cacheReadTokens gemini = NInt cached.
Proof.
  intros Hp Hc. exists (Z.max 0 (prompt - cached)). split_and!; [lia|lia|].
  unfold normalizeOpenAiUsage, gemini_normalize; cbn -[num_sub num_max0].
  rewrite num_sub_int, fround_exact, num_max0_int by lia. done.
Qed.

Lemma prompt_tokens_partition_witness :
  exists i, 0 <= i /\ i + 700 = 1000 /\
  inputTokens (normalizeOpenAiUsage "m" (Some (JObj [("prompt_tokens", JNum (NInt 1000));
    ("prompt_tokens_details", JObj [("cached_tokens", JNum (NInt 700))])])) true) = NInt i.
Proof.
  destruct (prompt_tokens_partition 1000 700 "m") as (i & Hi & Hs & Ho & _); [lia|lia|].
  exists i. split; [exact Hi|split; [exact Hs|exact Ho]].
Defined.
