(* ===== verification/Translate.v ===== *)
(** * packages/providers/src/translate.ts: OpenAI shape to Anthropic and Gemini

    Request rewriting, response mapping and the re-encoding of Anthropic's event
    stream as OpenAI chunks, used by the unified endpoint.  A method called on a
    value that lacks it throws, as in the source. *)

From S2P Require Import Prelude JsString JsNum Json JsonRoundtrip Shared Providers.
From Stdlib Require Import Ascii.

Definition DEFAULT_MAX_TOKENS : json := JNum (NInt 4096).

(** [v.map(f)] / [v.filter(f)]: only arrays have the methods. *)
Definition as_array (v : json) : js (list json) :=
  match v with JArr l => Ok l | _ => Throw "TypeError" end.
(** [v ?? []] *)
Definition array_or_empty (v : option json) : js (list json) :=
  match non_null v with Some a => as_array a | None => Ok [] end.

(** [typeof part.text === "string" ? part.text : ""] *)
Definition part_text (part : json) : js string :=
  t ← get_field part "text"; Ok (match t with Some (JStr s) => s | _ => "" end).
Definition contentToText (content : option json) : js string :=
  match content with
  | Some (JStr s) => Ok s
  | Some (JArr l) => parts ← mapR part_text l; Ok (join "" parts)
  | _ => Ok ""
  end.

(** [messages.filter((m) => pred(m.role))] *)
Definition role_is (roles : list string) (m : json) : bool :=
  existsb (is_str (field m "role")) roles.
Definition filter_role (roles : list string) (messages : list json) : js (list json) :=
  _ ← mapR (fun m => get_field m "role") messages; Ok (List.filter (role_is roles) messages).
Definition systemText (messages : list json) : js string :=
  sys ← filter_role ["system"] messages;
  texts ← mapR (fun m => contentToText (field m "content")) sys;
  Ok (join (nl +:+ nl) texts).

(** [a ?? b] on fields of one object *)
Definition first_non_null (a b : option json) : option json := or_else (non_null a) (non_null b).
(** [if (v != null) out[k] = f v] *)
Definition set_if (v : option json) (k : string) (f : json -> json) (out : fields) : fields :=
  match non_null v with Some x => obj_set out k (f x) | None => out end.

Definition openaiToAnthropicRequest (body : fields) (model : string) : js fields :=
  messages ← array_or_empty (obj_get body "messages");
  system ← systemText messages;
  chat ← filter_role ["user"; "assistant"] messages;
  converted ← mapR (fun m => t ← contentToText (field m "content");
                      Ok (JObj [("role", field m "role" ?? JNull); ("content", JStr t)])) chat;
  let out := [("model", JStr model);
              ("max_tokens", first_non_null (obj_get body "max_tokens")
                               (obj_get body "max_completion_tokens") ?? DEFAULT_MAX_TOKENS);
              ("messages", JArr converted)] in
  let out := if String.eqb system "" then out else obj_set out "system" (JStr system) in
  let out := set_if (obj_get body "temperature") "temperature" id out in
  let out := set_if (obj_get body "top_p") "top_p" id out in
  let out := set_if (obj_get body "stop") "stop_sequences"
               (fun v => match v with JArr _ => v | _ => JArr [v] end) out in
  let out := if truthy (obj_get body "stream") then obj_set out "stream" (JBool true) else out in
  Ok out.

Definition ANTHROPIC_FINISH (reason : string) : option string :=
  if String.eqb reason "end_turn" then Some "stop"
  else if String.eqb reason "stop_sequence" then Some "stop"
  else if String.eqb reason "max_tokens" then Some "length"
  else if String.eqb reason "tool_use" then Some "tool_calls"
  else None.

(** [(parts).map((p) => p.text ?? "").join("")] *)
Definition texts_joined (parts : list json) : js string :=
  ts ← mapR (fun b => t ← get_field b "text"; Ok (text_or_empty t)) parts; Ok (join "" ts).

(** The completion object both response translations build. *)
Definition completion (id model : json) (created : Z) (text finish : string) (input output : number)
  : json :=
  JObj [("id", id); ("object", JStr "chat.completion"); ("created", JNum (NInt created));
        ("model", model);
        ("choices", JArr [JObj [("index", JNum (NInt 0));
           ("message", JObj [("role", JStr "assistant"); ("content", JStr text)]);
           ("finish_reason", JStr finish)]]);
        ("usage", JObj [("prompt_tokens", JNum input); ("completion_tokens", JNum output);
                        ("total_tokens", JNum (num_add input output))])].

Definition anthropicToOpenaiResponse (body : json) (created : Z) : js json :=
  c ← get_field body "content";
  content ← array_or_empty c;
  text ← texts_joined content;
  let usage := field body "usage" in
  Ok (completion (non_null (field body "id") ?? JStr "chatcmpl-tt")
        (non_null (field body "model") ?? JStr "") created text
        (ANTHROPIC_FINISH (str_field (Some body) "stop_reason" ?? "") ?? "stop")
        (num_field usage "input_tokens" ?? NInt 0) (num_field usage "output_tokens" ?? NInt 0)).

(** ** The stream translator: its state is [started] *)
Definition chunk (model : string) (created : Z) (delta : fields) (finishReason : json) : string :=
  "data: " +:+
  stringify (JObj [("id", JStr "chatcmpl-tt-stream"); ("object", JStr "chat.completion.chunk");
    ("created", JNum (NInt created)); ("model", JStr model);
    ("choices", JArr [JObj [("index", JNum (NInt 0)); ("delta", JObj delta);
                            ("finish_reason", finishReason)]])]) +:+ nl +:+ nl.
Definition translate_onFrame (model : string) (created : Z) (started : bool) (frame : string)
  : bool * string :=
  match frame_data frame with
  | None => (started, "")
  | Some data =>
      let type := field data "type" in
      if is_str type "message_start" && negb started then
        (true, chunk model created [("role", JStr "assistant"); ("content", JStr "")] JNull)
      else if is_str type "content_block_delta" then
        let delta := field data "delta" in
        (started,
         let text := str_field delta "text" ?? "" in
         if is_str (opt_field delta "type") "text_delta" && negb (String.eqb text "")
         then chunk model created [("content", JStr text)] JNull else "")
      else if is_str type "message_delta" then
        let stopReason := str_field (field data "delta") "stop_reason" in
        (started, chunk model created [] (JStr (ANTHROPIC_FINISH (stopReason ?? "") ?? "stop")))
      else if is_str type "message_stop" then (started, "data: [DONE]" +:+ nl +:+ nl)
      else (started, "")
  end.
(** What the translator returns for each frame of a stream. *)
Fixpoint translate_stream (model : string) (created : Z) (started : bool) (frames : list string)
  : list string :=
  match frames with
  | [] => []
  | f :: fs => let '(started', out) := translate_onFrame model created started f in
               out :: translate_stream model created started' fs
  end.

(** ** Gemini *)
Definition openaiToGeminiRequest (body : fields) : js fields :=
  messages ← array_or_empty (obj_get body "messages");
  system ← systemText messages;
  chat ← filter_role ["user"; "assistant"] messages;
  contents ← mapR (fun m => t ← contentToText (field m "content");
      Ok (JObj [("role", JStr (if is_str (field m "role") "assistant" then "model" else "user"));
                ("parts", JArr [JObj [("text", JStr t)]])])) chat;
  let gc : fields := [] in
  let gc := set_if (first_non_null (obj_get body "max_tokens") (obj_get body "max_completion_tokens"))
              "maxOutputTokens" id gc in
  let gc := set_if (obj_get body "temperature") "temperature" id gc in
  let gc := set_if (obj_get body "top_p") "topP" id gc in
  let out := [("contents", JArr contents)] in
  let out := if String.eqb system "" then out
             else obj_set out "systemInstruction" (JObj [("parts", JArr [JObj [("text", JStr system)]])]) in
  let out := match gc with [] => out | _ => obj_set out "generationConfig" (JObj gc) end in
  Ok out.

Definition GEMINI_FINISH (reason : string) : option string :=
  if String.eqb reason "STOP" then Some "stop"
  else if String.eqb reason "MAX_TOKENS" then Some "length"
  else if String.eqb reason "SAFETY" then Some "content_filter"
  else if String.eqb reason "RECITATION" then Some "content_filter"
  else None.

Definition geminiToOpenaiResponse (body : json) (model : string) (created : Z) : js json :=
  cs ← get_field body "candidates";
  let candidate := match cs with Some (JArr (c :: _)) => Some c | _ => None end in
  parts ← array_or_empty (opt_field (opt_field candidate "content") "parts");
  text ← texts_joined parts;
  let usage := field body "usageMetadata" in
  Ok (completion (JStr "chatcmpl-tt") (non_null (field body "modelVersion") ?? JStr model) created text
        (GEMINI_FINISH (str_field candidate "finishReason" ?? "") ?? "stop")
        (num_field usage "promptTokenCount" ?? NInt 0)
        (num_field usage "candidatesTokenCount" ?? NInt 0)).

Example anthropic_request :
  openaiToAnthropicRequest [("messages", JArr [JObj [("role", JStr "system"); ("content", JStr "s")];
     JObj [("role", JStr "user"); ("content", JArr [JObj [("text", JStr "a")]; JObj [("text", JStr "b")]])]]);
     ("stop", JStr "X"); ("max_tokens", JNum (NInt 9))] "claude"
  = Ok [("model", JStr "claude"); ("max_tokens", JNum (NInt 9));
        ("messages", JArr [JObj [("role", JStr "user"); ("content", JStr "ab")]]);
        ("system", JStr "s"); ("stop_sequences", JArr [JStr "X"])].
Proof. vm_compute. reflexivity. Qed.
Example stream_example :
  translate_stream "m" 7 false
    [dq "data: {'type':'content_block_delta','delta':{'type':'text_delta','text':'hi'}}";
     dq "data: {'type':'message_stop'}"]
  = [dq "data: {'id':'chatcmpl-tt-stream','object':'chat.completion.chunk','created':7,'model':'m','choices':[{'index':0,'delta':{'content':'hi'},'finish_reason':null}]}" +:+ nl +:+ nl;
     "data: [DONE]" +:+ nl +:+ nl].
Proof. vm_compute. reflexivity. Qed.

(** ** Reading the chunks back *)
(** The text an Anthropic frame adds to the answer. *)
Definition anthropic_text (frame : string) : string :=
  match frame_data frame with
  | Some data =>
      if is_str (field data "type") "content_block_delta"
         && is_str (opt_field (field data "delta") "type") "text_delta"
      then str_field (field data "delta") "text" ?? "" else ""
  | None => ""
  end.
(** The text and the finish reason an OpenAI client reads from one emission:
    [choices[0].delta.content], [choices[0].finish_reason]. *)
Definition first_choice (emitted : string) : option json :=
  match opt_field (ssePayload emitted) "choices" with Some (JArr (c :: _)) => Some c | _ => None end.
Definition openai_text (emitted : string) : string :=
  str_field (opt_field (first_choice emitted) "delta") "content" ?? "".
Definition openai_finish (emitted : string) : option string :=
  str_field (first_choice emitted) "finish_reason".

Section sse.

Lemma escape_no_newline c : no_char newline (escape_char c) = true.
Proof. destruct c as [[] [] [] [] [] [] [] []]; reflexivity. Qed.
Lemma sforall_concat_map f (g : ascii -> string) s :
  (forall c, sforall f (g c) = true) -> sforall f (sconcat_map g s) = true.
Proof. intros H. induction s as [|c s IH]; [done|]. cbn. by rewrite sforall_app, H. Qed.
Lemma quote_no_newline s : no_char newline (quote s) = true.
Proof.
  unfold quote, no_char. cbn. rewrite sforall_app. cbn. rewrite andb_true_r.
  apply sforall_concat_map, escape_no_newline.
Qed.
Lemma digits_no_newline s : all_digits s = true -> no_char newline s = true.
Proof.
  apply sforall_impl. intros c H. destruct (Ascii.eqb_spec c newline) as [->|]; [|done].
  exfalso. vm_compute in H. discriminate.
Qed.
Lemma dec_no_newline z : no_char newline (dec_signed z) = true.
Proof.
  unfold dec_signed. destruct (Z.ltb_spec z 0); [cbn|]; apply digits_no_newline, dec_digits; lia.
Qed.
Lemma join_no_newline l :
  Forall (fun s => no_char newline s = true) l -> no_char newline (join "," l) = true.
Proof.
  unfold no_char. induction 1 as [|s [|t l] Hs Hl IH]; [done|done|].
  change (join "," (s :: t :: l)) with (s +:+ "," +:+ join "," (t :: l)).
  by rewrite !sforall_app, Hs, IH.
Qed.
(** Printed JSON is one line. *)
Lemma stringify_no_newline v : wf_json v = true -> no_char newline (stringify v) = true.
Proof.
  revert v. fix IH 1. intros [|b|n|s|l|o] Hwf.
  - reflexivity.
  - by destruct b.
  - cbn in Hwf. destruct n as [z|]; [|done]. bool_to_prop. cbn [stringify].
    rewrite number_to_string_int by done. apply dec_no_newline.
  - apply quote_no_newline.
  - cbn [stringify]. unfold no_char. rewrite !sforall_app. cbn. rewrite andb_true_r.
    apply join_no_newline. cbn in Hwf. induction l as [|v l IHl]; [constructor|].
    cbn in Hwf. apply andb_true_iff in Hwf as [Hv Hl]. constructor; [by apply IH|by apply IHl].
  - change (stringify (JObj o)) with ("{" +:+ join "," (map member o) +:+ "}").
    unfold no_char. rewrite !sforall_app. cbn. rewrite andb_true_r.
    apply join_no_newline. cbn in Hwf. apply andb_true_iff in Hwf as [_ Hwf].
    induction o as [|[k v] o IHo]; [constructor|]. cbn [map forallb fst snd] in *.
    apply andb_true_iff in Hwf as [Hv Ho]. constructor; [|by apply IHo].
    unfold member, no_char. rewrite !sforall_app. cbn [fst snd].
    apply andb_true_iff. split; [apply quote_no_newline | by apply IH].
Qed.

Lemma trim_solid a b s :
  is_space a = false -> is_space b = false ->
  trim (" " +:+ String a (s +:+ String b "")) = String a (s +:+ String b "").
Proof.
  intros Ha Hb. unfold trim, drop_while_end.
  replace (drop_while is_space (" " +:+ String a (s +:+ String b ""))) with (String a s +:+ String b "")
    by (cbn; by rewrite Ha).
  rewrite <- string_app_cons, srev_snoc.
  cbn [drop_while]. rewrite Hb. rewrite <- srev_snoc. apply srev_involutive.
Qed.

(** A printed object sent as an event is read back by the other side. *)
Lemma ssePayload_data o :
  wf_json (JObj o) = true ->
  ssePayload ("data: " +:+ stringify (JObj o) +:+ nl +:+ nl) = Some (JObj o).
Proof.
  intros Hwf. pose proof (stringify_no_newline _ Hwf) as Hnl.
  pose proof (json_parse_stringify _ Hwf) as Hp.
  assert (exists s, stringify (JObj o) = String "{" (s +:+ String "}" "")) as [s Hs].
  { cbn. eauto. }
  unfold ssePayload.
  replace ("data: " +:+ stringify (JObj o) +:+ nl +:+ nl)
    with (("data: " +:+ stringify (JObj o)) +:+ String newline nl) by (by rewrite string_app_assoc).
  rewrite split_on_app by (unfold no_char in *; by rewrite sforall_app, Hnl).
  cbn [List.find].
  replace (starts_with "data:" ("data: " +:+ stringify (JObj o))) with true by reflexivity.
  change (slice_from 5 ("data: " +:+ stringify (JObj o))) with (" " +:+ stringify (JObj o)).
  rewrite Hs, trim_solid, <- Hs by done. rewrite Hs at 1 2. cbn [String.eqb Ascii.eqb Bool.eqb orb].
  by rewrite Hp.
Qed.

End sse.

(** The finish reason an Anthropic frame announces, in OpenAI's words. *)
Definition anthropic_finish (frame : string) : option string :=
  match frame_data frame with
  | Some data =>
      if is_str (field data "type") "message_delta"
      then Some (ANTHROPIC_FINISH (str_field (field data "delta") "stop_reason" ?? "") ?? "stop")
      else None
  | None => None
  end.

Section stream_translation.
Context (model : string) (created : Z) (Hcreated : 0 <= created <= 2 ^ 53).

Lemma chunk_read delta fin :
  wf_json (JObj delta) = true -> wf_json fin = true ->
  openai_text (chunk model created delta fin) = (str_field (Some (JObj delta)) "content" ?? "") /\
  openai_finish (chunk model created delta fin) = match fin with JStr s => Some s | _ => None end.
Proof.
  intros Hd Hf. unfold openai_text, openai_finish, first_choice, chunk.
  rewrite ssePayload_data; [done|]. cbn -[Z.abs Z.pow] in *.
  rewrite Hd, Hf. by rewrite (proj2 (Z.leb_le _ _)) by lia.
Qed.

Lemma translate_frame started frame :
  let out := (translate_onFrame model created started frame).2 in
  openai_text out = anthropic_text frame /\ openai_finish out = anthropic_finish frame.
Proof.
  unfold translate_onFrame, anthropic_text, anthropic_finish.
  destruct (frame_data frame) as [data|]; [|done].
  assert (forall d f, wf_json (JObj d) = true -> wf_json f = true ->
    openai_text (chunk model created d f) = (str_field (Some (JObj d)) "content" ?? "")) as Ht
    by (intros; by apply chunk_read).
  assert (forall d f, wf_json (JObj d) = true -> wf_json f = true ->
    openai_finish (chunk model created d f) = match f with JStr s => Some s | _ => None end) as Hf
    by (intros; by apply chunk_read).
  destruct (field data "type") as [[| | |t| |]|]; try done; cbn [is_str].
  destruct (String.eqb_spec t "message_start") as [->|_]; [by destruct started; cbn -[chunk]; rewrite ?Ht, ?Hf|].
  destruct (String.eqb_spec t "content_block_delta") as [->|_]; cbn -[chunk].
  - destruct (is_str _ "text_delta"); cbn -[chunk]; [|done].
    destruct (String.eqb_spec (str_field (field data "delta") "text" ?? "") "") as [->|]; [done|].
    cbn -[chunk]. by rewrite Ht, Hf.
  - destruct (String.eqb_spec t "message_delta") as [->|_]; cbn -[chunk]; [by rewrite Ht, Hf|].
    by destruct (String.eqb_spec t "message_stop") as [->|_].
Qed.

End stream_translation.

(** ** Theorems *)

(** C33: Translation loses, adds and reorders nothing of a streamed answer: frame
    by frame, the text an OpenAI client reads from what is emitted (through
    JSON text and event framing) is the text Anthropic's frame carried, and the
    finish reason is the announced one, mapped. *)
Theorem stream_text_preserved model created started frames :
  0 <= created <= 2 ^ 53 ->
  map openai_text (translate_stream model created started frames) = map anthropic_text frames /\
  map openai_finish (translate_stream model created started frames) = map anthropic_finish frames.
Proof.
  intros Hc. revert started; induction frames as [|f fs IH]; intros started; [done|].
  pose proof (translate_frame model created Hc started f) as [Ht Hf]. cbn [translate_stream].
  destruct (translate_onFrame model created started f) as [st out]. cbn in *.
  destruct (IH st) as [-> ->]. by rewrite Ht, Hf.
Qed.

Lemma stream_text_preserved_witness :
  map openai_text (translate_stream "m" 7 false
    [dq "data: {'type':'content_block_delta','delta':{'type':'text_delta','text':'hi'}}";
     dq "data: {'type':'message_stop'}"]) = ["hi"; ""].
Proof.
  eapply eq_trans.
  - refine (proj1 (stream_text_preserved "m" 7 false _ _)). lia.
  - vm_compute. reflexivity.
Defined.

(** What the client of the unified endpoint is told it used is what the
    ledger meters: Anthropic's prompt and completion tokens are the metered
    input and output; Gemini's prompt tokens are the count the metered uncached
    and cached input are split from. *)
Theorem translated_usage_is_metered body model created :
  (forall r, anthropicToOpenaiResponse body created = Ok r ->
     exists u, anthropic_parseUsage body = Ok u /\
       num_field (field r "usage") "prompt_tokens" = Some (inputTokens u) /\
       num_field (field r "usage") "completion_tokens" = Some (outputTokens u)) /\
  (forall r, geminiToOpenaiResponse body model created = Ok r ->
     exists u p, gemini_parseUsage body = Ok u /\
       num_field (field r "usage") "prompt_tokens" = Some p /\
       inputTokens u = num_max0 (num_sub p (cacheReadTokens u)) /\
       num_field (field r "usage") "completion_tokens" = Some (outputTokens u)).
Proof.
  assert (forall v k, num_field (non_null v) k = num_field v k) as Hnn by (by intros [[]|] k).
  split; intros r; unfold anthropicToOpenaiResponse, geminiToOpenaiResponse; intros H; inv_ok.
  - unfold anthropic_parseUsage. destruct body; cbn in E; try done;
      (eexists; split; [reflexivity|]; cbn -[num_field]; by rewrite ?Hnn).
  - unfold gemini_parseUsage. destruct body; cbn in E; try done;
      (eexists _, _; split; [reflexivity|]; cbn -[num_max0 num_sub num_field]; by rewrite ?Hnn).
Qed.

Lemma translated_usage_is_metered_witness :
  exists r u, anthropicToOpenaiResponse (JObj [("content", JArr []);
     ("usage", JObj [("input_tokens", JNum (NInt 5)); ("output_tokens", JNum (NInt 7))])]) 1 = Ok r /\
  num_field (field r "usage") "prompt_tokens" = Some (inputTokens u) /\ inputTokens u = NInt 5.
Proof.
  eexists. destruct (translated_usage_is_metered (JObj [("content", JArr []);
     ("usage", JObj [("input_tokens", JNum (NInt 5)); ("output_tokens", JNum (NInt 7))])]) "m" 1)
    as [H _].
  destruct (H _ eq_refl) as (u & Hu & Hp & _). exists u. split; [reflexivity|]. split; [exact Hp|].
  vm_compute in Hu. injection Hu as <-. reflexivity.
Defined.
