(* ===== verification/FrameTap.v ===== *)
(** * apps/gateway/src/proxy/core.ts: [FrameTap]

    The transform stream between the provider and the client.  The observer and
    the translator are arguments: [tapFrame] threads the observer's state,
    [transformFrame] the translator's, and either may throw, which [safeFrame]
    swallows. *)

From S2P Require Import Prelude JsString.
From Stdlib Require Import Ascii.

Section tap.
Context {S T : Type}.
Context (delimiter : string).
Context (tapFrame : S -> string -> js S).
Context (transformFrame : option (T -> string -> js (T * string))).

Record FrameTap := mkTap {
  pending : string;
  sawFirstByte : bool;
  tap_state : S;
  tr_state : T;
}.

(** [safeFrame(this.tapFrame, frame, undefined)] *)
Definition safe_tap (s : S) (frame : string) : S := catch (tapFrame s frame) s.
(** [safeFrame(this.transformFrame, frame, "")] *)
Definition safe_transform (t : T) (frame : string) : T * string :=
  match transformFrame with Some f => catch (f t frame) (t, "") | None => (t, "") end.
Definition is_blank (frame : string) : bool := String.eqb (trim frame) "".

Definition observe (st : FrameTap) (frame : string) : FrameTap * string :=
  if is_blank frame then (st, "")
  else let '(t, out) := safe_transform (tr_state st) frame in
       (mkTap (pending st) (sawFirstByte st) (safe_tap (tap_state st) frame) t, out).

(** The [while] loop: complete frames leave [pending].  Each iteration shortens
    it, so its length is enough fuel. *)
Fixpoint drain (fuel : nat) (st : FrameTap) : FrameTap * string :=
  match fuel with
  | O => (st, "")
  | Datatypes.S fuel' =>
      match index_of delimiter (pending st) with
      | None => (st, "")
      | Some index =>
          let frame := slice_to index (pending st) in
          let rest := slice_from (index + String.length delimiter) (pending st) in
          let '(st1, o1) := observe (mkTap rest (sawFirstByte st) (tap_state st) (tr_state st)) frame in
          let '(st2, o2) := drain fuel' st1 in (st2, o1 +:+ o2)
      end
  end.

(** [_transform]: the new state, whether [onFirstByte] was called, and what goes
    downstream. *)
Definition tap_transform (st : FrameTap) (chunk : string) : FrameTap * bool * string :=
  let first := negb (sawFirstByte st) in
  let pend := pending st +:+ utf8_decode chunk in
  let '(st', out) := drain (String.length pend) (mkTap pend true (tap_state st) (tr_state st)) in
  (st', first, match transformFrame with Some _ => out | None => chunk end).

(** [_flush] *)
Definition tap_flush (st : FrameTap) : FrameTap * string :=
  if is_blank (pending st) then (st, "")
  else let '(st', tail) := observe st (pending st) in
       (st', match transformFrame with Some _ => tail | None => "" end).

(** A whole stream: the chunks in order, then the flush if the upstream ended
    without an error.  The result is the final state, the number of
    [onFirstByte] calls and the bytes the client receives. *)
Fixpoint tap_chunks (st : FrameTap) (chunks : list string) : FrameTap * nat * string :=
  match chunks with
  | [] => (st, O, "")
  | c :: cs =>
      let '(st1, first, o1) := tap_transform st c in
      let '(st2, n, o2) := tap_chunks st1 cs in
      (st2, ((if first : bool then 1 else 0) + n)%nat, o1 +:+ o2)
  end.
Definition tap_run (st : FrameTap) (chunks : list string) (failed : bool) : FrameTap * nat * string :=
  let '(st1, n, o1) := tap_chunks st chunks in
  if failed then (st1, n, o1)
  else let '(st2, o2) := tap_flush st1 in (st2, n, o1 +:+ o2).
Definition tap_init (s : S) (t : T) : FrameTap := mkTap "" false s t.

(** ** Reference: the frames of a text *)
Fixpoint split_frames (fuel : nat) (s : string) : list string * string :=
  match fuel with
  | O => ([], s)
  | Datatypes.S fuel' =>
      match index_of delimiter s with
      | None => ([], s)
      | Some index =>
          let '(fs, rest) := split_frames fuel' (slice_from (index + String.length delimiter) s) in
          (slice_to index s :: fs, rest)
      end
  end.
(** All delimited frames and the unfinished rest. *)
Definition frames_of (s : string) : list string * string := split_frames (String.length s) s.
(** The non-blank frames of a finished stream, the unterminated last included. *)
Definition all_frames (s : string) : list string :=
  List.filter (fun f => negb (is_blank f)) (let '(fs, rest) := frames_of s in fs ++ [rest]).

(** The observer and the translator over a list of frames. *)
Definition tap_frames (s : S) (frames : list string) : S := fold_left safe_tap frames s.
Fixpoint transform_frames (t : T) (frames : list string) : T * string :=
  match frames with
  | [] => (t, "")
  | f :: fs => let '(t1, o1) := safe_transform t f in
               let '(t2, o2) := transform_frames t1 fs in (t2, o1 +:+ o2)
  end.

Context (Hdelim : delimiter <> "").

Lemma delim_pos : (0 < String.length delimiter)%nat.
Proof.
  assert (forall d, d <> "" -> (0 < String.length d)%nat) as H by (intros [|c d] Hd; cbn; [by destruct Hd | lia]).
  by apply H.
Qed.

Lemma index_of_found s i :
  index_of delimiter s = Some i -> (i + String.length delimiter <= String.length s)%nat.
Proof.
  intros H. apply index_of_Some in H as (t & Ht & Hle).
  apply (f_equal String.length) in Ht. rewrite !length_string_app, length_slice_to in Ht. lia.
Qed.

(** More fuel changes nothing once it covers the text. *)
Lemma split_frames_fuel n m s :
  (String.length s <= n)%nat -> (String.length s <= m)%nat -> split_frames n s = split_frames m s.
Proof.
  revert m s; induction n as [|n IH]; intros m s Hn Hm.
  - destruct m; [done|]. cbn [split_frames]. destruct s; [|cbn in Hn; lia].
    destruct (index_of delimiter "") eqn:E; [|done]. apply index_of_found in E. pose proof delim_pos. cbn in E. lia.
  - destruct m as [|m].
    + destruct s; [|cbn in Hm; lia]. cbn [split_frames].
      destruct (index_of delimiter "") eqn:E; [|done]. apply index_of_found in E. pose proof delim_pos. cbn in E. lia.
    + cbn [split_frames]. destruct (index_of delimiter s) as [i|] eqn:E; [|done].
      apply index_of_found in E. pose proof delim_pos.
      assert (String.length (slice_from (i + String.length delimiter) s) <= n)%nat by (rewrite length_slice_from; lia).
      assert (String.length (slice_from (i + String.length delimiter) s) <= m)%nat by (rewrite length_slice_from; lia).
      by rewrite (IH m).
Qed.
Lemma frames_of_step s :
  frames_of s = match index_of delimiter s with
                | None => ([], s)
                | Some i => let '(fs, rest) := frames_of (slice_from (i + String.length delimiter) s) in
                            (slice_to i s :: fs, rest)
                end.
Proof.
  unfold frames_of. rewrite (split_frames_fuel _ (Datatypes.S (String.length s))) by lia.
  cbn [split_frames]. destruct (index_of delimiter s) as [i|]; [|done].
  rewrite (split_frames_fuel (String.length s) (String.length (slice_from (i + String.length delimiter) s)));
    [done|rewrite length_slice_from; lia|lia].
Qed.

(** Text that comes later does not disturb a delimiter already seen. *)
Lemma index_of_app s t i : index_of delimiter s = Some i -> index_of delimiter (s +:+ t) = Some i.
Proof.
  revert i; induction s as [|c s IH]; intros i H.
  - exfalso. apply index_of_found in H. pose proof delim_pos. cbn in H. lia.
  - cbn [index_of] in H. cbn [String.append index_of].
    destruct (starts_with delimiter (String c s)) eqn:E.
    + apply starts_with_spec in E as [u Hu]. rewrite <- string_app_cons, Hu, string_app_assoc.
      by rewrite starts_with_app.
    + apply fmap_Some in H as (j & Hj & ->).
      destruct (starts_with delimiter (String c (s +:+ t))) eqn:E2; [|by rewrite (IH j)].
      exfalso. apply index_of_found in Hj.
      apply starts_with_spec in E2 as [u Hu].
      enough (starts_with delimiter (String c s) = true) by congruence.
      apply (prefix_comparable _ _ (String c s +:+ t)).
      * cbn [String.append]. rewrite Hu. apply starts_with_app.
      * apply starts_with_app.
      * cbn. lia.
Qed.
Lemma slice_to_app_le n a b : (n <= String.length a)%nat -> slice_to n (a +:+ b) = slice_to n a.
Proof. revert n; induction a as [|c a IH]; intros [|n] H; cbn in *; try done; try lia. f_equal. apply IH. lia. Qed.
Lemma slice_from_app_le n a b :
  (n <= String.length a)%nat -> slice_from n (a +:+ b) = slice_from n a +:+ b.
Proof. revert n; induction a as [|c a IH]; intros [|n] H; cbn in *; try done; try lia. apply IH. lia. Qed.

(** Framing commutes with concatenation: the rest of the first part is carried
    into the second. *)
Lemma frames_of_app a b :
  frames_of (a +:+ b) =
  let '(f1, r1) := frames_of a in let '(f2, r2) := frames_of (r1 +:+ b) in (f1 ++ f2, r2).
Proof.
  remember (String.length a) as n eqn:Hn. revert a Hn.
  induction n as [n IH] using lt_wf_ind; intros a ->.
  rewrite (frames_of_step a). destruct (index_of delimiter a) as [i|] eqn:E.
  2:{ by destruct (frames_of (a +:+ b)). }
  pose proof (index_of_found _ _ E). pose proof delim_pos.
  rewrite (frames_of_step (a +:+ b)), (index_of_app _ _ _ E), slice_to_app_le, slice_from_app_le by lia.
  rewrite (IH (String.length (slice_from (i + String.length delimiter) a)))
    by (rewrite ?length_slice_from; lia).
  destruct (frames_of (slice_from (i + String.length delimiter) a)) as [f1 r1].
  by destruct (frames_of (r1 +:+ b)) as [f2 r2].
Qed.

(** The loop runs observer and translator over exactly those frames. *)
Definition kept (frames : list string) : list string := List.filter (fun f => negb (is_blank f)) frames.

Lemma drain_spec n st :
  (String.length (pending st) <= n)%nat ->
  let '(fs, rest) := split_frames n (pending st) in
  let '(t, out) := transform_frames (tr_state st) (kept fs) in
  drain n st = (mkTap rest (sawFirstByte st) (tap_frames (tap_state st) (kept fs)) t, out).
Proof.
  revert st; induction n as [|n IH]; intros [p b s t] Hn; cbn [pending] in *.
  { cbn. done. }
  cbn [drain split_frames pending]. destruct (index_of delimiter p) as [i|] eqn:E; [|cbn; done].
  pose proof (index_of_found _ _ E). pose proof delim_pos.
  cbn [sawFirstByte tap_state tr_state].
  set (rest := slice_from (i + String.length delimiter) p).
  assert (String.length rest <= n)%nat as Hr by (subst rest; rewrite length_slice_from; lia).
  unfold observe. cbn [tr_state pending sawFirstByte tap_state].
  destruct (split_frames n rest) as [fs r] eqn:Efs.
  unfold kept; cbn [List.filter]. fold (kept fs).
  destruct (is_blank (slice_to i p)); cbn [negb].
  - specialize (IH (mkTap rest b s t) Hr). cbn [pending tr_state sawFirstByte tap_state] in IH.
    rewrite Efs in IH. destruct (transform_frames t (kept fs)) as [t2 o2].
    rewrite IH. done.
  - cbn [transform_frames]. destruct (safe_transform t (slice_to i p)) as [t1 o1].
    specialize (IH (mkTap rest b (safe_tap s (slice_to i p)) t1) Hr).
    cbn [pending tr_state sawFirstByte tap_state] in IH. rewrite Efs in IH.
    destruct (transform_frames t1 (kept fs)) as [t2 o2]. by rewrite IH.
Qed.

Lemma transform_frames_app t f1 f2 :
  transform_frames t (f1 ++ f2) =
  let '(t1, o1) := transform_frames t f1 in
  let '(t2, o2) := transform_frames t1 f2 in (t2, o1 +:+ o2).
Proof.
  revert t; induction f1 as [|f f1 IH]; intros t; cbn.
  - by destruct (transform_frames t f2).
  - destruct (safe_transform t f) as [t1 o1]. rewrite IH.
    destruct (transform_frames t1 f1) as [t2 o2]. destruct (transform_frames t2 f2).
    by rewrite string_app_assoc.
Qed.
Lemma kept_app f1 f2 : kept (f1 ++ f2) = kept f1 ++ kept f2.
Proof. apply List.filter_app. Qed.

(** The state after any chunks is the framing of their text. *)
Lemma tap_chunks_spec chunks st :
  let text := join "" (map utf8_decode chunks) in
  let '(fs, rest) := frames_of (pending st +:+ text) in
  frames_of (pending st) = ([], pending st) ->
  let '(t, out) := transform_frames (tr_state st) (kept fs) in
  tap_chunks st chunks =
  (mkTap rest (sawFirstByte st || negb (bool_decide (chunks = []))) (tap_frames (tap_state st) (kept fs)) t,
   (if sawFirstByte st then 0 else if bool_decide (chunks = []) then 0 else 1)%nat,
   match transformFrame with Some _ => out | None => join "" chunks end).
Proof.
  assert (forall c cs, join "" (c :: cs) = c +:+ join "" cs) as Hj
    by (intros c [|d cs]; cbn; by rewrite ?string_app_nil_r).
  revert st; induction chunks as [|c cs IH]; intros st.
  { cbn. rewrite string_app_nil_r. destruct (frames_of (pending st)) as [fs rest] eqn:E.
    intros H. injection H as -> ->. cbn. rewrite orb_false_r. destruct st as [p [] s t]; cbn;
      by destruct transformFrame. }
  cbv zeta. cbn [map]. rewrite Hj, <- string_app_assoc. rewrite frames_of_app.
  destruct (frames_of (pending st +:+ utf8_decode c)) as [f1 r1] eqn:E1.
  destruct (frames_of (r1 +:+ join "" (map utf8_decode cs))) as [f2 r2] eqn:E2.
  intros Hst. rewrite kept_app, transform_frames_app.
  cbn [tap_chunks]. unfold tap_transform.
  pose proof (drain_spec (String.length (pending st +:+ utf8_decode c))
    (mkTap (pending st +:+ utf8_decode c) true (tap_state st) (tr_state st)) ltac:(cbn; lia)) as Hd.
  cbn [pending tr_state sawFirstByte tap_state] in Hd.
  change (split_frames (String.length ?x) ?x) with (frames_of x) in Hd. rewrite E1 in Hd.
  destruct (transform_frames (tr_state st) (kept f1)) as [t1 o1]. rewrite Hd.
  specialize (IH (mkTap r1 true (tap_frames (tap_state st) (kept f1)) t1)).
  cbn [pending tr_state sawFirstByte tap_state] in IH. rewrite E2 in IH.
  assert (frames_of r1 = ([], r1)) as Hr1.
  { pose proof (frames_of_app (pending st +:+ utf8_decode c) "") as H.
    rewrite string_app_nil_r, E1, string_app_nil_r in H. destruct (frames_of r1) as [fr rr].
    injection H as H ->. f_equal. apply (f_equal length) in H. rewrite length_app in H.
    destruct fr; [done|]. cbn in H. lia. }
  specialize (IH Hr1). destruct (transform_frames t1 (kept f2)) as [t2 o2]. rewrite IH.
  rewrite Hj. f_equal; [f_equal|by destruct transformFrame].
  - f_equal; [by rewrite orb_true_r|]. unfold tap_frames. by rewrite fold_left_app.
  - by destruct (sawFirstByte st).
Qed.

Lemma decode_chunks chunks :
  Forall utf8_closed chunks -> join "" (map utf8_decode chunks) = utf8_decode (join "" chunks).
Proof.
  assert (forall c cs, join "" (c :: cs) = c +:+ join "" cs) as Hj
    by (intros c [|d cs]; cbn; by rewrite ?string_app_nil_r).
  induction 1 as [|c cs Hc Hcs IH]; [done|]. cbn [map].
  by rewrite !Hj, IH, utf8_decode_app.
Qed.

Lemma tap_run_spec s t chunks (failed : bool) :
  let text := join "" (map utf8_decode chunks) in
  let frames := if failed then kept (frames_of text).1 else all_frames text in
  exists pend,
  tap_run (tap_init s t) chunks failed =
  (mkTap pend (negb (bool_decide (chunks = []))) (tap_frames s frames) (transform_frames t frames).1,
   (if bool_decide (chunks = []) then 0 else 1)%nat,
   match transformFrame with Some _ => (transform_frames t frames).2 | None => join "" chunks end).
Proof.
  cbv zeta. pose proof (tap_chunks_spec chunks (tap_init s t)) as H. cbv zeta in H.
  unfold tap_init in *. cbn [pending tr_state tap_state sawFirstByte orb] in H.
  rewrite string_app_nil_l in H. unfold tap_run, all_frames.
  destruct (frames_of (join "" (map utf8_decode chunks))) as [fs rest].
  assert (frames_of "" = ([], "")) as H0 by done. specialize (H H0).
  destruct (transform_frames t (kept fs)) as [t1 o1] eqn:Et. rewrite H.
  destruct failed; [exists rest; cbn; fold (kept fs); by rewrite Et|].
  change (List.filter (fun f => negb (is_blank f)) (fs ++ [rest])) with (kept (fs ++ [rest])).
  rewrite kept_app, transform_frames_app, Et.
  assert (kept [rest] = if is_blank rest then [] else [rest]) as -> by (cbn; by destruct (is_blank rest)).
  unfold tap_flush, observe. cbn [pending tr_state tap_state sawFirstByte].
  unfold tap_frames. rewrite fold_left_app.
  destruct (is_blank rest); cbn [negb].
  - exists rest. cbn. rewrite string_app_nil_r. destruct transformFrame; by rewrite ?string_app_nil_r.
  - cbn. destruct (safe_transform t1 rest) as [t2 o2]. exists rest. cbn.
    rewrite string_app_nil_r. by destruct transformFrame; rewrite ?string_app_nil_r.
Qed.

End tap.

(** ** Theorems *)

(** C22: However the network cuts the stream (on character boundaries), the usage
    observer and the translator see the frames of the whole text, each once and
    in order, the unterminated last one included; a passed-through stream
    reaches the client byte for byte, whatever the observer does (it may even
    throw); the first byte is timed once. *)
Theorem tap_chunking_invariant {S T} delimiter (tapFrame : S -> string -> js S)
    (transformFrame : option (T -> string -> js (T * string))) s t chunks :
  delimiter <> "" -> Forall utf8_closed chunks ->
  let frames := all_frames delimiter (utf8_decode (join "" chunks)) in
  let '(st, firsts, out) :=
    tap_run delimiter tapFrame transformFrame (tap_init s t) chunks false in
  tap_state st = tap_frames tapFrame s frames /\
  firsts = (if bool_decide (chunks = []) then 0 else 1)%nat /\
  out = match transformFrame with
        | None => join "" chunks
        | Some _ => (transform_frames transformFrame t frames).2
        end.
Proof.
  intros Hd Hc. cbv zeta.
  destruct (tap_run_spec delimiter tapFrame transformFrame Hd s t chunks false) as [p ->].
  by rewrite decode_chunks.
Qed.

Lemma tap_chunking_invariant_witness :
  (tap_run "|" (fun s f => Ok (s ++ [f])) (None : option (unit -> string -> js (unit * string)))
     (tap_init [] tt) ["a|b"; "c||d"; "e"] false).1.1.(tap_state) = ["a"; "bc"; "de"].
Proof.
  pose proof (tap_chunking_invariant "|" (fun s f => Ok (s ++ [f]))
    (None : option (unit -> string -> js (unit * string))) [] tt ["a|b"; "c||d"; "e"]
    ltac:(discriminate) ltac:(repeat constructor)) as H.
  cbv zeta in H. destruct (tap_run _ _ _ _ _ _) as [[st n] o]. destruct H as [H _].
  eapply eq_trans; [exact H|]. vm_compute. reflexivity.
Defined.
