(* ===== verification/Gateway.v ===== *)
(** * apps/gateway: types, request helpers and the event finalizer

    [types.ts] (what a handler knows about a key, and the interfaces of the
    stores), and the helpers and [EventFinalizer] of [proxy/core.ts].  The
    interfaces are type classes: the handlers are written against
    [GatewayDeps], the record of the answers the four dependencies give. *)

From S2P Require Import Prelude JsString JsNum JsDate Json Shared Queue Pricing Providers.
From Stdlib Require Import Ascii.

(** ** types.ts *)
Inductive KeyStatus := KEY_ACTIVE | KEY_REVOKED | KEY_EXPIRED.
#[global] Instance KeyStatus_eq_dec : EqDecision KeyStatus.
Proof. solve_decision. Defined.

Record ResolvedKeyContext := mkCtx {
  vkId : string;
  ctx_workspaceId : string;
  ctx_projectId : string;
  ctx_teamId : option string;
  ctx_userId : string;
  ctx_status : KeyStatus;
  ctx_expiresAt : option Z;
  providerAllowlist : list Provider;
  credentialAllowlist : list string;
  modelAllowlist : list string;
  rpmLimit : option Z;
}.
#[global] Instance ResolvedKeyContext_eq_dec : EqDecision ResolvedKeyContext.
Proof. solve_decision. Defined.

Record ResolvedCredentialSecret := mkSecret {
  credentialId : string;
  cs_secret : option string;
  cs_baseUrl : option string;
}.
#[global] Instance ResolvedCredentialSecret_eq_dec : EqDecision ResolvedCredentialSecret.
Proof. solve_decision. Defined.
Record RateLimitDecision := mkDecision { allowed : bool; retryAfterS : Z }.

(** The answers the dependencies give during one request; a store may reject. *)
Record GatewayDeps := mkDeps {
  keyStore_resolve : string -> js (option ResolvedKeyContext);
  credentialStore_getDefault : string -> Provider -> list string -> js (option ResolvedCredentialSecret);
  pricing_match : Provider -> string -> option string -> option PriceEntry;
  rateLimiter_check : string -> Z -> RateLimitDecision;
}.

(** ** Requests and replies *)
Inductive header_value := HOne (s : string) | HMany (l : list string).
Abbreviation headers := (gmap string header_value).
(** [Array.isArray(v) ? v.join(", ") : v] *)
Definition header_text (v : header_value) : string :=
  match v with HOne s => s | HMany l => join ", " l end.
(** [String(headers[name] ?? "")] *)
Definition header_string (hs : headers) (name : string) : string :=
  match hs !! name with Some (HOne s) => s | Some (HMany l) => join "," l | None => "" end.

(** A readable stream: the chunks it yields, and whether it then fails. *)
Record BodyStream := mkBody { bs_chunks : list string; bs_error : bool }.
Record Request := mkRequest {
  rq_id : string;
  rq_provider : string;        (** params.provider *)
  rq_rest : option string;     (** params["*"] *)
  rq_url : option string;      (** raw.url *)
  rq_method : string;
  rq_headers : headers;
  rq_body : option BodyStream;
}.
Record Reply := mkReply { rp_status : Z; rp_headers : headers; rp_body : string }.

(** ** proxy/core.ts: helpers *)
Definition MAX_REQUEST_BODY : Z := 20 * 1024 * 1024.
Definition SKIP_HEADERS : list string :=
  ["host"; "connection"; "content-length"; "transfer-encoding"; "authorization";
   "x-api-key"; "accept-encoding"; "keep-alive"; "proxy-authorization"; "te"; "upgrade"].
Definition skipped (name : string) : bool := bool_decide (name ∈ SKIP_HEADERS).

Definition is_key (s : string) : bool :=
  starts_with TOKEN_PREFIX_virtualKey s || starts_with LEGACY_TOKEN_PREFIX s.
Definition extractKey (hs : headers) : option string :=
  let from_api_key := match hs !! "x-api-key" with
                      | Some (HOne k) => if is_key k then Some k else None
                      | _ => None
                      end in
  match hs !! "authorization" with
  | Some (HOne auth) =>
      if starts_with ("Bearer " +:+ TOKEN_PREFIX_virtualKey) auth then Some (slice_from 7 auth)
      else if starts_with ("Bearer " +:+ LEGACY_TOKEN_PREFIX) auth then Some (slice_from 7 auth)
      else from_api_key
  | _ => from_api_key
  end.

Definition forwardable (name : string) : bool :=
  negb (skipped name) && negb (starts_with "x-tokenledger-" name).
Definition forwardableHeaders (hs : headers) : gmap string string :=
  header_text <$> filter (fun kv => forwardable kv.1 = true) hs.

(** The loop of [readAll]: stops at the chunk that crosses the limit. *)
Fixpoint readAll_loop (limit size : Z) (acc : string) (chunks : list string) (error : bool) : js string :=
  match chunks with
  | [] => if error then Throw "aborted" else Ok acc
  | c :: cs =>
      let size := size + Z.of_nat (String.length c) in
      if limit <? size then Throw ("Body exceeds " +:+ dec_signed limit +:+ " bytes")
      else readAll_loop limit size (acc +:+ c) cs error
  end.
Definition readAll (stream : BodyStream) (limit : Z) : js string :=
  readAll_loop limit 0 "" (bs_chunks stream) (bs_error stream).

Definition sendGatewayError (hs : headers) (status : Z) (type message requestId : string) : Reply :=
  mkReply status hs
    (stringify (JObj [("error", JObj [("type", JStr type); ("message", JStr message);
                                      ("requestId", JStr requestId)])])).

Record KeyError := mkKeyError { ke_status : Z; ke_type : string; ke_message : string }.
(** [authorizeKey], also written out at the start of the native handler. *)
Definition authorizeKey (d : GatewayDeps) (sha256Hex : string -> string) (now : Z) (hs : headers)
  : js (ResolvedKeyContext + KeyError) :=
  match extractKey hs with
  | None => Ok (inr (mkKeyError 401 "invalid_key"
                       "Provide a TokenLedger virtual key (tl_live_… or tt_live_… legacy)"))
  | Some presented =>
      found ← keyStore_resolve d (sha256Hex presented);
      Ok match found with
         | None => inr (mkKeyError 401 "invalid_key" "Unknown virtual key")
         | Some ctx =>
             if bool_decide (ctx_status ctx = KEY_REVOKED)
             then inr (mkKeyError 401 "key_revoked" "This virtual key has been revoked")
             else if bool_decide (ctx_status ctx = KEY_EXPIRED)
                     || match ctx_expiresAt ctx with Some t => t <? now | None => false end
             then inr (mkKeyError 401 "key_expired" "This virtual key has expired")
             else inl ctx
         end
  end.

(** ** EventFinalizer *)
Inductive StatusOverride := OverrideRateLimit | OverrideBudget.
Record FinalizeArgs := mkArgs {
  fa_httpStatus : Z;
  fa_streamed : bool;
  fa_usage : option NormalizedUsage;
  fa_aborted : bool;
  fa_statusOverride : option StatusOverride;
}.
Record EventFinalizerInfo := mkInfo {
  fi_match : Provider -> string -> option string -> option PriceEntry;  (** deps.pricing.match *)
  fi_ctx : ResolvedKeyContext;
  fi_provider : Provider;
  fi_endpoint : string;
  fi_requestId : string;
  fi_requestModel : string;
  fi_occurredAt : Z;
  fi_startedAt : Z;    (** nanoseconds *)
}.
Record EventFinalizer := mkFinalizer {
  info : EventFinalizerInfo;
  done : bool;
  ttftMs : option Z;
  fz_credentialId : option string;
}.
Definition newFinalizer (i : EventFinalizerInfo) : EventFinalizer := mkFinalizer i false None None.
Definition setCredentialId (id : string) (f : EventFinalizer) : EventFinalizer :=
  mkFinalizer (info f) (done f) (ttftMs f) (Some id).
(** [Math.round(Number(now - startedAt) / 1e6)] *)
Definition elapsedMs (f : EventFinalizer) (nowNs : Z) : Z :=
  (nowNs - fi_startedAt (info f) + 500000) / 1000000.
Definition markFirstByte (nowNs : Z) (f : EventFinalizer) : EventFinalizer :=
  mkFinalizer (info f) (done f)
    (match ttftMs f with None => Some (elapsedMs f nowNs) | t => t end) (fz_credentialId f).

(** [a || b] on strings *)
Definition str_or (a b : string) : string := if String.eqb a "" then b else a.
(** A key present only when the value is a non-empty string. *)
Definition if_truthy (v : option string) : option string :=
  match v with Some "" => None | _ => v end.

Definition usage_counts (u : NormalizedUsage) : TokenCounts :=
  mkTokenCounts (inputTokens u) (outputTokens u) (Some (cacheReadTokens u)) (Some (cacheWriteTokens u)).
(** Lines 180-193: the cost and its basis. *)
Definition event_cost (price : option PriceEntry) (usage : option NormalizedUsage) (aborted : bool)
  : js (string * CostBasis) :=
  match price, usage with
  | Some p, Some u =>
      cost ← match upstreamCostUsd u with Some c => Ok c | None => calculateCostUsd (usage_counts u) p end;
      Ok (cost, if complete u && negb aborted then ACTUAL else ESTIMATED)
  | _, _ => Ok ("0.00000000", UNPRICED)
  end.
Definition event_status (args : FinalizeArgs) : EventStatus :=
  match fa_statusOverride args with
  | Some OverrideRateLimit => BLOCKED_RATELIMIT
  | Some OverrideBudget => BLOCKED_BUDGET
  | None => if fa_httpStatus args <? 400 then OK else PROVIDER_ERROR
  end.
Definition usage_tokens (f : NormalizedUsage -> number) (u : option NormalizedUsage) : number :=
  match u with Some u => f u | None => NInt 0 end.
Definition build_event (f : EventFinalizer) (args : FinalizeArgs) (id : string) (nowNs : Z)
    (model : string) (price : option PriceEntry) (cost : string * CostBasis) : UsageEventMessage :=
  let ctx := fi_ctx (info f) in
  let usage := fa_usage args in
  mkEvent id (toISOString (fi_occurredAt (info f))) (ctx_workspaceId ctx) (ctx_projectId ctx)
    (if_truthy (ctx_teamId ctx)) (ctx_userId ctx) (vkId ctx) (if_truthy (fz_credentialId f)) None
    (fi_provider (info f)) (str_or (fi_requestModel (info f)) model) model (fi_endpoint (info f))
    (fi_requestId (info f)) (event_status args) (fa_httpStatus args) (fa_streamed args)
    (usage_tokens inputTokens usage) (usage_tokens outputTokens usage)
    (usage_tokens cacheReadTokens usage) (usage_tokens cacheWriteTokens usage)
    (usage_tokens reasoningTokens usage) (fst cost)
    ((fun p => mkUnitPrices (inputPerMtok p) (outputPerMtok p) (cacheReadPerMtok p)
                 (cacheWritePerMtok p)
                 (match pe_source p with SEED => "SEED" | SYNC => "SYNC" | MANUAL => "MANUAL"
                  | OVERRIDE => "OVERRIDE" end)) <$> price)
    (snd cost) (elapsedMs f nowNs) (ttftMs f) None.
(** [finalize]: the finalizer is marked done before anything can throw; the
    event goes to [sink.emit]. *)
Definition finalize (f : EventFinalizer) (args : FinalizeArgs) (id : string) (nowNs : Z)
  : EventFinalizer * js (option UsageEventMessage) :=
  if done f then (f, Ok None)
  else
    let f' := mkFinalizer (info f) true (ttftMs f) (fz_credentialId f) in
    let model := str_or (match fa_usage args with Some u => nu_model u | None => "" end)
                   (str_or (fi_requestModel (info f)) "unknown") in
    let price := fi_match (info f) (fi_provider (info f)) model
                   (Some (ctx_workspaceId (fi_ctx (info f)))) in
    (f', cost ← event_cost price (fa_usage args) (fa_aborted args);
         Ok (Some (build_event f args id nowNs model price cost))).
