(* ===== verification/RateLimit.v ===== *)
(** * apps/gateway/src/ratelimit.ts: the two rate limiters

    Both count requests per key and 60 s window.  [FixedWindow] is the contract
    of [types.ts] ("Fixed-window RPM check") as a class: the decision is that of
    the history of calls; the bound on admitted requests is proved against the
    class, and both implementations discharge it. *)

From S2P Require Import Prelude JsString JsNum Gateway.
From Stdlib Require Import Ascii.

(** [{ window, retryAfterS }] with [Math.ceil] *)
Definition window_of (nowMs : Z) : Z := nowMs / 60000.
Definition windowInfo (nowMs : Z) : Z * Z :=
  let window := window_of nowMs in
  (window, - ((- ((window + 1) * 60000 - nowMs)) / 1000)).

(** ** Redis *)
(** The two commands: a counter with an optional expiry, in milliseconds. *)
Record RedisCounter := mkCounter { rc_count : Z; rc_expires : option Z }.
Abbreviation redis := (gmap string RedisCounter).
Definition redis_live (now : Z) (c : RedisCounter) : bool :=
  match rc_expires c with Some t => now <? t | None => true end.
Definition redis_incr (now : Z) (key : string) (db : redis) : redis * Z :=
  match db !! key with
  | Some c => if redis_live now c then (<[key := mkCounter (rc_count c + 1) (rc_expires c)]> db, rc_count c + 1)
              else (<[key := mkCounter 1 None]> db, 1)
  | None => (<[key := mkCounter 1 None]> db, 1)
  end.
Definition redis_expire (now : Z) (key : string) (seconds : Z) (db : redis) : redis :=
  match db !! key with
  | Some c => <[key := mkCounter (rc_count c) (Some (now + seconds * 1000))]> db
  | None => db
  end.
(** Which command, if any, the server fails to answer. *)
Inductive RedisHealth := RedisUp | IncrFails | ExpireFails.

Definition redisKey (bucketKey : string) (window : Z) : string :=
  "rl:" +:+ bucketKey +:+ ":" +:+ dec window.
Definition RedisRateLimiter_check (health : RedisHealth) (now : Z) (bucketKey : string) (rpmLimit : Z)
    (db : redis) : redis * RateLimitDecision :=
  let '(window, retryAfterS) := windowInfo now in
  let fail_open := mkDecision true 0 in
  match health with
  | IncrFails => (db, fail_open)
  | _ =>
      let '(db, count) := redis_incr now (redisKey bucketKey window) db in
      if count =? 1 then
        match health with
        | ExpireFails => (db, fail_open)
        | _ => (redis_expire now (redisKey bucketKey window) 120 db,
                mkDecision (count <=? rpmLimit) retryAfterS)
        end
      else (db, mkDecision (count <=? rpmLimit) retryAfterS)
  end.

(** ** In memory *)
Definition memoryKey (bucketKey : string) (window : Z) : string := bucketKey +:+ ":" +:+ dec window.
Definition MemoryRateLimiter_check (now : Z) (bucketKey : string) (rpmLimit : Z) (counts : gmap string Z)
  : gmap string Z * RateLimitDecision :=
  let '(window, retryAfterS) := windowInfo now in
  let key := memoryKey bucketKey window in
  let count := (counts !! key ?? 0) + 1 in
  let counts := <[key := count]> counts in
  (if (10000 <? Z.of_nat (size counts)) then ∅ else counts, mkDecision (count <=? rpmLimit) retryAfterS).

(** ** The contract *)
(** Calls of one bucket in one window, among those made so far. *)
Definition in_window (w : Z) (b : string) (call : Z * string) : bool :=
  String.eqb call.2 b && (window_of call.1 =? w).
Definition calls_in (h : list (Z * string)) (w : Z) (b : string) : Z :=
  Z.of_nat (length (List.filter (in_window w b) h)).

Class RateLimiterI (S : Type) := {
  rl_init : S;
  rl_check : Z -> string -> Z -> S -> S * RateLimitDecision;
}.
(** [fw_valid s h]: the state is one reached by the calls [h]; [fw_room]: the
    histories the implementation is exact for. *)
Class FixedWindow (S : Type) `{RateLimiterI S} := {
  fw_valid : S -> list (Z * string) -> Prop;
  fw_room : list (Z * string) -> Prop;
  fw_init : fw_valid rl_init [];
  fw_step : forall s h now b limit,
    fw_valid s h -> 0 <= now -> fw_room (h ++ [(now, b)]) ->
    fw_valid (rl_check now b limit s).1 (h ++ [(now, b)]) /\
    (rl_check now b limit s).2
    = mkDecision (calls_in h (window_of now) b + 1 <=? limit) (windowInfo now).2;
}.
#[export] Instance Redis_limiter : RateLimiterI redis :=
  {| rl_init := ∅; rl_check := RedisRateLimiter_check RedisUp |}.
#[export] Instance Memory_limiter : RateLimiterI (gmap string Z) :=
  {| rl_init := ∅; rl_check := MemoryRateLimiter_check |}.

Section keys.

Lemma colon_split a b d e :
  all_digits d = true -> all_digits e = true -> a +:+ ":" +:+ d = b +:+ ":" +:+ e -> a = b /\ d = e.
Proof.
  intros Hd He. revert b; induction a as [|c a IH]; intros [|c' b]; cbn.
  - by intros [= ->].
  - intros [= <- Hx]. exfalso. subst d. unfold all_digits in Hd. rewrite sforall_app in Hd.
    cbn in Hd. by rewrite andb_false_r in Hd.
  - intros [= -> Hx]. exfalso. subst e. unfold all_digits in He. rewrite sforall_app in He.
    cbn in He. by rewrite andb_false_r in He.
  - intros [= -> Hx]. by destruct (IH b Hx) as [-> ->].
Qed.
Lemma memoryKey_inj a v b w : 0 <= v -> 0 <= w -> memoryKey a v = memoryKey b w -> a = b /\ v = w.
Proof.
  intros Hv Hw H. apply colon_split in H as [-> H]; [|by apply dec_digits..].
  by rewrite <- (digits_val_dec v Hv), <- (digits_val_dec w Hw), H.
Qed.
Lemma redisKey_memoryKey b w : redisKey b w = "rl:" +:+ memoryKey b w.
Proof. done. Qed.
Lemma redisKey_inj a v b w : 0 <= v -> 0 <= w -> redisKey a v = redisKey b w -> a = b /\ v = w.
Proof. rewrite !redisKey_memoryKey. intros Hv Hw H%string_app_inj_l. by apply memoryKey_inj. Qed.

Lemma window_nonneg now : 0 <= now -> 0 <= window_of now.
Proof. intros. apply Z.div_pos; lia. Qed.
Lemma window_bounds now : window_of now * 60000 <= now < window_of now * 60000 + 60000.
Proof.
  unfold window_of. pose proof (Z.div_mod now 60000 ltac:(lia)).
  pose proof (Z.mod_pos_bound now 60000 ltac:(lia)). lia.
Qed.
Lemma calls_in_snoc h w b c :
  calls_in (h ++ [c]) w b = calls_in h w b + (if in_window w b c then 1 else 0).
Proof.
  unfold calls_in. rewrite List.filter_app, length_app. cbn [List.filter].
  destruct (in_window w b c); cbn [length]; lia.
Qed.
Lemma calls_in_cons h w b c :
  calls_in (c :: h) w b = calls_in h w b + (if in_window w b c then 1 else 0).
Proof. unfold calls_in. cbn [List.filter]. destruct (in_window w b c); cbn [length]; lia. Qed.
Lemma calls_in_nonneg h w b : 0 <= calls_in h w b.
Proof. unfold calls_in. lia. Qed.
Lemma in_window_self now b : in_window (window_of now) b (now, b) = true.
Proof. unfold in_window; cbn. by rewrite String.eqb_refl, Z.eqb_refl. Qed.
Lemma in_window_other w b now b' :
  b <> b' \/ w <> window_of now -> in_window w b (now, b') = false.
Proof.
  unfold in_window; cbn. intros [H|H]; [by rewrite (proj2 (String.eqb_neq b' b)) by congruence|].
  rewrite (proj2 (Z.eqb_neq (window_of now) w)) by congruence. apply andb_false_r.
Qed.

End keys.

(** ** Redis meets the contract *)
(** Each counter holds the calls of its window and outlives it. *)
Definition redis_valid (db : redis) (h : list (Z * string)) : Prop :=
  forall w b, 0 <= w ->
  match db !! redisKey b w with
  | Some c => rc_count c = calls_in h w b /\ 0 < rc_count c /\
              exists e, rc_expires c = Some e /\ (w + 1) * 60000 <= e
  | None => calls_in h w b = 0
  end.

Section redis_contract.
Context (now : Z) (b : string) (Hnow : 0 <= now).

Lemma redis_check_up limit db h :
  redis_valid db h ->
  exists e, (window_of now + 1) * 60000 <= e /\
  RedisRateLimiter_check RedisUp now b limit db =
  (<[redisKey b (window_of now) := mkCounter (calls_in h (window_of now) b + 1) (Some e)]> db,
   mkDecision (calls_in h (window_of now) b + 1 <=? limit) (windowInfo now).2).
Proof.
  intros Hv. pose proof (window_bounds now) as Hw. pose proof (window_nonneg now Hnow) as Hw0.
  specialize (Hv (window_of now) b Hw0). unfold RedisRateLimiter_check.
  destruct (windowInfo now) as [w r] eqn:Ew. assert (w = window_of now) as -> by (by injection Ew).
  unfold redis_incr. destruct (db !! redisKey b (window_of now)) as [c|] eqn:E.
  - destruct Hv as (Hc & Hpos & e & He & Hle). exists e. split; [done|].
    unfold redis_live. rewrite He. rewrite (proj2 (Z.ltb_lt now e)) by lia.
    rewrite (proj2 (Z.eqb_neq (rc_count c + 1) 1)) by lia. by rewrite Hc.
  - exists (now + 120 * 1000). split; [lia|]. rewrite Hv. cbn [Z.eqb Z.add].
    unfold redis_expire. rewrite lookup_insert_eq. cbn [rc_count]. by rewrite insert_insert_eq.
Qed.

Lemma redis_valid_step db h e :
  redis_valid db h -> (window_of now + 1) * 60000 <= e ->
  redis_valid (<[redisKey b (window_of now) := mkCounter (calls_in h (window_of now) b + 1) (Some e)]> db)
    (h ++ [(now, b)]).
Proof.
  intros Hv He w b' Hw0. rewrite calls_in_snoc. pose proof (window_nonneg now Hnow).
  destruct (decide (redisKey b (window_of now) = redisKey b' w)) as [Heq|Hne].
  - rewrite Heq, lookup_insert_eq. apply redisKey_inj in Heq as [-> Heq]; [|done..].
    subst w. rewrite in_window_self. pose proof (calls_in_nonneg h (window_of now) b').
    cbn. split_and!; [lia|lia|eauto].
  - rewrite lookup_insert_ne by done. rewrite in_window_other, Z.add_0_r; [by apply Hv|].
    destruct (decide (b' = b)) as [->|]; [|by left]. right. intros ->. by apply Hne.
Qed.

End redis_contract.

#[export] Instance Redis_fixed_window : FixedWindow redis.
Proof.
  refine {| fw_valid := redis_valid; fw_room := fun _ => True |}.
  - intros w b _. cbn. by rewrite lookup_empty.
  - intros s h now b limit Hv Hnow _. cbn [rl_check Redis_limiter].
    destruct (redis_check_up now b Hnow limit s h Hv) as (e & He & ->).
    split; [by apply redis_valid_step|done].
Defined.

(** ** The in-memory limiter meets it up to 10,000 keys *)
Definition call_key (c : Z * string) : string := memoryKey c.2 (window_of c.1).
Definition memory_valid (counts : gmap string Z) (h : list (Z * string)) : Prop :=
  dom counts = list_to_set (map call_key h) /\
  forall w b, 0 <= w -> counts !! memoryKey b w ?? 0 = calls_in h w b.
Definition memory_room (h : list (Z * string)) : Prop :=
  Z.of_nat (size (list_to_set (map call_key h) : gset string)) <= 10000.

#[export] Instance Memory_fixed_window : FixedWindow (gmap string Z).
Proof.
  refine {| fw_valid := memory_valid; fw_room := memory_room |}.
  - split; [cbn; by rewrite dom_empty_L|]. intros w b _. cbn. by rewrite lookup_empty.
  - intros counts h now b limit [Hdom Hv] Hnow Hroom. cbn [rl_check Memory_limiter].
    pose proof (window_nonneg now Hnow) as Hw0.
    unfold MemoryRateLimiter_check, windowInfo. cbn [fst snd].
    rewrite (Hv (window_of now) b Hw0).
    set (counts' := <[memoryKey b (window_of now) := calls_in h (window_of now) b + 1]> counts).
    assert (dom counts' = list_to_set (map call_key (h ++ [(now, b)]))) as Hdom'.
    { subst counts'. rewrite dom_insert_L, Hdom, map_app, list_to_set_app_L. cbn.
      rewrite (union_comm_L _ (list_to_set (map call_key h))). by rewrite union_empty_r_L. }
    rewrite (proj2 (Z.ltb_ge 10000 _)).
    2:{ rewrite <- size_dom, Hdom'. unfold memory_room in Hroom. exact Hroom. }
    split; [split; [done|]|done]. intros w b' Hw. rewrite calls_in_snoc. subst counts'.
    destruct (decide (memoryKey b (window_of now) = memoryKey b' w)) as [Heq|Hne].
    + rewrite Heq, lookup_insert_eq. apply memoryKey_inj in Heq as [-> <-]; [|done..].
      by rewrite in_window_self.
    + rewrite lookup_insert_ne by done. rewrite in_window_other, Z.add_0_r; [by apply Hv|].
      destruct (decide (b' = b)) as [->|]; [|by left]. right. intros ->. by apply Hne.
Defined.

(** ** Serving a sequence of calls *)
Section serve.
Context {S : Type} `{FixedWindow S}.

(** The decisions on [calls] (time, bucket), each bucket under its limit. *)
Fixpoint serve (limit : string -> Z) (s : S) (calls : list (Z * string)) : list RateLimitDecision :=
  match calls with
  | [] => []
  | (now, b) :: cs => let '(s', dec) := rl_check now b (limit b) s in dec :: serve limit s' cs
  end.
(** How many calls of a bucket in a window were let through. *)
Definition admitted (w : Z) (b : string) (calls : list (Z * string)) (ds : list RateLimitDecision) : Z :=
  Z.of_nat (length (List.filter (fun cd => in_window w b cd.1 && allowed cd.2) (combine calls ds))).

(** The calls made up to each one are the history it is decided by. *)
Lemma serve_valid limit calls s h k now b :
  fw_valid s h -> Forall (fun c => 0 <= c.1) calls ->
  (forall n, (n <= length calls)%nat -> fw_room (h ++ take n calls)) -> calls !! k = Some (now, b) ->
  serve limit s calls !! k
  = Some (mkDecision (calls_in (h ++ take k calls) (window_of now) b + 1 <=? limit b) (windowInfo now).2).
Proof.
  revert s h k; induction calls as [|[now' b'] cs IH]; intros s h k Hv Ht Hroom Hk; [done|].
  apply Forall_cons in Ht as [Hnow Ht]. cbn [fst] in Hnow.
  destruct (fw_step s h now' b' (limit b') Hv Hnow) as [Hv' Hd].
  { apply (Hroom 1%nat). cbn. lia. }
  cbn [serve]. destruct (rl_check now' b' (limit b') s) as [s' dec]. cbn [fst snd] in *. destruct k as [|k].
  - injection Hk as -> ->. cbn. by rewrite app_nil_r, Hd.
  - transitivity (serve limit s' cs !! k); [done|]. rewrite (IH s' (h ++ [(now', b')]) k Hv' Ht); [by rewrite <- app_assoc| |done].
    intros n Hn. rewrite <- app_assoc. apply (Hroom (Datatypes.S n)). cbn. lia.
Qed.
Lemma serve_from limit w b calls s h :
  fw_valid s h -> Forall (fun c => 0 <= c.1) calls ->
  (forall n, (n <= length calls)%nat -> fw_room (h ++ take n calls)) ->
  admitted w b calls (serve limit s calls)
  = Z.min (calls_in calls w b) (Z.max 0 (limit b - calls_in h w b)).
Proof.
  revert s h; induction calls as [|[now b'] cs IH]; intros s h Hv Ht Hroom.
  { unfold admitted, calls_in; cbn. lia. }
  apply Forall_cons in Ht as [Hnow Ht]. cbn [fst] in Hnow.
  destruct (fw_step s h now b' (limit b') Hv Hnow) as [Hv' Hd].
  { apply (Hroom 1%nat). cbn. lia. }
  cbn [serve]. destruct (rl_check now b' (limit b') s) as [s' dec]. cbn [fst snd] in *. subst dec.
  specialize (IH s' (h ++ [(now, b')]) Hv' Ht).
  assert (forall n, (n <= length cs)%nat -> fw_room ((h ++ [(now, b')]) ++ take n cs)) as Hroom'.
  { intros n Hn. rewrite <- app_assoc. apply (Hroom (Datatypes.S n)). cbn. lia. }
  specialize (IH Hroom'). rewrite calls_in_snoc in IH.
  unfold admitted in *. cbn [combine List.filter fst snd].
  rewrite calls_in_cons.
  pose proof (calls_in_nonneg cs w b). pose proof (calls_in_nonneg h w b).
  destruct (in_window w b (now, b')) eqn:Ein; cbn [andb allowed].
  - unfold in_window in Ein; cbn in Ein. apply andb_true_iff in Ein as [->%String.eqb_eq Hw].
    apply Z.eqb_eq in Hw. rewrite Hw.
    destruct (Z.leb_spec (calls_in h w b + 1) (limit b)); cbn [length]; rewrite ?Nat2Z.inj_succ, IH; lia.
  - rewrite IH. lia.
Qed.

End serve.

(** ** Theorems *)

(** C25: Any limiter with the fixed-window contract - the one in Redis while Redis
    answers, the one in memory for as long as it has counted no more than 10,000
    pairs of key and window - admits a call of a key if and only if it is among
    the first [limit] calls of that key in its 60 s window, whatever the other
    keys do in between: of each window the first [limit] calls and no more. *)
Theorem fixed_window_admits_limit {S} `{FixedWindow S} limit calls :
  Forall (fun c => 0 <= c.1) calls ->
  (forall n, (n <= length calls)%nat -> fw_room (take n calls)) ->
  (forall k now b, calls !! k = Some (now, b) ->
     exists d, serve limit rl_init calls !! k = Some d /\
       (allowed d = true <-> calls_in (take (Datatypes.S k) calls) (window_of now) b <= limit b)) /\
  (forall w b, admitted w b calls (serve limit rl_init calls) = Z.min (calls_in calls w b) (Z.max 0 (limit b))).
Proof.
  intros Ht Hroom. split.
  - intros k now b Hk. eexists. split; [apply (serve_valid limit calls rl_init []); [apply fw_init|done..]|].
    cbn [app allowed]. rewrite (take_S_r _ _ _ Hk), calls_in_snoc, in_window_self. split; intros; bool_to_prop; lia.
  - intros w b. rewrite (serve_from limit w b calls rl_init []); [|apply fw_init|done|done].
    unfold calls_in at 2; cbn. by rewrite Z.sub_0_r.
Qed.

Lemma fixed_window_admits_limit_witness :
  let calls := [(0, "a"); (10, "b"); (20, "a"); (59999, "a"); (60000, "a")] in
  let limit b := if String.eqb b "a" then 2 else 1 in
  admitted 0 "a" calls (serve (S := redis) limit rl_init calls) = 2 /\
  (exists d, serve (S := gmap string Z) limit rl_init calls !! 3%nat = Some d /\
     (allowed d = true <-> calls_in (take 4 calls) 0 "a" <= 2)).
Proof.
  cbv zeta. assert (Forall (fun c => 0 <= c.1) [(0, "a"); (10, "b"); (20, "a"); (59999, "a"); (60000, "a")]) as Ht
    by (repeat constructor; cbn; lia). split.
  - eapply eq_trans; [refine (proj2 (fixed_window_admits_limit (S := redis) _ _ Ht _) 0 "a"); intros n _; exact I|].
    vm_compute. reflexivity.
  - refine (proj1 (fixed_window_admits_limit (S := gmap string Z) _ _ Ht _) 3%nat 59999 "a" eq_refl).
    intros n Hn. do 6 (destruct n as [|n]; [vm_compute; discriminate|]). cbn in Hn. lia.
Defined.

(** C26: The Redis limiter admits on any failure of Redis, and otherwise decides
    by the calls of the key in the current window; a refused client is told to
    come back in the least whole number of seconds after which the next window
    has begun, which is 1 to 60. *)
Theorem redis_limiter_spec health now b limit db h :
  redis_valid db h -> 0 <= now ->
  let d := (RedisRateLimiter_check health now b limit db).2 in
  (allowed d = false -> health <> IncrFails /\ limit < calls_in h (window_of now) b + 1) /\
  (health = RedisUp -> allowed d = (calls_in h (window_of now) b + 1 <=? limit)) /\
  (allowed d = false -> 1 <= retryAfterS d <= 60 /\
     window_of (now + retryAfterS d * 1000) = window_of now + 1 /\
     forall s, window_of now < window_of (now + s * 1000) -> retryAfterS d <= s).
Proof.
  intros Hv Hnow. cbv zeta. pose proof (window_bounds now) as Hw.
  destruct (redis_check_up now b Hnow limit db h Hv) as (e & _ & Hup).
  assert ((RedisRateLimiter_check health now b limit db).2
    = mkDecision (calls_in h (window_of now) b + 1 <=? limit) (windowInfo now).2
    \/ (RedisRateLimiter_check health now b limit db).2 = mkDecision true 0) as Hd.
  { destruct health; [left; by rewrite Hup|by right|].
    unfold RedisRateLimiter_check in *. destruct (windowInfo now) as [w r].
    destruct (redis_incr now (redisKey b w) db) as [db' n].
    destruct (n =? 1); [by right|]. left. by injection Hup as _ ->. }
  split_and!.
  - intros Ha. destruct Hd as [Hd|Hd]; rewrite Hd in Ha; cbn in Ha; [|done]. bool_to_prop.
    split; [|lia]. intros ->. unfold RedisRateLimiter_check in Hd. cbn in Hd. injection Hd as Hd _. lia.
  - intros ->. by rewrite Hup.
  - intros Ha. destruct Hd as [Hd|Hd]; rewrite Hd in Ha |- *; cbn in Ha; [|done].
    cbn [retryAfterS]. unfold windowInfo; cbn [snd].
    set (x := (window_of now + 1) * 60000 - now).
    pose proof (Z.div_mod (- x) 1000 ltac:(lia)). pose proof (Z.mod_pos_bound (- x) 1000 ltac:(lia)).
    assert (0 < x <= 60000) by (subst x; lia).
    assert (1 <= - (- x / 1000) <= 60) by lia. split_and!; [lia..| |].
    + assert ((window_of now + 1) * 60000 <= now + - (- x / 1000) * 1000 < (window_of now + 2) * 60000) by (subst x; lia).
      pose proof (window_bounds (now + - (- x / 1000) * 1000)). lia.
    + intros s Hs. pose proof (window_bounds (now + s * 1000)).
      assert (x <= s * 1000) by (subst x; lia). lia.
Qed.

Lemma redis_limiter_spec_witness :
  let db := (RedisRateLimiter_check RedisUp 100 "a" 1 ∅).1 in
  allowed (RedisRateLimiter_check RedisUp 200 "a" 1 db).2 = false /\
  1 <= retryAfterS (RedisRateLimiter_check RedisUp 200 "a" 1 db).2 <= 60.
Proof.
  cbv zeta. split; [vm_compute; reflexivity|].
  assert (redis_valid (RedisRateLimiter_check RedisUp 100 "a" 1 ∅).1 [(100, "a")]) as Hv.
  { exact (proj1 (fw_step (S := redis) ∅ [] 100 "a" 1 (fw_init (S := redis)) ltac:(lia) I)). }
  apply (redis_limiter_spec RedisUp 200 "a" 1 _ _ Hv); [lia|vm_compute; reflexivity].
Defined.

(** Past 10,000 keys the in-memory limiter forgets every count in the middle of
    the window. *)
Lemma memory_limiter_forgets now b b' limit counts :
  0 < limit -> counts !! memoryKey b' (window_of now) = None -> 10000 <= Z.of_nat (size counts) ->
  let counts' := (MemoryRateLimiter_check now b' limit counts).1 in
  allowed (MemoryRateLimiter_check now b limit counts').2 = true.
Proof.
  intros Hl Hnone Hsize. unfold MemoryRateLimiter_check, windowInfo; cbn [fst snd].
  rewrite map_size_insert_None, Nat2Z.inj_succ by done.
  rewrite (proj2 (Z.ltb_lt 10000 _)) by lia. rewrite lookup_empty. cbn. apply Z.leb_le. lia.
Qed.

(** Around the edge of a window twice the limit passes in two milliseconds:
    docs/02 and docs/03 promise a sliding window. *)
Example window_edge :
  map allowed (serve (S := redis) (fun _ => 2) rl_init [(59998, "a"); (59999, "a"); (59999, "a"); (60000, "a"); (60000, "a")])
  = [true; true; false; true; true].
Proof. vm_compute. reflexivity. Qed.
