(* ===== verification/Sink.v ===== *)
(** * apps/gateway/src/sink.ts: the usage-event sink

    [RedisStreamSink] as a state machine.  Each publish is a promise that later
    settles; the actions are the points where JavaScript runs: the handler calls
    [emit], a publish settles, the flush loop's publish settles.  The server may
    also apply a command whose reply is lost, which the sink sees as a failure. *)

From S2P Require Import Prelude JsString JsNum Json Shared Queue.

Record RedisStreamSink := mkSink {
  sk_stream : list UsageEventMessage;     (** entries of usage:events *)
  sk_inflight : list UsageEventMessage;   (** publishes started by [emit] *)
  sk_buffer : list UsageEventMessage;
  sk_flushing : bool;
  sk_dropped : list UsageEventMessage;    (** what the counter counted *)
}.
Definition newSink : RedisStreamSink := mkSink [] [] [] false [].

(** How a publish ends: stored and acknowledged, failed, or stored with the
    acknowledgement lost. *)
Inductive Settled := Stored | Failed | AckLost.

Section sink.
Context (maxBuffer : nat).

Definition emit (event : UsageEventMessage) (s : RedisStreamSink) : RedisStreamSink :=
  mkSink (sk_stream s) (sk_inflight s ++ [event]) (sk_buffer s) (sk_flushing s) (sk_dropped s).
Definition bufferEvent (event : UsageEventMessage) (s : RedisStreamSink) : RedisStreamSink :=
  if (maxBuffer <=? length (sk_buffer s))%nat
  then mkSink (sk_stream s) (sk_inflight s) (sk_buffer s) (sk_flushing s) (sk_dropped s ++ [event])
  else mkSink (sk_stream s) (sk_inflight s) (sk_buffer s ++ [event]) true (sk_dropped s).
Definition append (event : UsageEventMessage) (r : Settled) (s : RedisStreamSink) : RedisStreamSink :=
  match r with
  | Failed => s
  | _ => mkSink (sk_stream s ++ [event]) (sk_inflight s) (sk_buffer s) (sk_flushing s) (sk_dropped s)
  end.
(** The [i]-th pending publish of [emit] settles. *)
Definition publish_settled (i : nat) (r : Settled) (s : RedisStreamSink) : RedisStreamSink :=
  match sk_inflight s !! i with
  | None => s
  | Some event =>
      let s := append event r (mkSink (sk_stream s) (delete i (sk_inflight s)) (sk_buffer s)
                                 (sk_flushing s) (sk_dropped s)) in
      match r with Stored => s | _ => bufferEvent event s end
  end.
(** One iteration of [flushLoop]: the publish of the head settles; success
    shifts it and leaves the loop when the buffer is empty. *)
Definition flush_settled (r : Settled) (s : RedisStreamSink) : RedisStreamSink :=
  match sk_flushing s, sk_buffer s with
  | true, event :: rest =>
      let s' := append event r s in
      match r with
      | Stored => mkSink (sk_stream s') (sk_inflight s') rest (match rest with [] => false | _ => true end)
                    (sk_dropped s')
      | _ => s'
      end
  | _, _ => s
  end.

Inductive SinkAction :=
| AEmit (event : UsageEventMessage)
| APublish (i : nat) (r : Settled)
| AFlush (r : Settled).
Definition sink_step (a : SinkAction) (s : RedisStreamSink) : RedisStreamSink :=
  match a with
  | AEmit e => emit e s
  | APublish i r => publish_settled i r s
  | AFlush r => flush_settled r s
  end.
Definition sink_run (actions : list SinkAction) (s : RedisStreamSink) : RedisStreamSink :=
  fold_left (fun s a => sink_step a s) actions s.
Definition emitted (actions : list SinkAction) : list UsageEventMessage :=
  omap (fun a => match a with AEmit e => Some e | _ => None end) actions.

(** ** Invariants *)
(** Everything the sink knows about, wherever it is. *)
Definition held (s : RedisStreamSink) : list UsageEventMessage :=
  sk_stream s ++ sk_inflight s ++ sk_buffer s ++ sk_dropped s.
Definition sink_ok (s : RedisStreamSink) : Prop :=
  (length (sk_buffer s) <= maxBuffer)%nat /\ (sk_flushing s = true <-> sk_buffer s <> []).

Lemma bufferEvent_ok e s : sink_ok s -> sink_ok (bufferEvent e s).
Proof.
  intros [Hl Hf]. unfold bufferEvent. destruct (Nat.leb_spec maxBuffer (length (sk_buffer s))); [done|].
  split; cbn; [rewrite length_app; cbn; lia|]. split; [|done]. intros _. by destruct (sk_buffer s).
Qed.
Lemma sink_step_ok a s : sink_ok s -> sink_ok (sink_step a s).
Proof.
  intros Hok. destruct a as [e|i r|r]; cbn.
  - done.
  - unfold publish_settled. destruct (sk_inflight s !! i) as [e|]; [|done].
    destruct r; [done|apply bufferEvent_ok; done|apply bufferEvent_ok; done].
  - unfold flush_settled. pose proof Hok as [Hl Hf].
    destruct (sk_flushing s) eqn:Ef; [|exact Hok].
    destruct (sk_buffer s) as [|e rest] eqn:Eb; [exact Hok|].
    destruct r; cbn; unfold sink_ok; cbn; rewrite ?Ef, ?Eb; (split; [cbn in *; lia|]).
    + by destruct rest.
    + done.
    + done.
Qed.
Lemma sink_run_ok actions s : sink_ok s -> sink_ok (sink_run actions s).
Proof.
  unfold sink_run. revert s; induction actions as [|a l IH]; intros s Hs; [done|].
  apply IH. by apply sink_step_ok.
Qed.

Lemma held_bufferEvent e s : held (bufferEvent e s) ≡ₚ e :: held s.
Proof.
  unfold bufferEvent, held. destruct (_ <=? _)%nat; cbn; solve_Permutation.
Qed.
Lemma held_append e r s : held (append e r s) ≡ₚ held s \/ held (append e r s) ≡ₚ e :: held s.
Proof. destruct r; [right|left|right]; unfold append, held; cbn; solve_Permutation. Qed.

(** No action loses an event; [emit] adds its own. *)
Lemma sink_step_held a s :
  (match a with AEmit e => [e] | _ => [] end) ++ held s ⊆+ held (sink_step a s).
Proof.
  destruct a as [e|i r|r]; cbn [sink_step app].
  - apply Permutation_submseteq. unfold emit, held; cbn. solve_Permutation.
  - unfold publish_settled. destruct (sk_inflight s !! i) as [e|] eqn:E; [|done].
    set (s0 := mkSink (sk_stream s) (delete i (sk_inflight s)) (sk_buffer s) (sk_flushing s) (sk_dropped s)).
    assert (held s ≡ₚ e :: held s0) as Hs.
    { unfold held, s0; cbn. rewrite (delete_Permutation _ _ _ E) at 1. solve_Permutation. }
    rewrite Hs. destruct r.
    + apply Permutation_submseteq. unfold append, held; cbn. solve_Permutation.
    + apply Permutation_submseteq. by rewrite held_bufferEvent.
    + rewrite held_bufferEvent. apply submseteq_skip.
      transitivity (e :: held s0); [by apply submseteq_cons|].
      apply Permutation_submseteq. unfold append, held; cbn. solve_Permutation.
  - unfold flush_settled. destruct (sk_flushing s); [|done].
    destruct (sk_buffer s) as [|e rest] eqn:Eb; [done|]. destruct r.
    + apply Permutation_submseteq. unfold append, held; cbn. rewrite Eb. solve_Permutation.
    + done.
    + transitivity (e :: held s); [by apply submseteq_cons|].
      apply Permutation_submseteq. unfold append, held; cbn. solve_Permutation.
Qed.
Lemma sink_run_held actions s : emitted actions ++ held s ⊆+ held (sink_run actions s).
Proof.
  unfold sink_run. revert s; induction actions as [|a l IH]; intros s; [done|]. cbn [fold_left].
  etransitivity; [|apply IH].
  assert (emitted (a :: l) = (match a with AEmit e => [e] | _ => [] end) ++ emitted l) as ->
    by (by destruct a).
  rewrite <- app_assoc, (Permutation_app_comm _ (emitted l ++ held s)), <- app_assoc.
  rewrite (Permutation_app_comm (held s)). apply submseteq_skips_l. apply sink_step_held.
Qed.

(** While Redis answers, settling everything once empties sink and buffer. *)
Definition recovery (s : RedisStreamSink) : list SinkAction :=
  repeat (APublish 0 Stored) (length (sk_inflight s)) ++ repeat (AFlush Stored) (length (sk_buffer s)).
Lemma recover_inflight n s :
  length (sk_inflight s) = n ->
  let s' := sink_run (repeat (APublish 0 Stored) n) s in
  sk_inflight s' = [] /\ sk_stream s' = sk_stream s ++ sk_inflight s /\ sk_buffer s' = sk_buffer s /\
  sk_flushing s' = sk_flushing s /\ sk_dropped s' = sk_dropped s.
Proof.
  unfold sink_run. revert s; induction n as [|n IH]; intros [st inf bf fl dr] Hl; cbn in *.
  - destruct inf; [|done]. by rewrite app_nil_r.
  - destruct inf as [|e inf]; [done|]. cbn in Hl.
    destruct (IH (append e Stored (mkSink st inf bf fl dr))) as (H1 & H2 & H3 & H4 & H5);
      [cbn; lia|]. cbn in *. rewrite H2, <- app_assoc. done.
Qed.
Lemma recover_buffer n s :
  length (sk_buffer s) = n -> (sk_flushing s = true <-> sk_buffer s <> []) ->
  let s' := sink_run (repeat (AFlush Stored) n) s in
  sk_buffer s' = [] /\ sk_stream s' = sk_stream s ++ sk_buffer s /\ sk_inflight s' = sk_inflight s /\
  sk_flushing s' = false /\ sk_dropped s' = sk_dropped s.
Proof.
  unfold sink_run. revert s; induction n as [|n IH]; intros [st inf bf fl dr] Hl Hf; cbn in *.
  - destruct bf; [|done]. rewrite app_nil_r. destruct fl; [|done]. exfalso. by apply Hf.
  - destruct bf as [|e bf]; [done|]. destruct fl; [|exfalso; assert (false = true) by (by apply Hf); done].
    cbn in Hl. unfold flush_settled; cbn.
    destruct (IH (mkSink (st ++ [e]) inf bf (match bf with [] => false | _ => true end) dr))
      as (H1 & H2 & H3 & H4 & H5); [cbn; lia|by destruct bf|]. cbn in *. rewrite H2, <- app_assoc. done.
Qed.

End sink.

(** ** Theorems *)

(** C23: Whatever Redis does and however calls and settlements interleave, every
    emitted event is in the stream, still held for retry, or counted as
    dropped; the retry buffer never exceeds its bound and the flush loop runs
    exactly while it is not empty. *)
Theorem sink_loses_nothing_uncounted maxBuffer actions :
  let s := sink_run maxBuffer actions newSink in
  emitted actions ⊆+ sk_stream s ++ sk_inflight s ++ sk_buffer s ++ sk_dropped s /\
  (length (sk_buffer s) <= maxBuffer)%nat /\ (sk_flushing s = true <-> sk_buffer s <> []).
Proof.
  intros s. split.
  - pose proof (sink_run_held maxBuffer actions newSink) as H. by rewrite app_nil_r in H.
  - apply (sink_run_ok maxBuffer actions newSink). split; [cbn; lia | by split].
Qed.

(** Once Redis answers again, the retries and pending publishes all reach
    the stream, in order, and nothing more is dropped: the sink returns to
    rest. *)
Theorem sink_recovers maxBuffer actions :
  let s := sink_run maxBuffer actions newSink in
  let s' := sink_run maxBuffer (recovery s) s in
  sk_inflight s' = [] /\ sk_buffer s' = [] /\ sk_flushing s' = false /\
  sk_stream s' = sk_stream s ++ sk_inflight s ++ sk_buffer s /\ sk_dropped s' = sk_dropped s.
Proof.
  intros s. cbv zeta. unfold recovery, sink_run. rewrite fold_left_app.
  assert (sink_ok maxBuffer s) as [_ Hf] by (apply sink_run_ok; split; [cbn; lia | by split]).
  destruct (recover_inflight maxBuffer _ s eq_refl) as (H1 & H2 & H3 & H4 & H5).
  unfold sink_run in *. set (s1 := fold_left _ (repeat (APublish 0 Stored) _) s) in *.
  destruct (recover_buffer maxBuffer (length (sk_buffer s)) s1) as (K1 & K2 & K3 & K4 & K5);
    [by rewrite H3 | by rewrite H3, H4|]. unfold sink_run in *.
  rewrite K1, K2, K3, K4, K5, H1, H2, H3, H5, <- app_assoc. done.
Qed.
