(* ===== verification/Stores.v ===== *)
(** * apps/gateway/src/stores: where the gateway finds keys and credentials

    [memory.ts], [db.ts] (its two SELECTs over tables of rows) and the texts
    [cached.ts] keeps in Redis ([KeyCache] is the cache itself).  [KeyStoreI] is
    the interface of types.ts. *)

From S2P Require Import Prelude JsString JsNum JsDate Json JsonRoundtrip Shared Queue Auth Providers.
From S2P Require Import Gateway.
From Stdlib Require Import Ascii.

(** [resolve] at a time, in milliseconds; the store may change its own state. *)
Class KeyStoreI (S : Type) := {
  ks_resolve : Z -> string -> S -> S * js (option ResolvedKeyContext);
}.

(** ** memory.ts *)
Abbreviation InMemoryKeyStore := (gmap string ResolvedKeyContext).
Definition memory_set (keyHash : string) (ctx : ResolvedKeyContext) (keys : InMemoryKeyStore)
  : InMemoryKeyStore := <[keyHash := ctx]> keys.
#[export] Instance InMemory_store : KeyStoreI InMemoryKeyStore :=
  {| ks_resolve _ keyHash keys := (keys, Ok (keys !! keyHash)) |}.
Definition cred_key (workspaceId : string) (provider : Provider) : string :=
  workspaceId +:+ ":" +:+ provider_text provider.
Definition memory_cred_set (workspaceId : string) (provider : Provider) (cred : ResolvedCredentialSecret)
    (creds : gmap string ResolvedCredentialSecret) : gmap string ResolvedCredentialSecret :=
  <[cred_key workspaceId provider := cred]> creds.
Definition memory_getDefault (creds : gmap string ResolvedCredentialSecret) (workspaceId : string)
    (provider : Provider) : option ResolvedCredentialSecret := creds !! cred_key workspaceId provider.
Definition collecting_emit (events : list UsageEventMessage) (e : UsageEventMessage)
  : list UsageEventMessage := events ++ [e].

(** ** db.ts *)
(** What node-pg hands over for an array column. *)
Inductive pg_value := PgArray (l : list string) | PgText (s : string) | PgOther.
(** [value.replace(/^\{|\}$/g, "")] and the same for quotes: one character off
    either end. *)
Definition strip_ends (a b : ascii) (s : string) : string :=
  let s := match s with String c r => if Ascii.eqb c a then r else s | "" => "" end in
  if ends_with (String b "") s then slice_drop_last 1 s else s.
Definition parsePgArray (value : pg_value) : list string :=
  match value with
  | PgArray l => l
  | PgOther => []
  | PgText s =>
      let inner := strip_ends "{" "}" s in
      if String.eqb inner "" then []
      else map (strip_ends dquote dquote) (split_on "," inner)
  end.

Record VkRow := mkVkRow {
  vr_id : string;
  vr_keyHash : string;
  vr_workspaceId : string;
  vr_projectId : string;
  vr_userId : string;
  vr_status : KeyStatus;
  vr_expiresAt : option Z;
  vr_providerAllowlist : pg_value;
  vr_credentialAllowlist : pg_value;
  vr_modelAllowlist : pg_value;
  vr_rpmLimit : option Z;
}.
Record ProjectRow := mkProjectRow { pr_id : string; pr_teamId : option string }.
Record KeyTables := mkKeyTables { t_virtual_key : list VkRow; t_project : list ProjectRow }.

(** The row of the join and the context made of it. *)
Definition PgKeyStore_resolve (db : KeyTables) (keyHash : string) : option ResolvedKeyContext :=
  let rows := vk ← List.filter (fun vk => String.eqb (vr_keyHash vk) keyHash) (t_virtual_key db);
              p ← List.filter (fun p => String.eqb (pr_id p) (vr_projectId vk)) (t_project db);
              [(vk, p)] in
  '(row, p) ← head rows;
  Some (mkCtx (vr_id row) (vr_workspaceId row) (vr_projectId row) (if_truthy (pr_teamId p)) (vr_userId row)
          (vr_status row) (vr_expiresAt row)
          (omap provider_of_text (parsePgArray (vr_providerAllowlist row)))
          (parsePgArray (vr_credentialAllowlist row)) (parsePgArray (vr_modelAllowlist row))
          (vr_rpmLimit row)).

Record CredRow := mkCredRow {
  cr_id : string;
  cr_workspaceId : string;
  cr_provider : Provider;
  cr_active : bool;            (** status = 'ACTIVE' *)
  cr_isDefault : bool;
  cr_createdAt : Z;
  cr_encryptedSecret : option string;
  cr_baseUrl : option string;
}.
(** [WHERE]: [allowedIds] binds when it is given and not empty. *)
Definition cred_matches (workspaceId : string) (provider : Provider) (allowedIds : list string) (r : CredRow)
  : bool :=
  String.eqb (cr_workspaceId r) workspaceId && provider_eqb (cr_provider r) provider && cr_active r
  && (bool_decide (allowedIds = []) || bool_decide (cr_id r ∈ allowedIds)).
(** [ORDER BY "isDefault" DESC, "createdAt" ASC]: a strictly precedes b. *)
Definition cred_before (a b : CredRow) : bool :=
  match cr_isDefault a, cr_isDefault b with
  | true, false => true
  | false, true => false
  | _, _ => cr_createdAt a <? cr_createdAt b
  end.
(** [LIMIT 1] *)
Definition first_row (rows : list CredRow) : option CredRow :=
  fold_left (fun best r => match best with
                           | None => Some r
                           | Some b => if cred_before r b then Some r else Some b
                           end) rows None.
Definition PgCredentialStore_getDefault (P : Primitives) (table : list CredRow) (ring : option MasterKeyRing)
    (workspaceId : string) (provider : Provider) (allowedIds : list string)
  : js (option ResolvedCredentialSecret) :=
  match first_row (List.filter (cred_matches workspaceId provider allowedIds) table) with
  | None => Ok None
  | Some row =>
      secret ← match cr_encryptedSecret row with
               | None => Ok None
               | Some envelope =>
                   match ring with
                   | None => Throw "Encrypted credential present but TOKENLEDGER_MASTER_KEY is not configured"
                   | Some ring => s ← decryptSecret P envelope ring; Ok (Some s)
                   end
               end;
      Ok (Some (mkSecret (cr_id row) secret (if_truthy (cr_baseUrl row))))
  end.

(** ** cached.ts: what is cached *)
Definition REDIS_TTL_MS : Z := 60 * 1000.
Definition LOCAL_TTL_MS : Z := 5000.
Definition NEGATIVE : string := "∅".

Definition key_status_text (s : KeyStatus) : string :=
  match s with KEY_ACTIVE => "ACTIVE" | KEY_REVOKED => "REVOKED" | KEY_EXPIRED => "EXPIRED" end.
(** [JSON.stringify(ctx)]; a Date prints as its ISO text. *)
Definition ctx_json (c : ResolvedKeyContext) : json :=
  JObj ([("vkId", JStr (vkId c)); ("workspaceId", JStr (ctx_workspaceId c));
         ("projectId", JStr (ctx_projectId c))]
    ++ opt_key "teamId" (JStr <$> ctx_teamId c)
    ++ [("userId", JStr (ctx_userId c)); ("status", JStr (key_status_text (ctx_status c)))]
    ++ opt_key "expiresAt" ((fun t => JStr (toISOString t)) <$> ctx_expiresAt c)
    ++ [("providerAllowlist", JArr (map (fun p => JStr (provider_text p)) (providerAllowlist c)));
        ("credentialAllowlist", JArr (map JStr (credentialAllowlist c)));
        ("modelAllowlist", JArr (map JStr (modelAllowlist c)))]
    ++ opt_key "rpmLimit" ((fun n => JNum (NInt n)) <$> rpmLimit c)).
(** [reviveContext]: the cast object, with [expiresAt] made a Date again. *)
Definition reviveContext (text : string) : js ResolvedKeyContext :=
  v ← json_parse text;
  let v := Some v in
  Ok (mkCtx (str_field v "vkId" ?? "") (str_field v "workspaceId" ?? "") (str_field v "projectId" ?? "")
        (str_field v "teamId") (str_field v "userId" ?? "")
        (if is_str (opt_field v "status") "REVOKED" then KEY_REVOKED
         else if is_str (opt_field v "status") "EXPIRED" then KEY_EXPIRED else KEY_ACTIVE)
        (match if_truthy (str_field v "expiresAt") with Some s => date_parse s | None => None end)
        (omap provider_of_text (texts_of (opt_field v "providerAllowlist")))
        (texts_of (opt_field v "credentialAllowlist")) (texts_of (opt_field v "modelAllowlist"))
        (match num_field v "rpmLimit" with Some (NInt n) => Some n | _ => None end)).

Definition encode_ctx (value : option ResolvedKeyContext) : string :=
  match value with Some c => stringify (ctx_json c) | None => NEGATIVE end.

(** ** The cached text of a context *)
Definition ctx_storable (c : ResolvedKeyContext) : Prop :=
  (forall t, ctx_expiresAt c = Some t -> 0 <= t < 253402300800000) /\
  (forall n, rpmLimit c = Some n -> Z.abs n <= 2 ^ 53).

Section ctx_text.

Lemma wf_providers l : forallb wf_json (map (fun p => JStr (provider_text p)) l) = true.
Proof. by induction l. Qed.
Lemma wf_ctx_json c : ctx_storable c -> wf_json (ctx_json c) = true.
Proof.
  intros [_ Hr]. destruct c as [vk ws p [t|] u s [e|] pa ca ma [n|]];
    cbn -[wf_json toISOString forallb Z.pow map]; cbn [wf_json];
    (apply andb_true_iff; split; [apply bool_decide_eq_true; cbn; repeat constructor; set_solver|]);
    cbn -[forallb map toISOString Z.pow Z.leb]; cbn [forallb snd wf_json andb];
    rewrite ?wf_strings, wf_providers; cbn [andb]; try reflexivity;
    specialize (Hr n eq_refl); by rewrite (proj2 (Z.leb_le _ _) Hr).
Qed.

Lemma texts_of_providers l :
  omap provider_of_text (texts_of (Some (JArr (map (fun p => JStr (provider_text p)) l)))) = l.
Proof.
  induction l as [|p l IH]; [done|].
  change (from_option (fun q => q :: omap provider_of_text
            (texts_of (Some (JArr (map (fun p => JStr (provider_text p)) l)))))
            (omap provider_of_text (texts_of (Some (JArr (map (fun p => JStr (provider_text p)) l)))))
            (provider_of_text (provider_text p)) = p :: l).
  rewrite provider_of_text_of. cbn [from_option]. by rewrite IH.
Qed.

Lemma if_truthy_iso t : 0 <= t < 253402300800000 -> if_truthy (Some (toISOString t)) = Some (toISOString t).
Proof.
  intros Ht. pose proof (date_roundtrip t Ht) as H. destruct (toISOString t) eqn:E; [|done].
  vm_compute in H. discriminate H.
Qed.
Lemma revive_expiry (e : option Z) : (forall t, e = Some t -> 0 <= t < 253402300800000) ->
  match if_truthy (toISOString <$> e) with Some s => date_parse s | None => None end = e.
Proof.
  intros He. destruct e as [t|]; [|reflexivity]. specialize (He t eq_refl).
  change (toISOString <$> Some t) with (Some (toISOString t)).
  by rewrite (if_truthy_iso t He), (date_roundtrip t He).
Qed.
Lemma revive_ctx c : ctx_storable c -> reviveContext (encode_ctx (Some c)) = Ok c.
Proof.
  intros Hc. pose proof (wf_ctx_json c Hc) as Hwf. unfold reviveContext, encode_ctx.
  rewrite (json_parse_stringify _ Hwf). cbn [mbind result_bind]. destruct Hc as [He _].
  cbn beta zeta. f_equal. pose proof (revive_expiry _ He) as Hx.
  destruct c as [vk ws p [t|] u s [e|] pa ca ma [n|]];
  unfold str_field, num_field, opt_field in *; cbn [ctx_expiresAt] in *;
  cbn -[texts_of provider_of_text omap toISOString date_parse map if_truthy] in Hx |- *;
  rewrite texts_of_providers, !texts_of_strings, Hx; by destruct s.
Qed.
Lemma encode_not_negative c : String.eqb (encode_ctx (Some c)) NEGATIVE = false.
Proof. reflexivity. Qed.

End ctx_text.

(** ** Choosing a credential *)
Section credentials.

Lemma cred_before_trans a b c : cred_before a b = true -> cred_before b c = true -> cred_before a c = true.
Proof.
  unfold cred_before. destruct (cr_isDefault a), (cr_isDefault b), (cr_isDefault c); try done;
    rewrite !Z.ltb_lt; lia.
Qed.
Lemma first_row_spec rows :
  match first_row rows with
  | None => rows = []
  | Some best => best ∈ rows /\ forall r, r ∈ rows -> cred_before r best = false
  end.
Proof.
  unfold first_row.
  set (step := fun best r => match best with None => Some r | Some b => if cred_before r b then Some r else Some b end).
  assert (forall rows acc, match fold_left step rows acc with
    | None => acc = None /\ rows = []
    | Some best => (acc = Some best \/ best ∈ rows) /\ (forall r, r ∈ rows -> cred_before r best = false) /\
                   forall b, acc = Some b -> cred_before b best = false
    end) as H.
  { clear rows. intros rows. induction rows as [|r rows IH]; intros acc.
    - cbn. destruct acc as [b|]; [|done]. split_and!; [by left|set_solver|].
      intros ? [= <-]. unfold cred_before. destruct (cr_isDefault b); apply Z.ltb_irrefl.
    - cbn [fold_left]. specialize (IH (step acc r)).
      destruct (fold_left step rows (step acc r)) as [best|].
      + destruct IH as (Hin & Hrows & Hacc).
        assert (cred_before r best = false /\ forall b, acc = Some b -> cred_before b best = false) as [Hr Hb].
        { unfold step in Hacc. destruct acc as [b|]; [|split; [by apply Hacc|done]].
          destruct (cred_before r b) eqn:E.
          - split; [by apply Hacc|]. intros ? [= <-].
            destruct (cred_before b best) eqn:Eb; [|done].
            pose proof (cred_before_trans _ _ _ E Eb) as Ht. by rewrite Hacc in Ht.
          - split; [|intros ? [= <-]; by apply Hacc].
            destruct (cred_before r best) eqn:Er; [|done]. exfalso.
            destruct (cred_before best b) eqn:Eb; [by rewrite (cred_before_trans _ _ _ Er Eb) in E|].
            specialize (Hacc b eq_refl). unfold cred_before in E, Er, Eb, Hacc.
            destruct (cr_isDefault r), (cr_isDefault b), (cr_isDefault best); try done; bool_to_prop; lia. }
        split_and!; [|set_solver|done].
        destruct Hin as [Hin|Hin]; [|set_solver]. unfold step in Hin.
        destruct acc as [b|]; [destruct (cred_before r b)|]; simplify_eq; set_solver.
      + destruct IH as [IH _]. unfold step in IH. destruct acc as [b|]; [destruct (cred_before r b)|]; done. }
  specialize (H rows None). destruct (fold_left step rows None) as [best|]; [|by destruct H].
  destruct H as ([[=]|Hin] & Hall & _). done.
Qed.


(** [getDefault] gives a credential exactly when an ACTIVE row of this
    workspace and provider exists among the key's allowed ids (all, when it
    lists none), and then one no such row precedes: the default one first,
    the oldest among equals.  A sealed secret is opened with the key ring, and
    without a ring the answer is an error, never the credential without it. *)
Theorem credential_choice P table ring workspaceId provider allowedIds :
  match PgCredentialStore_getDefault P table ring workspaceId provider allowedIds with
  | Ok None => forall r, r ∈ table -> cred_matches workspaceId provider allowedIds r = false
  | Ok (Some c) =>
      exists row, row ∈ table /\ cr_id row = credentialId c /\ cr_active row = true
        /\ cr_workspaceId row = workspaceId /\ cr_provider row = provider
        /\ (allowedIds = [] \/ cr_id row ∈ allowedIds)
        /\ (forall r, r ∈ table -> cred_matches workspaceId provider allowedIds r = true ->
              cred_before r row = false)
        /\ match cr_encryptedSecret row with
           | None => cs_secret c = None
           | Some sealed => exists k s, ring = Some k /\ decryptSecret P sealed k = Ok s /\ cs_secret c = Some s
           end
  | Throw _ =>
      exists row sealed, row ∈ table /\ cred_matches workspaceId provider allowedIds row = true
        /\ cr_encryptedSecret row = Some sealed
        /\ (ring = None \/ exists k e, ring = Some k /\ decryptSecret P sealed k = Throw e)
  end.
Proof.
  unfold PgCredentialStore_getDefault.
  pose proof (first_row_spec (List.filter (cred_matches workspaceId provider allowedIds) table)) as H.
  destruct (first_row _) as [row|].
  - destruct H as [Hin Hall]. rewrite list_elem_of_In, List.filter_In, <- list_elem_of_In in Hin.
    destruct Hin as [Hin Hm].
    assert (forall r, r ∈ table -> cred_matches workspaceId provider allowedIds r = true ->
              cred_before r row = false) as Hbest.
    { intros r Hr Hmr. apply Hall. by rewrite list_elem_of_In, List.filter_In, <- list_elem_of_In. }
    assert (cr_active row = true /\ cr_workspaceId row = workspaceId /\ cr_provider row = provider
            /\ (allowedIds = [] \/ cr_id row ∈ allowedIds)) as (Ha & Hw & Hp & Hal).
    { revert Hm. unfold cred_matches. rewrite !andb_true_iff, orb_true_iff, !bool_decide_eq_true, String.eqb_eq.
      intros [[[? Hp] ?] ?]. split_and!; try done. revert Hp. by destruct (cr_provider row), provider. }
    destruct (cr_encryptedSecret row) as [sealed|] eqn:E; cbn.
    + destruct ring as [k|]; cbn; [|exists row, sealed; eauto].
      destruct (decryptSecret P sealed k) as [s|e] eqn:D; cbn.
      * exists row. rewrite E. split_and!; eauto.
      * exists row, sealed. split_and!; eauto 10.
    + exists row. rewrite E. done.
  - intros r Hr. destruct (cred_matches _ _ _ r) eqn:Hm; [|done].
    assert (r ∈ List.filter (cred_matches workspaceId provider allowedIds) table) as Hf
      by (by rewrite list_elem_of_In, List.filter_In, <- list_elem_of_In).
    rewrite H in Hf. set_solver.
Qed.

End credentials.

(** ** Array literals *)
(** A word Postgres prints bare or between quotes, with no escape in it. *)
Definition pg_word (w : string) : Prop :=
  w <> "" /\ no_char "," w = true /\ no_char dquote w = true.
Definition pg_item (quoted : string -> bool) (w : string) : string :=
  if quoted w then String dquote (w +:+ String dquote "") else w.
Definition pg_literal (quoted : string -> bool) (l : list string) : string :=
  "{" +:+ join "," (map (pg_item quoted) l) +:+ "}".

Lemma strip_ends_around a b s : strip_ends a b (String a (s +:+ String b "")) = s.
Proof.
  unfold strip_ends. rewrite Ascii.eqb_refl.
  replace (ends_with _ _) with true by (symmetry; apply ends_with_spec; by exists s).
  exact (slice_drop_last_app s (String b "")).
Qed.
Lemma strip_ends_bare s : no_char dquote s = true -> strip_ends dquote dquote s = s.
Proof.
  intros H. unfold strip_ends. destruct s as [|x s]; [done|].
  assert (Ascii.eqb x dquote = false) as -> by (cbn in H; by destruct (Ascii.eqb x dquote)).
  destruct (ends_with (String dquote "") (String x s)) eqn:E; [|done].
  apply ends_with_spec in E as [t Ht]. rewrite Ht, no_char_app in H. cbn in H. by rewrite andb_false_r in H.
Qed.
Lemma strip_item quoted w : no_char dquote w = true -> strip_ends dquote dquote (pg_item quoted w) = w.
Proof. unfold pg_item. destruct (quoted w); [by rewrite strip_ends_around|apply strip_ends_bare]. Qed.
(** The array text of a key's allowlists is read back, whichever of its words
    Postgres chose to quote. *)
Lemma pg_array_roundtrip quoted l :
  Forall pg_word l -> parsePgArray (PgText (pg_literal quoted l)) = l.
Proof.
  intros Hl. unfold parsePgArray, pg_literal.
  change ("{" +:+ join "," (map (pg_item quoted) l) +:+ "}")
    with (String "{" (join "," (map (pg_item quoted) l) +:+ String "}" "")).
  rewrite strip_ends_around. destruct l as [|w l]; [done|].
  destruct (String.eqb _ "") eqn:E.
  { apply String.eqb_eq in E. inversion Hl as [|? ? [Hw _] _]; subst. exfalso. revert E.
    assert (pg_item quoted w <> "") as Hi by (unfold pg_item; by destruct (quoted w)).
    destruct l; cbn; [done|]. by destruct (pg_item quoted w). }
  change "," with (String ","%char ""). rewrite split_join; [|done|].
  - rewrite map_map. rewrite <- (map_id (w :: l)) at 2. apply map_ext_in. intros x Hx%list_elem_of_In.
    apply strip_item. rewrite Forall_forall in Hl. by destruct (Hl x Hx) as (_ & _ & ?).
  - apply List.Forall_map. eapply Forall_impl; [exact Hl|]. intros x (_ & Hc & _). unfold pg_item.
    destruct (quoted x); [|done]. cbn. by rewrite no_char_app, Hc.
Qed.
