(* ===== verification/KeyCache.v ===== *)
(** * apps/gateway/src/stores/cached.ts: the cache of virtual keys

    An in-process map over Redis over an inner store.  [resolve] waits three
    times - for GET, for the inner store, for SET - and look-ups and messages
    of the invalidation channel run in between: every look-up under way is a
    [Flight] of the machine, and each of its steps is an action.  One gateway
    process with the Redis it shares. *)

From S2P Require Import Prelude JsString JsNum JsDate Json JsonRoundtrip Shared Queue Auth Providers.
From S2P Require Import Gateway Stores.
From Stdlib Require Import Ascii.

(** ** The two caches *)
Record LocalEntry := mkLocal { le_value : option ResolvedKeyContext; le_expiresAt : Z }.
Record CachedKeyStore := mkCached {
  ck_local : gmap string LocalEntry;
  ck_redis : gmap string (string * Z);    (** vk:<hash>: the text and its expiry *)
}.
Definition vk_redis_key (keyHash : string) : string := "vk:" +:+ keyHash.
Definition local_lookup (now : Z) (keyHash : string) (st : CachedKeyStore)
  : option (option ResolvedKeyContext) :=
  match ck_local st !! keyHash with
  | Some cached => if now <? le_expiresAt cached then Some (le_value cached) else None
  | None => None
  end.
Definition local_store (now : Z) (keyHash : string) (value : option ResolvedKeyContext) (st : CachedKeyStore)
  : CachedKeyStore :=
  mkCached (<[keyHash := mkLocal value (now + LOCAL_TTL_MS)]> (ck_local st)) (ck_redis st).
(** GET and SET … EX, when Redis executes them. *)
Definition redis_lookup (now : Z) (keyHash : string) (st : CachedKeyStore) : option string :=
  match ck_redis st !! vk_redis_key keyHash with
  | Some (text, expiry) => if now <? expiry then Some text else None
  | None => None
  end.
Definition redis_store (now : Z) (keyHash : string) (value : option ResolvedKeyContext) (st : CachedKeyStore)
  : CachedKeyStore :=
  mkCached (ck_local st)
    (<[vk_redis_key keyHash := (encode_ctx value, now + REDIS_TTL_MS)]> (ck_redis st)).
Definition redis_del (keyHash : string) (st : CachedKeyStore) : CachedKeyStore :=
  mkCached (ck_local st) (delete (vk_redis_key keyHash) (ck_redis st)).
Definition invalidate (keyHash : string) (st : CachedKeyStore) : CachedKeyStore :=
  mkCached (delete keyHash (ck_local st)) (ck_redis st).
(** The pmessage handler; the DEL it sends is an action of its own. *)
Definition on_invalidation (channel : string) (st : CachedKeyStore) : CachedKeyStore :=
  invalidate (slice_from (String.length "invalidate:vk:") channel) st.

(** ** Look-ups under way *)
(** What a look-up waits for or has been told. *)
Inductive Phase :=
| AskingRedis
| RedisSaid (answer : option (option string))   (** nothing: GET was rejected *)
| AskingInner
| InnerSaid (answer : js (option ResolvedKeyContext))
| Storing (value : option ResolvedKeyContext).  (** SET was sent *)
Record Flight := mkFlight { fl_now : Z; fl_key : string; fl_phase : Phase }.
(** What [resolve] answered: when it was called and when it answered. *)
Record CacheAnswer := mkCacheAnswer { an_now : Z; an_key : string; an_time : Z; an_result : js (option ResolvedKeyContext) }.
Record CacheState := mkCache { cs_store : CachedKeyStore; cs_flights : gmap nat Flight; cs_answers : list CacheAnswer }.
Definition cache_start : CacheState := mkCache (mkCached ∅ ∅) ∅ [].

Inductive cache_action :=
| CResolve (t : Z) (i : nat) (keyHash : string)
| CGet (t : Z) (i : nat) (up : bool)       (** Redis executes GET, or it is rejected *)
| CGot (t : Z) (i : nat)                   (** the look-up goes on with it *)
| CRead (t : Z) (i : nat)                  (** the inner store reads its tables *)
| CBack (t : Z) (i : nat)                  (** the look-up goes on with that *)
| CSet (t : Z) (i : nat) (up : bool)       (** Redis executes SET, or it is rejected *)
| CInvalidate (t : Z) (keyHash : string)   (** a message on the key's channel *)
| CDel (t : Z) (keyHash : string).         (** Redis executes a DEL: this process's, or the API's *)
Definition action_time (a : cache_action) : Z :=
  match a with
  | CResolve t _ _ | CGet t _ _ | CGot t _ | CRead t _ | CBack t _ | CSet t _ _ | CInvalidate t _ | CDel t _ => t
  end.

Definition set_store (s : CachedKeyStore) (st : CacheState) : CacheState := mkCache s (cs_flights st) (cs_answers st).
Definition set_phase (i : nat) (f : Flight) (p : Phase) (st : CacheState) : CacheState :=
  mkCache (cs_store st) (<[i := mkFlight (fl_now f) (fl_key f) p]> (cs_flights st)) (cs_answers st).
Definition answer (t : Z) (i : nat) (f : Flight) (r : js (option ResolvedKeyContext)) (st : CacheState) : CacheState :=
  mkCache (cs_store st) (delete i (cs_flights st)) (cs_answers st ++ [mkCacheAnswer (fl_now f) (fl_key f) t r]).

Section cache.
Context (inner : Z -> string -> js (option ResolvedKeyContext)).

(** [resolve] up to its first await. *)
Definition start_resolve (t : Z) (i : nat) (keyHash : string) (st : CacheState) : CacheState :=
  let f := mkFlight t keyHash AskingRedis in
  match local_lookup t keyHash (cs_store st) with
  | Some value => answer t i f (Ok value) st
  | None => set_phase i f AskingRedis st
  end.
(** The rest of the [try]: a text that does not parse falls to the [catch]. *)
Definition after_get (t : Z) (i : nat) (f : Flight) (said : option (option string)) (st : CacheState) : CacheState :=
  match said with
  | Some (Some text) =>
      match (if String.eqb text NEGATIVE then Ok None else c ← reviveContext text; Ok (Some c)) with
      | Ok value => answer t i f (Ok value) (set_store (local_store (fl_now f) (fl_key f) value (cs_store st)) st)
      | Throw _ => set_phase i f AskingInner st
      end
  | Some None | None => set_phase i f AskingInner st
  end.
(** After the inner store, up to the await of SET. *)
Definition after_inner (t : Z) (i : nat) (f : Flight) (said : js (option ResolvedKeyContext)) (st : CacheState) : CacheState :=
  match said with
  | Ok value => set_phase i f (Storing value) (set_store (local_store (fl_now f) (fl_key f) value (cs_store st)) st)
  | Throw e => answer t i f (Throw e) st
  end.
Definition cache_step (a : cache_action) (st : CacheState) : CacheState :=
  match a with
  | CResolve t i h => match cs_flights st !! i with None => start_resolve t i h st | Some _ => st end
  | CGet t i up =>
      match cs_flights st !! i with
      | Some f => match fl_phase f with
                  | AskingRedis => set_phase i f (RedisSaid (if up then Some (redis_lookup t (fl_key f) (cs_store st)) else None)) st
                  | _ => st
                  end
      | None => st
      end
  | CGot t i =>
      match cs_flights st !! i with
      | Some f => match fl_phase f with RedisSaid said => after_get t i f said st | _ => st end
      | None => st
      end
  | CRead t i =>
      match cs_flights st !! i with
      | Some f => match fl_phase f with AskingInner => set_phase i f (InnerSaid (inner t (fl_key f))) st | _ => st end
      | None => st
      end
  | CBack t i =>
      match cs_flights st !! i with
      | Some f => match fl_phase f with InnerSaid said => after_inner t i f said st | _ => st end
      | None => st
      end
  | CSet t i up =>
      match cs_flights st !! i with
      | Some f => match fl_phase f with
                  | Storing value =>
                      answer t i f (Ok value)
                        (if up then set_store (redis_store t (fl_key f) value (cs_store st)) st else st)
                  | _ => st
                  end
      | None => st
      end
  | CInvalidate _ h => set_store (on_invalidation (invalidateVk h) (cs_store st)) st
  | CDel _ h => set_store (redis_del h (cs_store st)) st
  end.
Definition cache_run (acts : list cache_action) (st : CacheState) : CacheState :=
  fold_left (fun st a => cache_step a st) acts st.

(** The clock does not go back, and no look-up is under way for more than [D]
    milliseconds. *)
Definition flight_of (a : cache_action) : option nat :=
  match a with
  | CGet _ i _ | CGot _ i | CRead _ i | CBack _ i | CSet _ i _ => Some i
  | CResolve _ _ _ | CInvalidate _ _ | CDel _ _ => None
  end.
Definition in_time (D : Z) (a : cache_action) (st : CacheState) : Prop :=
  forall i f, flight_of a = Some i -> cs_flights st !! i = Some f -> action_time a <= fl_now f + D.
Fixpoint prompt (D last : Z) (acts : list cache_action) (st : CacheState) : Prop :=
  match acts with
  | [] => True
  | a :: rest => last <= action_time a /\ in_time D a st /\ prompt D (action_time a) rest (cache_step a st)
  end.
(** No look-up of a key is under way. *)
Definition idle (keyHash : string) (st : CacheState) : Prop :=
  forall i f, cs_flights st !! i = Some f -> fl_key f <> keyHash.
Definition asks_for (keyHash : string) (a : cache_action) : bool :=
  match a with CResolve _ _ h => String.eqb h keyHash | _ => false end.
End cache.

(** ** Where what is cached comes from *)
Section provenance.
Context (inner : Z -> string -> js (option ResolvedKeyContext)) (D : Z).
Hypothesis inner_storable : forall t h c, inner t h = Ok (Some c) -> ctx_storable c.
(** One key, and an instant nothing of it is older than. *)
Context (h : string) (lo : Z).

Definition said_at (last : Z) (v : option ResolvedKeyContext) (t0 : Z) : Prop := inner t0 h = Ok v /\ lo <= t0 <= last.
Definition phase_ok (last now : Z) (p : Phase) : Prop :=
  match p with
  | AskingRedis | AskingInner | RedisSaid None | RedisSaid (Some None) => True
  | RedisSaid (Some (Some text)) => exists v t0, said_at last v t0 /\ text = encode_ctx v /\ now < t0 + 60000 + D
  | InnerSaid (Ok v) | Storing v => exists t0, said_at last v t0 /\ now <= t0
  | InnerSaid (Throw e) => exists t, inner t h = Throw e /\ now <= t <= last
  end.
Definition answer_ok (a : CacheAnswer) : Prop :=
  match an_result a with
  | Ok v => exists t0, said_at (an_time a) v t0 /\ an_now a - 65000 - D < t0
  | Throw e => exists t, inner t h = Throw e /\ an_now a <= t <= an_time a
  end.
Record cinv (old : list CacheAnswer) (last : Z) (st : CacheState) : Prop := {
  ci_lo : lo <= last;
  ci_local : forall e, ck_local (cs_store st) !! h = Some e ->
    exists t0, said_at last (le_value e) t0 /\ le_expiresAt e < t0 + 65000 + D;
  ci_redis : forall text expiry, ck_redis (cs_store st) !! vk_redis_key h = Some (text, expiry) ->
    exists v t0, said_at last v t0 /\ text = encode_ctx v /\ expiry <= t0 + 60000 + D;
  ci_flights : forall i f, cs_flights st !! i = Some f -> fl_key f = h ->
    fl_now f <= last /\ phase_ok last (fl_now f) (fl_phase f);
  ci_answers : exists new, cs_answers st = old ++ new /\ forall a, a ∈ new -> an_key a = h -> answer_ok a;
}.

Lemma said_mono last last' v t0 : last <= last' -> said_at last v t0 -> said_at last' v t0.
Proof. intros ? (? & ?). split; [done|lia]. Qed.
Lemma phase_mono last last' now p : last <= last' -> phase_ok last now p -> phase_ok last' now p.
Proof.
  intros Hl. destruct p as [|[[text|]|]| |[v|e]|v]; cbn; try done.
  - intros (v & t0 & Hs & ?). exists v, t0. split; [by eapply said_mono|done].
  - intros (t0 & Hs & ?). exists t0. split; [by eapply said_mono|done].
  - intros (t & ? & ?). exists t. split; [done|lia].
  - intros (t0 & Hs & ?). exists t0. split; [by eapply said_mono|done].
Qed.
Lemma cinv_mono old last last' st : last <= last' -> cinv old last st -> cinv old last' st.
Proof.
  intros Hl [Hlo Hloc Hred Hfl Han]. split; [lia| | | |exact Han].
  - intros e He. destruct (Hloc e He) as (t0 & ? & ?). exists t0. split; [by eapply said_mono|done].
  - intros text ex He. destruct (Hred text ex He) as (v & t0 & ? & ?). exists v, t0. split; [by eapply said_mono|done].
  - intros i f Hi Hk. destruct (Hfl i f Hi Hk) as [? ?]. split; [lia|by eapply phase_mono].
Qed.

(** The parts of a step. *)
Lemma inv_phase old last st i f p :
  cinv old last st -> (fl_key f = h -> fl_now f <= last /\ phase_ok last (fl_now f) p) -> cinv old last (set_phase i f p st).
Proof.
  intros [Hlo Hloc Hred Hfl Han] Hp. split; [done..| |exact Han]. intros j g. cbn.
  destruct (decide (i = j)) as [<-|Hne].
  - rewrite lookup_insert_eq. intros [= <-] Hk. cbn in *. by apply Hp.
  - rewrite lookup_insert_ne by done. apply Hfl.
Qed.
Lemma inv_answer old last st i f r :
  cinv old last st -> (fl_key f = h -> answer_ok (mkCacheAnswer (fl_now f) (fl_key f) last r)) -> cinv old last (answer last i f r st).
Proof.
  intros [Hlo Hloc Hred Hfl (new & Hn & Hall)] Hr. split; [done..| |]; cbn.
  - intros j g [Hne Hj]%lookup_delete_Some. exact (Hfl j g Hj).
  - exists (new ++ [mkCacheAnswer (fl_now f) (fl_key f) last r]). split; [by rewrite Hn, app_assoc|].
    intros a. rewrite elem_of_app, list_elem_of_singleton. intros [Ha| ->]; [by apply Hall|exact Hr].
Qed.
Lemma inv_local old last st now k v :
  cinv old last st -> (k = h -> exists t0, said_at last v t0 /\ now + 5000 < t0 + 65000 + D) ->
  cinv old last (set_store (local_store now k v (cs_store st)) st).
Proof.
  intros [Hlo Hloc Hred Hfl Han] Hv. split; [done| |done..]. intros e. cbn.
  destruct (decide (k = h)) as [->|Hne].
  - rewrite lookup_insert_eq. intros [= <-]. cbn. unfold LOCAL_TTL_MS. by apply Hv.
  - rewrite lookup_insert_ne by done. apply Hloc.
Qed.
Lemma vk_redis_key_inj a b : vk_redis_key a = vk_redis_key b -> a = b.
Proof using. clear. apply string_app_inj_l. Qed.
Lemma inv_redis old last st k v :
  cinv old last st -> (k = h -> exists t0, said_at last v t0 /\ last <= t0 + D) ->
  cinv old last (set_store (redis_store last k v (cs_store st)) st).
Proof.
  intros [Hlo Hloc Hred Hfl Han] Hv. split; [done|done| |done..]. intros text ex. cbn.
  destruct (decide (k = h)) as [->|Hne].
  - rewrite lookup_insert_eq. intros [= <- <-]. destruct (Hv eq_refl) as (t0 & ? & ?). exists v, t0.
    unfold REDIS_TTL_MS. split_and!; [done|done|lia].
  - rewrite lookup_insert_ne; [apply Hred|]. intros E. by apply vk_redis_key_inj in E.
Qed.
Lemma inv_forget old last st l r :
  (forall k e, l !! k = Some e -> ck_local (cs_store st) !! k = Some e) ->
  (forall k e, r !! k = Some e -> ck_redis (cs_store st) !! k = Some e) ->
  cinv old last st -> cinv old last (set_store (mkCached l r) st).
Proof. intros Hl Hr [Hlo Hloc Hred Hfl Han]. split; [done| | |done..]; cbn; eauto. Qed.
Lemma reviv_text v : (forall c, v = Some c -> ctx_storable c) ->
  (if String.eqb (encode_ctx v) NEGATIVE then Ok None else c ← reviveContext (encode_ctx v); Ok (Some c)) = Ok (E := string) v.
Proof using.
  clear. intros H. destruct v as [c|]; [|done]. rewrite encode_not_negative, revive_ctx by (by apply H). done.
Qed.

Lemma cinv_step old last st a :
  cinv old last st -> last <= action_time a -> in_time D a st -> cinv old (action_time a) (cache_step inner a st).
Proof.
  intros Hinv Hl Hit. apply (cinv_mono old last _ st Hl) in Hinv. clear Hl last.
  destruct a as [t i k|t i up|t i|t i|t i|t i up|t k|t k]; cbn [action_time cache_step] in *;
    try (destruct (cs_flights st !! i) as [f|] eqn:Ef; [|exact Hinv];
         pose proof (Hit i f eq_refl Ef) as Hlate; cbn [action_time] in Hlate; pose proof (ci_flights _ _ _ Hinv i f Ef) as Hf).
  - destruct (cs_flights st !! i); [exact Hinv|]. unfold start_resolve, local_lookup.
    destruct (ck_local (cs_store st) !! k) as [e|] eqn:Ee; [|apply inv_phase; [done|]; cbn; intros _; split; [lia|done]].
    destruct (t <? le_expiresAt e) eqn:Ex; [|apply inv_phase; [done|]; cbn; intros _; split; [lia|done]].
    apply inv_answer; [done|]. cbn. intros ->. destruct (ci_local _ _ _ Hinv e Ee) as (t0 & Hs & Hex).
    exists t0. split; [exact Hs|]. cbn. bool_to_prop. lia.
  - destruct (fl_phase f) eqn:Ep; try exact Hinv. apply inv_phase; [done|]. intros Hk. split; [by apply Hf|].
    destruct up; [|done]. unfold redis_lookup. rewrite Hk.
    destruct (ck_redis (cs_store st) !! vk_redis_key h) as [[text ex]|] eqn:Er; [|done].
    destruct (t <? ex) eqn:Ex; [|done]. destruct (ci_redis _ _ _ Hinv text ex Er) as (v & t0 & Hs & -> & Hle).
    exists v, t0. destruct (Hf Hk) as [? _]. split_and!; [done|done|bool_to_prop; lia].
  - destruct (fl_phase f) as [|said| | |] eqn:Ep; try exact Hinv. unfold after_get.
    assert (cinv old t (set_phase i f AskingInner st)) as Hask by (apply inv_phase; [done|]; intros Hk; split; [by apply Hf|done]).
    destruct said as [[text|]|]; [|exact Hask..].
    destruct (decide (fl_key f = h)) as [Hk|Hk].
    + destruct (Hf Hk) as [_ (v & t0 & Hs & -> & Hnow)].
      rewrite reviv_text by (intros c ->; eapply inner_storable, (proj1 Hs)).
      apply inv_answer; [apply inv_local; [done|]|]; intros _; (exists t0; split; [exact Hs|cbn; lia]).
    + destruct (if String.eqb text NEGATIVE then _ else _) as [v|e]; [|exact Hask].
      apply inv_answer; [apply inv_local; [done|]|]; intros Hk'; by destruct Hk.
  - destruct (fl_phase f) eqn:Ep; try exact Hinv. apply inv_phase; [done|]. intros Hk. destruct (Hf Hk) as [? _].
    split; [done|]. rewrite Hk. pose proof (ci_lo _ _ _ Hinv). cbn. destruct (inner t h) as [v|e] eqn:Ei.
    + exists t. split; [split; [done|lia]|lia].
    + exists t. split; [done|lia].
  - destruct (fl_phase f) as [| | |said|] eqn:Ep; try exact Hinv. unfold after_inner. destruct said as [v|e].
    + apply inv_phase; [apply inv_local; [done|]|]; intros Hk; destruct (Hf Hk) as [Hn (t0 & Hs & Hle)];
        [exists t0; split; [exact Hs|lia]|split; [done|by exists t0]].
    + apply inv_answer; [done|]. intros Hk. destruct (Hf Hk) as [Hn (t0 & Hs & Hle)]. by exists t0.
  - destruct (fl_phase f) as [| | | |v] eqn:Ep; try exact Hinv.
    assert (fl_key f = h -> answer_ok (mkCacheAnswer (fl_now f) (fl_key f) t (Ok v))) as Hans.
    { intros Hk. destruct (Hf Hk) as [Hn (t0 & Hs & Hle)]. exists t0. split; [exact Hs|cbn; lia]. }
    apply inv_answer; [|exact Hans]. destruct up; [|done]. apply inv_redis; [done|].
    intros Hk. destruct (Hf Hk) as [Hn (t0 & Hs & Hle)]. exists t0. split; [exact Hs|lia].
  - apply inv_forget; [|done|done]. intros k' e [_ H]%lookup_delete_Some. exact H.
  - apply inv_forget; [done| |done]. intros k' e [_ H]%lookup_delete_Some. exact H.
Qed.
Lemma cinv_run old last acts st :
  cinv old last st -> prompt inner D last acts st -> exists last', last <= last' /\ cinv old last' (cache_run inner acts st).
Proof.
  revert last st; induction acts as [|a acts IH]; intros last st Hinv; [intros _; exists last; split; [lia|done]|].
  intros (Hl & Hit & Hp). destruct (IH (action_time a) (cache_step inner a st)) as (last' & ? & ?); [by eapply cinv_step|done|].
  exists last'. split; [lia|done].
Qed.
End provenance.

(** ** A key nobody is looking up *)
Section forgotten.
Context (inner : Z -> string -> js (option ResolvedKeyContext)) (h : string).

(** Neither asked for nor in this process's map. *)
Definition unheld (st : CacheState) : Prop := idle h st /\ ck_local (cs_store st) !! h = None.

Lemma unheld_store s st : idle h st -> ck_local s !! h = None -> unheld (set_store s st).
Proof. by intros ? ?. Qed.
Lemma unheld_phase i f p st : unheld st -> fl_key f <> h -> unheld (set_phase i f p st).
Proof.
  intros [Hi Hl] Hk. split; [|exact Hl]. intros j g. cbn. rewrite lookup_insert_Some.
  intros [[_ <-]|[_ Hj]]; [exact Hk|exact (Hi j g Hj)].
Qed.
Lemma unheld_answer t i f r st : unheld st -> unheld (answer t i f r st).
Proof. intros [Hi Hl]. split; [|exact Hl]. intros j g. cbn. intros [_ Hj]%lookup_delete_Some. exact (Hi j g Hj). Qed.
Lemma unheld_local now k v st : unheld st -> k <> h -> unheld (set_store (local_store now k v (cs_store st)) st).
Proof. intros [Hi Hl] Hk. apply unheld_store; [exact Hi|]. cbn. by rewrite lookup_insert_ne. Qed.
Lemma unheld_redis now k v st : unheld st -> unheld (set_store (redis_store now k v (cs_store st)) st).
Proof. intros [Hi Hl]. by apply unheld_store. Qed.
#[local] Hint Resolve unheld_phase unheld_answer unheld_local unheld_redis : core.

Lemma unheld_step a st : unheld st -> asks_for h a = false -> unheld (cache_step inner a st).
Proof.
  intros Hu Ha. destruct a as [t i k|t i up|t i|t i|t i|t i up|t k|t k]; cbn [cache_step];
    try (destruct (cs_flights st !! i) as [f|] eqn:Ef; [|exact Hu]; pose proof (proj1 Hu i f Ef) as Hk;
         destruct (fl_phase f) as [|[[text|]|]| |[v|e]|v]; cbn [after_get after_inner]; auto).
  - cbn in Ha. apply String.eqb_neq in Ha. destruct (cs_flights st !! i); [exact Hu|]. unfold start_resolve.
    destruct (local_lookup t k (cs_store st)); auto.
  - destruct (if String.eqb text NEGATIVE then _ else _); auto.
  - destruct up; auto.
  - destruct Hu as [Hi Hl]. apply unheld_store; [exact Hi|]. cbn. rewrite lookup_delete_None. by right.
  - destruct Hu as [Hi Hl]. by apply unheld_store.
Qed.
Lemma unheld_run acts st : unheld st -> Forall (fun a => asks_for h a = false) acts -> unheld (cache_run inner acts st).
Proof. intros Hu Ha. revert st Hu; induction Ha as [|a acts Ha _ IH]; intros st Hu; [done|]. by apply IH, unheld_step. Qed.
Lemma invalidated_unheld t st : idle h st -> unheld (cache_step inner (CInvalidate t h) st).
Proof.
  intros Hi. apply unheld_store; [exact Hi|]. cbn [ck_local on_invalidation invalidate].
  unfold invalidateVk. rewrite slice_from_app. apply lookup_delete_eq.
Qed.
(** With its entry gone from Redis too, nothing of the key is left. *)
Lemma unheld_afresh D t st : unheld st -> cinv inner D h t (cs_answers st) t (cache_step inner (CDel t h) st).
Proof.
  intros [Hi Hl]. split; cbn.
  - lia.
  - by rewrite Hl.
  - intros text ex. by rewrite lookup_delete_eq.
  - intros i f Hf Hk. by destruct (Hi i f Hf).
  - exists []. split; [by rewrite app_nil_r|]. by intros a ?%elem_of_nil.
Qed.
End forgotten.

Lemma cache_run_app inner a b st : cache_run inner (a ++ b) st = cache_run inner b (cache_run inner a st).
Proof. apply fold_left_app. Qed.
Lemma cache_run_cons inner a b st : cache_run inner (a :: b) st = cache_run inner b (cache_step inner a st).
Proof. done. Qed.
Lemma prompt_app inner D last a b st :
  prompt inner D last (a ++ b) st ->
  prompt inner D last a st /\ exists last', last <= last' /\ prompt inner D last' b (cache_run inner a st).
Proof.
  revert last st; induction a as [|x a IH]; intros last st H; cbn in *.
  - split; [done|]. exists last. split; [lia|done].
  - destruct H as (? & ? & (? & last' & ? & ?)%IH). split; [done|]. exists last'. split; [lia|done].
Qed.

Lemma cinv_start inner D h start : cinv inner D h start [] start cache_start.
Proof.
  split; cbn; [lia|done..| |exists []; split; [done|by intros ? ?%elem_of_nil]]. intros i f. by rewrite lookup_empty.
Qed.
(** An invalidation with nothing under way, and the DEL: from there on, only
    what the inner store says afterwards. *)
Lemma forgotten_run inner D h t mid t' after st :
  (forall u k c, inner u k = Ok (Some c) -> ctx_storable c) ->
  idle h st -> Forall (fun a => asks_for h a = false) mid -> 
  let st1 := cache_run inner mid (cache_step inner (CInvalidate t h) st) in
  let st2 := cache_run inner after (cache_step inner (CDel t' h) st1) in
  prompt inner D t' after (cache_step inner (CDel t' h) st1) ->
  exists later, cs_answers st2 = cs_answers st1 ++ later /\ forall a, a ∈ later -> an_key a = h -> answer_ok inner D h t' a.
Proof.
  intros Hs Hi Hm st1 st2 Hp.
  assert (cinv inner D h t' (cs_answers st1) t' (cache_step inner (CDel t' h) st1)) as H
    by (apply unheld_afresh, unheld_run; [by apply invalidated_unheld|done]).
  edestruct cinv_run as (last & _ & Hinv); [exact Hs|exact H|exact Hp|]. exact (ci_answers _ _ _ _ _ _ _ Hinv).
Qed.

(** ** How old an answer is *)
(** C24: whatever look-ups run at once, with Redis up or down at each call and
    messages of the invalidation channel in between, the cache answers a key
    with what the inner store said at an instant before the answer and less
    than 65 seconds (Redis's minute and the map's 5 seconds) and the duration
    of a look-up before the question; it fails only if the inner store failed
    it meanwhile (contexts are those a JSON text carries: expiry before the year
    10000, limits below 2^53).  And once a message of the channel arrived with
    no look-up of that key under way, and Redis executed the DEL it causes
    before the next, nothing older than the message is ever answered again. *)
Theorem cache_staleness (inner : Z -> string -> js (option ResolvedKeyContext)) (D start : Z) (acts : list cache_action)
  (inner_storable : forall t h c, inner t h = Ok (Some c) -> ctx_storable c)
  (timed : prompt inner D start acts cache_start) :
  (forall a, a ∈ cs_answers (cache_run inner acts cache_start) ->
     match an_result a with
     | Ok v => exists t0, inner t0 (an_key a) = Ok v /\ t0 <= an_time a /\ an_now a - 65000 - D < t0
     | Throw e => exists t, inner t (an_key a) = Throw e /\ an_now a <= t <= an_time a
     end) /\
  (forall before t h mid t' after,
     acts = before ++ CInvalidate t h :: mid ++ CDel t' h :: after ->
     idle h (cache_run inner before cache_start) ->
     Forall (fun a => asks_for h a = false) mid ->
     exists later, cs_answers (cache_run inner acts cache_start)
                   = cs_answers (cache_run inner (before ++ CInvalidate t h :: mid) cache_start) ++ later /\
       forall a v, a ∈ later -> an_key a = h -> an_result a = Ok v ->
         exists t0, inner t0 h = Ok v /\ t <= t0 <= an_time a).
Proof.
  split.
  - intros a Ha.
    edestruct cinv_run as (last & _ & Hinv); [exact inner_storable|apply (cinv_start inner D (an_key a))|exact timed|].
    destruct (ci_answers _ _ _ _ _ _ _ Hinv) as (new & E & Hall). cbn in E. rewrite E in Ha.
    pose proof (Hall a Ha eq_refl) as Hok. unfold answer_ok, said_at in Hok.
    destruct (an_result a); [destruct Hok as (t0 & (? & ?) & ?); exists t0; split_and!; [done|lia|lia]|exact Hok].
  - intros before t h mid t' after -> Hi Hm.
    apply prompt_app in timed as (_ & l1 & _ & _ & _ & Ht). apply prompt_app in Ht as (_ & l2 & Hl2 & Hle & _ & Ht).
    destruct (forgotten_run inner D h t mid t' after _ inner_storable Hi Hm Ht) as (later & E & Hall).
    exists later. rewrite !cache_run_app, !cache_run_cons, cache_run_app. split; [exact E|].
    intros a v Ha Hk Hv. pose proof (Hall a Ha Hk) as Hok. unfold answer_ok, said_at in Hok. rewrite Hv in Hok.
    destruct Hok as (t0 & (? & ?) & _). exists t0. split; [done|]. cbn in Hl2, Hle. lia.
Qed.

Definition example_key : ResolvedKeyContext :=
  mkCtx "vk1" "ws1" "p1" (Some "t1") "u1" KEY_ACTIVE (Some 1900000000000) [ANTHROPIC] [] ["claude-*"] (Some 60).
Definition example_inner (revoked_at t : Z) (h : string) : js (option ResolvedKeyContext) :=
  Ok (if t <? revoked_at then Some example_key else None).
(** Two look-ups at once, then a revocation, then another look-up. *)
Definition example_run : list cache_action :=
  [CResolve 1000 0 "k"; CResolve 1001 1 "k"; CGet 1002 0 true; CGot 1003 0; CRead 1004 0; CGet 1005 1 false; CGot 1006 1;
   CBack 1007 0; CRead 1008 1; CBack 1009 1; CSet 1010 1 true; CSet 1011 0 true]
  ++ CInvalidate 2000 "k" :: [] ++ CDel 2001 "k" ::
  [CResolve 2002 2 "k"; CGet 2003 2 true; CGot 2004 2; CRead 2005 2; CBack 2006 2; CSet 2007 2 true].
Example example_answers :
  map an_result (cs_answers (cache_run (example_inner 2000) example_run cache_start))
  = [Ok (Some example_key); Ok (Some example_key); Ok None].
Proof. vm_compute. reflexivity. Qed.
Lemma cache_staleness_witness :
  (forall a, a ∈ cs_answers (cache_run (example_inner 2000) example_run cache_start) ->
     match an_result a with
     | Ok v => exists t0, example_inner 2000 t0 (an_key a) = Ok v /\ t0 <= an_time a /\ an_now a - 65000 - 100 < t0
     | Throw e => exists t, example_inner 2000 t (an_key a) = Throw e /\ an_now a <= t <= an_time a
     end) /\
  idle "k" (cache_run (example_inner 2000) (take 12 example_run) cache_start).
Proof.
  split.
  - apply (cache_staleness (example_inner 2000) 100 0).
    + intros t h c. unfold example_inner. destruct (t <? 2000); [|done]. intros [= <-].
      split; [intros ? [= <-]; lia|intros ? [= <-]; by apply Z.leb_le].
    + repeat (split; [vm_compute; discriminate|split; [|]]); [..|exact I].
      all: intros i f E1 E2; vm_compute in E1, E2; try discriminate E1; injection E1 as <-; vm_compute in E2;
        first [discriminate E2|injection E2 as <-; vm_compute; discriminate].
  - intros i f. vm_compute. destruct i; discriminate.
Defined.

(** What "no look-up under way" keeps out: a look-up whose inner query answered
    before the revocation and that goes on after the message and its DEL
    stores the old context again, in the map and in Redis. *)
Lemma race_recaches_revoked_key :
  let acts := [CResolve 1000 0 "k"; CGet 1001 0 true; CGot 1002 0; CRead 1003 0;
               CInvalidate 2000 "k"; CDel 2001 "k"; CBack 2002 0; CSet 2003 0 true;
               CResolve 60000 1 "k"; CGet 60001 1 true; CGot 60002 1; CResolve 64000 2 "k"] in
  example_inner 2000 2000 "k" = Ok None /\
  map (fun a => (an_now a, an_result a)) (cs_answers (cache_run (example_inner 2000) acts cache_start))
  = [(1000, Ok (Some example_key)); (60000, Ok (Some example_key)); (64000, Ok (Some example_key))].
Proof. split; vm_compute; reflexivity. Qed.
