(* ===== verification/Proxy.v ===== *)
(** * apps/gateway/src/proxy: the two request handlers

    [pipeline.ts] (native passthrough) and [unified.ts] (the OpenAI-shaped
    endpoint).  A handler runs in a small monad: it accumulates the effects it
    has on the world (rate-limiter calls, upstream requests, emitted events) and
    either goes on, replies, or rejects with an exception.  Everything the
    handler reads from outside (clocks, ids, the SHA-256 function, the answer of
    the provider) is in [Env]. *)

From S2P Require Import Prelude JsString JsNum JsDate Json Shared Queue Pricing Providers Translate.
From S2P Require Import FrameTap Gateway.
From Stdlib Require Import Ascii.

(** ** Effects *)
Record UpstreamCall := mkCall {
  uc_method : string; uc_url : string; uc_headers : gmap string string; uc_body : option string }.
Record UpstreamResponse := mkResponse { ur_status : Z; ur_headers : headers; ur_body : BodyStream }.

Inductive Effect :=
| ELimiter (bucket : string) (limit : Z)
| EUpstream (call : UpstreamCall)
| EEmit (event : UsageEventMessage)
| EUncaught (message : string).   (** thrown inside a stream callback *)
Inductive Outcome := Replied (r : Reply) | Rejected (message : string).

Record Env := mkEnv {
  sha256Hex : string -> string;
  upstreamRequest : UpstreamCall -> js UpstreamResponse;   (** undici *)
  e_occurredAt : Z;      (** new Date() on entry, milliseconds *)
  e_startedAt : Z;       (** hrtime on entry, nanoseconds *)
  e_authNow : Z;         (** Date.now() at the expiry check *)
  e_firstByteNs : Z;     (** hrtime at the first streamed byte *)
  e_finalNs : Z;         (** hrtime in finalize *)
  e_eventId : string;    (** uuidv7() *)
}.

Definition M (A : Type) : Type := list Effect * (A + Outcome).
#[global] Instance M_ret : MRet M := fun A a => ([], inl a).
#[global] Instance M_bind : MBind M := fun A B f m =>
  match m with
  | (es, inl a) => let '(es', r) := f a in (es ++ es', r)
  | (es, inr o) => (es, inr o)
  end.
Definition halt {A} (o : Outcome) : M A := ([], inr o).
Definition reply {A} (r : Reply) : M A := halt (Replied r).
Definition effect (e : Effect) : M unit := ([e], inl tt).
(** An exception that escapes the handler rejects it. *)
Definition lift {A} (r : js A) : M A :=
  match r with Ok a => ([], inl a) | Throw e => ([], inr (Rejected e)) end.
(** [if (!b) return r] *)
Definition require (b : bool) (r : Reply) : M unit := if b then mret tt else reply r.
Definition run (m : M Reply) : list Effect * Outcome :=
  match m with (es, inl r) => (es, Replied r) | (es, inr o) => (es, o) end.

Section handlers.
Context (d : GatewayDeps) (w : Env).

(** [emitter.finalize(args)] on the request path: an exception rejects the
    handler. *)
Definition finalize_now (f : EventFinalizer) (args : FinalizeArgs) : M unit :=
  ev ← lift (finalize f args (e_eventId w) (e_finalNs w)).2;
  match ev with Some e => effect (EEmit e) | None => mret tt end.
(** The same inside the callback of [streamPipeline], where nobody catches. *)
Definition finalize_callback (f : EventFinalizer) (args : FinalizeArgs) : M unit :=
  match (finalize f args (e_eventId w) (e_finalNs w)).2 with
  | Ok (Some e) => effect (EEmit e)
  | Ok None => mret tt
  | Throw err => effect (EUncaught err)
  end.
Definition error {A} (rq : Request) (status : Z) (type message : string) : M A :=
  reply (sendGatewayError ∅ status type message (rq_id rq)).

(** ** Steps both handlers share *)
Definition authorize (rq : Request) : M ResolvedKeyContext :=
  auth ← lift (authorizeKey d (sha256Hex w) (e_authNow w) (rq_headers rq));
  match auth with
  | inr e => error rq (ke_status e) (ke_type e) (ke_message e)
  | inl ctx => mret ctx
  end.
Definition providerAllowed (ctx : ResolvedKeyContext) (p : Provider) : bool :=
  bool_decide (providerAllowlist ctx = []) || bool_decide (p ∈ providerAllowlist ctx).
Definition modelMatches (model allow : string) : bool :=
  String.eqb model allow || (ends_with "*" allow && starts_with (slice_drop_last 1 allow) model).
Definition modelAllowed (ctx : ResolvedKeyContext) (model : string) : bool :=
  bool_decide (modelAllowlist ctx = []) || existsb (modelMatches model) (modelAllowlist ctx).
Definition blocked_args : FinalizeArgs := mkArgs 429 false None false (Some OverrideRateLimit).
Definition checkRate (rq : Request) (ctx : ResolvedKeyContext) (em : EventFinalizer) : M unit :=
  match rpmLimit ctx with
  | None => mret tt
  | Some limit =>
      if limit =? 0 then mret tt
      else
        _ ← effect (ELimiter ("vk:" +:+ vkId ctx) limit);
        let decision := rateLimiter_check d ("vk:" +:+ vkId ctx) limit in
        if allowed decision then mret tt
        else
          _ ← finalize_now em blocked_args;
          reply (sendGatewayError {[ "retry-after" := HOne (dec_signed (retryAfterS decision)) ]}
                   429 "rate_limited"
                   ("Key rate limit of " +:+ dec_signed limit +:+ " requests/minute exceeded") (rq_id rq))
  end.
Definition findCredential (rq : Request) (slug : string) (ctx : ResolvedKeyContext) (p : Provider)
  : M ResolvedCredentialSecret :=
  match catch (credentialStore_getDefault d (ctx_workspaceId ctx) p (credentialAllowlist ctx)) None with
  | None => error rq 404 "provider_not_configured"
              ("No active " +:+ slug +:+ " credential configured for this workspace")
  | Some c => mret c
  end.
Definition adapter_credential (c : ResolvedCredentialSecret) : ResolvedCredential :=
  mkResolvedCredential (cs_secret c) (cs_baseUrl c).
(** [undiciRequest] in its try block. *)
Definition callUpstream (rq : Request) (em : EventFinalizer) (call : UpstreamCall) : M UpstreamResponse :=
  _ ← effect (EUpstream call);
  match upstreamRequest w call with
  | Ok res => mret res
  | Throw _ =>
      _ ← finalize_now em (mkArgs 502 false None false None);
      error rq 502 "upstream_unavailable" "The AI provider could not be reached"
  end.
Definition fixed_headers (hs : gmap string string) : gmap string string :=
  <["user-agent" := "tokenledger-gateway/0.1"]> (<["accept-encoding" := "identity"]> hs).

(** ** pipeline.ts *)
Definition hasJsonType (hs : headers) : bool :=
  match hs !! "content-type" with
  | Some (HOne t) => includes "json" t
  | Some (HMany l) => bool_decide ("json" ∈ l)
  | None => false
  end.
(** Lines 48-62: the body to send and the model it names. *)
Definition prepareBody (adapter : ProviderAdapter) (rq : Request) : M (option string * string) :=
  match rq_body rq with
  | None => mret (None, "")
  | Some stream =>
      raw ← lift (readAll stream MAX_REQUEST_BODY);
      if hasJsonType (rq_headers rq) && negb (String.eqb raw "") then
        match parsed ← json_parse (utf8_decode raw); m ← get_field parsed "model"; Ok (parsed, m) with
        | Throw _ => mret (Some raw, "")
        | Ok (parsed, m) =>
            let requestModel := match m with Some (JStr s) => s | _ => "" end in
            match ensureUsageInStream adapter parsed with
            | Ok body => mret (Some (stringify body), requestModel)
            | Throw _ => mret (Some raw, requestModel)
            end
        end
      else mret (Some raw, "")
  end.
Definition subPath (rq : Request) : string :=
  let rawUrl := rq_url rq ?? "" in
  "/" +:+ (rq_rest rq ?? "") +:+
  match index_of "?" rawUrl with Some i => slice_from i rawUrl | None => "" end.
Definition nativeModel (adapter : ProviderAdapter) (bodyModel path : string) : string :=
  match modelFromPath adapter with
  | Some f => if String.eqb bodyModel "" then f path else bodyModel
  | None => bodyModel
  end.
Definition native_headers (rq : Request) (up : UpstreamRequest) : gmap string string :=
  fixed_headers (up_headers up ∪ forwardableHeaders (rq_headers rq)).
Definition response_headers (hs : headers) : headers :=
  filter (fun kv => negb (skipped (to_lower kv.1)) = true) hs.

(** The stream through the tap; the reply is what the client receives. *)
Definition stream_usage (adapter : ProviderAdapter) (delimiter : string) (body : BodyStream)
  : NormalizedUsage * nat * string :=
  let ex := streamUsageExtractor adapter in
  let '(st, firsts, out) :=
    tap_run delimiter (fun s f => Ok (onFrame ex s f)) (None : option (unit -> string -> js (unit * string)))
      (tap_init (ex_init ex) tt) (bs_chunks body) (bs_error body) in
  (finish ex (tap_state st), firsts, out).
Definition after_first_byte (firsts : nat) (em : EventFinalizer) : EventFinalizer :=
  match firsts with O => em | _ => markFirstByte (e_firstByteNs w) em end.

(** Lines 130-172: the answer of the provider goes to the client. *)
Definition native_respond (adapter : ProviderAdapter) (em : EventFinalizer) (res : UpstreamResponse)
  : M Reply :=
  let contentType := header_string (ur_headers res) "content-type" in
  let isSse := includes "text/event-stream" contentType in
  let isNdjson := includes "ndjson" contentType in
  let hs := response_headers (ur_headers res) in
  if (isSse || isNdjson) && (ur_status res <? 400) then
    let '(usage, firsts, out) :=
      stream_usage adapter (if isSse then nl +:+ nl else nl) (ur_body res) in
    _ ← finalize_callback (after_first_byte firsts em)
          (mkArgs (ur_status res) true (Some usage) (bs_error (ur_body res)) None);
    mret (mkReply (ur_status res) hs out)
  else
    resBody ← lift (readAll (ur_body res) MAX_REQUEST_BODY);
    let usage :=
      if (ur_status res <? 400) && includes "json" contentType then
        match v ← json_parse (utf8_decode resBody); parseUsage adapter v with
        | Ok u => Some u | Throw _ => None end
      else None in
    _ ← finalize_now em (mkArgs (ur_status res) false usage false None);
    mret (mkReply (ur_status res) hs resBody).

Definition makeGatewayHandler (rq : Request) : M Reply :=
  let slug := rq_provider rq in
  match find_provider slug with
  | None => error rq 404 "provider_not_configured" ("Unknown provider '" +:+ slug +:+ "'")
  | Some provider =>
      let adapter := getAdapter provider in
      ctx ← authorize rq;
      _ ← require (providerAllowed ctx provider)
            (sendGatewayError ∅ 403 "model_not_allowed"
               ("This key may not use provider '" +:+ slug +:+ "'") (rq_id rq));
      let path := subPath rq in
      '(bodyBuf, bodyModel) ← prepareBody adapter rq;
      let requestModel := nativeModel adapter bodyModel path in
      _ ← require (String.eqb requestModel "" || modelAllowed ctx requestModel)
            (sendGatewayError ∅ 403 "model_not_allowed"
               ("Model '" +:+ requestModel +:+ "' is not allowed for this key") (rq_id rq));
      let em := newFinalizer (mkInfo (pricing_match d) ctx provider
                  (hd path (split_on "?" path)) (rq_id rq) requestModel (e_occurredAt w) (e_startedAt w)) in
      _ ← checkRate rq ctx em;
      credential ← findCredential rq slug ctx provider;
      let em := setCredentialId (credentialId credential) em in
      let upstream := buildUpstream adapter path (adapter_credential credential) in
      res ← callUpstream rq em
              (mkCall (rq_method rq) (up_url upstream) (native_headers rq upstream) bodyBuf);
      native_respond adapter em res
  end.

(** ** unified.ts *)
Inductive Shape := shape_openai | shape_anthropic | shape_gemini.
Definition SHAPE (p : Provider) : Shape :=
  match p with ANTHROPIC => shape_anthropic | GEMINI => shape_gemini | _ => shape_openai end.
Definition OPENAI_PATH (p : Provider) : string :=
  match p with MINIMAX => "/v1/text/chatcompletion_v2" | _ => "/v1/chat/completions" end.

(** Lines 128-142. *)
Definition translateRequest (adapter : ProviderAdapter) (p : Provider) (parsed : fields)
    (realModel : string) (wantStream : bool) : js (string * json) :=
  match SHAPE p with
  | shape_openai =>
      b ← ensureUsageInStream adapter (JObj (obj_set parsed "model" (JStr realModel)));
      Ok (OPENAI_PATH p, b)
  | shape_anthropic => b ← openaiToAnthropicRequest parsed realModel; Ok ("/v1/messages", JObj b)
  | shape_gemini =>
      b ← openaiToGeminiRequest parsed;
      Ok ("/v1beta/models/" +:+ realModel +:+ ":"
          +:+ (if wantStream then "streamGenerateContent" else "generateContent")
          +:+ (if wantStream then "?alt=sse" else ""), JObj b)
  end.
Definition unified_headers (rq : Request) (up : UpstreamRequest) : gmap string string :=
  fixed_headers (<["content-type" := "application/json"]>
    (up_headers up ∪ forwardableHeaders (rq_headers rq))).

(** The stream with translation for Anthropic; other shapes pass through. *)
Definition unified_stream (adapter : ProviderAdapter) (shape : Shape) (realModel : string) (created : Z)
    (body : BodyStream) : NormalizedUsage * nat * string :=
  let ex := streamUsageExtractor adapter in
  let translator := match shape with
                    | shape_anthropic => Some (fun st f => Ok (translate_onFrame realModel created st f))
                    | _ => None
                    end in
  let '(st, firsts, out) :=
    tap_run (nl +:+ nl) (fun s f => Ok (onFrame ex s f)) translator (tap_init (ex_init ex) false)
      (bs_chunks body) (bs_error body) in
  (finish ex (tap_state st), firsts, out).
(** Lines 204-214: usage and the body the client gets. *)
Definition translateResponse (adapter : ProviderAdapter) (shape : Shape) (realModel : string)
    (created : Z) (raw : string) : option NormalizedUsage * string :=
  match v ← json_parse (utf8_decode raw); u ← parseUsage adapter v; Ok (v, u) with
  | Throw _ => (None, raw)
  | Ok (v, u) =>
      (Some u,
       match (match shape with
              | shape_anthropic => anthropicToOpenaiResponse v created
              | shape_gemini => geminiToOpenaiResponse v realModel created
              | shape_openai => Ok v
              end) with
       | Ok v' => stringify v'
       | Throw _ => raw
       end)
  end.
Definition content_type (t : string) : headers := {[ "content-type" := HOne t ]}.
Definition unified_respond (adapter : ProviderAdapter) (shape : Shape) (realModel : string)
    (wantStream : bool) (em : EventFinalizer) (res : UpstreamResponse) : M Reply :=
  let upstreamType := header_string (ur_headers res) "content-type" in
  let upstreamIsSse := includes "text/event-stream" upstreamType in
  let created := e_occurredAt w / 1000 in
  if 400 <=? ur_status res then
    errBody ← lift (readAll (ur_body res) MAX_REQUEST_BODY);
    _ ← finalize_now em (mkArgs (ur_status res) false None false None);
    mret (mkReply (ur_status res) (content_type (str_or upstreamType "application/json")) errBody)
  else if wantStream && upstreamIsSse then
    let '(usage, firsts, out) := unified_stream adapter shape realModel created (ur_body res) in
    _ ← finalize_callback (after_first_byte firsts em)
          (mkArgs 200 true (Some usage) (bs_error (ur_body res)) None);
    mret (mkReply 200 (<["cache-control" := HOne "no-cache"]> (content_type "text/event-stream")) out)
  else
    raw ← lift (readAll (ur_body res) MAX_REQUEST_BODY);
    let '(usage, clientBody) := translateResponse adapter shape realModel created raw in
    _ ← finalize_now em (mkArgs 200 false usage false None);
    mret (mkReply 200 (content_type "application/json") clientBody).

Definition parseModelField (rq : Request) (modelField : string) : M (string * string * Provider) :=
  match index_of "/" modelField with
  | None | Some O =>
      error rq 400 "invalid_request"
        (dq "model must be '<provider>/<model>', got '" +:+ modelField +:+ dq "'")
  | Some i =>
      let providerSlug := to_lower (slice_to i modelField) in
      match find_provider providerSlug with
      | None => error rq 400 "invalid_request" ("Unknown provider '" +:+ providerSlug +:+ "'")
      | Some p => mret (providerSlug, slice_from (i + 1) modelField, p)
      end
  end.
Definition parseUnifiedBody (rq : Request) : M json :=
  match rq_body rq with
  | None => halt (Rejected "TypeError")   (** for await over undefined *)
  | Some stream =>
      raw ← lift (readAll stream MAX_REQUEST_BODY);
      match json_parse (utf8_decode raw) with
      | Ok v => mret v
      | Throw _ => error rq 400 "invalid_request" "Request body must be JSON"
      end
  end.

Definition makeUnifiedHandler (rq : Request) : M Reply :=
  ctx ← authorize rq;
  parsed ← parseUnifiedBody rq;
  m ← lift (get_field parsed "model");
  let modelField := match m with Some (JStr s) => s | _ => "" end in
  '(providerSlug, realModel, provider) ← parseModelField rq modelField;
  let adapter := getAdapter provider in
  let body := match parsed with JObj o => o | _ => [] end in
  let wantStream := is_true (obj_get body "stream") in
  _ ← require (providerAllowed ctx provider)
        (sendGatewayError ∅ 403 "model_not_allowed"
           ("This key may not use provider '" +:+ providerSlug +:+ "'") (rq_id rq));
  _ ← require (modelAllowed ctx realModel)
        (sendGatewayError ∅ 403 "model_not_allowed"
           ("Model '" +:+ realModel +:+ "' is not allowed for this key") (rq_id rq));
  _ ← require (match SHAPE provider with shape_gemini => negb wantStream | _ => true end)
        (sendGatewayError ∅ 400 "unsupported"
           "Streaming Gemini via the unified endpoint isn't supported yet — use stream:false, or the native /gw/gemini route"
           (rq_id rq));
  let em := newFinalizer (mkInfo (pricing_match d) ctx provider "/v1/chat/completions" (rq_id rq)
              realModel (e_occurredAt w) (e_startedAt w)) in
  _ ← checkRate rq ctx em;
  credential ← findCredential rq providerSlug ctx provider;
  let em := setCredentialId (credentialId credential) em in
  '(upstreamPath, upstreamBody) ← lift (translateRequest adapter provider body realModel wantStream);
  let upstream := buildUpstream adapter upstreamPath (adapter_credential credential) in
  res ← callUpstream rq em
          (mkCall "POST" (up_url upstream) (unified_headers rq upstream) (Some (stringify upstreamBody)));
  unified_respond adapter (SHAPE provider) realModel wantStream em res.

End handlers.

(** ** What a handler can do *)

(** The request was let through: the presented key is known, live, allowed for
    the provider and not over its rate. *)
Record Cleared (d : GatewayDeps) (w : Env) (rq : Request) (p : Provider) (ctx : ResolvedKeyContext)
    : Prop := {
  adm_key : exists key, extractKey (rq_headers rq) = Some key /\
              keyStore_resolve d (sha256Hex w key) = Ok (Some ctx);
  adm_status : ctx_status ctx = KEY_ACTIVE;
  adm_expiry : forall t, ctx_expiresAt ctx = Some t -> e_authNow w <= t;
  adm_provider : providerAllowlist ctx = [] \/ p ∈ providerAllowlist ctx;
  adm_rate : forall limit, rpmLimit ctx = Some limit -> limit <> 0 ->
               allowed (rateLimiter_check d ("vk:" +:+ vkId ctx) limit) = true;
}.
(** The event is charged to the key that made the request. *)
Definition attributed (rq : Request) (p : Provider) (ctx : ResolvedKeyContext) (ev : UsageEventMessage)
    : Prop :=
  ev_workspaceId ev = ctx_workspaceId ctx /\ ev_projectId ev = ctx_projectId ctx /\
  ev_teamId ev = if_truthy (ctx_teamId ctx) /\ ev_userId ev = ctx_userId ctx /\
  ev_virtualKeyId ev = vkId ctx /\ ev_provider ev = p /\
  ev_requestId ev = rq_id rq.
(** The context the store has for the key the request presents. *)
Definition presented (d : GatewayDeps) (w : Env) (rq : Request) (ctx : ResolvedKeyContext) : Prop :=
  exists key, extractKey (rq_headers rq) = Some key /\ keyStore_resolve d (sha256Hex w key) = Ok (Some ctx).
Definition limiter_effects (ctx : ResolvedKeyContext) : list Effect :=
  match rpmLimit ctx with
  | Some l => if l =? 0 then [] else [ELimiter ("vk:" +:+ vkId ctx) l]
  | None => []
  end.
(** What follows the upstream request: one event and a reply; or an exception in
    the stream callback; or the handler rejects without an event. *)
Inductive metered (rq : Request) (p : Provider) (ctx : ResolvedKeyContext) : list Effect -> Outcome -> Prop :=
| metered_once ev r : attributed rq p ctx ev -> metered rq p ctx [EEmit ev] (Replied r)
| metered_uncaught msg r : metered rq p ctx [EUncaught msg] (Replied r)
| metered_rejected msg : metered rq p ctx [] (Rejected msg).

(** Every run of a handler is one of these. *)
Inductive trace (d : GatewayDeps) (w : Env) (rq : Request)
    (call_ok : Provider -> ResolvedKeyContext -> ResolvedCredentialSecret -> UpstreamCall -> Prop)
  : list Effect -> Outcome -> Prop :=
| trace_refused o : trace d w rq call_ok [] o
| trace_limited ctx p ev l r :
    presented d w rq ctx ->
    rpmLimit ctx = Some l -> allowed (rateLimiter_check d ("vk:" +:+ vkId ctx) l) = false ->
    attributed rq p ctx ev -> ev_status ev = BLOCKED_RATELIMIT -> rp_status r = 429 ->
    trace d w rq call_ok [ELimiter ("vk:" +:+ vkId ctx) l; EEmit ev] (Replied r)
| trace_stopped ctx o : trace d w rq call_ok (limiter_effects ctx) o
| trace_proxied ctx p cred call es o :
    Cleared d w rq p ctx ->
    credentialStore_getDefault d (ctx_workspaceId ctx) p (credentialAllowlist ctx) = Ok (Some cred) ->
    call_ok p ctx cred call -> metered rq p ctx es o ->
    trace d w rq call_ok (limiter_effects ctx ++ EUpstream call :: es) o.

Section traces.
Context (d : GatewayDeps) (w : Env) (rq : Request).

(** A step without effects: it goes on with a value or stops the handler. *)
Definition silent {A} (m : M A) (P : A -> Prop) : Prop :=
  (exists a, m = ([], inl a) /\ P a) \/ exists o, m = ([], inr o).
Lemma silent_bind {A B} (m : M A) P (f : A -> M B) :
  silent m P -> (exists a, P a /\ (x ← m; f x) = f a) \/ exists o, (x ← m; f x) = ([], inr o).
Proof.
  intros [(a & -> & Ha)|[o ->]]; [left; exists a | right; exists o]; [split; [done|]|done].
  cbn. by destruct (f a).
Qed.
Lemma silent_lift {A} (r : js A) : silent (lift r) (fun a => r = Ok a).
Proof. destruct r; [left|right]; eauto. Qed.
Lemma silent_require b r : silent (require b r) (fun _ => b = true).
Proof. destruct b; [left|right]; eexists; eauto. Qed.

Lemma silent_authorize :
  silent (authorize d w rq) (fun ctx =>
    (exists key, extractKey (rq_headers rq) = Some key /\
       keyStore_resolve d (sha256Hex w key) = Ok (Some ctx)) /\
    ctx_status ctx = KEY_ACTIVE /\ forall t, ctx_expiresAt ctx = Some t -> e_authNow w <= t).
Proof.
  unfold authorize, authorizeKey. destruct (extractKey (rq_headers rq)) as [key|]; [|right; by eexists].
  destruct (keyStore_resolve d (sha256Hex w key)) as [[ctx|]|] eqn:Ek; cbn; [|right; by eexists..].
  case_bool_decide; [right; by eexists|]. case_bool_decide; [right; by eexists|]. cbn.
  destruct (ctx_expiresAt ctx) as [t|] eqn:Et; cbn.
  - destruct (Z.ltb_spec t (e_authNow w)); [right; by eexists|]. left. exists ctx.
    split; [done|]. split_and!; [eauto | by destruct (ctx_status ctx) | intros ? ?; by simplify_eq].
  - left. exists ctx. split; [done|]. split_and!; [eauto | by destruct (ctx_status ctx) | intros ? ?; by simplify_eq].
Qed.
Lemma silent_prepareBody adapter : silent (prepareBody adapter rq) (fun _ => True).
Proof.
  unfold prepareBody. destruct (rq_body rq) as [body|]; [|left; by eexists].
  destruct (readAll body MAX_REQUEST_BODY) as [raw|]; cbn; [|right; by eexists].
  left. destruct (_ && _); [|by eexists].
  destruct (parsed ← json_parse (utf8_decode raw); _) as [[v m]|]; [|by eexists].
  by destruct (ensureUsageInStream adapter v); eexists.
Qed.
Lemma silent_findCredential slug ctx p :
  silent (findCredential d rq slug ctx p) (fun c =>
    credentialStore_getDefault d (ctx_workspaceId ctx) p (credentialAllowlist ctx) = Ok (Some c)).
Proof.
  unfold findCredential. destruct (credentialStore_getDefault d _ p _) as [[c|]|] eqn:E; cbn;
    [left; by eexists | right; by eexists..].
Qed.

(** A fresh finalizer yields an event of its own request, or throws. *)
Definition em_ok (p : Provider) (ctx : ResolvedKeyContext) (em : EventFinalizer) : Prop :=
  done em = false /\ fi_ctx (info em) = ctx /\ fi_provider (info em) = p /\ fi_requestId (info em) = rq_id rq.
Lemma finalize_fresh p ctx em args id ns :
  em_ok p ctx em ->
  (exists ev, (finalize em args id ns).2 = Ok (Some ev) /\ attributed rq p ctx ev /\
     ev_status ev = event_status args) \/
  (exists msg, (finalize em args id ns).2 = Throw msg).
Proof.
  intros (Hd & <- & <- & Hr). unfold finalize. rewrite Hd. cbn.
  destruct (event_cost _ (fa_usage args) (fa_aborted args)) as [c|msg]; cbn; [left|right; by eexists].
  eexists. split; [reflexivity|]. split; [|done]. repeat split. done.
Qed.
Lemma finalize_free p ctx em args id ns :
  em_ok p ctx em -> fa_usage args = None ->
  exists ev, (finalize em args id ns).2 = Ok (Some ev) /\ attributed rq p ctx ev /\
    ev_status ev = event_status args.
Proof.
  intros Hem Hu. destruct (finalize_fresh p ctx em args id ns Hem) as [H|[msg H]]; [done|].
  exfalso. destruct Hem as (Hd & _). unfold finalize in H. rewrite Hd, Hu in H. cbn in H.
  by destruct (fi_match _ _ _ _).
Qed.
Lemma finalize_now_metered p ctx em args r :
  em_ok p ctx em ->
  exists es o, run (_ ← finalize_now w em args; mret r) = (es, o) /\ metered rq p ctx es o.
Proof.
  intros Hem. unfold finalize_now.
  destruct (finalize_fresh p ctx em args (e_eventId w) (e_finalNs w) Hem)
    as [(ev & -> & Ha & _)|[msg ->]]; do 2 eexists; (split; [reflexivity|]); by constructor.
Qed.
Lemma finalize_callback_metered p ctx em args r :
  em_ok p ctx em ->
  exists es o, run (_ ← finalize_callback w em args; mret r) = (es, o) /\ metered rq p ctx es o.
Proof.
  intros Hem. unfold finalize_callback.
  destruct (finalize_fresh p ctx em args (e_eventId w) (e_finalNs w) Hem)
    as [(ev & -> & Ha & _)|[msg ->]]; do 2 eexists; (split; [reflexivity|]); by constructor.
Qed.

Lemma checkRate_cases p ctx em :
  em_ok p ctx em ->
  (checkRate d w rq ctx em = (limiter_effects ctx, inl tt) /\
   forall l, rpmLimit ctx = Some l -> l <> 0 ->
     allowed (rateLimiter_check d ("vk:" +:+ vkId ctx) l) = true) \/
  (exists l ev r, rpmLimit ctx = Some l /\
     allowed (rateLimiter_check d ("vk:" +:+ vkId ctx) l) = false /\
     checkRate d w rq ctx em = ([ELimiter ("vk:" +:+ vkId ctx) l; EEmit ev], inr (Replied r)) /\
     attributed rq p ctx ev /\ ev_status ev = BLOCKED_RATELIMIT /\ rp_status r = 429).
Proof.
  intros Hem. unfold checkRate, limiter_effects.
  destruct (rpmLimit ctx) as [l|]; [|left; split; [done|]; by intros].
  destruct (Z.eqb_spec l 0) as [->|Hl]; [left; split; [done|]; by intros ? [= <-]|].
  cbn. destruct (allowed _) eqn:Ea; [left; split; [done|]; by intros ? [= <-]|].
  right. unfold finalize_now.
  destruct (finalize_free p ctx em blocked_args (e_eventId w) (e_finalNs w) Hem eq_refl)
    as (ev & -> & Ha & Hs). do 3 eexists. split_and!; try done.
Qed.

Lemma callUpstream_trace p ctx em call (k : UpstreamResponse -> M Reply) :
  em_ok p ctx em ->
  (forall res, exists es o, run (k res) = (es, o) /\ metered rq p ctx es o) ->
  exists es o, run (res ← callUpstream w rq em call; k res) = (EUpstream call :: es, o) /\
               metered rq p ctx es o.
Proof.
  intros Hem Hk. unfold callUpstream. destruct (upstreamRequest w call) as [res|msg].
  - destruct (Hk res) as (es & o & Hr & Hm). exists es, o. split; [|done]. cbn.
    destruct (k res) as [es' [r|o']]; cbn in *; by injection Hr as <- <-.
  - unfold finalize_now.
    destruct (finalize_free p ctx em (mkArgs 502 false None false None) (e_eventId w) (e_finalNs w) Hem eq_refl)
      as (ev & -> & Ha & _). do 2 eexists. split; [reflexivity|]. by constructor.
Qed.
Lemma lift_metered {A} p ctx (r : js A) (k : A -> M Reply) :
  (forall a, exists es o, run (k a) = (es, o) /\ metered rq p ctx es o) ->
  exists es o, run (x ← lift r; k x) = (es, o) /\ metered rq p ctx es o.
Proof.
  intros Hk. destruct r as [a|msg]; cbn.
  - destruct (Hk a) as (es & o & Hr & Hm). exists es, o. split; [|done]. by destruct (k a).
  - do 2 eexists. split; [reflexivity|]. constructor.
Qed.
Lemma em_ok_first p ctx em n : em_ok p ctx em -> em_ok p ctx (after_first_byte w n em).
Proof. by destruct n. Qed.

Lemma native_respond_metered p ctx em res adapter :
  em_ok p ctx em ->
  exists es o, run (native_respond w adapter em res) = (es, o) /\ metered rq p ctx es o.
Proof.
  intros Hem. unfold native_respond. cbv zeta. destruct (_ && _).
  - destruct (stream_usage _ _ _) as [[u n] out]. apply finalize_callback_metered.
    by apply em_ok_first.
  - apply lift_metered. intros body. by apply finalize_now_metered.
Qed.
Lemma unified_respond_metered p ctx em res adapter shape realModel wantStream :
  em_ok p ctx em ->
  exists es o, run (unified_respond w adapter shape realModel wantStream em res) = (es, o) /\
               metered rq p ctx es o.
Proof.
  intros Hem. unfold unified_respond. cbv zeta. destruct (400 <=? ur_status res); [|destruct (_ && _)].
  - apply lift_metered. intros body. by apply finalize_now_metered.
  - destruct (unified_stream _ _ _ _ _) as [[u n] out]. apply finalize_callback_metered.
    by apply em_ok_first.
  - apply lift_metered. intros body. destruct (translateResponse _ _ _ _ _) as [u b].
    by apply finalize_now_metered.
Qed.

(** From the rate check on, both handlers have the same shape. *)
Lemma tail_trace call_ok slug p ctx em (k : ResolvedCredentialSecret -> M Reply) es o :
  em_ok p ctx em -> presented d w rq ctx ->
  ((forall l, rpmLimit ctx = Some l -> l <> 0 ->
      allowed (rateLimiter_check d ("vk:" +:+ vkId ctx) l) = true) -> Cleared d w rq p ctx) ->
  (forall cred, (exists oo, k cred = ([], inr oo)) \/
     exists call es' o', run (k cred) = (EUpstream call :: es', o') /\
       call_ok p ctx cred call /\ metered rq p ctx es' o') ->
  run (_ ← checkRate d w rq ctx em; cred ← findCredential d rq slug ctx p; k cred) = (es, o) ->
  trace d w rq call_ok es o.
Proof.
  intros Hem Hpres Hadm Hk.
  destruct (checkRate_cases p ctx em Hem) as [[-> Hrate]|(l & ev & r & Hl & Ha & -> & Hat & Hs & Hr)].
  2:{ cbn. intros [= <- <-]. by eapply trace_limited. }
  cbn [mbind M_bind].
  destruct (silent_bind (findCredential d rq slug ctx p) _ k
              (silent_findCredential slug ctx p)) as [(cred & Hc & ->)|[oo ->]].
  2:{ cbn. rewrite app_nil_r. intros [= <- <-]. constructor. }
  destruct (Hk cred) as [[oo ->]|(call & es' & o' & Hrun & Hcall & Hm)].
  { cbn. rewrite app_nil_r. intros [= <- <-]. constructor. }
  destruct (k cred) as [ek [r|oo]]; cbn in *; injection Hrun as -> ->; intros [= <- <-];
    by eapply trace_proxied; eauto.
Qed.

End traces.

(** The request the native handler sends. *)
Definition native_call (rq : Request) (p : Provider) (ctx : ResolvedKeyContext)
    (cred : ResolvedCredentialSecret) (call : UpstreamCall) : Prop :=
  let up := buildUpstream (getAdapter p) (subPath rq) (adapter_credential cred) in
  find_provider (rq_provider rq) = Some p /\
  uc_method call = rq_method rq /\ uc_url call = up_url up /\ uc_headers call = native_headers rq up /\
  exists body m, prepareBody (getAdapter p) rq = mret (body, m) /\ uc_body call = body /\
    let model := nativeModel (getAdapter p) m (subPath rq) in
    model = "" \/ modelAllowed ctx model = true.
(** The request the unified handler sends. *)
Definition unified_call (rq : Request) (p : Provider) (ctx : ResolvedKeyContext)
    (cred : ResolvedCredentialSecret) (call : UpstreamCall) : Prop :=
  exists body realModel wantStream path b,
    modelAllowed ctx realModel = true /\
    translateRequest (getAdapter p) p body realModel wantStream = Ok (path, b) /\
    let up := buildUpstream (getAdapter p) path (adapter_credential cred) in
    uc_method call = "POST" /\ uc_url call = up_url up /\ uc_headers call = unified_headers rq up /\
    uc_body call = Some (stringify b).

Section handler_traces.
Context (d : GatewayDeps) (w : Env) (rq : Request).

(** Opens a silent first step: the handler stops there, or goes on. *)
Lemma trace_step {A} (m : M A) P (f : A -> M Reply) call_ok es o :
  silent m P ->
  (forall a, m = ([], inl a) -> P a -> run (f a) = (es, o) -> trace d w rq call_ok es o) ->
  run (x ← m; f x) = (es, o) -> trace d w rq call_ok es o.
Proof.
  intros [(a & Hm & Ha)|[o' Hm]] Hk; subst m.
  - intros Hr. apply (Hk a); [done|done|]. cbn in Hr. by destruct (f a).
  - cbn. intros [= <- <-]. apply trace_refused.
Qed.
Lemma run_lift_ok {A} (a : A) (f : A -> M Reply) : run (lift (Ok a) ≫= f) = run (f a).
Proof. cbn. by destruct (f a). Qed.
Lemma provider_allowed_spec ctx p :
  providerAllowed ctx p = true -> providerAllowlist ctx = [] \/ p ∈ providerAllowlist ctx.
Proof. unfold providerAllowed. rewrite orb_true_iff, !bool_decide_eq_true. done. Qed.

Lemma native_trace es o :
  run (makeGatewayHandler d w rq) = (es, o) -> trace d w rq (native_call rq) es o.
Proof.
  unfold makeGatewayHandler. destruct (find_provider (rq_provider rq)) as [p|] eqn:Ep.
  2:{ cbn. intros [= <- <-]. apply trace_refused. }
  cbv zeta. eapply trace_step; [apply silent_authorize|]. intros ctx _ (Hkey & Hst & Hexp).
  eapply trace_step; [apply silent_require|]. intros _ _ Hp%provider_allowed_spec.
  eapply trace_step; [apply silent_prepareBody|]. intros [body m] Hb _.
  eapply trace_step; [apply silent_require|]. intros [] _ Hmodel. cbn beta iota in Hmodel |- *.
  apply tail_trace with (p := p) (ctx := ctx); [repeat split | exact Hkey | by constructor |].
  intros cred. right.
  match goal with |- context [mbind ?k (callUpstream w rq ?em ?call)] =>
    destruct (callUpstream_trace w rq p ctx em call k) as (es' & o' & Hr & Hm) end.
  - repeat split.
  - intros res. apply native_respond_metered. repeat split.
  - eexists _, es', o'. split; [exact Hr|]. split; [|done].
    unfold native_call. split_and!; try done. exists body, m. split_and!; [done|done|].
    apply orb_true_iff in Hmodel as [?%String.eqb_eq|]; auto.
Qed.

Lemma unified_trace es o :
  run (makeUnifiedHandler d w rq) = (es, o) -> trace d w rq (unified_call rq) es o.
Proof.
  unfold makeUnifiedHandler. eapply trace_step; [apply silent_authorize|]. intros ctx _ (Hkey & Hst & Hexp).
  eapply trace_step with (P := fun _ => True).
  { unfold parseUnifiedBody. destruct (rq_body rq) as [body|]; [|right; by eexists].
    destruct (readAll _ _); cbn; [|right; by eexists].
    destruct (json_parse _); [left|right]; by eexists. }
  intros parsed _ _. eapply trace_step; [apply silent_lift|]. intros mf _ _. cbv zeta.
  eapply trace_step with (P := fun _ => True).
  { unfold parseModelField. destruct (index_of _ _) as [[|i]|]; try (right; by eexists).
    destruct (find_provider _); [left|right]; by eexists. }
  intros [[slug realModel] p] _ _. cbn beta iota.
  eapply trace_step; [apply silent_require|]. intros _ _ Hp%provider_allowed_spec.
  eapply trace_step; [apply silent_require|]. intros [] _ Hmodel. cbn beta iota in Hmodel |- *.
  eapply trace_step; [apply silent_require|]. intros _ _ _.
  apply tail_trace with (p := p) (ctx := ctx); [repeat split | exact Hkey | by constructor |].
  intros cred.
  match goal with |- context [translateRequest ?a ?p ?b ?r ?s] =>
    destruct (translateRequest a p b r s) as [[path b']|msg] eqn:Et end; [right|left; by eexists].
  setoid_rewrite run_lift_ok. cbn beta iota.
  match goal with |- context [mbind ?k (callUpstream w rq ?em ?call)] =>
    destruct (callUpstream_trace w rq p ctx em call k) as (es' & o' & Hr & Hm) end.
  - repeat split.
  - intros res. apply unified_respond_metered. repeat split.
  - eexists _, es', o'. split; [|split; [|exact Hm]].
    + exact Hr.
    + do 5 eexists. split_and!; [done|exact Et|done..].
Qed.

End handler_traces.

(** ** Theorems *)
Definition emits (es : list Effect) : list UsageEventMessage :=
  omap (fun e => match e with EEmit ev => Some ev | _ => None end) es.

Section trace_facts.
Context (d : GatewayDeps) (w : Env) (rq : Request).
Context (call_ok : Provider -> ResolvedKeyContext -> ResolvedCredentialSecret -> UpstreamCall -> Prop).

Lemma limiter_silent ctx call : EUpstream call ∈ limiter_effects ctx -> False.
Proof.
  unfold limiter_effects. destruct (rpmLimit ctx) as [l|]; [destruct (l =? 0)|]; set_solver.
Qed.
Lemma limiter_emits ctx es : emits (limiter_effects ctx ++ es) = emits es.
Proof. unfold limiter_effects. destruct (rpmLimit ctx) as [l|]; [destruct (l =? 0)|]; done. Qed.

Lemma metered_no_call p ctx es o call : metered rq p ctx es o -> EUpstream call ∉ es.
Proof. destruct 1; set_solver. Qed.

Lemma trace_call es o call :
  trace d w rq call_ok es o -> EUpstream call ∈ es ->
  exists p ctx cred, Cleared d w rq p ctx /\
    credentialStore_getDefault d (ctx_workspaceId ctx) p (credentialAllowlist ctx) = Ok (Some cred) /\
    call_ok p ctx cred call.
Proof.
  destruct 1 as [o|ctx p ev l r ? ? ? ? ? ?|ctx o|ctx p cred call' es o Hadm Hc Hcall Hm]; intros Hin.
  - by apply elem_of_nil in Hin.
  - exfalso. set_solver.
  - by apply limiter_silent in Hin.
  - apply elem_of_app in Hin as [Hin|[[= <-]|Hin]%elem_of_cons]; [by apply limiter_silent in Hin|by eauto 10|].
    by apply (metered_no_call _ _ _ _ _ Hm) in Hin.
Qed.

Lemma trace_metering es o :
  trace d w rq call_ok es o ->
  (length (emits es) <= 1)%nat /\
  (forall call, EUpstream call ∈ es -> emits es = [] ->
     (exists msg, o = Rejected msg) \/ exists msg, EUncaught msg ∈ es) /\
  (forall ev, ev ∈ emits es ->
     (exists p ctx, presented d w rq ctx /\ attributed rq p ctx ev) /\
     ((exists call, EUpstream call ∈ es) \/
      (ev_status ev = BLOCKED_RATELIMIT /\ exists r, o = Replied r /\ rp_status r = 429))).
Proof.
  destruct 1 as [o|ctx p ev l r Hpr ? ? Hat ? ?|ctx o|ctx p cred call es o Hadm Hc Hcall Hm].
  - split_and!; [cbn; lia|set_solver|set_solver].
  - cbn. split_and!; [lia|done|]. intros ev' ->%list_elem_of_singleton. split; [by eauto|]. right. eauto.
  - pose proof (limiter_emits ctx []) as He. rewrite app_nil_r in He. rewrite He. cbn.
    split_and!; [lia| |set_solver]. intros call Hin. by apply limiter_silent in Hin.
  - rewrite limiter_emits. assert (EUpstream call ∈ limiter_effects ctx ++ EUpstream call :: es) as Hin
      by set_solver.
    destruct Hm as [ev r Hat|msg r|msg]; cbn; split_and!; try lia; try done.
    + intros ev' ->%list_elem_of_singleton. split; [exists p, ctx; split; [apply Hadm|done]|]. left. eauto.
    + intros _ _ _. right. exists msg. set_solver.
    + set_solver.
    + intros _ _ _. left. eauto.
    + set_solver.
Qed.

End trace_facts.

Lemma native_calls_cleared d w rq call :
  EUpstream call ∈ (run (makeGatewayHandler d w rq)).1 ->
  exists p ctx cred, Cleared d w rq p ctx /\
    credentialStore_getDefault d (ctx_workspaceId ctx) p (credentialAllowlist ctx) = Ok (Some cred) /\
    native_call rq p ctx cred call.
Proof.
  intros Hin. destruct (run (makeGatewayHandler d w rq)) as [es o] eqn:E.
  by eapply trace_call; [apply native_trace|].
Qed.

Lemma unified_calls_cleared d w rq call :
  EUpstream call ∈ (run (makeUnifiedHandler d w rq)).1 ->
  exists p ctx cred, Cleared d w rq p ctx /\
    credentialStore_getDefault d (ctx_workspaceId ctx) p (credentialAllowlist ctx) = Ok (Some cred) /\
    unified_call rq p ctx cred call.
Proof.
  intros Hin. destruct (run (makeUnifiedHandler d w rq)) as [es o] eqn:E.
  by eapply trace_call; [apply unified_trace|].
Qed.

(** C2: No request reaches a provider unless the presented key is known, active,
    unexpired, allowed for that provider and within its rate limit; the
    provider is called with the credential the store picked for the key's
    workspace and credential allowlist, and (unified endpoint) only for a model
    on the key's model allowlist. *)
Theorem upstream_only_if_admitted d w rq call :
  (EUpstream call ∈ (run (makeGatewayHandler d w rq)).1 ->
   exists p ctx cred, Cleared d w rq p ctx /\
     credentialStore_getDefault d (ctx_workspaceId ctx) p (credentialAllowlist ctx) = Ok (Some cred) /\
     native_call rq p ctx cred call) /\
  (EUpstream call ∈ (run (makeUnifiedHandler d w rq)).1 ->
   exists p ctx cred, Cleared d w rq p ctx /\
     credentialStore_getDefault d (ctx_workspaceId ctx) p (credentialAllowlist ctx) = Ok (Some cred) /\
     unified_call rq p ctx cred call).
Proof. split; [apply native_calls_cleared|apply unified_calls_cleared]. Qed.

(** C7: A request is metered at most once.  One that reached a provider and was
    answered by the handler yields exactly one event unless recording it threw;
    an event without a provider call is a rate-limit block answered 429; and
    every event carries the workspace, project, team, user and id of the context
    the key store has for the key the request presented. *)
Theorem metered_exactly_once d w rq h es o :
  h = makeGatewayHandler d w rq \/ h = makeUnifiedHandler d w rq ->
  run h = (es, o) ->
  (length (emits es) <= 1)%nat /\
  (forall call, EUpstream call ∈ es -> emits es = [] ->
     (exists msg, o = Rejected msg) \/ exists msg, EUncaught msg ∈ es) /\
  (forall ev, ev ∈ emits es ->
     (exists p ctx, presented d w rq ctx /\ attributed rq p ctx ev) /\
     ((exists call, EUpstream call ∈ es) \/
      (ev_status ev = BLOCKED_RATELIMIT /\ exists r, o = Replied r /\ rp_status r = 429))).
Proof.
  intros [-> | ->] Hr; eapply trace_metering; [by apply native_trace | by apply unified_trace].
Qed.

(** What must not travel from the client to a provider: its credentials and the
    headers of one hop. *)
Definition CLIENT_CREDENTIALS : list string := ["authorization"; "x-api-key"; "proxy-authorization"].
Definition ONE_HOP : list string :=
  ["connection"; "keep-alive"; "te"; "transfer-encoding"; "upgrade"; "host"; "content-length"; "accept-encoding"].
Definition stays_here (name : string) : Prop :=
  name ∈ CLIENT_CREDENTIALS ++ ONE_HOP \/ starts_with "x-tokenledger-" name = true.
Lemma stays_not_forwarded name : stays_here name -> forwardable name = false.
Proof.
  unfold forwardable. intros [Hn|Hs]; [|rewrite Hs; by destruct (negb _)].
  assert (skipped name = true) as ->; [|done]. apply bool_decide_eq_true.
  assert (forallb (fun n => bool_decide (n ∈ SKIP_HEADERS)) (CLIENT_CREDENTIALS ++ ONE_HOP) = true) as Hall by (vm_compute; reflexivity).
  rewrite forallb_forall in Hall. by apply list_elem_of_In, Hall, bool_decide_eq_true in Hn.
Qed.
(** C32: The client's own credentials (authorization, x-api-key,
    proxy-authorization), the gateway's own headers and the headers of one hop
    (connection, keep-alive, te, transfer-encoding, upgrade, host,
    content-length, accept-encoding) stop at the gateway: such a header on the
    upstream request is either the fixed accept-encoding or written by the
    provider's adapter from the stored credential. *)
Theorem upstream_headers_hygiene d w rq h call name value :
  h = makeGatewayHandler d w rq \/ h = makeUnifiedHandler d w rq ->
  EUpstream call ∈ (run h).1 -> stays_here name ->
  uc_headers call !! name = Some value ->
  (name = "accept-encoding" /\ value = "identity") \/
  exists p ctx cred path,
    credentialStore_getDefault d (ctx_workspaceId ctx) p (credentialAllowlist ctx) = Ok (Some cred) /\
    up_headers (buildUpstream (getAdapter p) path (adapter_credential cred)) !! name = Some value.
Proof.
  intros Hh Hin Hname%stays_not_forwarded Hv.
  assert (forall up, fixed_headers up !! name = Some value ->
    name <> "content-type" /\ name <> "user-agent" /\
    ((name = "accept-encoding" /\ value = "identity") \/ up !! name = Some value)) as Hfix.
  { intros up. unfold fixed_headers.
    assert (forwardable "user-agent" = true) by reflexivity.
    assert (forwardable "content-type" = true) by reflexivity.
    rewrite lookup_insert_ne by congruence. intros Hup. split_and!; [congruence..|].
    destruct (decide (name = "accept-encoding")) as [->|].
    - rewrite lookup_insert_eq in Hup. left. by simplify_eq.
    - rewrite lookup_insert_ne in Hup by done. by right. }
  assert (forall up : UpstreamRequest, (up_headers up ∪ forwardableHeaders (rq_headers rq)) !! name = Some value ->
    up_headers up !! name = Some value) as Hun.
  { intros up [H|[_ H]]%lookup_union_Some_raw; [done|]. exfalso. unfold forwardableHeaders in H.
    rewrite lookup_fmap in H. apply fmap_Some in H as (v & Hf & _).
    apply map_lookup_filter_Some in Hf as [_ Hf]. cbn in Hf. congruence. }
  destruct Hh as [-> | ->].
  - destruct (native_calls_cleared _ _ _ _ Hin) as (p & ctx & cred & _ & Hc & Hcall). destruct Hcall as (_ & _ & _ & Hhd & _).
    rewrite Hhd in Hv. apply Hfix in Hv as (_ & _ & [|Hv]); [by left|]. right.
    apply Hun in Hv. eauto 10.
  - destruct (unified_calls_cleared _ _ _ _ Hin) as (p & ctx & cred & _ & Hc & Hcall).
    destruct Hcall as (b & m & st & path & b' & _ & _ & _ & _ & Hhd & _).
    rewrite Hhd in Hv. apply Hfix in Hv as (Hct & _ & [|Hv]); [by left|]. right.
    rewrite lookup_insert_ne in Hv by congruence. apply Hun in Hv. eauto 10.
Qed.

(** ** Concrete requests *)
Section demo.

Definition demo_ctx (models : list string) : ResolvedKeyContext :=
  mkCtx "vk1" "ws1" "p1" None "u1" KEY_ACTIVE (Some 100) [] [] models (Some 5).
Definition demo_deps (models : list string) : GatewayDeps :=
  mkDeps (fun h => Ok (if String.eqb h "hash:tl_live_abc" then Some (demo_ctx models) else None))
    (fun _ _ _ => Ok (Some (mkSecret "cred1" (Some "sk-secret") None)))
    (fun p m ws => matchPrice p m seedCatalog []) (fun _ _ => mkDecision true 30).
Definition demo_env (answer : string) : Env :=
  mkEnv (fun k => "hash:" +:+ k)
    (fun _ => Ok (mkResponse 200 {[ "content-type" := HOne "application/json" ]} (mkBody [answer] false)))
    50 0 60 0 7000000 "id1".
Definition demo_request (slug rest body : string) : Request :=
  mkRequest "req1" slug (Some rest) (Some ("/gw/" +:+ slug +:+ "/" +:+ rest)) "POST"
    {[ "authorization" := HOne "Bearer tl_live_abc"; "content-type" := HOne "application/json";
       "x-request" := HOne "1" ]} (Some (mkBody [body] false)).
Definition demo_body : string := dq "{'model':'claude-sonnet-4-5','messages':[]}".
Definition demo_answer : string :=
  dq "{'model':'claude-sonnet-4-5','usage':{'input_tokens':1000,'output_tokens':200}}".
Definition demo_run : list Effect * Outcome :=
  run (makeGatewayHandler (demo_deps []) (demo_env demo_answer)
         (demo_request "anthropic" "v1/messages" demo_body)).
Definition upstream_calls (es : list Effect) : list UpstreamCall :=
  omap (fun e => match e with EUpstream c => Some c | _ => None end) es.
Definition demo_call : UpstreamCall := hd (mkCall "" "" ∅ None) (upstream_calls demo_run.1).

End demo.

Example demo_metered :
  map (fun ev => (ev_costUsd ev, ev_costBasis ev, ev_virtualKeyId ev, ev_latencyMs ev)) (emits demo_run.1)
  = [("0.00600000", ACTUAL, "vk1", 7)] /\
  uc_url demo_call = "https://api.anthropic.com/v1/messages" /\
  uc_headers demo_call !! "x-api-key" = Some "sk-secret" /\
  uc_headers demo_call !! "authorization" = None.
Proof. vm_compute. split_and!; reflexivity. Qed.

Lemma demo_call_made : EUpstream demo_call ∈ demo_run.1.
Proof. vm_compute. right. left. Qed.

Lemma upstream_only_if_admitted_witness :
  exists p ctx cred,
    Cleared (demo_deps []) (demo_env demo_answer) (demo_request "anthropic" "v1/messages" demo_body) p ctx /\
    native_call (demo_request "anthropic" "v1/messages" demo_body) p ctx cred demo_call.
Proof.
  destruct (proj1 (upstream_only_if_admitted (demo_deps []) (demo_env demo_answer)
    (demo_request "anthropic" "v1/messages" demo_body) demo_call) demo_call_made)
    as (p & ctx & cred & Ha & _ & Hc).
  exists p, ctx, cred. split; assumption.
Defined.

Lemma metered_exactly_once_witness : (length (emits demo_run.1) <= 1)%nat.
Proof.
  refine (proj1 (metered_exactly_once (demo_deps []) (demo_env demo_answer)
    (demo_request "anthropic" "v1/messages" demo_body) _ demo_run.1 demo_run.2 (or_introl eq_refl) _)).
  vm_compute. reflexivity.
Defined.

Lemma upstream_headers_hygiene_witness :
  exists p ctx cred path,
    credentialStore_getDefault (demo_deps []) (ctx_workspaceId ctx) p (credentialAllowlist ctx)
      = Ok (Some cred) /\
    up_headers (buildUpstream (getAdapter p) path (adapter_credential cred)) !! "x-api-key"
      = Some "sk-secret".
Proof.
  assert (uc_headers demo_call !! "x-api-key" = Some "sk-secret") as Hv by (vm_compute; reflexivity).
  assert (stays_here "x-api-key") as Hn by (left; right; left).
  destruct (upstream_headers_hygiene (demo_deps []) (demo_env demo_answer)
    (demo_request "anthropic" "v1/messages" demo_body) _ demo_call "x-api-key" "sk-secret"
    (or_introl eq_refl) demo_call_made Hn Hv) as [[H _]|H]; [discriminate H|exact H].
Defined.
(** Trailer, also a header of one hop, is passed on. *)
Lemma trailer_is_forwarded : forwardable "trailer" = true.
Proof. reflexivity. Qed.

(** The model allowlist does not bind a Gemini request whose body names an
    allowed model: the model in the path is the one called. *)
Lemma gemini_body_model_bypasses_allowlist :
  let rq := demo_request "gemini" "v1beta/models/gemini-2.5-pro:generateContent"
              (dq "{'model':'gemini-2.5-flash'}") in
  let es := (run (makeGatewayHandler (demo_deps ["gemini-2.5-flash"]) (demo_env "{}") rq)).1 in
  map uc_url (upstream_calls es)
  = ["https://generativelanguage.googleapis.com/v1beta/models/gemini-2.5-pro:generateContent"] /\
  modelAllowed (demo_ctx ["gemini-2.5-flash"]) (gemini_modelFromPath (subPath rq)) = false.
Proof. vm_compute. split; reflexivity. Qed.

(** A provider that reports a fractional token count is called and paid, and the
    request leaves no event. *)
Lemma fractional_usage_loses_event :
  let r := run (makeGatewayHandler (demo_deps [])
             (demo_env (dq "{'model':'claude-sonnet-4-5','usage':{'input_tokens':1.5,'output_tokens':2}}"))
             (demo_request "anthropic" "v1/messages" demo_body)) in
  length (upstream_calls r.1) = 1%nat /\ emits r.1 = [] /\
  r.2 = Rejected "Token count must be a non-negative integer, got 1.5".
Proof. vm_compute. split_and!; reflexivity. Qed.
