(* ===== verification/GatewayServer.v ===== *)
(** * apps/gateway/src/server.ts: routes, readiness and the model list

    Which handler a method and path reach, what readiness answers when Redis is
    down, and the list of models a client may name at the unified endpoint. *)

From S2P Require Import Prelude JsString JsNum JsDate Json Shared Queue Pricing Providers Translate.
From S2P Require Import FrameTap Gateway Proxy.
From Stdlib Require Import Ascii.

(** ** Routes *)
Inductive GatewayCall :=
| GwHealth | GwReady | GwMetrics | GwModels
| GwUnified
| GwNative (provider rest : string).
(** Fastify answers HEAD where a GET is declared. *)
Definition is_get (method : string) : bool := String.eqb method "GET" || String.eqb method "HEAD".
(** Fastify prefers a literal path to one with parameters; the native route takes
    every method. *)
Definition gateway_route (method path : string) : option GatewayCall :=
  if is_get method && String.eqb path "/healthz" then Some GwHealth
  else if is_get method && String.eqb path "/readyz" then Some GwReady
  else if is_get method && String.eqb path "/metrics" then Some GwMetrics
  else if String.eqb method "POST" && String.eqb path "/gw/v1/chat/completions" then Some GwUnified
  else if is_get method && String.eqb path "/gw/v1/models" then Some GwModels
  else match split_on "/"%char path with
       | "" :: "gw" :: provider :: part :: parts =>
           if String.eqb provider "" then None else Some (GwNative provider (join "/" (part :: parts)))
       | _ => None
       end.

(** ** Readiness: Redis only *)
Inductive FailurePolicy := FAIL_OPEN | FAIL_CLOSED.
Definition readyz (policy : FailurePolicy) (redis : bool) : Z * string :=
  if redis then (200, "ready")
  else match policy with FAIL_OPEN => (200, "ready") | FAIL_CLOSED => (503, "not_ready") end.

(** ** GET /gw/v1/models *)
Record ModelItem := mkModelItem { mi_id : string; mi_provider : Provider; mi_pattern : string }.
(** [replace(/\*$/, "")] *)
Definition model_name (pattern : string) : string := patternPrefix pattern ?? pattern.
Definition model_id (e : PriceEntry) : string :=
  to_lower (provider_text (pe_provider e)) +:+ "/" +:+ model_name (modelPattern e).
Definition model_item (e : PriceEntry) : ModelItem := mkModelItem (model_id e) (pe_provider e) (modelPattern e).
(** [if (!seen.has(id)) seen.set(id, …)] *)
Definition see (seen : list ModelItem) (e : PriceEntry) : list ModelItem :=
  if existsb (fun i => String.eqb (mi_id i) (model_id e)) seen then seen else seen ++ [model_item e].
(** [localeCompare] orders texts as the host's collation does. *)
Definition model_list (localeLe : string -> string -> bool) (catalog : list PriceEntry) : list ModelItem :=
  order_by (fun a b => localeLe (mi_id a) (mi_id b)) (fold_left see catalog []).

(** ** The list is of callable, priced models *)
Lemma see_ids catalog seen : NoDup (map mi_id seen) -> NoDup (map mi_id (fold_left see catalog seen)).
Proof.
  revert seen. induction catalog as [|e catalog IH]; intros seen Hs; [done|]. cbn [fold_left]. apply IH. unfold see.
  destruct (existsb _ seen) eqn:Ee; [done|]. rewrite map_app. apply NoDup_app. split_and!; [done| |apply NoDup_singleton].
  intros x (i & -> & Hi)%list_elem_of_fmap Hx%list_elem_of_singleton.
  assert (existsb (fun i => String.eqb (mi_id i) (model_id e)) seen = true) as Ht; [|congruence].
  apply existsb_exists. exists i. split; [by apply list_elem_of_In|]. by apply String.eqb_eq.
Qed.
Lemma see_from catalog seen i :
  i ∈ fold_left see catalog seen -> i ∈ seen \/ exists e, e ∈ catalog /\ i = model_item e.
Proof.
  revert seen. induction catalog as [|e catalog IH]; intros seen; cbn [fold_left]; [by left|].
  intros [Hi|(x & Hx & ->)]%IH; [|right; exists x; set_solver]. unfold see in Hi.
  destruct (existsb _ seen); [by left|]. apply elem_of_app in Hi as [Hi|Hi%list_elem_of_singleton]; [by left|].
  right. exists e. set_solver.
Qed.
Lemma see_covers catalog seen x :
  x ∈ map mi_id seen \/ x ∈ map model_id catalog -> x ∈ map mi_id (fold_left see catalog seen).
Proof.
  revert seen. induction catalog as [|e catalog IH]; intros seen H; cbn [fold_left map] in *; [set_solver|].
  apply IH. assert (x ∈ map mi_id seen \/ x = model_id e \/ x ∈ map model_id catalog) as [Hx|[->|Hx]] by set_solver;
    [left|left|by right]; unfold see; destruct (existsb _ seen) eqn:Ee; rewrite ?map_app; try set_solver.
  apply existsb_exists in Ee as (i & Hi%list_elem_of_In & <-%String.eqb_eq). by apply list_elem_of_fmap_2.
Qed.
(** A listed id, sent as the model of a unified request, is taken for its
    provider and model, and the catalog has a price for it. *)
Lemma model_id_parses rq e :
  parseModelField rq (model_id e) =
    mret (to_lower (provider_text (pe_provider e)), model_name (modelPattern e), pe_provider e).
Proof. unfold parseModelField, model_id. by destruct (pe_provider e). Qed.
Lemma model_name_priced catalog e :
  e ∈ catalog -> is_Some (matchPrice (pe_provider e) (model_name (modelPattern e)) catalog []).
Proof.
  intros He. unfold matchPrice. destruct (findIn catalog _ _) as [x|] eqn:Ef; [by eexists|]. exfalso.
  apply findIn_none in Ef. unfold none_in in Ef. rewrite Forall_forall in Ef. apply (Ef e He).
  unfold applies, model_name. split; [done|].
  destruct (patternPrefix (modelPattern e)) as [prefix|] eqn:Ep; [|by left].
  apply patternPrefix_spec in Ep. right. exists prefix. split; [exact Ep|]. cbn.
  apply starts_with_spec. exists "". by rewrite string_app_nil_r.
Qed.
(** The model list of the gateway names every price of the catalog, each
    identifier once, and every identifier it names is one the unified endpoint
    takes apart into a provider it has an adapter for and a model the catalog
    prices. *)
Theorem listed_models_are_callable le catalog rq :
  NoDup (map mi_id (model_list le catalog)) /\
  (forall e, e ∈ catalog -> model_id e ∈ map mi_id (model_list le catalog)) /\
  (forall i, i ∈ model_list le catalog ->
     parseModelField rq (mi_id i) =
       mret (to_lower (provider_text (mi_provider i)), model_name (mi_pattern i), mi_provider i) /\
     is_Some (matchPrice (mi_provider i) (model_name (mi_pattern i)) catalog [])).
Proof.
  assert (model_list le catalog ≡ₚ fold_left see catalog []) as Hp by apply order_by_perm. split_and!.
  - rewrite (Permutation_map mi_id Hp). apply see_ids. constructor.
  - intros e He. rewrite (Permutation_map mi_id Hp). apply see_covers. right. by apply list_elem_of_fmap_2.
  - intros i Hi. rewrite Hp in Hi. apply see_from in Hi as [Hi|(e & He & ->)]; [by apply elem_of_nil in Hi|].
    split; [apply model_id_parses|by apply model_name_priced].
Qed.

(** The unified endpoint is not a provider of the native route, nor the list. *)
Example routes :
  gateway_route "POST" "/gw/v1/chat/completions" = Some GwUnified /\
  gateway_route "POST" "/gw/openai/v1/chat/completions" = Some (GwNative "openai" "v1/chat/completions") /\
  gateway_route "GET" "/gw/v1/models" = Some GwModels /\ gateway_route "GET" "/gw/openai" = None.
Proof. vm_compute. split_and!; reflexivity. Qed.
