(* ===== verification/Rollups.v ===== *)
(** * apps/worker/src/ingest/rollups.ts: grouping events into increments

    [groupRollups] as the fold it is, over a Map that keeps insertion order (an
    association list).  The ten counters of a group form the additive record
    [Counts]; an event contributes one [Counts].  Costs are integers in units
    of 1e-8 USD, as [cost8] is in the code. *)

From S2P Require Import Prelude JsString JsNum JsDate Shared Pricing Queue.
From Stdlib Require Import Ascii.

(** ** Counters *)
Record Counts := mkCounts {
  requests : Z;
  errors : Z;
  c_inputTokens : Z;
  c_outputTokens : Z;
  c_cacheReadTokens : Z;
  c_cacheWriteTokens : Z;
  c_reasoningTokens : Z;
  cost8 : Z;
  latencyMsSum : Z;
  latencyCount : Z;
}.
Definition czero : Counts := mkCounts 0 0 0 0 0 0 0 0 0 0.
Definition cadd (a b : Counts) : Counts :=
  mkCounts (requests a + requests b) (errors a + errors b) (c_inputTokens a + c_inputTokens b)
    (c_outputTokens a + c_outputTokens b) (c_cacheReadTokens a + c_cacheReadTokens b)
    (c_cacheWriteTokens a + c_cacheWriteTokens b) (c_reasoningTokens a + c_reasoningTokens b)
    (cost8 a + cost8 b) (latencyMsSum a + latencyMsSum b) (latencyCount a + latencyCount b).
Definition csum (l : list Counts) : Counts := foldr cadd czero l.

(** ** truncateUtc, parseDecimalScaled, formatScaled *)
Inductive TruncUnit := unit_hour | unit_day.
Definition truncateUtc (date : Z) (unit : TruncUnit) : Z :=
  match unit with
  | unit_hour => date / MS_HOUR * MS_HOUR
  | unit_day => date / MS_DAY * MS_DAY
  end.

(** [/^(-)?(\d+)(?:\.(\d+))?$/] *)
Definition parseDecimalScaled (decimal : string) (scale : nat) : js Z :=
  let negative := starts_with "-" decimal in
  let sign := if negative then -1 else 1 in
  let rest := if negative then slice_from 1 decimal else decimal in
  match match_decimal rest with
  | Some (whole, frac) =>
      let frac := frac ?? "" in
      if (scale <? String.length frac)%nat
      then Throw ("Invalid decimal '" +:+ decimal +:+ "' for scale " +:+ dec (Z.of_nat scale))
      else Ok (sign * (digits_val whole * 10 ^ Z.of_nat scale + digits_val (pad_end frac scale "0")))
  | None => Throw ("Invalid decimal '" +:+ decimal +:+ "' for scale " +:+ dec (Z.of_nat scale))
  end.
Definition formatScaled (value : Z) (scale : nat) : string :=
  let abs := Z.abs value in
  let divisor := 10 ^ Z.of_nat scale in
  (if value <? 0 then "-" else "") +:+ dec (abs / divisor) +:+ "."
  +:+ pad_start (dec (abs mod divisor)) scale "0".
Definition COST_SCALE : nat := 8.

(** [BigInt(n)]: a RangeError on a fraction. *)
Definition toBigInt (n : number) : js Z :=
  match n with NInt z => Ok z | NDec _ _ => Throw "RangeError: not an integer" end.

(** ** groupRollups *)
(** What one event adds to its group, the increments of the loop body. *)
Definition contribution (e : UsageEventMessage) : js Counts :=
  i ← toBigInt (ev_inputTokens e);
  o ← toBigInt (ev_outputTokens e);
  cr ← toBigInt (ev_cacheReadTokens e);
  cw ← toBigInt (ev_cacheWriteTokens e);
  r ← toBigInt (ev_reasoningTokens e);
  c ← parseDecimalScaled (ev_costUsd e) COST_SCALE;
  Ok (mkCounts 1 (if bool_decide (ev_status e = OK) then 0 else 1) i o cr cw r c (ev_latencyMs e) 1).

Record Dims := mkDims {
  bucketHour : Z;
  bucketDay : Z;
  d_workspaceId : string;
  d_projectId : string;
  d_userId : string;
  d_provider : Provider;
  d_model : string;
}.
#[global] Instance Dims_eq_dec : EqDecision Dims.
Proof. solve_decision. Defined.
Record Group := mkGroup { g_dims : Dims; g_teamId : option string; g_counts : Counts }.
Record RollupIncrement := mkIncrement { ri_group : Group; ri_costUsd : string }.

Definition event_dims (occurred : Z) (e : UsageEventMessage) : Dims :=
  mkDims (truncateUtc occurred unit_hour) (truncateUtc occurred unit_day) (ev_workspaceId e)
    (ev_projectId e) (ev_userId e) (ev_provider e) (ev_model e).
Definition groupKey (d : Dims) : string :=
  join "|" [toISOString (bucketHour d); d_workspaceId d; d_projectId d; d_userId d;
            provider_text (d_provider d); d_model d].
(** [groups.get], [groups.set] of a fresh group when there is none, and the
    increments on the shared object. *)
Fixpoint bump (key : string) (fresh : Group) (c : Counts) (groups : list (string * Group))
  : list (string * Group) :=
  match groups with
  | [] => [(key, mkGroup (g_dims fresh) (g_teamId fresh) (cadd (g_counts fresh) c))]
  | (k, g) :: rest =>
      if String.eqb k key then (k, mkGroup (g_dims g) (g_teamId g) (cadd (g_counts g) c)) :: rest
      else (k, g) :: bump key fresh c rest
  end.
Definition group_event (groups : list (string * Group)) (e : UsageEventMessage)
  : js (list (string * Group)) :=
  match date_parse (ev_occurredAt e) with
  | None => Throw "RangeError: Invalid time value"
  | Some occurred =>
      let d := event_dims occurred e in
      c ← contribution e;
      Ok (bump (groupKey d) (mkGroup d (ev_teamId e) czero) c groups)
  end.
Definition finish_group (kg : string * Group) : RollupIncrement :=
  mkIncrement kg.2 (formatScaled (cost8 (g_counts kg.2)) COST_SCALE).
Definition groupRollups (events : list UsageEventMessage) : js (list RollupIncrement) :=
  groups ← foldR group_event [] events;
  Ok (map finish_group groups).

(** ** Counters add up *)
Section counts.

Lemma cadd_comm a b : cadd a b = cadd b a.
Proof. unfold cadd. f_equal; lia. Qed.
Lemma cadd_assoc a b c : cadd (cadd a b) c = cadd a (cadd b c).
Proof. unfold cadd. cbn. f_equal; lia. Qed.
Lemma cadd_zero_l a : cadd czero a = a.
Proof. by destruct a. Qed.
Lemma cadd_zero_r a : cadd a czero = a.
Proof. by rewrite cadd_comm, cadd_zero_l. Qed.
Lemma csum_app l1 l2 : csum (l1 ++ l2) = cadd (csum l1) (csum l2).
Proof.
  induction l1 as [|x l1 IH]; [by rewrite cadd_zero_l|].
  change (cadd x (csum (l1 ++ l2)) = cadd (cadd x (csum l1)) (csum l2)). by rewrite IH, cadd_assoc.
Qed.

(** The total of the elements a test selects. *)
Definition total {A} (phi : A -> bool) (f : A -> Counts) (l : list A) : Counts :=
  csum (map f (List.filter phi l)).
Lemma total_nil {A} phi (f : A -> Counts) : total phi f [] = czero.
Proof. done. Qed.
Lemma total_cons {A} phi (f : A -> Counts) x l :
  total phi f (x :: l) = cadd (if phi x then f x else czero) (total phi f l).
Proof. unfold total. cbn. destruct (phi x); [done|]. by rewrite cadd_zero_l. Qed.
Lemma total_app {A} phi (f : A -> Counts) l1 l2 : total phi f (l1 ++ l2) = cadd (total phi f l1) (total phi f l2).
Proof. unfold total. rewrite List.filter_app, List.map_app. apply csum_app. Qed.
Lemma total_map {A B} phi (f : B -> Counts) (h : A -> B) l :
  total phi f (map h l) = total (fun x => phi (h x)) (fun x => f (h x)) l.
Proof.
  induction l as [|x l IH]; [done|]. cbn [map]. by rewrite !total_cons, IH.
Qed.
Lemma total_ext {A} phi psi (f g : A -> Counts) l :
  (forall x, x ∈ l -> phi x = psi x) -> (forall x, x ∈ l -> f x = g x) -> total phi f l = total psi g l.
Proof.
  induction l as [|x l IH]; intros Hp Hf; [done|]. rewrite !total_cons, Hp, Hf by left.
  rewrite IH; [done| |]; intros; [apply Hp|apply Hf]; by right.
Qed.
Lemma total_none {A} phi (f : A -> Counts) l : (forall x, x ∈ l -> phi x = false) -> total phi f l = czero.
Proof.
  induction l as [|x l IH]; intros H; [done|]. rewrite total_cons, (H x), cadd_zero_l by left.
  apply IH. intros; apply H; by right.
Qed.
Lemma total_unique {A K} `{EqDecision K} (key : A -> K) (f : A -> Counts) l x :
  NoDup (map key l) -> x ∈ l -> total (fun y => bool_decide (key y = key x)) f l = f x.
Proof.
  induction l as [|y l IH]; [set_solver|]. cbn [map]. rewrite NoDup_cons. intros [Hn Hnd] Hx.
  rewrite total_cons. apply elem_of_cons in Hx as [->|Hx].
  - rewrite bool_decide_eq_true_2 by done. rewrite total_none; [by rewrite cadd_zero_r|].
    intros z Hz. apply bool_decide_eq_false. intros Heq. apply Hn. rewrite <- Heq. by apply list_elem_of_fmap_2.
  - rewrite bool_decide_eq_false_2, cadd_zero_l; [by apply IH|].
    intros Heq. apply Hn. rewrite Heq. by apply list_elem_of_fmap_2.
Qed.
Lemma total_requests {A} phi (f : A -> Counts) l :
  (forall x, x ∈ l -> requests (f x) = 1) -> requests (total phi f l) = Z.of_nat (length (List.filter phi l)).
Proof.
  induction l as [|x l IH]; intros Hf; [done|]. rewrite total_cons. cbn [List.filter].
  assert (requests (total phi f l) = Z.of_nat (length (List.filter phi l))) as IH'
    by (apply IH; intros; apply Hf; by right).
  pose proof (Hf x ltac:(left)). destruct (phi x); cbn [cadd requests czero length]; lia.
Qed.
End counts.

(** ** Scaled decimals *)
Section scaled.

Lemma parse_scaled_unsigned w f n scale :
  all_digits w = true -> w <> "" -> all_digits f = true -> f <> "" ->
  (String.length f <= scale)%nat -> n = digits_val w * 10 ^ Z.of_nat scale + digits_val (pad_end f scale "0") ->
  parseDecimalScaled (w +:+ "." +:+ f) scale = Ok n /\
  parseDecimalScaled ("-" +:+ w +:+ "." +:+ f) scale = Ok (- n).
Proof.
  intros Hw Hw0 Hf Hf0 Hl ->. unfold parseDecimalScaled.
  assert (match_decimal (w +:+ "." +:+ f) = Some (w, Some f)) as Hm by (apply match_decimal_spec; done).
  assert ((scale <? String.length f)%nat = false) as Hs by (by apply Nat.ltb_ge).
  split.
  - assert (starts_with "-" (w +:+ "." +:+ f) = false) as ->.
    { destruct w as [|c r]; [done|].
      change (Ascii.eqb "-" c && starts_with "" (r +:+ "." +:+ f) = false).
      destruct (Ascii.eqb_spec "-" c) as [<-|_]; [discriminate Hw|done]. }
    rewrite Hm. cbn -[pad_end Z.pow Nat.ltb]. rewrite Hs. f_equal; lia.
  - change ("-" +:+ w +:+ "." +:+ f) with (String "-" (w +:+ "." +:+ f)).
    change (starts_with "-" (String "-" (w +:+ "." +:+ f))) with (starts_with "" (w +:+ "." +:+ f)).
    rewrite starts_with_nil. change (slice_from 1 (String "-" (w +:+ "." +:+ f))) with (w +:+ "." +:+ f).
    rewrite Hm. cbn -[pad_end Z.pow Nat.ltb]. rewrite Hs. f_equal; lia.
Qed.

Lemma pad_end_full f n c : String.length f = n -> pad_end f n c = f.
Proof. intros <-. unfold pad_end. rewrite Nat.sub_diag. cbn. apply string_app_nil_r. Qed.

(** The gateway's eight-decimal text is the picodollars in units of 1e-8. *)
Lemma parse_pico pico : 0 <= pico -> parseDecimalScaled (formatPicoUsd pico) COST_SCALE = Ok (pico / 10 ^ 4).
Proof.
  intros Hp. rewrite formatPicoUsd_nonneg by done. pose proof (frac8_spec pico Hp) as (Hl & Hd & Hv).
  cbn zeta in *. apply parse_scaled_unsigned.
  - apply dec_digits. apply Z.div_pos; lia.
  - pose proof (dec_length_pos (pico / 10 ^ 12) ltac:(apply Z.div_pos; lia)) as H.
    intros E. rewrite E in H. cbn in H. lia.
  - done.
  - intros E. by rewrite E in Hl.
  - rewrite Hl. done.
  - rewrite digits_val_dec by (apply Z.div_pos; lia). rewrite pad_end_full by done. rewrite Hv.
    change (Z.of_nat COST_SCALE) with 8.
    pose proof (Z.div_mod pico (10 ^ 12) ltac:(lia)).
    replace pico with (pico mod 10 ^ 12 + (pico / 10 ^ 12 * 10 ^ 8) * 10 ^ 4) at 1 by lia.
    rewrite Z.div_add by lia. lia.
Qed.

(** [toFixed(8)] of a number reads back as that many units of 1e-8. *)
Lemma parse_fixed8 n :
  parseDecimalScaled (to_fixed8 n) COST_SCALE = Ok ((if num_mant n <? 0 then -1 else 1) * fixed8_units n).
Proof.
  assert (0 <= fixed8_units n) as Hu.
  { unfold fixed8_units. destruct (num_scale n <=? 8) eqn:E; bool_to_prop;
      [apply Z.mul_nonneg_nonneg; [lia|apply Z.pow_nonneg; lia]|apply Z.div_pos; [|apply Z.pow_pos_nonneg; lia]].
    pose proof (Z.pow_nonneg 10 (num_scale n - 9) ltac:(lia)). lia. }
  unfold to_fixed8. set (D := pad_start (dec (fixed8_units n)) 9 "0").
  assert (all_digits D = true) as HD by (by apply pad_start_digits, dec_digits).
  assert (9 <= String.length D)%nat as Hl.
  { unfold D, pad_start. rewrite length_string_app, repeat_char_length. lia. }
  unfold insert_point, slice_drop_last, slice_last. set (k := (String.length D - 8)%nat).
  pose proof (slice_to_from k D) as Hsplit. rewrite <- Hsplit in HD. unfold all_digits in HD.
  rewrite sforall_app in HD. apply andb_true_iff in HD as [Hw Hf].
  pose proof (length_slice_to k D) as Lw. pose proof (length_slice_from k D) as Lf.
  assert (String.length (slice_from k D) = COST_SCALE) as Lf8 by (unfold COST_SCALE; lia).
  destruct (parse_scaled_unsigned (slice_to k D) (slice_from k D) (fixed8_units n) COST_SCALE) as [Hp Hn].
  - exact Hw.
  - intros E. rewrite E in Lw. change (String.length "") with 0%nat in Lw. lia.
  - exact Hf.
  - intros E. by rewrite E in Lf8.
  - lia.
  - rewrite pad_end_full by done. rewrite <- Lf8, <- digits_val_app, Hsplit. unfold D.
    by rewrite digits_val_pad_start, digits_val_dec.
  - destruct (num_mant n <? 0).
    + etransitivity; [exact Hn|]. f_equal; lia.
    + etransitivity; [exact Hp|]. f_equal; lia.
Qed.

Lemma format_parse v : parseDecimalScaled (formatScaled v COST_SCALE) COST_SCALE = Ok v.
Proof.
  unfold formatScaled. set (d := 10 ^ Z.of_nat COST_SCALE).
  assert (0 < d) as Hd0 by (unfold d; cbn; lia).
  pose proof (Z.div_mod (Z.abs v) d ltac:(lia)) as Hdm.
  pose proof (Z.mod_pos_bound (Z.abs v) d Hd0) as Hm.
  assert (0 <= Z.abs v / d) as Hq by (apply Z.div_pos; lia).
  assert (String.length (pad_start (dec (Z.abs v mod d)) COST_SCALE "0") = COST_SCALE) as Hlen.
  { apply pad_start_length. apply dec_length_le; [exact Hm|unfold COST_SCALE; lia]. }
  destruct (parse_scaled_unsigned (dec (Z.abs v / d)) (pad_start (dec (Z.abs v mod d)) COST_SCALE "0")
              (Z.abs v) COST_SCALE) as [Hp Hn].
  - by apply dec_digits.
  - pose proof (dec_length_pos _ Hq) as H. intros E. rewrite E in H. cbn in H. lia.
  - apply pad_start_digits, dec_digits. lia.
  - intros E. by rewrite E in Hlen.
  - lia.
  - rewrite digits_val_dec by done. rewrite pad_end_full by done.
    rewrite digits_val_pad_start, digits_val_dec by lia. fold d. lia.
  - destruct (v <? 0) eqn:E; bool_to_prop.
    + etransitivity; [exact Hn|]. f_equal. lia.
    + etransitivity; [exact Hp|]. f_equal. lia.
Qed.
End scaled.

(** ** The increments of a batch *)
Definition dims_of (e : UsageEventMessage) : option Dims :=
  (fun t => event_dims t e) <$> date_parse (ev_occurredAt e).
Definition counts_of (e : UsageEventMessage) : Counts :=
  match contribution e with Ok c => c | Throw _ => czero end.
Definition in_dims (phi : Dims -> bool) (e : UsageEventMessage) : bool :=
  match dims_of e with Some d => phi d | None => false end.
(** Events the gateway makes: their workspace, project and user are uuids, so no
    bar is in them, and they are dated 1970 to 9999. *)
Definition keyed (e : UsageEventMessage) : Prop :=
  no_char "|" (ev_workspaceId e) = true /\ no_char "|" (ev_projectId e) = true /\
  no_char "|" (ev_userId e) = true /\
  exists t, date_parse (ev_occurredAt e) = Some t /\ 0 <= t < 253402300800000.

Section grouping.

Lemma no_bar_digits s : all_digits s = true -> no_char "|" s = true.
Proof.
  apply sforall_impl. intros c Hc. apply negb_true_iff, Ascii.eqb_neq. intros ->. discriminate Hc.
Qed.
Lemma no_bar_padded v n : 0 <= v -> no_char "|" (pad_start (dec v) n "0") = true.
Proof. intros Hv. by apply no_bar_digits, pad_start_digits, dec_digits. Qed.
Lemma no_bar_iso t : 0 <= t < 253402300800000 -> no_char "|" (toISOString t) = true.
Proof.
  intros Ht. unfold toISOString. pose proof (civil_spec (t / MS_DAY)) as Hc.
  destruct (civil_from_days (t / MS_DAY)) as [[y m] d]. destruct Hc as (Hz & Hm & Hd & Hy).
  unfold MS_DAY, MS_HOUR in *.
  pose proof (Z.mod_pos_bound t 86400000 ltac:(lia)).
  assert (0 <= y).
  { pose proof (Z.div_pos t 86400000 ltac:(lia) ltac:(lia)).
    pose proof (Z.div_pos (t / 86400000 + 719468) 146097 ltac:(lia) ltac:(lia)). lia. }
  unfold no_char. rewrite !sforall_app. fold (no_char "|").
  rewrite !no_bar_padded; [done|..]; try lia; try apply Z.mod_pos_bound; try lia; apply Z.div_pos; lia.
Qed.

Lemma bar_split a b c d :
  no_char "|" a = true -> no_char "|" c = true -> a +:+ String "|" b = c +:+ String "|" d -> a = c /\ b = d.
Proof.
  intros Ha Hc H. pose proof (f_equal (split_on "|") H) as Hs. rewrite !split_on_app in Hs by done.
  injection Hs as -> _. split; [done|]. apply string_app_inj_l in H. by injection H.
Qed.
Lemma toISOString_inj s t :
  0 <= s < 253402300800000 -> 0 <= t < 253402300800000 -> toISOString s = toISOString t -> s = t.
Proof. intros Hs Ht H. apply (f_equal date_parse) in H. rewrite !date_roundtrip in H by done. by injection H. Qed.
Lemma provider_text_inj p q : provider_text p = provider_text q -> p = q.
Proof. by destruct p, q. Qed.
Lemma no_bar_provider p : no_char "|" (provider_text p) = true.
Proof. by destruct p. Qed.

Lemma hour_range t : 0 <= t < 253402300800000 -> 0 <= truncateUtc t unit_hour < 253402300800000.
Proof.
  unfold truncateUtc, MS_HOUR. intros Ht. pose proof (Z.div_mod t 3600000 ltac:(lia)).
  pose proof (Z.mod_pos_bound t 3600000 ltac:(lia)). pose proof (Z.div_pos t 3600000 ltac:(lia) ltac:(lia)). lia.
Qed.
Lemma day_of_hour t : truncateUtc (truncateUtc t unit_hour) unit_day = truncateUtc t unit_day.
Proof.
  unfold truncateUtc, MS_HOUR, MS_DAY. f_equal.
  change 86400000 with (3600000 * 24). rewrite <- !Z.div_div by lia. by rewrite Z.div_mul by lia.
Qed.

(** Events with one key share every dimension of it. *)
Lemma groupKey_inj e1 e2 d1 d2 :
  keyed e1 -> keyed e2 -> dims_of e1 = Some d1 -> dims_of e2 = Some d2 -> groupKey d1 = groupKey d2 -> d1 = d2.
Proof.
  intros (Hw1 & Hp1 & Hu1 & t1 & Et1 & Ht1) (Hw2 & Hp2 & Hu2 & t2 & Et2 & Ht2).
  unfold dims_of. rewrite Et1, Et2. cbn [fmap option_fmap option_map]. intros [= <-] [= <-].
  unfold groupKey, event_dims; cbn [join bucketHour bucketDay d_workspaceId d_projectId d_userId d_provider d_model].
  intros H. change "|" with (String "|" "") in H. rewrite ?string_app_cons, ?string_app_nil_l in H.
  apply bar_split in H as [Hh H]; [|by apply no_bar_iso, hour_range..].
  apply bar_split in H as [-> H]; [|done..]. apply bar_split in H as [-> H]; [|done..].
  apply bar_split in H as [-> H]; [|done..].
  apply bar_split in H as [Hp ->]; [|apply no_bar_provider..].
  apply provider_text_inj in Hp as ->. apply toISOString_inj in Hh; [|by apply hour_range..].
  rewrite <- (day_of_hour t1), <- (day_of_hour t2), Hh. done.
Qed.

Lemma bump_total phi key fresh c gs :
  g_counts fresh = czero -> (forall k g, (k, g) ∈ gs -> k = key -> g_dims g = g_dims fresh) ->
  total (fun kg => phi (g_dims kg.2)) (fun kg => g_counts kg.2) (bump key fresh c gs)
  = cadd (total (fun kg => phi (g_dims kg.2)) (fun kg => g_counts kg.2) gs)
      (if phi (g_dims fresh) then c else czero).
Proof.
  intros Hz. induction gs as [|[k g] gs IH]; intros Hin; cbn [bump].
  - rewrite total_cons, total_nil. cbn. rewrite Hz, cadd_zero_l, cadd_zero_r, cadd_zero_l. done.
  - destruct (String.eqb_spec k key) as [->|Hk]; rewrite !total_cons; cbn [snd g_dims g_counts].
    + rewrite (Hin key g) by (done || left). destruct (phi (g_dims fresh)).
      * by rewrite !cadd_assoc, (cadd_comm c).
      * by rewrite !cadd_zero_l, cadd_zero_r.
    + rewrite IH by (intros; eapply Hin; [right|]; done). by rewrite cadd_assoc.
Qed.
Lemma bump_keys key fresh c gs x :
  x ∈ map fst (bump key fresh c gs) <-> x = key \/ x ∈ map fst gs.
Proof.
  induction gs as [|[k g] gs IH]; cbn [bump map fst]; [set_solver|].
  destruct (String.eqb_spec k key) as [->|Hk]; cbn [map fst]; [set_solver|]. rewrite !elem_of_cons, IH. tauto.
Qed.
Lemma bump_NoDup key fresh c gs : NoDup (map fst gs) -> NoDup (map fst (bump key fresh c gs)).
Proof.
  induction gs as [|[k g] gs IH]; cbn [bump map fst]; intros H.
  - apply NoDup_singleton.
  - destruct (String.eqb_spec k key) as [->|Hk]; cbn [map fst]; [done|].
    apply NoDup_cons in H as [Hn H]. apply NoDup_cons. split; [|by apply IH].
    rewrite bump_keys. intros [?|?]; [by apply Hk|done].
Qed.
Lemma bump_groups key fresh c gs (P : string * Group -> Prop) :
  (forall k g g', P (k, g) -> g_dims g' = g_dims g -> g_teamId g' = g_teamId g -> P (k, g')) ->
  P (key, fresh) -> (forall kg, kg ∈ gs -> P kg) -> forall kg, kg ∈ bump key fresh c gs -> P kg.
Proof.
  intros Hext Hf. induction gs as [|[k g] gs IH]; intros Hall kg; cbn [bump].
  - intros ->%list_elem_of_singleton. by apply (Hext key fresh).
  - destruct (String.eqb_spec k key) as [->|Hk]; intros [->|H]%elem_of_cons.
    + apply (Hext key g); [apply Hall; left|done|done].
    + apply Hall; by right.
    + apply Hall; left.
    + apply IH; [intros; apply Hall; by right|done].
Qed.

(** The state of the loop after [seen]. *)
Definition groups_inv (seen : list UsageEventMessage) (gs : list (string * Group)) : Prop :=
  NoDup (map fst gs) /\
  (forall kg, kg ∈ gs -> exists e d, e ∈ seen /\ dims_of e = Some d /\ kg.1 = groupKey d /\ g_dims kg.2 = d) /\
  (forall e d, e ∈ seen -> dims_of e = Some d -> groupKey d ∈ map fst gs) /\
  forall phi, total (fun kg => phi (g_dims kg.2)) (fun kg => g_counts kg.2) gs
              = total (in_dims phi) counts_of seen.

Lemma groups_inv_step seen gs e gs' :
  (forall x, x ∈ seen -> keyed x) -> keyed e -> groups_inv seen gs -> group_event gs e = Ok gs' ->
  groups_inv (seen ++ [e]) gs'.
Proof.
  intros Hk He (Hnd & Hg & Hall & Ht). unfold group_event.
  destruct (date_parse (ev_occurredAt e)) as [t|] eqn:Et; [|done].
  destruct (contribution e) as [c|] eqn:Ec; cbn [mbind result_bind]; [|done]. intros [= <-].
  assert (dims_of e = Some (event_dims t e)) as Hd by (unfold dims_of; by rewrite Et).
  split_and!.
  - by apply bump_NoDup.
  - apply bump_groups.
    + intros k g g' (x & d & Hx & Hxd & Hk1 & Hk2) Hg' _. exists x, d. cbn in *. by rewrite Hg'.
    + exists e, (event_dims t e). split_and!; [set_solver|done..].
    + intros kg Hkg. destruct (Hg kg Hkg) as (x & d & Hx & ?). exists x, d. split; [set_solver|done].
  - intros x d [Hx| ->%list_elem_of_singleton]%elem_of_app Hxd; apply bump_keys; [right; eauto|left].
    congruence.
  - intros phi. rewrite bump_total; [|done|].
    + rewrite Ht, total_app, total_cons, total_nil, cadd_zero_r. cbn [g_dims]. f_equal.
      unfold in_dims. rewrite Hd. unfold counts_of. by rewrite Ec.
    + intros k g Hkg ->. destruct (Hg _ Hkg) as (x & d & Hx & Hxd & Hkx & <-). cbn in *.
      apply (groupKey_inj x e); [exact (Hk x Hx)|exact He|exact Hxd|exact Hd|by symmetry].
Qed.

Lemma groups_inv_run seen gs events gs' :
  (forall x, x ∈ seen ++ events -> keyed x) -> groups_inv seen gs -> foldR group_event gs events = Ok gs' ->
  groups_inv (seen ++ events) gs'.
Proof.
  revert seen gs; induction events as [|e events IH]; intros seen gs Hk Hinv; cbn.
  - intros [= <-]. by rewrite app_nil_r.
  - intros (gs1 & H1 & H2)%bind_ok. replace (seen ++ e :: events) with ((seen ++ [e]) ++ events) by (by rewrite <- app_assoc).
    eapply IH; [by rewrite <- app_assoc| |exact H2]. eapply groups_inv_step; [| |exact Hinv|exact H1]; set_solver.
Qed.

Lemma group_ok events gs :
  (forall x, x ∈ events -> keyed x) -> foldR group_event [] events = Ok gs -> groups_inv events gs.
Proof.
  intros Hk H. apply (groups_inv_run [] []); [done| |done].
  split_and!; [constructor|set_solver|set_solver|done].
Qed.

Lemma group_event_throws gs x :
  (exists e, group_event gs x = Throw e) <->
  (date_parse (ev_occurredAt x) = None \/ exists e, contribution x = Throw e).
Proof.
  unfold group_event. destruct (date_parse (ev_occurredAt x)) as [t|].
  - destruct (contribution x) as [c|e].
    + split; [intros [e He]; discriminate He|intros [H|[e He]]; discriminate].
    + split; [intros _; right; by exists e|intros _; by exists e].
  - split; [intros _; by left|intros _; by eexists].
Qed.
Lemma group_fold_throws events gs :
  (exists e, foldR group_event gs events = Throw e) <->
  exists x, x ∈ events /\ (date_parse (ev_occurredAt x) = None \/ exists e, contribution x = Throw e).
Proof.
  revert gs; induction events as [|x events IH]; intros gs.
  - split; [intros [e He]; discriminate He|intros (x & Hx & _); set_solver].
  - pose proof (group_event_throws gs x) as Hx.
    change (foldR group_event gs (x :: events)) with (gs1 ← group_event gs x; foldR group_event gs1 events).
    destruct (group_event gs x) as [gs1|e].
    + change (gs2 ← Ok gs1; foldR group_event gs2 events) with (foldR group_event gs1 events).
      rewrite IH. split; [intros (y & Hy & ?); exists y; split; [by right|done]|].
      intros (y & [->|Hy]%elem_of_cons & Hor); [|by exists y]. apply Hx in Hor as [e He]. discriminate He.
    + split; [|intros _; by exists e]. intros _. exists x. split; [left|apply Hx; by exists e].
Qed.
Lemma groupRollups_throws events :
  (exists e, groupRollups events = Throw e) <->
  exists x, x ∈ events /\ (date_parse (ev_occurredAt x) = None \/ exists e, contribution x = Throw e).
Proof.
  rewrite <- (group_fold_throws events []). unfold groupRollups.
  destruct (foldR group_event [] events) as [gs|e].
  - split; intros [e He]; discriminate He.
  - split; intros _; by exists e.
Qed.

Lemma hour_bounds t : truncateUtc t unit_hour <= t < truncateUtc t unit_hour + 3600000.
Proof.
  unfold truncateUtc, MS_HOUR. pose proof (Z.div_mod t 3600000 ltac:(lia)).
  pose proof (Z.mod_pos_bound t 3600000 ltac:(lia)). lia.
Qed.
Lemma day_bounds t : truncateUtc t unit_day <= t < truncateUtc t unit_day + 86400000.
Proof.
  unfold truncateUtc, MS_DAY. pose proof (Z.div_mod t 86400000 ltac:(lia)).
  pose proof (Z.mod_pos_bound t 86400000 ltac:(lia)). lia.
Qed.

End grouping.

(** ** Theorems *)

(** [groupRollups] makes one increment per hour, workspace, project, user,
    provider and model of the batch, and no other; its ten counters are the
    sums over exactly the events of those dimensions, its cost text reads back
    as the exact sum of their costs, and every event falls in the hour of its
    increment.  It fails exactly on an event with a fractional token count, a
    malformed cost or no date. *)
Theorem rollup_increments_exact events :
  (forall e, e ∈ events -> keyed e) ->
  match groupRollups events with
  | Ok incs =>
      NoDup (map (fun i => g_dims (ri_group i)) incs) /\
      (forall e d, e ∈ events -> dims_of e = Some d -> d ∈ map (fun i => g_dims (ri_group i)) incs) /\
      forall i, i ∈ incs ->
        let d := g_dims (ri_group i) in
        g_counts (ri_group i) = total (in_dims (fun d' => bool_decide (d' = d))) counts_of events
        /\ parseDecimalScaled (ri_costUsd i) COST_SCALE = Ok (cost8 (g_counts (ri_group i)))
        /\ exists e t, e ∈ events /\ date_parse (ev_occurredAt e) = Some t /\ d = event_dims t e
             /\ bucketHour d <= t < bucketHour d + 3600000 /\ bucketDay d <= t < bucketDay d + 86400000
  | Throw _ =>
      exists e, e ∈ events /\ (date_parse (ev_occurredAt e) = None \/ exists m, contribution e = Throw m)
  end.
Proof.
  intros Hk. destruct (groupRollups events) as [incs|m] eqn:E; [|apply groupRollups_throws; eauto].
  unfold groupRollups in E. apply bind_ok in E as (gs & Hgs & [= <-]).
  destruct (group_ok events gs Hk Hgs) as (Hnd & Hg & Hall & Ht).
  assert (map (fun i => g_dims (ri_group i)) (map finish_group gs) = map (fun kg => g_dims kg.2) gs) as ->
    by (by rewrite map_map).
  assert (map fst gs = map groupKey (map (fun kg => g_dims kg.2) gs)) as Hkeys.
  { rewrite map_map. apply map_ext_in. intros kg Hkg%list_elem_of_In.
    destruct (Hg kg Hkg) as (e & d & _ & _ & -> & ->). done. }
  assert (NoDup (map (fun kg => g_dims kg.2) gs)) as Hnd' by (rewrite Hkeys in Hnd; by eapply NoDup_fmap_1).
  split_and!; [done| |].
  - intros e d He Hd. pose proof (Hall e d He Hd) as Hin.
    apply list_elem_of_fmap in Hin as (kg & Hkd & Hkg). apply list_elem_of_fmap. exists kg. split; [|done].
    destruct (Hg kg Hkg) as (e' & d' & He' & Hd' & Hk' & ->).
    eapply groupKey_inj; [apply Hk, He|apply Hk, He'|done|done|congruence].
  - intros i (kg & -> & Hkg)%list_elem_of_fmap. cbn [finish_group ri_group ri_costUsd].
    split_and!; [|apply format_parse|].
    + rewrite <- Ht. symmetry. exact (total_unique (fun kg => g_dims kg.2) (fun kg => g_counts kg.2) gs kg Hnd' Hkg).
    + destruct (Hg kg Hkg) as (e & d & He & Hd & _ & Hdims). rewrite Hdims.
      destruct (Hk e He) as (_ & _ & _ & t & Et & Ht'). unfold dims_of in Hd. rewrite Et in Hd.
      injection Hd as <-. exists e, t. split_and!; try done; first [apply hour_bounds|apply day_bounds].
Qed.
Definition example_event (id at_time cost : string) : UsageEventMessage :=
  mkEvent id at_time "ws1" "p1" (Some "t1") "u1" "k1" None None ANTHROPIC "claude" "claude" "/v1/messages" "req"
    OK 200 false (NInt 100) (NInt 50) (NInt 0) (NInt 0) (NInt 0) cost None ACTUAL 200 None None.

Lemma rollup_increments_exact_witness :
  let events := [example_event "e1" "2026-07-12T10:15:30.000Z" "0.00105000";
                 example_event "e2" "2026-07-12T10:59:59.999Z" "0.00945000";
                 example_event "e3" "2026-07-12T11:00:00.000Z" "1.5"] in
  match groupRollups events with
  | Ok incs =>
      NoDup (map (fun i => g_dims (ri_group i)) incs) /\
      (forall e d, e ∈ events -> dims_of e = Some d -> d ∈ map (fun i => g_dims (ri_group i)) incs) /\
      forall i, i ∈ incs ->
        let d := g_dims (ri_group i) in
        g_counts (ri_group i) = total (in_dims (fun d' => bool_decide (d' = d))) counts_of events
        /\ parseDecimalScaled (ri_costUsd i) COST_SCALE = Ok (cost8 (g_counts (ri_group i)))
        /\ exists e t, e ∈ events /\ date_parse (ev_occurredAt e) = Some t /\ d = event_dims t e
             /\ bucketHour d <= t < bucketHour d + 3600000 /\ bucketDay d <= t < bucketDay d + 86400000
  | Throw _ =>
      exists e, e ∈ events /\ (date_parse (ev_occurredAt e) = None \/ exists m, contribution e = Throw m)
  end.
Proof.
  apply rollup_increments_exact. intros e He.
  repeat (apply elem_of_cons in He as [->|He]); [..|by apply not_elem_of_nil in He];
    (split_and!; [reflexivity..|eexists; split; [vm_compute; reflexivity|lia]]).
Defined.
Example rollup_example :
  map ri_costUsd (match groupRollups [example_event "e1" "2026-07-12T10:15:30.000Z" "0.00105000";
     example_event "e2" "2026-07-12T10:59:59.999Z" "0.00945000";
     example_event "e3" "2026-07-12T11:00:00.000Z" "1.5"] with Ok l => l | Throw _ => [] end)
  = ["0.01050000"; "1.50000000"].
Proof. vm_compute. reflexivity. Qed.
