(* ===== verification/Persist.v ===== *)
(** * apps/worker/src/ingest/persist.ts: events and rollups in one transaction

    The tables [usage_event], [usage_rollup_hourly], [usage_rollup_daily] and
    the column [virtual_key.lastUsedAt].  A statement of the transaction that
    fails leaves the database as it was, so [persistBatch] returns the next
    database or throws.  What Postgres makes of the texts it is sent (uuid and
    enum casts, foreign keys, column ranges) is a parameter. *)

From S2P Require Import Prelude JsString JsNum JsDate Shared Pricing Queue Rollups.
From Stdlib Require Import Ascii.

(** ** Tables *)
Definition RollupKey : Type := Z * string * string * string * Provider * string.
Record RollupRow := mkRollupRow { rr_key : RollupKey; rr_teamId : option string; rr_counts : Counts }.
Record Db := mkDb {
  usage_event : list UsageEventMessage;
  usage_rollup_hourly : list RollupRow;
  usage_rollup_daily : list RollupRow;
  lastUsedAt : gmap string (option Z);      (** virtual_key, by id *)
}.
Definition empty_db (keys : gmap string (option Z)) : Db := mkDb [] [] [] keys.

(** What Postgres makes of texts: the row it stores of an event, with its uuid
    columns in canonical text, or nothing when a cast or a constraint refuses it;
    and the canonical text of a value cast with [::uuid]. *)
Record Postgres := mkPostgres {
  pg_row : UsageEventMessage -> option UsageEventMessage;
  pg_uuid : string -> string;
}.

(** ** insertEvents *)
(** The primary key ("id", "occurredAt"). *)
Definition same_row (a b : UsageEventMessage) : bool :=
  String.eqb (ev_id a) (ev_id b) && bool_decide (date_parse (ev_occurredAt a) = date_parse (ev_occurredAt b)).
(** [INSERT … ON CONFLICT DO NOTHING RETURNING id], row by row. *)
Fixpoint insert_rows (table events : list UsageEventMessage) : list UsageEventMessage * list string :=
  match events with
  | [] => (table, [])
  | e :: rest =>
      if existsb (same_row e) table then insert_rows table rest
      else let '(t, ids) := insert_rows (table ++ [e]) rest in (t, ev_id e :: ids)
  end.
Definition insertEvents (pg : Postgres) (table events : list UsageEventMessage)
  : js (list UsageEventMessage * list string) :=
  if forallb (fun e => bool_decide (is_Some (date_parse (ev_occurredAt e)))) events then
    match mapM (pg_row pg) events with
    | Some rows => Ok (insert_rows table rows)
    | None => Throw "database error"
    end
  else Throw "invalid date".

(** ** touchVirtualKeys *)
(** The Map of the newest [occurredAt] text per key. *)
Definition latest_step (latest : gmap string string) (e : UsageEventMessage) : gmap string string :=
  match latest !! ev_virtualKeyId e with
  | Some seen => if String.eqb seen "" || String.ltb seen (ev_occurredAt e)
                 then <[ev_virtualKeyId e := ev_occurredAt e]> latest else latest
  | None => <[ev_virtualKeyId e := ev_occurredAt e]> latest
  end.
(** [UPDATE … WHERE vk."lastUsedAt" IS NULL OR vk."lastUsedAt" < v.ts] *)
Definition touch_key (ts : option Z) (last : option Z) : option Z :=
  match ts, last with
  | Some t, None => Some t
  | Some t, Some l => if l <? t then Some t else Some l
  | None, _ => last
  end.
Definition touchVirtualKeys (pg : Postgres) (keys : gmap string (option Z)) (events : list UsageEventMessage)
  : gmap string (option Z) :=
  let latest := map_to_list (fold_left latest_step events ∅) in
  map_imap (fun id last => Some match List.find (fun v => String.eqb (pg_uuid pg v.1) id) latest with
                                | Some (_, text) => touch_key (date_parse text) last
                                | None => last
                                end) keys.

(** ** Rollup upserts *)
Definition key_hour (d : Dims) : RollupKey :=
  (bucketHour d, d_workspaceId d, d_projectId d, d_userId d, d_provider d, d_model d).
Definition key_day (d : Dims) : RollupKey :=
  (bucketDay d, d_workspaceId d, d_projectId d, d_userId d, d_provider d, d_model d).
(** A value of the column "costUsd" DECIMAL(14,6), in units of 1e-8: half a unit
    of the sixth decimal rounds away from zero. *)
Definition numeric_14_6 (c : Z) : Z := Z.sgn c * ((Z.abs c + 50) / 100 * 100).
Definition stored_counts (c : Counts) : Counts :=
  mkCounts (requests c) (errors c) (c_inputTokens c) (c_outputTokens c) (c_cacheReadTokens c)
    (c_cacheWriteTokens c) (c_reasoningTokens c) (numeric_14_6 (cost8 c)) (latencyMsSum c) (latencyCount c).
(** [INSERT … ON CONFLICT DO UPDATE SET x = table.x + EXCLUDED.x] *)
Fixpoint upsert (k : RollupKey) (team : option string) (c : Counts) (rows : list RollupRow) : list RollupRow :=
  match rows with
  | [] => [mkRollupRow k team c]
  | r :: rest =>
      if bool_decide (rr_key r = k) then mkRollupRow k (rr_teamId r) (cadd (rr_counts r) c) :: rest
      else r :: upsert k team c rest
  end.
(** The uuid casts of the VALUES. *)
Definition cast_dims (pg : Postgres) (d : Dims) : Dims :=
  mkDims (bucketHour d) (bucketDay d) (pg_uuid pg (d_workspaceId d)) (pg_uuid pg (d_projectId d))
    (pg_uuid pg (d_userId d)) (d_provider d) (d_model d).
Definition upsert_increment (pg : Postgres) (db : Db) (i : RollupIncrement) : Db :=
  let g := ri_group i in
  let c := stored_counts (g_counts g) in
  let d := cast_dims pg (g_dims g) in
  mkDb (usage_event db)
    (upsert (key_hour d) (pg_uuid pg <$> g_teamId g) c (usage_rollup_hourly db))
    (upsert (key_day d) (pg_uuid pg <$> g_teamId g) c (usage_rollup_daily db))
    (lastUsedAt db).

(** ** persistBatch *)
Definition persistBatch (pg : Postgres) (db : Db) (events : list UsageEventMessage)
  : js (Db * Z) :=
  match events with
  | [] => Ok (db, 0)
  | _ =>
      '(table, ids) ← insertEvents pg (usage_event db) events;
      let inserted := Z.of_nat (size (list_to_set ids : gset string)) in
      if inserted =? 0 then Ok (db, 0)
      else
        let fresh := List.filter (fun e => bool_decide (ev_id e ∈ ids)) events in
        let db := mkDb table (usage_rollup_hourly db) (usage_rollup_daily db)
                    (touchVirtualKeys pg (lastUsedAt db) fresh) in
        incs ← groupRollups fresh;
        Ok (fold_left (upsert_increment pg) incs db, inserted)
  end.

(** ** Inserting *)
Section inserting.

(** The rows an insert of events with distinct ids adds. *)
Definition new_rows (table events : list UsageEventMessage) : list UsageEventMessage :=
  List.filter (fun e => negb (existsb (same_row e) table)) events.

Lemma same_row_id a b : same_row a b = true -> ev_id a = ev_id b.
Proof. unfold same_row. rewrite andb_true_iff, String.eqb_eq. tauto. Qed.
Lemma new_rows_snoc table e events :
  ev_id e ∉ map ev_id events -> new_rows (table ++ [e]) events = new_rows table events.
Proof.
  intros Hn. unfold new_rows. apply List.filter_ext_in. intros x Hx%list_elem_of_In.
  rewrite existsb_app. cbn. rewrite orb_false_r.
  destruct (same_row x e) eqn:E; [|by rewrite orb_false_r].
  apply same_row_id in E. exfalso. apply Hn. rewrite <- E. by apply list_elem_of_fmap_2.
Qed.
Lemma insert_rows_spec table events :
  NoDup (map ev_id events) ->
  insert_rows table events = (table ++ new_rows table events, map ev_id (new_rows table events)).
Proof.
  revert table; induction events as [|e events IH]; intros table; cbn [map insert_rows].
  - intros _. by rewrite app_nil_r.
  - rewrite NoDup_cons. intros [Hn Hnd]. unfold new_rows. cbn [List.filter].
    fold (new_rows table events). destruct (existsb (same_row e) table); [by apply IH|].
    rewrite IH by done. rewrite new_rows_snoc by done. cbn. by rewrite <- app_assoc.
Qed.
(** The rows that count towards the rollups are the rows that were inserted. *)
Lemma fresh_new_rows table events :
  NoDup (map ev_id events) ->
  List.filter (fun e => bool_decide (ev_id e ∈ map ev_id (new_rows table events))) events
  = new_rows table events.
Proof.
  intros Hnd. unfold new_rows at 2. apply List.filter_ext_in. intros e He%list_elem_of_In.
  destruct (negb (existsb (same_row e) table)) eqn:E.
  - apply bool_decide_eq_true_2. apply list_elem_of_fmap_2. unfold new_rows.
    by rewrite list_elem_of_In, List.filter_In, <- list_elem_of_In.
  - apply bool_decide_eq_false_2. intros (x & Hid & Hx)%list_elem_of_fmap. unfold new_rows in Hx.
    rewrite list_elem_of_In, List.filter_In, <- list_elem_of_In in Hx. destruct Hx as [Hx Hf].
    assert (x = e) as -> by (by apply (NoDup_map_inj ev_id events)). congruence.
Qed.

Lemma new_rows_sub table events e : e ∈ new_rows table events -> e ∈ events.
Proof. unfold new_rows. rewrite !list_elem_of_In, List.filter_In. tauto. Qed.
Lemma new_rows_NoDup table events : NoDup (map ev_id events) -> NoDup (map ev_id (new_rows table events)).
Proof.
  unfold new_rows. induction events as [|e events IH]; [done|]. cbn [map List.filter]. rewrite NoDup_cons.
  intros [Hn Hnd]. destruct (negb _); [|by apply IH]. cbn [map]. apply NoDup_cons. split; [|by apply IH].
  intros (x & Hid & Hx%new_rows_sub)%list_elem_of_fmap. apply Hn. rewrite Hid. by apply list_elem_of_fmap_2.
Qed.
End inserting.

(** ** Upserting *)
Section upserting.

(** Equal counters, and costs no further apart than half a micro-dollar for
    each request. *)
Definition agrees (stored exact : Counts) : Prop :=
  requests stored = requests exact /\ errors stored = errors exact /\
  c_inputTokens stored = c_inputTokens exact /\ c_outputTokens stored = c_outputTokens exact /\
  c_cacheReadTokens stored = c_cacheReadTokens exact /\ c_cacheWriteTokens stored = c_cacheWriteTokens exact /\
  c_reasoningTokens stored = c_reasoningTokens exact /\ latencyMsSum stored = latencyMsSum exact /\
  latencyCount stored = latencyCount exact /\
  Z.abs (cost8 stored - cost8 exact) <= 50 * requests exact.

Lemma agrees_add a b a' b' : agrees a b -> agrees a' b' -> agrees (cadd a a') (cadd b b').
Proof. unfold agrees, cadd. cbn. lia. Qed.
Lemma agrees_zero : agrees czero czero.
Proof. unfold agrees. cbn. lia. Qed.
Lemma numeric_14_6_close c : Z.abs (numeric_14_6 c - c) <= 50.
Proof.
  unfold numeric_14_6. pose proof (Z.div_mod (Z.abs c + 50) 100 ltac:(lia)).
  pose proof (Z.mod_pos_bound (Z.abs c + 50) 100 ltac:(lia)).
  destruct (Z.lt_trichotomy c 0) as [H1|[->|H1]]; [|cbn; lia|];
    [rewrite Z.sgn_neg by lia|rewrite Z.sgn_pos by lia]; lia.
Qed.
Lemma stored_agrees c : 1 <= requests c -> agrees (stored_counts c) c.
Proof. intros H. pose proof (numeric_14_6_close (cost8 c)). unfold agrees; cbn. lia. Qed.

Definition row_total (phi : RollupKey -> bool) (rows : list RollupRow) : Counts :=
  total (fun r => phi (rr_key r)) rr_counts rows.
Lemma upsert_total phi k team c rows :
  row_total phi (upsert k team c rows) = cadd (row_total phi rows) (if phi k then c else czero).
Proof.
  unfold row_total. induction rows as [|r rows IH]; cbn [upsert].
  - rewrite total_cons, total_nil. cbn. by rewrite cadd_zero_l, cadd_zero_r.
  - destruct (bool_decide (rr_key r = k)) eqn:E; bool_to_prop; rewrite !total_cons; cbn [rr_key rr_counts].
    + subst k. destruct (phi (rr_key r)).
      * by rewrite !cadd_assoc, (cadd_comm c).
      * by rewrite !cadd_zero_l, cadd_zero_r.
    + by rewrite IH, cadd_assoc.
Qed.
Lemma upsert_keys k team c rows x : x ∈ map rr_key (upsert k team c rows) <-> x = k \/ x ∈ map rr_key rows.
Proof.
  induction rows as [|r rows IH]; cbn [upsert map rr_key]; [set_solver|].
  destruct (bool_decide (rr_key r = k)) eqn:E; bool_to_prop; cbn [map rr_key]; [subst k; set_solver|].
  rewrite !elem_of_cons, IH. tauto.
Qed.
Lemma upsert_NoDup k team c rows : NoDup (map rr_key rows) -> NoDup (map rr_key (upsert k team c rows)).
Proof.
  induction rows as [|r rows IH]; cbn [upsert map rr_key]; intros H; [apply NoDup_singleton|].
  destruct (bool_decide (rr_key r = k)) eqn:E; bool_to_prop; cbn [map rr_key]; [by rewrite <- E|].
  apply NoDup_cons in H as [Hn H]. apply NoDup_cons. split; [|by apply IH]. rewrite upsert_keys. naive_solver.
Qed.

Context (pg : Postgres).
#[local] Notation add_increment := (upsert_increment pg).
Definition in_canon (d : Dims) : Prop := cast_dims pg d = d.
(** The increments of a batch, added to both tables. *)
Definition inc_total (phi : RollupKey -> bool) (key : Dims -> RollupKey) (incs : list RollupIncrement) : Counts :=
  total (fun i => phi (key (g_dims (ri_group i)))) (fun i => stored_counts (g_counts (ri_group i))) incs.
Lemma upserts_total phi db incs :
  (forall i, i ∈ incs -> in_canon (g_dims (ri_group i))) ->
  let db' := fold_left add_increment incs db in
  row_total phi (usage_rollup_hourly db')
    = cadd (row_total phi (usage_rollup_hourly db)) (inc_total phi key_hour incs) /\
  row_total phi (usage_rollup_daily db')
    = cadd (row_total phi (usage_rollup_daily db)) (inc_total phi key_day incs).
Proof.
  cbn zeta. revert db; induction incs as [|i incs IH]; intros db Hc.
  - unfold inc_total. by rewrite !total_nil, !cadd_zero_r.
  - cbn [fold_left]. destruct (IH (add_increment db i)) as [-> ->]; [intros; apply Hc; by right|].
    unfold upsert_increment; cbn [usage_rollup_hourly usage_rollup_daily]. rewrite (Hc i) by left. rewrite !upsert_total.
    unfold inc_total. rewrite !total_cons. by rewrite !cadd_assoc.
Qed.
Lemma upserts_rows db incs :
  let db' := fold_left add_increment incs db in
  usage_event db' = usage_event db /\ lastUsedAt db' = lastUsedAt db /\
  (NoDup (map rr_key (usage_rollup_hourly db)) -> NoDup (map rr_key (usage_rollup_hourly db'))) /\
  (NoDup (map rr_key (usage_rollup_daily db)) -> NoDup (map rr_key (usage_rollup_daily db'))).
Proof.
  cbn zeta. revert db; induction incs as [|i incs IH]; intros db; [done|].
  cbn [fold_left]. destruct (IH (add_increment db i)) as (-> & -> & Hh & Hd).
  split_and!; [done|done| |]; intros H; [apply Hh|apply Hd]; by apply upsert_NoDup.
Qed.
Lemma inc_total_agrees phi key incs :
  (forall i, i ∈ incs -> 1 <= requests (g_counts (ri_group i))) ->
  agrees (inc_total phi key incs)
    (total (fun i => phi (key (g_dims (ri_group i)))) (fun i => g_counts (ri_group i)) incs).
Proof.
  unfold inc_total. induction incs as [|i incs IH]; intros H; [apply agrees_zero|].
  rewrite !total_cons. apply agrees_add; [|apply IH; intros; apply H; by right].
  destruct (phi _); [apply stored_agrees, H; left|apply agrees_zero].
Qed.

Lemma groups_nonempty events gs :
  foldR group_event [] events = Ok gs -> forall kg, kg ∈ gs -> 1 <= requests (g_counts kg.2).
Proof.
  apply (foldR_inv (fun gs => forall kg, kg ∈ gs -> 1 <= requests (g_counts kg.2))); [|set_solver].
  intros gs0 e gs1 _ Hgs. unfold group_event. destruct (date_parse _) as [t|]; [|done].
  destruct (contribution e) as [c|] eqn:Ec; cbn [mbind result_bind]; [|done]. intros [= <-].
  assert (requests c = 1) as Hc by (unfold contribution in Ec; inv_ok; done).
  generalize (groupKey (event_dims t e)) as key. generalize (event_dims t e) as d. intros d key. clear Ec.
  induction gs0 as [|[k g] gs0 IH]; intros kg; cbn [bump].
  - intros ->%list_elem_of_singleton. cbn. lia.
  - assert (1 <= requests (g_counts g)) as Hg by (apply (Hgs (k, g)); left).
    destruct (String.eqb k key); intros [->|Hkg]%elem_of_cons; cbn -[Z.add].
    + lia.
    + apply Hgs; by right.
    + done.
    + apply IH; [intros; apply Hgs; by right|done].
Qed.
End upserting.

(** ** Batches *)
Section batches.
Context (pg : Postgres).
#[local] Notation add_increment := (upsert_increment pg).
(** An event in the text Postgres prints: its uuids are their own canonical text. *)
Definition canonical (e : UsageEventMessage) : Prop :=
  keyed e /\ (forall r, pg_row pg e = Some r -> r = e) /\
  Forall (fun s => pg_uuid pg s = s) [ev_workspaceId e; ev_projectId e; ev_userId e].
(** A batch of such events with distinct ids. *)
Definition sound_batch (events : list UsageEventMessage) : Prop :=
  NoDup (map ev_id events) /\ Forall canonical events.

Definition row_id (e : UsageEventMessage) : string * option Z := (ev_id e, date_parse (ev_occurredAt e)).
Definition table_total (phi : RollupKey -> bool) (key : Dims -> RollupKey) (table : list UsageEventMessage) : Counts :=
  total (in_dims (fun d => phi (key d))) counts_of table.
(** What the tables always satisfy. *)
Record db_ok (db : Db) : Prop := {
  ok_hour_keys : NoDup (map rr_key (usage_rollup_hourly db));
  ok_day_keys : NoDup (map rr_key (usage_rollup_daily db));
  ok_rows : NoDup (map row_id (usage_event db));
  ok_keyed : forall e, e ∈ usage_event db -> keyed e;
  ok_hour : forall phi, agrees (row_total phi (usage_rollup_hourly db)) (table_total phi key_hour (usage_event db));
  ok_day : forall phi, agrees (row_total phi (usage_rollup_daily db)) (table_total phi key_day (usage_event db));
}.

Lemma same_row_spec a b : same_row a b = true <-> row_id a = row_id b.
Proof.
  unfold same_row, row_id. rewrite andb_true_iff, String.eqb_eq, bool_decide_eq_true.
  split; [by intros [-> ->]|by intros [= -> ->]].
Qed.
Lemma existsb_row e table : existsb (same_row e) table = true <-> row_id e ∈ map row_id table.
Proof.
  rewrite existsb_exists, list_elem_of_fmap. split; intros (x & H1 & H2).
  - exists x. rewrite list_elem_of_In. by apply same_row_spec in H2.
  - exists x. rewrite <- list_elem_of_In. by rewrite same_row_spec.
Qed.
Lemma rows_NoDup table events :
  NoDup (map row_id table) -> NoDup (map ev_id events) -> NoDup (map row_id (table ++ new_rows table events)).
Proof.
  intros Ht He. rewrite map_app. apply NoDup_app. split_and!; [done| |].
  - intros r Hr (x & -> & Hx)%list_elem_of_fmap. unfold new_rows in Hx.
    rewrite list_elem_of_In, List.filter_In, <- list_elem_of_In in Hx. destruct Hx as [_ Hx].
    apply existsb_row in Hr. by rewrite Hr in Hx.
  - eapply (NoDup_fmap_1 fst). change (NoDup (map fst (map row_id (new_rows table events)))).
    rewrite map_map. by apply new_rows_NoDup.
Qed.

Lemma canonical_rows events rows : Forall canonical events -> mapM (pg_row pg) events = Some rows -> rows = events.
Proof.
  intros Hc H%mapM_Some. revert Hc. induction H as [|e r es rs He _ IH]; [done|]. rewrite Forall_cons.
  intros [(_ & Hr & _) Hes]. by rewrite (Hr r He), IH.
Qed.
(** What a batch that goes through did. *)
Lemma persist_spec db events db' n :
  sound_batch events -> persistBatch pg db events = Ok (db', n) ->
  n = Z.of_nat (length (new_rows (usage_event db) events)) /\
  (new_rows (usage_event db) events = [] /\ db' = db \/
   exists incs, groupRollups (new_rows (usage_event db) events) = Ok incs /\
     db' = fold_left add_increment incs
             (mkDb (usage_event db ++ new_rows (usage_event db) events) (usage_rollup_hourly db)
                (usage_rollup_daily db)
                (touchVirtualKeys pg (lastUsedAt db) (new_rows (usage_event db) events)))).
Proof.
  intros [Hnd Hcan]. unfold persistBatch. destruct events as [|e0 es] eqn:Ee; [intros [= <- <-]; split_and!; [done|by left]|].
  rewrite <- Ee in *. clear Ee. unfold insertEvents. destruct (forallb _ events); [|done].
  destruct (mapM (pg_row pg) events) as [rows|] eqn:Er; [|done]. apply canonical_rows in Er as ->; [|done].
  rewrite insert_rows_spec by done. cbn [mbind result_bind]. rewrite fresh_new_rows by done.
  set (new := new_rows (usage_event db) events).
  assert (Z.of_nat (size (list_to_set (map ev_id new) : gset string)) = Z.of_nat (length new)) as Hsize.
  { rewrite size_list_to_set; [by rewrite length_map|]. by apply new_rows_NoDup. }
  rewrite Hsize. destruct (Z.of_nat (length new) =? 0) eqn:E0; bool_to_prop.
  - intros [= <- <-]. destruct new as [|x new']; [|cbn in E0; lia]. split_and!; [done|by left].
  - intros (incs & Hi & [= <- <-])%bind_ok. split_and!; [done|right]. eauto.
Qed.
Lemma canonical_dims e d : canonical e -> dims_of e = Some d -> in_canon pg d.
Proof.
  intros (_ & _ & Hu). rewrite !Forall_cons in Hu. destruct Hu as (Hw & Hp & Hus & _). unfold dims_of.
  destruct (date_parse _); [|done]. intros [= <-]. unfold in_canon, cast_dims. cbn. by rewrite Hw, Hp, Hus.
Qed.

(** What a batch that goes through adds: rows, and to both rollups what agrees
    with the sums of those rows. *)
Lemma persist_adds db events db' n :
  sound_batch events -> persistBatch pg db events = Ok (db', n) ->
  let new := new_rows (usage_event db) events in
  usage_event db' = usage_event db ++ new /\ (forall e, e ∈ new -> keyed e) /\
  (NoDup (map rr_key (usage_rollup_hourly db)) -> NoDup (map rr_key (usage_rollup_hourly db'))) /\
  (NoDup (map rr_key (usage_rollup_daily db)) -> NoDup (map rr_key (usage_rollup_daily db'))) /\
  (forall phi, exists c, row_total phi (usage_rollup_hourly db') = cadd (row_total phi (usage_rollup_hourly db)) c /\
                         agrees c (table_total phi key_hour new)) /\
  (forall phi, exists c, row_total phi (usage_rollup_daily db') = cadd (row_total phi (usage_rollup_daily db)) c /\
                         agrees c (table_total phi key_day new)).
Proof.
  intros Hnd H. cbn zeta. apply persist_spec in H as (_ & [[Hnew ->]|(incs & Hi & ->)]); [|..|done].
  { rewrite Hnew, app_nil_r. split_and!; [done|by intros e He%not_elem_of_nil|done|done|..];
      intros phi; exists czero; (split; [by rewrite cadd_zero_r|apply agrees_zero]). }
  set (new := new_rows (usage_event db) events) in *.
  assert (forall e, e ∈ new -> canonical e) as Hcn.
  { intros e He%new_rows_sub. destruct Hnd as [_ Hc]. rewrite Forall_forall in Hc. by apply Hc. }
  assert (forall e, e ∈ new -> keyed e) as Hkn by (intros e He; by apply Hcn).
  unfold groupRollups in Hi. apply bind_ok in Hi as (gs & Hgs & [= <-]).
  destruct (group_ok new gs Hkn Hgs) as (_ & Hgd & _ & Ht). pose proof (groups_nonempty new gs Hgs) as Hne.
  set (db1 := mkDb _ _ _ _). destruct (upserts_rows pg db1 (map finish_group gs)) as (He & _ & Hh' & Hd').
  assert (forall i, i ∈ map finish_group gs -> in_canon pg (g_dims (ri_group i))) as Hcd.
  { intros i (kg & -> & Hkg)%list_elem_of_fmap. destruct (Hgd kg Hkg) as (e & d & Hin & Hd & _ & Hdims).
    cbn. rewrite Hdims. eapply canonical_dims; [by apply Hcn|done]. }
  assert (forall phi key, agrees (inc_total phi key (map finish_group gs)) (table_total phi key new)) as Hinc.
  { intros phi key. unfold table_total. rewrite <- Ht.
    pose proof (inc_total_agrees phi key (map finish_group gs)) as Hag. rewrite total_map in Hag. apply Hag.
    intros i (kg & -> & Hkg)%list_elem_of_fmap. by apply Hne. }
  split_and!; [exact He|exact Hkn|exact Hh'|exact Hd'|..]; intros phi;
    destruct (upserts_total pg phi db1 (map finish_group gs) Hcd) as [Hth Htd]; eauto.
Qed.

Lemma persist_ok db events db' n :
  sound_batch events -> db_ok db -> persistBatch pg db events = Ok (db', n) ->
  db_ok db' /\ usage_event db' = usage_event db ++ new_rows (usage_event db) events.
Proof.
  intros Hnd [Hh Hd Hr Hk Hth Htd] H. apply persist_adds in H as (He & Hkn & Hh' & Hd' & Hah & Had); [|done].
  split; [|exact He]. split; rewrite ?He.
  - by apply Hh'.
  - by apply Hd'.
  - apply rows_NoDup; [done|apply Hnd].
  - intros e [?|?]%elem_of_app; auto.
  - intros phi. destruct (Hah phi) as (c & -> & Hc). unfold table_total. rewrite total_app. by apply agrees_add.
  - intros phi. destruct (Had phi) as (c & -> & Hc). unfold table_total. rewrite total_app. by apply agrees_add.
Qed.

Lemma empty_ok keys : db_ok (empty_db keys).
Proof using.
  clear. split; cbn; [constructor|constructor|constructor|by intros e He%not_elem_of_nil|..]; intros phi; apply agrees_zero.
Qed.

(** A transaction that fails changes nothing. *)
Definition persist_or_keep (db : Db) (events : list UsageEventMessage) : Db :=
  match persistBatch pg db events with Ok (db', _) => db' | Throw _ => db end.
Definition persist_all (db : Db) (batches : list (list UsageEventMessage)) : Db :=
  fold_left persist_or_keep batches db.
Lemma persist_or_keep_ok db events : sound_batch events -> db_ok db -> db_ok (persist_or_keep db events).
Proof.
  intros Hnd Hok. unfold persist_or_keep. destruct (persistBatch pg db events) as [[db' n]|] eqn:E; [|done].
  by eapply persist_ok.
Qed.

(** whatever batches are persisted, in whatever order and however often an
    event is delivered again or a transaction fails, every hourly and daily
    rollup table holds one row per bucket and dimensions, and for any set of
    buckets and dimensions its ten counters are the sums over the distinct
    events stored: exact for the nine integer counters, within half a
    micro-dollar per request for the cost (the rollup column keeps six
    decimals, the events eight).  No event is stored twice. *)
Theorem rollups_track_events keys batches phi :
  (forall b, b ∈ batches -> sound_batch b) ->
  let db := persist_all (empty_db keys) batches in
  NoDup (map row_id (usage_event db)) /\
  NoDup (map rr_key (usage_rollup_hourly db)) /\ NoDup (map rr_key (usage_rollup_daily db)) /\
  agrees (row_total phi (usage_rollup_hourly db)) (table_total phi key_hour (usage_event db)) /\
  agrees (row_total phi (usage_rollup_daily db)) (table_total phi key_day (usage_event db)).
Proof.
  intros Hb. assert (db_ok (persist_all (empty_db keys) batches)) as [Hh Hd Hr _ Hth Htd]; [|by split_and!].
  generalize (empty_ok keys). generalize (empty_db keys) as db. unfold persist_all.
  induction batches as [|b batches IH]; intros db Hdb; [done|]. cbn [fold_left].
  apply IH; [set_solver|]. apply persist_or_keep_ok; [apply Hb; left|done].
Qed.

(** Delivering again is free: once a batch went through, any batch made of
    the same rows goes through too, inserts nothing and changes no table. *)
Theorem redelivery_changes_nothing db events db' n again :
  sound_batch events -> sound_batch again ->
  persistBatch pg db events = Ok (db', n) ->
  (forall e, e ∈ again -> pg_row pg e <> None /\ row_id e ∈ map row_id events) ->
  persistBatch pg db' again = Ok (db', 0).
Proof.
  intros Hnd [Hnd' Hcan] H Hagain. unfold persistBatch. destruct again as [|a0 as_] eqn:Ea; [done|]. rewrite <- Ea in *.
  clear Ea a0 as_. unfold insertEvents. rewrite (proj2 (forallb_forall _ _)).
  2: { intros e He%list_elem_of_In. apply bool_decide_eq_true. rewrite Forall_forall in Hcan.
       destruct (Hcan e He) as ((_ & _ & _ & t & -> & _) & _). by eexists. }
  destruct (mapM (pg_row pg) again) as [rows|] eqn:Er.
  2: { exfalso. apply mapM_None in Er. apply Exists_exists in Er as (e & He & Hn). by destruct (Hagain e He). }
  apply canonical_rows in Er as ->; [|done]. rewrite insert_rows_spec by done. cbn [mbind result_bind].
  assert (usage_event db' = usage_event db ++ new_rows (usage_event db) events) as Htable.
  { apply persist_spec in H as (_ & [[Hnew ->]|(incs & _ & ->)]); [by rewrite Hnew, app_nil_r| |done].
    apply upserts_rows. }
  assert (new_rows (usage_event db') again = []) as ->.
  { unfold new_rows. rewrite (List.filter_ext_in _ (fun _ => false)).
    - clear. by induction again.
    - intros e He%list_elem_of_In. apply negb_false_iff, existsb_row.
      destruct (Hagain e He) as [_ (x & -> & Hx)%list_elem_of_fmap]. rewrite Htable, map_app. apply elem_of_app.
      destruct (existsb (same_row x) (usage_event db)) eqn:E; [left; by apply existsb_row|right].
      apply list_elem_of_fmap_2. unfold new_rows. rewrite list_elem_of_In, List.filter_In, <- list_elem_of_In.
      by rewrite E. }
  cbn [map]. by rewrite list_to_set_nil, size_empty.
Qed.

(** A batch of events Postgres accepts, with valid dates, whole token counts and
    well-formed costs is persisted. *)
Lemma persist_succeeds db events :
  (forall e, e ∈ events -> pg_row pg e <> None /\ date_parse (ev_occurredAt e) <> None /\
                           exists c, contribution e = Ok c) ->
  exists db' n, persistBatch pg db events = Ok (db', n).
Proof.
  intros Hok. unfold persistBatch. destruct events as [|e0 es] eqn:Ee; [eauto|]. rewrite <- Ee in *. clear Ee.
  unfold insertEvents. rewrite (proj2 (forallb_forall _ _)).
  2: { intros e He%list_elem_of_In. apply bool_decide_eq_true, not_eq_None_Some. by apply Hok. }
  destruct (mapM (pg_row pg) events) as [rows|] eqn:Er.
  2: { exfalso. apply mapM_None in Er. apply Exists_exists in Er as (e & He & Hn). by destruct (Hok e He). }
  cbn [mbind result_bind]. destruct (insert_rows _ rows) as [table ids]. destruct (_ =? 0); [eauto|].
  set (fresh := List.filter _ events).
  destruct (groupRollups fresh) as [incs|m] eqn:E; [cbn; eauto|exfalso].
  destruct (proj1 (groupRollups_throws fresh)) as (x & Hx & Hor); [eauto|].
  apply in_filter in Hx as [Hx _]. destruct (Hok x Hx) as (_ & Hd & c & Hc). destruct Hor as [?|[? ?]]; [done|congruence].
Qed.
End batches.

(** A database that takes what is of one workspace, at two instants. *)
Definition example_accepts (e : UsageEventMessage) : bool :=
  bool_decide (ev_workspaceId e = "ws1" /\ ev_projectId e = "p1" /\ ev_userId e = "u1" /\
    (ev_occurredAt e = "2026-07-12T10:15:30.000Z" \/ ev_occurredAt e = "2026-07-12T11:00:00.000Z")).
Definition accepting (accepts : UsageEventMessage -> bool) : Postgres :=
  mkPostgres (fun e => if accepts e then Some e else None) (fun s => s).
Definition example_pg : Postgres := accepting example_accepts.
Lemma accepting_canonical accepts e : keyed e -> canonical (accepting accepts) e.
Proof.
  intros Hk. split_and!; [done| |repeat constructor]. intros r. cbn. destruct (accepts e); [|done]. by intros [= ->].
Qed.
Lemma example_keyed e : example_accepts e = true -> keyed e.
Proof.
  unfold example_accepts, keyed. rewrite bool_decide_eq_true. intros (-> & -> & -> & Ht).
  split_and!; [done..|]. destruct Ht as [-> | ->]; eexists; (split; [vm_compute; reflexivity|lia]).
Qed.
Lemma example_sound events :
  bool_decide (NoDup (map ev_id events)) && forallb example_accepts events = true -> sound_batch example_pg events.
Proof.
  intros [Hn%bool_decide_eq_true Ha]%andb_true_iff. split; [done|]. apply Forall_forall. intros e He.
  rewrite forallb_forall in Ha. by apply accepting_canonical, example_keyed, Ha, list_elem_of_In.
Qed.
Definition example_batch : list UsageEventMessage :=
  [example_event "e1" "2026-07-12T10:15:30.000Z" "0.00000040"; example_event "e2" "2026-07-12T11:00:00.000Z" "1.5"].

Lemma rollups_track_events_witness :
  let db := persist_all example_pg (empty_db ∅) [example_batch; example_batch] in
  NoDup (map row_id (usage_event db)) /\
  NoDup (map rr_key (usage_rollup_hourly db)) /\ NoDup (map rr_key (usage_rollup_daily db)) /\
  agrees (row_total (fun _ => true) (usage_rollup_hourly db)) (table_total (fun _ => true) key_hour (usage_event db)) /\
  agrees (row_total (fun _ => true) (usage_rollup_daily db)) (table_total (fun _ => true) key_day (usage_event db)).
Proof.
  apply (rollups_track_events example_pg).
  intros b Hb. repeat (apply elem_of_cons in Hb as [->|Hb]); [..|by apply not_elem_of_nil in Hb];
    apply example_sound; reflexivity.
Defined.
Lemma redelivery_changes_nothing_witness :
  let db' := persist_or_keep example_pg (empty_db {[ "k1" := None ]}) example_batch in
  persistBatch example_pg db' (rev example_batch) = Ok (db', 0).
Proof.
  eapply (redelivery_changes_nothing example_pg (empty_db {[ "k1" := None ]}) example_batch).
  - apply example_sound; reflexivity.
  - apply example_sound; reflexivity.
  - vm_compute. reflexivity.
  - intros e He. repeat (apply elem_of_cons in He as [->|He]); [..|by apply not_elem_of_nil in He];
      (split; [discriminate|set_solver]).
Defined.

(** The same event twice in one batch is stored once and counted twice. *)
Lemma duplicate_in_batch_counts_twice :
  let e := example_event "e1" "2026-07-12T10:15:30.000Z" "0.5" in
  let db := persist_or_keep example_pg (empty_db ∅) [e; e] in
  length (usage_event db) = 1%nat /\ requests (row_total (fun _ => true) (usage_rollup_hourly db)) = 2.
Proof. vm_compute. done. Qed.
