(* ===== verification/Ingest.v ===== *)
(** * apps/worker/src/ingest/consumer.ts: from the stream to the tables

    [decodeBatch] on raw stream entries, and one pass of the consumer loop as
    a step on the consumer group (undelivered and pending entries), the dead
    letter stream and the database.  Each external call of a pass may fail; the
    pass stops there, as the exception does. *)

From S2P Require Import Prelude JsString JsNum JsDate Json JsonRoundtrip Shared Pricing Providers Queue.
From S2P Require Import Gateway Rollups Persist.
From Stdlib Require Import Ascii.

(** ** Decoding *)
(** [[id, fields]] of XREADGROUP: field names and values alternate. *)
Definition StreamEntry : Type := string * list string.
(** [fields[fields.indexOf("payload") + 1]] *)
Fixpoint payload_of (fields : list string) : option string :=
  match fields with
  | [] => None
  | f :: rest => if String.eqb f "payload" then head rest else payload_of rest
  end.
(** The checks before an event is accepted. *)
Definition decode_payload (payload : string) : js json :=
  event ← json_parse payload;
  id ← get_field event "id";
  ws ← get_field event "workspaceId";
  at_ ← get_field event "occurredAt";
  if truthy id && truthy ws && truthy at_ then Ok event else Throw "missing fields".
Record DecodedBatch := mkDecoded {
  db_events : list json;
  db_ackIds : list string;
  db_invalid : list (string * string);
}.
Definition decode_entry (entry : StreamEntry) : json + string :=
  match payload_of entry.2 with
  | None | Some "" => inr ""
  | Some payload => match decode_payload payload with Ok e => inl e | Throw _ => inr payload end
  end.
Definition decodeBatch (entries : list StreamEntry) : DecodedBatch :=
  mkDecoded
    (omap (fun e => match decode_entry e with inl v => Some v | inr _ => None end) entries)
    (map fst entries)
    (omap (fun e => match decode_entry e with inl _ => None | inr p => Some (e.1, p) end) entries).

(** The cast to [UsageEventMessage]: the fields of the declared types.  An
    object without them is refused by the insert. *)
Definition status_of_text (s : string) : option EventStatus :=
  List.find (fun x => String.eqb (status_text x) s)
    [OK; PROVIDER_ERROR; BLOCKED_BUDGET; BLOCKED_RATELIMIT; AUTH_ERROR].
Definition basis_of_text (s : string) : option CostBasis :=
  List.find (fun x => String.eqb (basis_text x) s) [ACTUAL; ESTIMATED; OVERRIDDEN; UNPRICED].
Definition int_field (v : option json) (k : string) : option Z :=
  match num_field v k with Some (NInt n) => Some n | _ => None end.
Definition bool_field (v : option json) (k : string) : option bool :=
  match opt_field v k with Some (JBool b) => Some b | _ => None end.
Definition prices_of (v : option json) : option UnitPrices :=
  i ← str_field v "in"; o ← str_field v "out"; cr ← str_field v "cr"; cw ← str_field v "cw";
  src ← str_field v "source"; Some (mkUnitPrices i o cr cw src).
Definition event_of_json (event : json) : option UsageEventMessage :=
  let v := Some event in
  id ← str_field v "id"; occurredAt ← str_field v "occurredAt"; ws ← str_field v "workspaceId";
  project ← str_field v "projectId"; user ← str_field v "userId"; vk ← str_field v "virtualKeyId";
  provider ← str_field v "provider" ≫= provider_of_text;
  modelRaw ← str_field v "modelRaw"; model ← str_field v "model"; endpoint ← str_field v "endpoint";
  requestId ← str_field v "requestId"; status ← str_field v "status" ≫= status_of_text;
  httpStatus ← int_field v "httpStatus"; streamed ← bool_field v "streamed";
  i ← num_field v "inputTokens"; o ← num_field v "outputTokens"; cr ← num_field v "cacheReadTokens";
  cw ← num_field v "cacheWriteTokens"; r ← num_field v "reasoningTokens";
  cost ← str_field v "costUsd"; basis ← str_field v "costBasis" ≫= basis_of_text;
  latency ← int_field v "latencyMs";
  Some (mkEvent id occurredAt ws project (str_field v "teamId") user vk (str_field v "credentialId")
          (str_field v "poolId") provider modelRaw model endpoint requestId status httpStatus streamed
          i o cr cw r cost (prices_of (opt_field v "unitPrices")) basis latency (int_field v "ttftMs")
          (match opt_field v "tags" with Some (JArr l) => Some (texts_of (Some (JArr l))) | _ => None end)).

(** ** The consumer *)
Record IngestState := mkIngest {
  stream : list StreamEntry;          (** usage:events *)
  undelivered : list StreamEntry;     (** not yet read by the group *)
  unacked : list StreamEntry;         (** read and not acknowledged *)
  acked : list StreamEntry;
  dlq : list (string * string);       (** usage:dlq: sourceId and payload *)
  tables : Db;
}.
Definition ingest_start (db : Db) : IngestState := mkIngest [] [] [] [] [] db.
(** What happens around one pass: COUNT, how many XADDs to the dead letter
    stream succeed before one fails, whether the database and the XACK answer. *)
Record PassEnv := mkPass { pe_batchSize : nat; pe_dlq_fail : option nat; pe_db_up : bool; pe_ack_up : bool }.

Definition entry_event (entry : StreamEntry) : option UsageEventMessage :=
  match decode_entry entry with inl v => event_of_json v | inr _ => None end.
Definition persist_decoded (pg : Postgres) (db_up : bool) (db : Db)
    (events : list json) : js Db :=
  match events with
  | [] => Ok db
  | _ => if db_up then match mapM event_of_json events with
                       | None => Throw "database error"
                       | Some events => '(db', _) ← persistBatch pg db events; Ok db'
                       end
         else Throw "database unreachable"
  end.
(** One turn of the loop: what a failing call leaves behind stays, and the
    entries read stay pending. *)
Definition ingest_pass (pg : Postgres) (env : PassEnv) (st : IngestState) : IngestState :=
  let entries := take (pe_batchSize env) (undelivered st) in
  let batch := decodeBatch entries in
  let sent := match pe_dlq_fail env with Some k => take k (db_invalid batch) | None => db_invalid batch end in
  let dlq_ok := match pe_dlq_fail env with Some k => (length (db_invalid batch) <=? k)%nat | None => true end in
  let st := mkIngest (stream st) (drop (pe_batchSize env) (undelivered st)) (unacked st ++ entries) (acked st)
              (dlq st ++ sent) (tables st) in
  match (if dlq_ok then persist_decoded pg (pe_db_up env) (tables st) (db_events batch)
         else Throw "redis unreachable") with
  | Throw _ => st
  | Ok db =>
      if pe_ack_up env
      then mkIngest (stream st) (undelivered st)
             (List.filter (fun e => negb (bool_decide (e.1 ∈ db_ackIds batch))) (unacked st))
             (acked st ++ entries) (dlq st) db
      else mkIngest (stream st) (undelivered st) (unacked st) (acked st) (dlq st) db
  end.
Inductive IngestAction :=
  | IPublish (entry : StreamEntry)
  | IPass (env : PassEnv)
  | IRecreate           (** NOGROUP: the group is created again from "0" *)
  | IFlushed.           (** the stream itself is gone with the group *)
Definition ingest_step (pg : Postgres) (st : IngestState) (a : IngestAction) : IngestState :=
  match a with
  | IPublish e => mkIngest (stream st ++ [e]) (undelivered st ++ [e]) (unacked st) (acked st) (dlq st) (tables st)
  | IPass env => ingest_pass pg env st
  | IRecreate => mkIngest (stream st) (stream st) [] (acked st) (dlq st) (tables st)
  | IFlushed => mkIngest [] [] [] (acked st) (dlq st) (tables st)
  end.
Definition ingest_run (pg : Postgres) (db : Db) (acts : list IngestAction) : IngestState :=
  fold_left (ingest_step pg) acts (ingest_start db).
Definition published (acts : list IngestAction) : list StreamEntry :=
  omap (fun a => match a with IPublish e => Some e | _ => None end) acts.

(** ** The event text *)
Section event_text.

Lemma status_of_text_of s : status_of_text (status_text s) = Some s.
Proof. by destruct s. Qed.
Lemma basis_of_text_of b : basis_of_text (basis_text b) = Some b.
Proof. by destruct b. Qed.

Lemma event_of_event_json e : event_of_json (event_json e) = Some e.
Proof.
  destruct e as [id at_ ws pr [tm|] us vk [cr|] [po|] pv mr mo en rq st ht sm i o c w r co [[]|] ba la [tt_|] [tg|]];
    unfold event_of_json, str_field, num_field, int_field, bool_field, num_field, prices_of, str_field, opt_field;
    cbn -[provider_of_text status_of_text basis_of_text texts_of map];
    rewrite provider_of_text_of, status_of_text_of, basis_of_text_of, ?texts_of_strings; reflexivity.
Qed.

(** Numbers JSON keeps exactly, and the three fields the consumer checks. *)
Definition exact_int (n : number) : Prop := exists z, n = NInt z /\ Z.abs z <= 2 ^ 53.
Definition transportable (e : UsageEventMessage) : Prop :=
  ev_id e <> "" /\ ev_workspaceId e <> "" /\ ev_occurredAt e <> "" /\
  Z.abs (ev_httpStatus e) <= 2 ^ 53 /\ Z.abs (ev_latencyMs e) <= 2 ^ 53 /\
  (forall t, ev_ttftMs e = Some t -> Z.abs t <= 2 ^ 53) /\
  Forall exact_int [ev_inputTokens e; ev_outputTokens e; ev_cacheReadTokens e; ev_cacheWriteTokens e;
                    ev_reasoningTokens e].

Lemma wf_exact n : exact_int n -> wf_json (JNum n) = true.
Proof. intros (z & -> & Hz). cbn -[Z.pow]. by apply Z.leb_le. Qed.
Lemma wf_int z : Z.abs z <= 2 ^ 53 -> wf_json (JNum (NInt z)) = true.
Proof. intros Hz. apply wf_exact. by exists z. Qed.
Lemma wf_fields (o : fields) :
  NoDup (map fst o) -> Forall (fun kv => wf_json kv.2 = true) o -> wf_json (JObj o) = true.
Proof.
  intros Hnd Hall. cbn [wf_json]. rewrite bool_decide_eq_true_2 by done. cbn [andb].
  apply forallb_forall. intros kv Hkv%list_elem_of_In. rewrite Forall_forall in Hall. by apply Hall.
Qed.
Lemma wf_opt k v : (forall x, v = Some x -> wf_json x = true) -> Forall (fun kv => wf_json kv.2 = true) (opt_key k v).
Proof. intros H. destruct v as [x|]; cbn [opt_key]; [|constructor]. constructor; [by apply H|constructor]. Qed.
Lemma event_keys e : NoDup (map fst (match event_json e with JObj o => o | _ => [] end)).
Proof.
  apply (bool_decide_eq_true_1 (NoDup _)).
  destruct e as [id at_ ws pr [tm|] us vk [cr|] [po|] pv mr mo en rq st ht sm i o c w r co [p|] ba la [tt_|] [tg|]];
    reflexivity.
Qed.
Lemma wf_event e : transportable e -> wf_json (event_json e) = true.
Proof.
  intros (_ & _ & _ & Hh & Hl & Ht & Hn). rewrite !Forall_cons in Hn. destruct Hn as (Hi & Ho & Hc & Hw & Hr & _).
  pose proof (event_keys e) as Hk. unfold event_json in *. apply wf_fields; [exact Hk|]. clear Hk.
  rewrite !Forall_app. split_and!;
    repeat match goal with
    | |- Forall _ (opt_key _ _) => apply wf_opt
    | |- Forall _ (_ :: _) => constructor
    | |- Forall _ [] => constructor
    end; cbn [snd]; try reflexivity; try (by apply wf_exact); try (by apply wf_int).
  - intros x Hx. destruct (ev_teamId e); [injection Hx as <-; done|done].
  - intros x Hx. destruct (ev_credentialId e); [injection Hx as <-; done|done].
  - intros x Hx. destruct (ev_poolId e); [injection Hx as <-; done|done].
  - intros x Hx. destruct (ev_unitPrices e); [injection Hx as <-; done|done].
  - intros x Hx. destruct (ev_ttftMs e) as [t|]; [injection Hx as <-; by apply wf_int, Ht|done].
  - intros x Hx. destruct (ev_tags e) as [t|]; [injection Hx as <-; apply wf_strings|done].
Qed.

(** The fields of an entry the gateway adds to the stream. *)
Definition published_entry (sid : string) (e : UsageEventMessage) : StreamEntry :=
  (sid, ["payload"; encode_event e]).
Lemma truthy_text s : s <> "" -> truthy (Some (JStr s)) = true.
Proof. intros H. cbn. by destruct (String.eqb_spec s ""). Qed.
Lemma decode_published sid e : transportable e -> decode_entry (published_entry sid e) = inl (event_json e).
Proof.
  intros Ht. unfold decode_entry, published_entry. cbn [snd payload_of].
  change (String.eqb "payload" "payload") with true. cbn [head].
  assert (decode_payload (encode_event e) = Ok (event_json e)) as Hd.
  { unfold decode_payload, encode_event. rewrite (json_parse_stringify _ (wf_event e Ht)). cbn [mbind result_bind].
    destruct Ht as (Hid & Hws & Hat & _).
    change (get_field (event_json e) "id") with (Ok (E := string) (Some (JStr (ev_id e)))).
    change (get_field (event_json e) "workspaceId") with (Ok (E := string) (Some (JStr (ev_workspaceId e)))).
    change (get_field (event_json e) "occurredAt") with (Ok (E := string) (Some (JStr (ev_occurredAt e)))).
    cbn [mbind result_bind]. by rewrite !truthy_text. }
  destruct (encode_event e) as [|c r] eqn:E; [discriminate E|]. by rewrite Hd.
Qed.
Lemma entry_event_published sid e : transportable e -> entry_event (published_entry sid e) = Some e.
Proof. intros Ht. unfold entry_event. rewrite decode_published by done. apply event_of_event_json. Qed.
End event_text.

(** ** The group over a run *)
Section consumer.
Context (pg : Postgres).

(** Where a delivered entry's content is kept. *)
Definition kept (st : IngestState) (entry : StreamEntry) : Prop :=
  (exists e r, entry_event entry = Some e /\ pg_row pg e = Some r /\ row_id r ∈ map row_id (usage_event (tables st))) \/
  (exists payload, decode_entry entry = inr payload /\ (entry.1, payload) ∈ dlq st).
Definition event_ids (entries : list StreamEntry) : list string := omap (fun x => ev_id <$> entry_event x) entries.
Record ingest_inv (st : IngestState) (pub : list StreamEntry) : Prop := {
  in_suffix : undelivered st `suffix_of` stream st;
  in_pub : stream st `suffix_of` pub;
  in_where : forall x, x ∈ stream st -> x ∈ undelivered st \/ x ∈ unacked st \/ x ∈ acked st;
  in_kept : forall x, x ∈ acked st -> kept st x;
}.

Lemma decoded_events entries events :
  mapM event_of_json (db_events (decodeBatch entries)) = Some events ->
  events = omap entry_event entries /\
  forall x v, x ∈ entries -> decode_entry x = inl v -> exists e, entry_event x = Some e /\ e ∈ events.
Proof.
  cbn [decodeBatch db_events]. intros H%mapM_Some. revert events H.
  induction entries as [|x entries IH]; intros events H.
  - inversion H; subst. set_solver.
  - cbn [omap list_omap] in *. unfold entry_event at 1. destruct (decode_entry x) as [v|p] eqn:Ed.
    + inversion H as [|? e ? es He Hes]; subst. rewrite He.
      destruct (IH es Hes) as [-> Hx]. split; [done|]. intros y w [->|Hy]%elem_of_cons Hw.
      * exists e. unfold entry_event. rewrite Ed. assert (v = w) as <- by congruence. split; [done|left].
      * destruct (Hx y w Hy Hw) as (e' & ? & ?). exists e'. split; [done|by right].
    + destruct (IH events H) as [-> Hx]. split; [done|].
      intros y w [->|Hy]%elem_of_cons Hw; [congruence|eauto].
Qed.
Lemma event_ids_app a b : event_ids (a ++ b) = event_ids a ++ event_ids b.
Proof. apply omap_app. Qed.
Lemma event_ids_events entries : event_ids entries = map ev_id (omap entry_event entries).
Proof.
  unfold event_ids. induction entries as [|x entries IH]; [done|]. cbn. destruct (entry_event x); cbn; by rewrite IH.
Qed.
(** A persisted event is a row from then on. *)
Lemma insert_rows_kept evs table x : x ∈ table \/ x ∈ evs -> row_id x ∈ map row_id (insert_rows table evs).1.
Proof using.
  clear. revert table x. induction evs as [|y evs IH]; intros table x Hx; cbn [insert_rows].
  - destruct Hx; [by apply list_elem_of_fmap_2|set_solver].
  - destruct (existsb (same_row y) table) eqn:E.
    + destruct Hx as [Hx|[->|Hx]%elem_of_cons]; [apply IH; auto| |apply IH; auto].
      apply existsb_row in E as (z & Hz & Hin)%list_elem_of_fmap. rewrite Hz. apply IH. by left.
    + destruct (insert_rows (table ++ [y]) evs) as [t ids] eqn:Ei.
      change t with (t, ids).1. rewrite <- Ei. apply IH. set_solver.
Qed.
Lemma insert_nothing evs table t : insert_rows table evs = (t, []) -> t = table.
Proof using.
  clear. revert table. induction evs as [|y evs IH]; intros table; cbn [insert_rows]; [by intros [= ->]|].
  destruct (existsb (same_row y) table); [apply IH|]. destruct (insert_rows (table ++ [y]) evs); intros Hx; discriminate Hx.
Qed.
Lemma persist_rows db events db' n :
  persistBatch pg db events = Ok (db', n) ->
  (forall e, e ∈ usage_event db -> row_id e ∈ map row_id (usage_event db')) /\
  (forall e, e ∈ events -> exists r, pg_row pg e = Some r /\ row_id r ∈ map row_id (usage_event db')).
Proof.
  unfold persistBatch. destruct events as [|e0 es] eqn:Ee.
  { intros [= <- <-]. split; [intros; by apply list_elem_of_fmap_2|set_solver]. }
  rewrite <- Ee. clear Ee. unfold insertEvents. destruct (forallb _ events); [|done].
  destruct (mapM (pg_row pg) events) as [rows|] eqn:Er; [|done]. apply mapM_Some in Er. intros H.
  assert (forall x, x ∈ usage_event db \/ x ∈ rows -> row_id x ∈ map row_id (usage_event db')) as Hall.
  { intros x Hx. pose proof (insert_rows_kept rows (usage_event db) x Hx) as He.
    destruct (insert_rows (usage_event db) rows) as [t ids] eqn:Ei. cbn [mbind result_bind fst] in *.
    destruct (_ =? 0) eqn:E0.
    - injection H as <- _. bool_to_prop. assert (ids = []) as ->; [|by rewrite <- (insert_nothing _ _ _ Ei)].
      destruct ids as [|i ids]; [done|]. exfalso. cbn [list_to_set] in E0.
      assert (size ({[i]} ∪ list_to_set ids : gset string) = 0%nat) as Hs by lia.
      apply size_empty_inv in Hs. set_solver.
    - apply bind_ok in H as (incs & _ & [= <- _]). set (db1 := mkDb _ _ _ _).
      by destruct (upserts_rows pg db1 incs) as (-> & _). }
  split; [auto|]. intros e (i & Hi)%list_elem_of_lookup. destruct (Forall2_lookup_l _ _ _ _ _ Er Hi) as (r & Hr%list_elem_of_lookup_2 & Hin). eauto.
Qed.

Lemma ack_drops (entries un : list StreamEntry) x :
  x ∈ un \/ x ∈ entries ->
  x ∈ List.filter (fun e => negb (bool_decide (e.1 ∈ map fst entries))) (un ++ entries) \/ x.1 ∈ map fst entries.
Proof.
  intros Hx. destruct (decide (x.1 ∈ map fst entries)) as [Hin|Hin]; [by right|left].
  rewrite list_elem_of_In, List.filter_In, <- list_elem_of_In. split; [by apply elem_of_app|].
  by rewrite bool_decide_eq_false_2.
Qed.

(** The tables after the persist stage of a pass. *)
Lemma persist_decoded_spec up db entries db' :
  persist_decoded pg up db (db_events (decodeBatch entries)) = Ok db' ->
  (forall e, row_id e ∈ map row_id (usage_event db) -> row_id e ∈ map row_id (usage_event db')) /\
  (forall x v, x ∈ entries -> decode_entry x = inl v ->
     exists e r, entry_event x = Some e /\ pg_row pg e = Some r /\ row_id r ∈ map row_id (usage_event db')) /\
  (sound_batch pg (omap entry_event entries) -> db_ok db -> db_ok db').
Proof.
  unfold persist_decoded. destruct (db_events (decodeBatch entries)) as [|v0 vs] eqn:Ev.
  - intros [= <-]. split_and!; [done| |done]. intros x v Hx Hv. exfalso.
    assert (v ∈ db_events (decodeBatch entries)) as H; [|rewrite Ev in H; set_solver].
    cbn. apply list_elem_of_omap. exists x. by rewrite Hv.
  - rewrite <- Ev. destruct up; [|done]. destruct (mapM event_of_json _) as [events|] eqn:Em; [|done].
    intros ([d n] & Hp & [= <-])%bind_ok. destruct (decoded_events entries events Em) as [Hevs Hx].
    destruct (persist_rows _ _ _ _ Hp) as [Hold Hnew]. split_and!.
    + intros e (x & Heq & Hin)%list_elem_of_fmap. rewrite Heq. by apply Hold.
    + intros x v Hin Hv. destruct (Hx x v Hin Hv) as (e & He & Hine). destruct (Hnew e Hine) as (r & ? & ?). eauto.
    + intros Hnd Hok. rewrite <- Hevs in Hnd. by eapply persist_ok.
Qed.

Lemma kept_mono st st' x :
  (forall e, row_id e ∈ map row_id (usage_event (tables st)) -> row_id e ∈ map row_id (usage_event (tables st'))) ->
  (forall y, y ∈ dlq st -> y ∈ dlq st') -> kept st x -> kept st' x.
Proof. intros Hr Hd [(e & r & ? & ? & ?)|(p & ? & ?)]; [left|right]; eauto 6. Qed.

Lemma ingest_pass_inv st env pub :
  NoDup (map fst pub) -> ingest_inv st pub -> ingest_inv (ingest_pass pg env st) pub.
Proof.
  intros Hids [Hs Hp Hw Hk]. unfold ingest_pass. cbn zeta.
  set (entries := take (pe_batchSize env) (undelivered st)).
  set (sent := match pe_dlq_fail env with Some k => take k (db_invalid (decodeBatch entries)) | None => db_invalid (decodeBatch entries) end).
  set (ok := match pe_dlq_fail env with Some k => (length (db_invalid (decodeBatch entries)) <=? k)%nat | None => true end).
  assert (drop (pe_batchSize env) (undelivered st) `suffix_of` stream st) as Hdrop.
  { etransitivity; [|exact Hs]. exists (take (pe_batchSize env) (undelivered st)). by rewrite take_drop. }
  assert (forall x, x ∈ stream st -> x ∈ drop (pe_batchSize env) (undelivered st) \/
            x ∈ unacked st \/ x ∈ entries \/ x ∈ acked st) as Hw'.
  { intros x Hx. destruct (Hw x Hx) as [Hu|[?|?]]; [|auto..].
    rewrite <- (take_drop (pe_batchSize env) (undelivered st)) in Hu. apply elem_of_app in Hu as [?|?]; auto. }
  destruct (if ok then persist_decoded _ _ _ _ else _) as [db'|e] eqn:Er.
  2: { split; cbn; [done|done|intros x Hx; rewrite elem_of_app; destruct (Hw' x Hx); tauto|].
       intros x Hx. eapply kept_mono, Hk; [done| |done]. intros y Hy. apply elem_of_app; by left. }
  destruct ok eqn:Eok; [|done]. apply persist_decoded_spec in Er as (Hrows & Hnew & _).
  destruct (pe_ack_up env); cbn.
  + split; cbn; [done|done| |].
    * intros x Hx. destruct (Hw' x Hx) as [?|[Hu|[He|?]]]; [by left| | |set_solver].
      -- destruct (ack_drops entries (unacked st) x) as [?|Hin]; [by left|by right; left|].
         apply list_elem_of_fmap in Hin as (y & Hxy & Hy). right; right.
         assert (x = y) as ->; [|set_solver]. apply (NoDup_map_inj fst pub); [done| | |done].
         ++ destruct Hp as [k ->]. set_solver.
         ++ assert (y ∈ undelivered st) as Hyu by (rewrite <- (take_drop (pe_batchSize env) (undelivered st)); set_solver).
            destruct Hs as [k1 Hs]. destruct Hp as [k2 ->]. rewrite Hs. set_solver.
      -- right; right. set_solver.
    * intros x [Hx|Hx]%elem_of_app.
      -- eapply kept_mono, Hk; [exact Hrows|set_solver|done].
      -- unfold kept; cbn. destruct (decode_entry x) as [v|p] eqn:Ev; [left; by eapply Hnew|right].
         exists p. split; [done|]. apply elem_of_app; right.
         assert ((x.1, p) ∈ db_invalid (decodeBatch entries)) as Hin.
         { cbn. apply list_elem_of_omap. exists x. by rewrite Ev. }
         unfold sent. destruct (pe_dlq_fail env) as [k|]; [|done].
         unfold ok in Eok. apply Nat.leb_le in Eok. by rewrite take_ge.
  + split; cbn; [done|done|intros x Hx; rewrite elem_of_app; destruct (Hw' x Hx); tauto|].
    intros x Hx. eapply kept_mono, Hk; [exact Hrows| |done]. intros y Hy. apply elem_of_app; by left.
Qed.

Lemma ingest_step_inv st a pub :
  NoDup (map fst (pub ++ published [a])) ->
  ingest_inv st pub -> ingest_inv (ingest_step pg st a) (pub ++ published [a]).
Proof.
  intros Hids Hinv. pose proof Hinv as [Hs Hp Hw Hk]. destruct a as [x|env| |]; cbn [published omap list_omap app] in *.
  - split; cbn.
    + destruct Hs as [k ->]. exists k. by rewrite app_assoc.
    + destruct Hp as [k ->]. exists k. by rewrite app_assoc.
    + intros y [Hy|Hy]%elem_of_app; [|set_solver]. destruct (Hw y Hy) as [?|?]; [set_solver|by right].
    + intros y Hy. exact (Hk y Hy).
  - rewrite app_nil_r in *. by apply ingest_pass_inv.
  - rewrite app_nil_r. split; cbn; [done|done|set_solver|]. intros x Hx. exact (Hk x Hx).
  - rewrite app_nil_r. split; cbn; [done|apply suffix_nil|set_solver|]. intros x Hx. exact (Hk x Hx).
Qed.

Lemma published_app a b : published (a ++ b) = published a ++ published b.
Proof. apply omap_app. Qed.
Lemma ingest_run_inv keys acts :
  NoDup (map fst (published acts)) ->
  ingest_inv (ingest_run pg (empty_db keys) acts) (published acts).
Proof.
  induction acts as [|a acts IH] using rev_ind; intros Hnd.
  - split; cbn; [done|done|set_solver|set_solver].
  - unfold ingest_run. rewrite fold_left_app, published_app in *. cbn [fold_left].
    apply ingest_step_inv; [done|]. apply IH. rewrite map_app in Hnd. by apply NoDup_app in Hnd as (? & _).
Qed.

(** C27: nothing the consumer acknowledges is lost: after any sequence of
    publications, passes (with the dead letter stream, the database or the XACK
    failing at any of them), group re-creations and stream losses, the row
    Postgres makes of the event of every acknowledged entry is in
    [usage_event], or its payload is in the dead letter stream under the
    entry's id; and an entry still on the stream is acknowledged, pending or
    still to be read. *)
Theorem acked_is_stored keys acts :
  NoDup (map fst (published acts)) ->
  let st := ingest_run pg (empty_db keys) acts in
  (forall x, x ∈ acked st ->
     (exists e r, entry_event x = Some e /\ pg_row pg e = Some r /\ row_id r ∈ map row_id (usage_event (tables st))) \/
     (exists payload, decode_entry x = inr payload /\ (x.1, payload) ∈ dlq st)) /\
  (forall x, x ∈ stream st -> x ∈ undelivered st \/ x ∈ unacked st \/ x ∈ acked st).
Proof. intros Hnd. destruct (ingest_run_inv keys acts Hnd) as [_ _ Hw Hk]. split; [exact Hk|exact Hw]. Qed.

(** What a pass reads is a batch of distinct events in canonical text. *)
Definition sound_read (st : IngestState) (a : IngestAction) : Prop :=
  match a with
  | IPass env => sound_batch pg (omap entry_event (take (pe_batchSize env) (undelivered st)))
  | _ => True
  end.
Fixpoint sound_reads (st : IngestState) (acts : list IngestAction) : Prop :=
  match acts with [] => True | a :: acts => sound_read st a /\ sound_reads (ingest_step pg st a) acts end.
(** Either the tables stay, or a batch of distinct events went through. *)
Lemma step_tables a st :
  sound_read st a ->
  tables (ingest_step pg st a) = tables st \/
  exists events n, sound_batch pg events /\ persistBatch pg (tables st) events = Ok (tables (ingest_step pg st a), n).
Proof.
  destruct a as [x|env| |]; [by left| |by left..]. cbn [ingest_step sound_read]. intros Hsb.
  unfold ingest_pass. cbn zeta. set (entries := take _ _) in *.
  destruct (match pe_dlq_fail env with Some k => _ | None => true end); [|by left]. cbn [tables].
  destruct (persist_decoded _ _ _ _) as [db|e] eqn:Ep; [|by left].
  assert (tables st = db \/ exists events n, sound_batch pg events /\ persistBatch pg (tables st) events = Ok (db, n)) as Hor.
  { revert Ep. unfold persist_decoded. destruct (db_events (decodeBatch entries)) as [|v vs] eqn:Ev; [intros [= <-]; by left|].
    rewrite <- Ev. destruct (pe_db_up env); [|done]. destruct (mapM event_of_json _) as [events|] eqn:Em; [|done].
    intros ([d n] & Hp & [= <-])%bind_ok. right. exists events, n. split; [|exact Hp].
    by apply decoded_events in Em as [-> _]. }
  destruct (pe_ack_up env); cbn [tables]; naive_solver.
Qed.
Lemma sound_run st acts : db_ok (tables st) -> sound_reads st acts -> db_ok (tables (fold_left (ingest_step pg) acts st)).
Proof.
  revert st; induction acts as [|a acts IH]; intros st Hok; [done|]. intros [Hr Hs]. cbn [fold_left]. apply IH; [|done].
  destruct (step_tables a st Hr) as [->|(events & n & Hb & Hp)]; [done|]. by eapply persist_ok.
Qed.

(** C1: at-least-once delivery counts once: over any sequence of publications,
    passes that fail anywhere, re-created groups and stream losses - the same
    entry read again and again, the same event published again - in which no
    one batch holds an event id twice and uuids come in Postgres' canonical text,
    the rows of [usage_event] are distinct and both rollup tables agree with
    them: nine counters exactly, costs within half a micro-dollar a request. *)
Theorem ingest_counts_once keys acts phi :
  sound_reads (ingest_start (empty_db keys)) acts ->
  let db := tables (ingest_run pg (empty_db keys) acts) in
  NoDup (map row_id (usage_event db)) /\
  agrees (row_total phi (usage_rollup_hourly db)) (table_total phi key_hour (usage_event db)) /\
  agrees (row_total phi (usage_rollup_daily db)) (table_total phi key_day (usage_event db)).
Proof.
  intros Hs. destruct (sound_run _ _ (empty_ok keys : db_ok (tables (ingest_start (empty_db keys)))) Hs). by split_and!.
Qed.

(** An entry a working database takes: malformed, or an accepted event whose
    counters can be added. *)
Definition digestible (x : StreamEntry) : Prop :=
  match decode_entry x with
  | inr _ => True
  | inl v => exists e c, event_of_json v = Some e /\ pg_row pg e <> None /\ date_parse (ev_occurredAt e) <> None /\
                         contribution e = Ok c
  end.
Lemma persist_digestible db entries :
  (forall x, x ∈ entries -> digestible x) ->
  exists db', persist_decoded pg true db (db_events (decodeBatch entries)) = Ok db'.
Proof.
  intros Hd. unfold persist_decoded. destruct (db_events (decodeBatch entries)) as [|v0 vs] eqn:Ev; [eauto|].
  rewrite <- Ev. destruct (mapM event_of_json (db_events (decodeBatch entries))) as [events|] eqn:Em.
  - destruct (decoded_events entries events Em) as [-> _].
    destruct (persist_succeeds pg db (omap entry_event entries)) as (db' & n & ->); [|cbn; eauto].
    intros e (x & Hx & He)%list_elem_of_omap. specialize (Hd x Hx). unfold digestible, entry_event in *.
    destruct (decode_entry x) as [v|]; [|done]. destruct Hd as (e' & c & He' & Ha & Ht & Hc).
    assert (e' = e) as -> by congruence. eauto.
  - exfalso. apply mapM_None in Em. apply Exists_exists in Em as (v & Hv & Hn). cbn in Hv.
    apply list_elem_of_omap in Hv as (x & Hx & Hv). specialize (Hd x Hx). unfold digestible in Hd.
    destruct (decode_entry x) as [w|]; [|done]. injection Hv as ->. destruct Hd as (e & _ & He & _). congruence.
Qed.
Definition healthy (n : nat) : PassEnv := mkPass n None true true.

(** C28: a consumer whose Redis and database answer makes progress when every
    entry is malformed or an event the database takes (Postgres accepts its
    row, its date is one, its counters can be added): each pass acknowledges the
    next [batchSize] entries, so as many passes as there are entries acknowledge
    them all, in order, and leave nothing to read.  One entry that is neither
    holds up its batch ([untyped_event_blocks_batch]). *)
Theorem healthy_consumer_drains n passes st :
  (0 < n)%nat -> (length (undelivered st) <= passes)%nat ->
  (forall x, x ∈ undelivered st -> digestible x) ->
  let st' := Nat.iter passes (ingest_pass pg (healthy n)) st in
  undelivered st' = [] /\ acked st' = acked st ++ undelivered st.
Proof.
  intros Hn. revert st. induction passes as [|k IH]; intros st Hlen Hdig.
  - destruct (undelivered st) eqn:E; [|cbn in Hlen; lia]. cbn. by rewrite app_nil_r.
  - cbn zeta in IH |- *. rewrite Nat.iter_succ_r. set (entries := take n (undelivered st)).
    destruct (persist_digestible (tables st) entries) as [db' Hp].
    { intros x Hx. apply Hdig. rewrite <- (take_drop n (undelivered st)). set_solver. }
    assert (undelivered (ingest_pass pg (healthy n) st) = drop n (undelivered st) /\
            acked (ingest_pass pg (healthy n) st) = acked st ++ entries) as [Hu Ha].
    { unfold ingest_pass, healthy. cbn [pe_batchSize pe_dlq_fail pe_db_up pe_ack_up tables].
      subst entries. by rewrite Hp. }
    destruct (IH (ingest_pass pg (healthy n) st)) as [-> ->]; rewrite ?Hu, ?Ha.
    + rewrite length_drop. lia.
    + intros x Hx. apply Hdig. rewrite <- (take_drop n (undelivered st)). set_solver.
    + split; [done|]. rewrite <- app_assoc. f_equal. apply take_drop.
Qed.

(** One entry that parses but is no event (here without a provider) keeps its
    whole batch out of the tables: nothing is acknowledged, nothing stored, and
    the entries are not read again by a group that asks for ">". *)
Lemma untyped_event_blocks_batch env st x v :
  x ∈ take (pe_batchSize env) (undelivered st) -> decode_entry x = inl v -> event_of_json v = None ->
  acked (ingest_pass pg env st) = acked st /\ tables (ingest_pass pg env st) = tables st.
Proof.
  intros Hx Hv Hn. unfold ingest_pass. cbn zeta. cbn [tables]. set (entries := take (pe_batchSize env) (undelivered st)) in *.
  assert (exists m, persist_decoded pg (pe_db_up env) (tables st) (db_events (decodeBatch entries)) = Throw m) as [m ->].
  { unfold persist_decoded. assert (v ∈ db_events (decodeBatch entries)) as Hin.
    { cbn. apply list_elem_of_omap. exists x. by rewrite Hv. }
    destruct (db_events (decodeBatch entries)) as [|v0 vs] eqn:Ev; [set_solver|]. rewrite <- Ev in *.
    destruct (pe_db_up env); [|eauto]. assert (mapM event_of_json (db_events (decodeBatch entries)) = None) as ->; [|eauto].
    apply mapM_None, Exists_exists. eauto. }
  by destruct (match pe_dlq_fail env with Some k => _ | None => true end).
Qed.
End consumer.

(** ** From the gateway to the tables *)

(** One new event through the transaction. *)
Lemma persist_one pg db e c db' n phi d :
  contribution e = Ok c -> canonical pg e -> dims_of e = Some d -> row_id e ∉ map row_id (usage_event db) ->
  persistBatch pg db [e] = Ok (db', n) ->
  (exists s, row_total phi (usage_rollup_hourly db') = cadd (row_total phi (usage_rollup_hourly db)) s /\
             agrees s (if phi (key_hour d) then c else czero)) /\
  (exists s, row_total phi (usage_rollup_daily db') = cadd (row_total phi (usage_rollup_daily db)) s /\
             agrees s (if phi (key_day d) then c else czero)).
Proof.
  intros Hc Hcan Hd Hnew Hp.
  assert (sound_batch pg [e]) as Hsb by (split; [apply NoDup_singleton|by constructor]).
  destruct (persist_adds _ _ _ _ _ Hsb Hp) as (_ & _ & _ & _ & Hh & Hdd).
  assert (new_rows (usage_event db) [e] = [e]) as Hn1.
  { unfold new_rows. cbn [List.filter]. destruct (existsb _ _) eqn:Ex; [|done]. by apply existsb_row in Ex. }
  rewrite Hn1 in Hh, Hdd.
  assert (forall key, table_total phi key [e] = if phi (key d) then c else czero) as Htot.
  { intros key. unfold table_total. rewrite total_cons, total_nil, cadd_zero_r. unfold in_dims, counts_of. by rewrite Hd, Hc. }
  split; [destruct (Hh phi) as (s & ? & Ha)|destruct (Hdd phi) as (s & ? & Ha)]; exists s; rewrite Htot in Ha; done.
Qed.
(** C8: what the gateway charged is what the worker adds up.  The event a
    finalizer emits, published and read back, is the same event; its five token
    counts are those of the usage (none without one), and its cost in units of
    1e-8 USD is the truncated exact price of the usage's four priced counts, or
    the provider's own cost where it reported one, or zero when the call was
    unpriced.  Persisted, it adds these counters to the hour and to the day of
    its dimensions and nothing elsewhere, the cost rounded to the six decimals
    of the rollups. *)
Theorem metered_cost_reaches_rollup f args id now f' e sid :
  finalize f args id now = (f', Ok (Some e)) -> transportable e ->
  (forall u t, fa_usage args = Some u -> upstreamCostUsd u = Some t -> exists n, t = to_fixed8 n) ->
  entry_event (published_entry sid e) = Some e /\
  exists c, contribution e = Ok c /\
    match fa_usage args with
    | Some u =>
        NInt (c_inputTokens c) = inputTokens u /\ NInt (c_outputTokens c) = outputTokens u /\
        NInt (c_cacheReadTokens c) = cacheReadTokens u /\ NInt (c_cacheWriteTokens c) = cacheWriteTokens u /\
        NInt (c_reasoningTokens c) = reasoningTokens u /\ (nu_model u <> "" -> ev_model e = nu_model u)
    | None => c_inputTokens c = 0 /\ c_outputTokens c = 0 /\ c_cacheReadTokens c = 0 /\ c_cacheWriteTokens c = 0 /\
              c_reasoningTokens c = 0
    end /\
    match fi_match (info f) (fi_provider (info f)) (ev_model e) (Some (ctx_workspaceId (fi_ctx (info f)))), fa_usage args with
    | Some p, Some u =>
        match upstreamCostUsd u with
        | Some t => exists n, t = to_fixed8 n /\ cost8 c = (if num_mant n <? 0 then -1 else 1) * fixed8_units n
        | None => exists pico, cost8 c = pico / 10 ^ 4 /\
            calculatePico (mkTokenCounts (inputTokens u) (outputTokens u) (Some (cacheReadTokens u)) (Some (cacheWriteTokens u))) p
              = Ok pico
        end
    | _, _ => cost8 c = 0
    end /\
    forall pg db db' n phi d,
      canonical pg e -> dims_of e = Some d -> row_id e ∉ map row_id (usage_event db) ->
      persistBatch pg db [e] = Ok (db', n) ->
      (exists s, row_total phi (usage_rollup_hourly db') = cadd (row_total phi (usage_rollup_hourly db)) s /\
                 agrees s (if phi (key_hour d) then c else czero)) /\
      (exists s, row_total phi (usage_rollup_daily db') = cadd (row_total phi (usage_rollup_daily db)) s /\
                 agrees s (if phi (key_day d) then c else czero)).
Proof.
  intros Hf Ht Hup. split; [by apply entry_event_published|].
  unfold finalize in Hf. destruct (done f); [discriminate Hf|].
  set (model := str_or _ _) in Hf.
  set (price := fi_match (info f) (fi_provider (info f)) model (Some (ctx_workspaceId (fi_ctx (info f))))) in Hf.
  destruct (event_cost price (fa_usage args) (fa_aborted args)) as [cost|] eqn:Ec; [|discriminate Hf].
  cbn [mbind result_bind] in Hf. injection Hf as _ <-.
  destruct Ht as (_ & _ & _ & _ & _ & _ & Hn). rewrite !Forall_cons in Hn.
  destruct Hn as ((i & Hi & _) & (o & Ho & _) & (r & Hr & _) & (w & Hw & _) & (g & Hg & _) & _).
  assert (exists c8, parseDecimalScaled cost.1 COST_SCALE = Ok c8 /\
    match price, fa_usage args with
    | Some p, Some u =>
        match upstreamCostUsd u with
        | Some t => exists n, t = to_fixed8 n /\ c8 = (if num_mant n <? 0 then -1 else 1) * fixed8_units n
        | None => exists pico, c8 = pico / 10 ^ 4 /\ calculatePico (usage_counts u) p = Ok pico
        end
    | _, _ => c8 = 0
    end) as (c8 & Hpc & Hc8).
  { revert Ec. unfold event_cost. destruct price as [p|], (fa_usage args) as [u|];
      [|intros [= <-]; exists 0; split; [vm_compute; reflexivity|done]..].
    destruct (upstreamCostUsd u) as [t|] eqn:Eu.
    - intros [= <-]. destruct (Hup u t eq_refl Eu) as [n ->]. eexists. split; [apply parse_fixed8|eauto].
    - intros (x & Hx & [= <-])%bind_ok. apply bind_ok in Hx as (pico & Hp & [= <-]).
      exists (pico / 10 ^ 4). split; [|eauto]. apply parse_pico. eapply total_charge_nonneg.
      by apply calculatePico_ok. }
  assert (exists c, contribution (build_event f args id now model price cost) = Ok c /\ c_inputTokens c = i /\
    c_outputTokens c = o /\ c_cacheReadTokens c = r /\ c_cacheWriteTokens c = w /\ c_reasoningTokens c = g /\ cost8 c = c8)
    as (c & Hc & <- & <- & <- & <- & <- & <-).
  { unfold contribution. rewrite Hi, Ho, Hr, Hw, Hg. cbn [toBigInt mbind result_bind build_event ev_costUsd]. rewrite Hpc.
    by eexists. }
  exists c. split; [done|]. split; [|split; [exact Hc8|intros; by eapply persist_one]].
  cbn [build_event ev_inputTokens ev_outputTokens ev_cacheReadTokens ev_cacheWriteTokens ev_reasoningTokens] in *.
  destruct (fa_usage args) as [u|] eqn:Eu; cbn [usage_tokens] in *.
  - split_and!; [by symmetry..|]. intros Hm. cbn. subst model. unfold str_or. by destruct (String.eqb_spec (nu_model u) "").
  - injection Hi as <-. injection Ho as <-. injection Hr as <-. injection Hw as <-. by injection Hg as <-.
Qed.

Definition example_finalizer : EventFinalizer :=
  newFinalizer (mkInfo (fun p m _ => Some (mkPriceEntry p "claude-*" "3" "15" "0.3" "3.75" SEED))
    (mkCtx "k1" "ws1" "p1" None "u1" KEY_ACTIVE None [] [] [] None) ANTHROPIC "/v1/messages" "req_1" "claude-x"
    1783851330000 0).
Definition example_args : FinalizeArgs :=
  mkArgs 200 false (Some (mkUsage "claude-x" (NInt 1001) (NInt 7) (NInt 0) (NInt 0) (NInt 0) true None)) false None.
Definition example_emitted : UsageEventMessage := Eval vm_compute in
  match (finalize example_finalizer example_args "e1" 5000000).2 with
  | Ok (Some e) => e | _ => example_event "e1" "" "" end.
Lemma example_transportable : transportable example_emitted.
Proof.
  unfold transportable, example_emitted. cbn [ev_id ev_workspaceId ev_occurredAt ev_httpStatus ev_latencyMs ev_ttftMs
    ev_inputTokens ev_outputTokens ev_cacheReadTokens ev_cacheWriteTokens ev_reasoningTokens].
  split_and!; [discriminate|discriminate|discriminate|lia|lia|intros t Ht; discriminate Ht|].
  repeat constructor; eexists; (split; [reflexivity|lia]).
Qed.
Lemma metered_cost_reaches_rollup_witness :
  entry_event (published_entry "1-0" example_emitted) = Some example_emitted /\
  exists c, contribution example_emitted = Ok c /\ NInt (c_inputTokens c) = NInt 1001 /\ NInt (c_outputTokens c) = NInt 7 /\
    exists pico, cost8 c = pico / 10 ^ 4 /\
      calculatePico (mkTokenCounts (NInt 1001) (NInt 7) (Some (NInt 0)) (Some (NInt 0)))
        (mkPriceEntry ANTHROPIC "claude-*" "3" "15" "0.3" "3.75" SEED) = Ok pico.
Proof.
  destruct (metered_cost_reaches_rollup example_finalizer example_args "e1" 5000000
            (finalize example_finalizer example_args "e1" 5000000).1 example_emitted "1-0") as (He & c & Hc & Ht & Hp & _).
  - vm_compute. reflexivity.
  - exact example_transportable.
  - intros u t Hu. vm_compute in Hu. injection Hu as <-. intros [=].
  - split; [exact He|]. exists c. split; [exact Hc|]. split; [exact (proj1 Ht)|]. split; [exact (proj1 (proj2 Ht))|exact Hp].
Defined.

Definition example_acts : list IngestAction :=
  let up := mkPass 10 None true true in
  [IPublish (published_entry "1-0" (example_event "e1" "2026-07-12T10:15:30.000Z" "0.5"));
   IPublish ("2-0", ["payload"; "{"]);
   IPass (mkPass 10 None true false); IRecreate; IPass up].
Lemma acked_is_stored_witness :
  let st := ingest_run example_pg (empty_db ∅) example_acts in
  (forall x, x ∈ acked st ->
     (exists e r, entry_event x = Some e /\ pg_row example_pg e = Some r /\ row_id r ∈ map row_id (usage_event (tables st))) \/
     (exists payload, decode_entry x = inr payload /\ (x.1, payload) ∈ dlq st)) /\
  (forall x, x ∈ stream st -> x ∈ undelivered st \/ x ∈ unacked st \/ x ∈ acked st).
Proof.
  refine (acked_is_stored example_pg ∅ example_acts _).
  cbn. repeat constructor; set_solver.
Defined.
(** The event is published twice and read three times. *)
Definition republished_acts : list IngestAction :=
  example_acts ++ [IPublish (published_entry "3-0" (example_event "e1" "2026-07-12T10:15:30.000Z" "0.5")); IPass (mkPass 10 None true true)].
Lemma ingest_counts_once_witness :
  let db := tables (ingest_run example_pg (empty_db ∅) republished_acts) in
  NoDup (map row_id (usage_event db)) /\
  agrees (row_total (fun _ => true) (usage_rollup_hourly db)) (table_total (fun _ => true) key_hour (usage_event db)) /\
  agrees (row_total (fun _ => true) (usage_rollup_daily db)) (table_total (fun _ => true) key_day (usage_event db)).
Proof.
  refine (ingest_counts_once example_pg ∅ republished_acts (fun _ => true) _).
  repeat split; apply example_sound; vm_compute; reflexivity.
Defined.
Definition example_unread : list StreamEntry :=
  [published_entry "1-0" (example_event "e1" "2026-07-12T10:15:30.000Z" "0.5"); ("2-0", ["payload"; "{"])].
Lemma healthy_consumer_drains_witness :
  let st' := Nat.iter 2 (ingest_pass example_pg (healthy 1))
               (mkIngest example_unread example_unread [] [] [] (empty_db ∅)) in
  undelivered st' = [] /\ acked st' = [] ++ example_unread.
Proof.
  apply (healthy_consumer_drains example_pg 1 2
           (mkIngest example_unread example_unread [] [] [] (empty_db ∅))); cbn [undelivered].
  - lia.
  - cbn. lia.
  - intros x Hx. unfold digestible.
    repeat (apply elem_of_cons in Hx as [->|Hx]); [..|by apply not_elem_of_nil in Hx].
    + assert (decode_entry (published_entry "1-0" (example_event "e1" "2026-07-12T10:15:30.000Z" "0.5"))
        = inl (event_json (example_event "e1" "2026-07-12T10:15:30.000Z" "0.5"))) as -> by (vm_compute; reflexivity).
      eexists _, _. split_and!; [apply event_of_event_json|discriminate|discriminate|vm_compute; reflexivity].
    + assert (decode_entry ("2-0", ["payload"; "{"]) = inr "{") as -> by (vm_compute; reflexivity). done.
Defined.
