(* ===== verification/Housekeeping.v ===== *)
(** * apps/worker/src/jobs: reconcile.ts and retention.ts

    The daily jobs over the tables of [Persist], the export jobs and the files
    of the export directory (a map from paths to modification times).  Days are
    named by their number since 1970 instead of their text. *)

From S2P Require Import Prelude JsString JsNum JsDate Shared Pricing Queue Rollups Persist.
From Stdlib Require Import Ascii.

(** ** reconcile.ts *)
Record DayAgg := mkDayAgg { da_day : Z; da_requests : Z; da_cost : Z }.
Definition day_of (t : Z) : Z := t / MS_DAY.
(** [from]: midnight UTC, [windowDays] before now. *)
Definition reconcile_from (now windowDays : Z) : Z := truncateUtc (now - windowDays * 86400000) unit_day.
Definition event_day (e : UsageEventMessage) : option Z := day_of <$> date_parse (ev_occurredAt e).
Definition since (from : Z) (e : UsageEventMessage) : bool :=
  match date_parse (ev_occurredAt e) with Some t => from <=? t | None => false end.
Definition bucket_of (k : RollupKey) : Z := match k with (b, _, _, _, _, _) => b end.
(** [GROUP BY d]: one row per day that occurs, with its sums. *)
Definition in_day {A} (day : A -> option Z) (d : Z) (x : A) : bool := bool_decide (day x = Some d).
Definition day_agg {A} (day : A -> option Z) (f : A -> Counts) (rows : list A) (d : Z) : DayAgg :=
  mkDayAgg d (requests (total (in_day day d) f rows)) (cost8 (total (in_day day d) f rows)).
Definition group_by_day {A} (day : A -> option Z) (f : A -> Counts) (rows : list A) : list DayAgg :=
  map (day_agg day f rows) (remove_dups (omap day rows)).
Definition rawRows (from : Z) (table : list UsageEventMessage) : list DayAgg :=
  group_by_day event_day counts_of (List.filter (since from) table).
Definition row_day (r : RollupRow) : option Z := Some (day_of (bucket_of (rr_key r))).
Definition rollupRows (from : Z) (daily : list RollupRow) : list DayAgg :=
  group_by_day row_day rr_counts (List.filter (fun r => from <=? bucket_of (rr_key r)) daily).
(** One turn of the loop; [1e-6] is a hundred units of 1e-8. *)
Definition drifts (rollupByDay : list DayAgg) (raw : DayAgg) : bool :=
  let roll := List.find (fun r => da_day r =? da_day raw) rollupByDay in
  let reqDrift := ((da_requests <$> roll) ?? 0) - da_requests raw in
  let costDrift := Z.abs (((da_cost <$> roll) ?? 0) - da_cost raw) in
  negb (reqDrift =? 0) || (100 <? costDrift).
Definition runReconcile (db : Db) (now windowDays : Z) : Z * Z :=
  let from := reconcile_from now windowDays in
  let raw := rawRows from (usage_event db) in
  let rollups := rollupRows from (usage_rollup_daily db) in
  (Z.of_nat (length raw), Z.of_nat (length (List.filter (drifts rollups) raw))).

(** ** retention.ts *)
Definition DELETE_BATCH : nat := 5000.
Definition expired_event (cutoff : Z) (e : UsageEventMessage) : bool :=
  match date_parse (ev_occurredAt e) with Some t => t <? cutoff | None => false end.
(** One [DELETE … WHERE ctid IN (SELECT … LIMIT n)]: the rows left, the count. *)
Fixpoint delete_batch (cutoff : Z) (limit : nat) (table : list UsageEventMessage)
  : list UsageEventMessage * nat :=
  match table with
  | [] => ([], O)
  | e :: rest =>
      match limit with
      | O => (table, O)
      | S l => if expired_event cutoff e
               then let '(t, n) := delete_batch cutoff l rest in (t, S n)
               else let '(t, n) := delete_batch cutoff limit rest in (e :: t, n)
      end
  end.
(** The [for (;;)] loop: stops at the first batch that is not full. *)
Fixpoint delete_loop (fuel batch : nat) (cutoff : Z) (table : list UsageEventMessage) (deleted : nat)
  : option (list UsageEventMessage * nat) :=
  match fuel with
  | O => None
  | S f =>
      let '(t, n) := delete_batch cutoff batch table in
      if (n <? batch)%nat then Some (t, (deleted + n)%nat) else delete_loop f batch cutoff t (deleted + n)
  end.

Record ExportFile := mkExportFile { ef_id : string; ef_filePath : option string; ef_expiresAt : option Z }.
Definition expired_job (now : Z) (j : ExportFile) : bool :=
  match ef_expiresAt j with Some t => t <? now | None => false end.
Definition export_path (dir file : string) : string := dir +:+ "/" +:+ file.
(** [readdir]: the names in the directory. *)
Definition readdir (dir : string) (fs : gmap string Z) : list string :=
  omap (fun kv => if starts_with (dir +:+ "/") kv.1 then Some (slice_from (S (String.length dir)) kv.1) else None)
    (map_to_list fs).
(** [unlink(path).then(() => n += 1).catch(() => {})] *)
Definition unlink (path : string) (acc : gmap string Z * nat) : gmap string Z * nat :=
  let '(fs, n) := acc in match fs !! path with Some _ => (delete path fs, S n) | None => (fs, n) end.
Definition unlink_expired (now : Z) (jobs : list ExportFile) (fs : gmap string Z) : gmap string Z * nat :=
  fold_left (fun acc j => match ef_filePath j with
                          | Some path => if String.eqb path "" then acc else unlink path acc
                          | None => acc
                          end) (List.filter (expired_job now) jobs) (fs, O).
Definition sweepOrphanFiles (dir : string) (now : Z) (jobs : list ExportFile) (fs : gmap string Z)
  : gmap string Z * nat :=
  let csvs := List.filter (ends_with ".csv") (readdir dir fs) in
  let known := map ef_id jobs in
  fold_left (fun acc file =>
    if bool_decide (slice_drop_last 4 file ∈ known) then acc
    else let path := export_path dir file in
         match fst acc !! path with
         | Some mtime => if 86400000 <? now - mtime then unlink path acc else acc
         | None => acc
         end) csvs (fs, O).
Record Retained := mkRetained {
  rt_events : list UsageEventMessage;
  rt_jobs : list ExportFile;
  rt_files : gmap string Z;
  rt_eventsDeleted : nat;
  rt_exportsDeleted : nat;
  rt_filesDeleted : nat;
}.
(** What follows the loop: expired jobs and their files, files nobody refers to. *)
Definition clean_exports (t : list UsageEventMessage) (n : nat) (jobs : list ExportFile) (fs : gmap string Z)
    (exportsDir : string) (now : Z) : Retained :=
  let '(fs1, unlinked) := unlink_expired now jobs fs in
  let jobs1 := List.filter (fun j => negb (expired_job now j)) jobs in
  let '(fs2, swept) := sweepOrphanFiles exportsDir now jobs1 fs1 in
  mkRetained t jobs1 fs2 n (length jobs - length jobs1) (unlinked + swept).
Definition runRetention (fuel batch : nat) (table : list UsageEventMessage) (jobs : list ExportFile)
    (fs : gmap string Z) (exportsDir : string) (now retentionDays : Z) : option Retained :=
  '(t, n) ← delete_loop fuel batch (now - retentionDays * 86400000) table O;
  Some (clean_exports t n jobs fs exportsDir now).

(** ** Reconciliation *)
Section reconcile.

Lemma total_filter {A} (phi psi : A -> bool) (f : A -> Counts) l :
  total phi f (List.filter psi l) = total (fun x => psi x && phi x) f l.
Proof.
  induction l as [|x l IH]; [done|]. cbn [List.filter]. rewrite total_cons. destruct (psi x); cbn [andb].
  - by rewrite total_cons, IH.
  - by rewrite IH, cadd_zero_l.
Qed.
(** The aggregate of a day, whether it has rows or not. *)
Lemma find_day {A} (day : A -> option Z) (f : A -> Counts) l d :
  let roll := List.find (fun r => da_day r =? d) (group_by_day day f l) in
  (da_requests <$> roll) ?? 0 = requests (total (in_day day d) f l) /\
  (da_cost <$> roll) ?? 0 = cost8 (total (in_day day d) f l).
Proof.
  cbn zeta. unfold group_by_day.
  assert (forall ds, List.find (fun r => da_day r =? d) (map (day_agg day f l) ds)
                     = if bool_decide (d ∈ ds) then Some (day_agg day f l d) else None) as ->.
  { induction ds as [|x ds IH]; [done|]. cbn [map List.find]. cbn [da_day day_agg].
    destruct (Z.eqb_spec x d) as [->|Hx]; [rewrite bool_decide_eq_true_2; [done|left]|].
    rewrite IH. destruct (bool_decide (d ∈ ds)) eqn:E; bool_to_prop;
      [rewrite bool_decide_eq_true_2; [done|by right]|rewrite bool_decide_eq_false_2; [done|]].
    intros [?|?]%elem_of_cons; congruence. }
  destruct (bool_decide (d ∈ remove_dups (omap day l))) eqn:E; bool_to_prop; [done|].
  rewrite total_none; [done|]. intros x Hx. apply bool_decide_eq_false. intros Hd. apply E.
  apply elem_of_remove_dups, list_elem_of_omap. eauto.
Qed.

Lemma from_aligned now w : reconcile_from now w mod MS_DAY = 0.
Proof. unfold reconcile_from, truncateUtc, MS_DAY. by rewrite Z.mod_mul. Qed.
Lemma day_trunc t : day_of (truncateUtc t unit_day) = day_of t.
Proof. unfold day_of, truncateUtc, MS_DAY. by rewrite Z.div_mul. Qed.
Lemma since_trunc from t : from mod MS_DAY = 0 -> (from <=? truncateUtc t unit_day) = (from <=? t).
Proof.
  intros Hf. pose proof (day_bounds t) as Hb. unfold truncateUtc, MS_DAY in *.
  pose proof (Z.div_mod from 86400000 ltac:(lia)).
  destruct (from <=? t) eqn:E; bool_to_prop; [apply Z.leb_le|apply Z.leb_gt]; [|lia].
  apply Z.div_le_mono with (c := 86400000) in E; lia.
Qed.

(** The rows and the events of one day of the window. *)
Definition window_day (from d : Z) (k : RollupKey) : bool := (from <=? bucket_of k) && (day_of (bucket_of k) =? d).
Lemma day_eqb x d : (x =? d) = bool_decide (Some x = Some d).
Proof.
  destruct (Z.eqb_spec x d) as [->|Hx]; [by rewrite bool_decide_eq_true_2|].
  rewrite bool_decide_eq_false_2; [done|congruence].
Qed.
Lemma rollup_window from d daily :
  total (in_day row_day d) rr_counts (List.filter (fun r => from <=? bucket_of (rr_key r)) daily)
  = row_total (window_day from d) daily.
Proof.
  rewrite total_filter. apply total_ext; [|done]. intros r _. unfold window_day, in_day, row_day. by rewrite day_eqb.
Qed.
Lemma event_window from d table :
  from mod MS_DAY = 0 ->
  total (in_day event_day d) counts_of (List.filter (since from) table)
  = table_total (window_day from d) key_day table.
Proof.
  intros Hf. rewrite total_filter. apply total_ext; [|done]. intros e _.
  unfold in_dims, dims_of, since, in_day, event_day. destruct (date_parse (ev_occurredAt e)) as [t|]; [|done].
  cbn [fmap option_fmap option_map]. unfold window_day.
  change (bucket_of (key_day (event_dims t e))) with (truncateUtc t unit_day).
  by rewrite since_trunc, day_trunc, day_eqb.
Qed.

(** Over the tables ingestion keeps, the daily check never finds a request
    drift; a day's rollup cost is within half a micro-dollar per request of the
    events' cost, so the only days it reports are days of at least three
    requests whose six-decimal roundings add up to more than a micro-dollar. *)
Theorem reconcile_no_request_drift db now windowDays raw :
  db_ok db -> raw ∈ rawRows (reconcile_from now windowDays) (usage_event db) ->
  let rollups := rollupRows (reconcile_from now windowDays) (usage_rollup_daily db) in
  let roll := List.find (fun r => da_day r =? da_day raw) rollups in
  (da_requests <$> roll) ?? 0 = da_requests raw /\
  Z.abs (((da_cost <$> roll) ?? 0) - da_cost raw) <= 50 * da_requests raw /\
  (drifts rollups raw = true -> 3 <= da_requests raw).
Proof.
  intros Hok Hraw. cbn zeta. pose proof (from_aligned now windowDays) as Hal.
  set (from := reconcile_from now windowDays) in *.
  apply list_elem_of_fmap in Hraw as (d & -> & _).
  destruct (find_day row_day rr_counts (List.filter (fun r => from <=? bucket_of (rr_key r)) (usage_rollup_daily db)) d)
    as [Hreq Hcost].
  pose proof (ok_day db Hok (window_day from d)) as Hag. rewrite <- rollup_window, <- event_window in Hag by done.
  destruct Hag as (Hr & _ & _ & _ & _ & _ & _ & _ & _ & Hc).
  unfold drifts. cbn [day_agg da_day da_requests da_cost]. unfold rollupRows. rewrite Hreq, Hcost.
  split_and!; [exact Hr|exact Hc|]. rewrite Hr, Z.sub_diag. intros H. cbn [Z.eqb negb orb] in H. bool_to_prop. lia.
Qed.
End reconcile.

Definition drift_event (id : string) : UsageEventMessage := example_event id "2026-07-12T10:15:30.000Z" "0.00000040".
Definition drift_db : Db := persist_all example_pg (empty_db ∅) [[drift_event "a"]; [drift_event "b"]; [drift_event "c"]].
Definition drift_now : Z := 1783900800000.    (** 2026-07-13 *)
Lemma reconcile_no_request_drift_witness :
  let rollups := rollupRows (reconcile_from drift_now 7) (usage_rollup_daily drift_db) in
  let raw := mkDayAgg 20646 3 120 in
  let roll := List.find (fun r => da_day r =? da_day raw) rollups in
  (da_requests <$> roll) ?? 0 = da_requests raw /\
  Z.abs (((da_cost <$> roll) ?? 0) - da_cost raw) <= 50 * da_requests raw /\
  (drifts rollups raw = true -> 3 <= da_requests raw).
Proof.
  apply (reconcile_no_request_drift drift_db drift_now 7).
  - unfold drift_db, persist_all. cbn [fold_left].
    do 3 (apply (persist_or_keep_ok example_pg); [by apply example_sound|]).
    apply empty_ok.
  - assert (rawRows (reconcile_from drift_now 7) (usage_event drift_db) = [mkDayAgg 20646 3 120]) as ->
      by (vm_compute; reflexivity). left.
Defined.
(** Three events of 0.4 micro-dollars in three batches are reported as drift. *)
Lemma rounding_reported_as_drift : runReconcile drift_db drift_now 7 = (1, 1).
Proof. vm_compute. reflexivity. Qed.

(** ** Retention *)
Section retention.
Context (cutoff : Z).
Implicit Types (table : list UsageEventMessage).

Definition old_events table : nat := length (List.filter (expired_event cutoff) table).
Definition kept_events table : list UsageEventMessage := List.filter (fun e => negb (expired_event cutoff e)) table.

Lemma delete_batch_spec n table :
  let '(t, k) := delete_batch cutoff n table in
  k = Nat.min n (old_events table) /\ kept_events t = kept_events table /\
  (old_events t + k)%nat = old_events table /\ ((k < n)%nat -> t = kept_events table).
Proof.
  revert n; induction table as [|e rest IH]; intros n; cbn [delete_batch].
  - unfold old_events. cbn. split_and!; [lia|done|done|done].
  - destruct n as [|l]; [cbn; split_and!; [lia|done|lia|lia]|].
    unfold old_events, kept_events in *. cbn [List.filter].
    destruct (expired_event cutoff e) eqn:E; cbn [negb].
    + specialize (IH l). destruct (delete_batch cutoff l rest) as [t k]. destruct IH as (-> & Hk & Ho & Hd).
      cbn [length]. split_and!; [lia|done|lia|]. intros Hlt. apply Hd. lia.
    + specialize (IH (S l)). destruct (delete_batch cutoff (S l) rest) as [t k]. destruct IH as (-> & Hk & Ho & Hd).
      cbn [List.filter]. rewrite E. cbn [negb]. split_and!; [lia|by f_equal|done|]. intros Hlt. f_equal. by apply Hd.
Qed.
Lemma delete_loop_spec fuel batch table deleted :
  (0 < batch)%nat -> (old_events table < fuel * batch)%nat ->
  delete_loop fuel batch cutoff table deleted = Some (kept_events table, (deleted + old_events table)%nat).
Proof.
  intros Hb. revert table deleted; induction fuel as [|f IH]; intros table deleted Hf; [lia|].
  cbn [delete_loop]. pose proof (delete_batch_spec batch table) as H.
  destruct (delete_batch cutoff batch table) as [t k]. destruct H as (Hk & Hkept & Ho & Hd).
  destruct (k <? batch)%nat eqn:E.
  - apply Nat.ltb_lt in E. rewrite Hd by done. f_equal. f_equal. lia.
  - apply Nat.ltb_ge in E. rewrite IH by lia. rewrite Hkept. f_equal. f_equal. lia.
Qed.
End retention.

Section files.

Lemma unlink_lookup path acc p : (unlink path acc).1 !! p = if bool_decide (p = path) then None else acc.1 !! p.
Proof.
  destruct acc as [fs n]. unfold unlink. destruct (fs !! path) eqn:E; cbn [fst].
  - destruct (decide (p = path)) as [->|Hne].
    + by rewrite bool_decide_eq_true_2, lookup_delete_eq.
    + by rewrite bool_decide_eq_false_2, lookup_delete_ne.
  - destruct (decide (p = path)) as [->|Hne]; [by rewrite bool_decide_eq_true_2|by rewrite bool_decide_eq_false_2].
Qed.
(** A path none of the steps names keeps its file. *)
Lemma fold_unlink_keeps {A} (f : gmap string Z * nat -> A -> gmap string Z * nat) l acc p :
  (forall acc x, x ∈ l -> (f acc x).1 !! p = acc.1 !! p) -> (fold_left f l acc).1 !! p = acc.1 !! p.
Proof.
  revert acc; induction l as [|x l IH]; intros acc H; [done|]. cbn [fold_left].
  rewrite IH by (intros; apply H; by right). apply H; left.
Qed.
Lemma slice_dir dir name : slice_from (S (String.length dir)) ((dir +:+ "/") +:+ name) = name.
Proof.
  replace (S (String.length dir)) with (String.length (dir +:+ "/")) by (rewrite length_string_app; cbn; lia).
  apply slice_from_app.
Qed.
Lemma readdir_spec dir fs name : name ∈ readdir dir fs <-> exists m, fs !! export_path dir name = Some m.
Proof.
  unfold readdir, export_path. rewrite list_elem_of_omap. split.
  - intros ([p m] & Hp & H). apply elem_of_map_to_list in Hp. cbn [fst] in H.
    destruct (starts_with (dir +:+ "/") p) eqn:E; [|done]. apply starts_with_spec in E as [t ->].
    rewrite slice_dir in H. injection H as <-. exists m. by rewrite <- string_app_assoc.
  - intros [m Hm]. exists (dir +:+ "/" +:+ name, m). split; [by apply elem_of_map_to_list|]. cbn [fst].
    rewrite <- string_app_assoc, starts_with_app. by rewrite slice_dir.
Qed.

Lemma export_path_inj dir a b : export_path dir (a +:+ ".csv") = export_path dir (b +:+ ".csv") -> a = b.
Proof.
  unfold export_path. intros H%string_app_inj_l%string_app_inj_l.
  apply (f_equal (slice_drop_last 4)) in H. change 4%nat with (String.length ".csv") in H.
  by rewrite !slice_drop_last_app in H.
Qed.

Lemma unlink_expired_keeps now jobs fs p :
  (forall j, j ∈ jobs -> expired_job now j = true -> ef_filePath j <> Some p) ->
  (unlink_expired now jobs fs).1 !! p = fs !! p.
Proof.
  intros Hp. unfold unlink_expired. rewrite fold_unlink_keeps; [done|]. intros acc j [Hj He]%in_filter.
  destruct (ef_filePath j) as [q|] eqn:Eq; [|done]. destruct (String.eqb q ""); [done|].
  rewrite unlink_lookup, bool_decide_eq_false_2; [done|]. intros ->. by apply (Hp j).
Qed.
(** The file of an expired job is gone, and unlinking brings none back. *)
Lemma unlink_sub path acc p : acc.1 !! p = None -> (unlink path acc).1 !! p = None.
Proof. intros H. rewrite unlink_lookup, H. by destruct (bool_decide _). Qed.
Lemma fold_unlink_sub {A} (f : gmap string Z * nat -> A -> gmap string Z * nat) l acc p :
  (forall acc x, acc.1 !! p = None -> (f acc x).1 !! p = None) -> acc.1 !! p = None -> (fold_left f l acc).1 !! p = None.
Proof. intros H. revert acc; induction l as [|x l IH]; intros acc Hn; [done|]. cbn [fold_left]. by apply IH, H. Qed.
Lemma unlink_expired_removes now jobs fs j p :
  j ∈ jobs -> expired_job now j = true -> ef_filePath j = Some p -> p <> "" -> (unlink_expired now jobs fs).1 !! p = None.
Proof.
  intros Hj He Hp Hne. unfold unlink_expired. assert (j ∈ List.filter (expired_job now) jobs) as Hin by (by apply in_filter).
  revert Hin. generalize (List.filter (expired_job now) jobs) as l. generalize (fs, O) as acc.
  intros acc l; revert acc; induction l as [|x l IH]; intros acc Hin; [by apply not_elem_of_nil in Hin|]. cbn [fold_left].
  apply elem_of_cons in Hin as [<-|Hin]; [|by apply IH]. rewrite Hp. destruct (String.eqb_spec p "") as [|_]; [done|].
  apply fold_unlink_sub; [|by rewrite unlink_lookup, bool_decide_eq_true_2].
  intros acc' y Hn. destruct (ef_filePath y) as [q|]; [|done]. destruct (String.eqb q ""); [done|]. by apply unlink_sub.
Qed.
Lemma sweep_sub dir now jobs fs p : fs !! p = None -> (sweepOrphanFiles dir now jobs fs).1 !! p = None.
Proof.
  intros Hn. unfold sweepOrphanFiles. apply fold_unlink_sub; [|done]. intros acc x Hacc.
  destruct (bool_decide _); [done|]. destruct (acc.1 !! export_path dir x); [|done]. destruct (_ <? _); [|done]. by apply unlink_sub.
Qed.
(** The counter counts the files that went. *)
Lemma fold_unlink_size {A} (f : gmap string Z * nat -> A -> gmap string Z * nat) l acc :
  (forall acc x, f acc x = acc \/ exists q, f acc x = unlink q acc) ->
  (size (fold_left f l acc).1 + (fold_left f l acc).2 = size acc.1 + acc.2)%nat.
Proof.
  intros H. revert acc; induction l as [|x l IH]; intros acc; [done|]. cbn [fold_left]. rewrite IH.
  destruct (H acc x) as [->|[q ->]]; [done|]. destruct acc as [fs n]. unfold unlink. cbn [fst snd].
  destruct (fs !! q) as [m|] eqn:E; [|done]. cbn [fst snd]. rewrite map_size_delete_Some by (by eexists).
  assert (size fs <> 0%nat); [|lia]. intros Hs%map_size_empty_inv. subst fs. by rewrite lookup_empty in E.
Qed.
Lemma sweep_keeps dir now jobs fs p :
  (forall name, p = export_path dir name -> ends_with ".csv" name = true ->
     (exists m, fs !! p = Some m /\ now - m <= 86400000) \/ slice_drop_last 4 name ∈ map ef_id jobs) ->
  (sweepOrphanFiles dir now jobs fs).1 !! p = fs !! p.
Proof.
  intros Hp. unfold sweepOrphanFiles. set (csvs := List.filter _ _).
  assert (forall name, name ∈ csvs -> ends_with ".csv" name = true) as Hcsv by (by intros name [_ ?]%in_filter).
  set (body := fun acc file => _). clearbody csvs.
  assert (forall l acc, (forall name, name ∈ l -> ends_with ".csv" name = true) -> acc.1 !! p = fs !! p ->
            (fold_left body l acc).1 !! p = fs !! p) as Hloop; [|by apply Hloop].
  induction l as [|name l IH]; intros acc Hc Hacc; [done|]. cbn [fold_left].
  apply IH; [intros; apply Hc; by right|]. unfold body.
  destruct (bool_decide (slice_drop_last 4 name ∈ map ef_id jobs)) eqn:Ek; bool_to_prop; [done|].
  destruct (decide (p = export_path dir name)) as [->|Hne].
  - rewrite Hacc. destruct (Hp name eq_refl (Hc name ltac:(left))) as [(m & Hm & Hd)|?]; [|done].
    rewrite Hm. destruct (86400000 <? now - m) eqn:El; [bool_to_prop; lia|by rewrite Hacc].
  - destruct (acc.1 !! export_path dir name) as [m|]; [|done]. destruct (_ <? _); [|done].
    by rewrite unlink_lookup, bool_decide_eq_false_2.
Qed.
Lemma sweep_removes dir now jobs fs name m :
  fs !! export_path dir name = Some m -> 86400000 < now - m -> ends_with ".csv" name = true ->
  slice_drop_last 4 name ∉ map ef_id jobs -> (sweepOrphanFiles dir now jobs fs).1 !! export_path dir name = None.
Proof.
  intros Hm Hage Hcsv Hid. unfold sweepOrphanFiles. set (csvs := List.filter _ _). set (p := export_path dir name) in *.
  assert (name ∈ csvs) as Hin by (apply in_filter; split; [by apply readdir_spec; exists m|done]).
  set (body := fun acc file => _). clearbody csvs.
  assert (forall acc x, acc.1 !! p = None \/ acc.1 !! p = Some m ->
            ((body acc x).1 !! p = None \/ (body acc x).1 !! p = Some m) /\ (x = name -> (body acc x).1 !! p = None)) as Hstep.
  { intros acc x Hacc. unfold body. destruct (bool_decide (slice_drop_last 4 x ∈ map ef_id jobs)) eqn:Ek; bool_to_prop.
    { split; [done|]. by intros ->. }
    assert (forall q, (unlink q acc).1 !! p = None \/ (unlink q acc).1 !! p = Some m) as Hq.
    { intros q. rewrite unlink_lookup. destruct (bool_decide (p = q)); [by left|done]. }
    split.
    - destruct (acc.1 !! export_path dir x) as [mx|]; [|done]. by destruct (_ <? _).
    - intros ->. fold p. destruct Hacc as [Hn|Hs]; [by rewrite Hn|]. rewrite Hs.
      rewrite (proj2 (Z.ltb_lt _ _) Hage). by rewrite unlink_lookup, bool_decide_eq_true_2. }
  assert (forall l acc, (acc.1 !! p = None \/ (name ∈ l /\ acc.1 !! p = Some m)) ->
            (fold_left body l acc).1 !! p = None) as Hloop; [|apply Hloop; by right].
  induction l as [|x l IH]; intros acc Hacc; cbn [fold_left]; [destruct Hacc as [?|[? _]]; [done|set_solver]|].
  apply IH. destruct (Hstep acc x) as [Hor Hx]; [tauto|]. destruct (decide (x = name)) as [->|Hne]; [left; by apply Hx|].
  destruct Hor as [?|Hs]; [by left|]. destruct Hacc as [Hn|[[?|Hl]%elem_of_cons _]]; [|congruence|right; done].
  left. revert Hs. unfold body. destruct (bool_decide _); [congruence|].
  destruct (acc.1 !! export_path dir x) as [mx|]; [|congruence].
  destruct (_ <? _); [|congruence]. rewrite unlink_lookup, Hn. by destruct (bool_decide _).
Qed.
Lemma kept_old_length c table : (length (kept_events c table) + old_events c table = length table)%nat.
Proof.
  unfold kept_events, old_events. induction table as [|e table IH]; [done|].
  cbn [List.filter]. destruct (expired_event c e); cbn [negb length]; lia.
Qed.
End files.

Lemma unlink_expired_size now jobs fs : (size (unlink_expired now jobs fs).1 + (unlink_expired now jobs fs).2 = size fs)%nat.
Proof.
  unfold unlink_expired. rewrite fold_unlink_size; [cbn; lia|]. intros acc j. destruct (ef_filePath j) as [p|]; [|by left].
  destruct (String.eqb p ""); [by left|right; by eexists].
Qed.
Lemma sweep_size dir now jobs fs : (size (sweepOrphanFiles dir now jobs fs).1 + (sweepOrphanFiles dir now jobs fs).2 = size fs)%nat.
Proof.
  unfold sweepOrphanFiles. rewrite fold_unlink_size; [cbn; lia|]. intros acc name. destruct (bool_decide _); [by left|].
  destruct (acc.1 !! export_path dir name); [|by left]. destruct (_ <? _); [right; by eexists|by left].
Qed.
Lemma expired_job_spec now j : expired_job now j = true <-> exists t, ef_expiresAt j = Some t /\ t < now.
Proof.
  unfold expired_job. destruct (ef_expiresAt j) as [t|]; [|naive_solver].
  rewrite Z.ltb_lt. split; [eauto|]. by intros (t' & [= <-] & ?).
Qed.
Lemma kept_events_spec cutoff table e :
  e ∈ kept_events cutoff table <-> e ∈ table /\ forall t, date_parse (ev_occurredAt e) = Some t -> cutoff <= t.
Proof.
  unfold kept_events, expired_event. rewrite in_filter. apply and_iff_compat_l.
  destruct (date_parse _) as [t|]; [|naive_solver]. rewrite negb_true_iff, Z.ltb_ge. naive_solver.
Qed.
Lemma filter_sublist {A} (f : A -> bool) (l : list A) : List.filter f l `sublist_of` l.
Proof. induction l as [|x l IH]; [done|]. cbn. destruct (f x); by constructor. Qed.
Lemma export_path_nonempty dir name : export_path dir name <> "".
Proof. unfold export_path. by destruct dir. Qed.

(** C29: retention removes exactly what is past its time.  With fuel for the
    table's size the loop of bounded deletes ends; the events left are those
    not older than the window, in their order, and the count is that of the
    others.  The jobs left are those without expiry or not yet expired; the
    files of the expired ones are gone, and a job that is left keeps the file
    [<id>.csv] it refers to, as does any file of the last day no expired job
    names; a [.csv] file older than a day that no remaining job refers to is
    gone; and the count of files is that of the files that went. *)
Theorem retention_removes_expired_only fuel batch table jobs fs dir now days :
  (0 < batch)%nat -> (length table < fuel * batch)%nat ->
  (forall j p, j ∈ jobs -> ef_filePath j = Some p -> p = export_path dir (ef_id j +:+ ".csv")) ->
  NoDup (map ef_id jobs) ->
  exists r, runRetention fuel batch table jobs fs dir now days = Some r /\
    let cutoff := now - days * 86400000 in
    let expired j := exists t, ef_expiresAt j = Some t /\ t < now in
    rt_events r `sublist_of` table /\
    (forall e, e ∈ rt_events r <->
       e ∈ table /\ forall t, date_parse (ev_occurredAt e) = Some t -> cutoff <= t) /\
    (length (rt_events r) + rt_eventsDeleted r = length table)%nat /\
    rt_jobs r `sublist_of` jobs /\ (forall j, j ∈ rt_jobs r <-> j ∈ jobs /\ ~ expired j) /\
    (length (rt_jobs r) + rt_exportsDeleted r = length jobs)%nat /\
    (forall j p, j ∈ jobs -> expired j -> ef_filePath j = Some p -> rt_files r !! p = None) /\
    (forall j, j ∈ rt_jobs r -> let p := export_path dir (ef_id j +:+ ".csv") in rt_files r !! p = fs !! p) /\
    (forall p m, fs !! p = Some m -> now - m <= 86400000 ->
       (forall j, j ∈ jobs -> expired j -> ef_filePath j <> Some p) -> rt_files r !! p = Some m) /\
    (forall name m, fs !! export_path dir name = Some m -> 86400000 < now - m -> ends_with ".csv" name = true ->
       (forall j, j ∈ jobs -> export_path dir name <> export_path dir (ef_id j +:+ ".csv")) ->
       rt_files r !! export_path dir name = None) /\
    (size (rt_files r) + rt_filesDeleted r = size fs)%nat.
Proof.
  intros Hb Hf Hpath Hnd. unfold runRetention. pose proof (kept_old_length (now - days * 86400000) table) as Hlen.
  rewrite delete_loop_spec by (done || lia).
  cbn [mbind option_bind]. unfold clean_exports. pose proof (unlink_expired_keeps now jobs fs) as H1.
  pose proof (unlink_expired_removes now jobs fs) as H4. pose proof (unlink_expired_size now jobs fs) as H6.
  destruct (unlink_expired now jobs fs) as [fs1 n1]. set (jobs1 := List.filter _ jobs).
  pose proof (sweep_keeps dir now jobs1 fs1) as H2. pose proof (sweep_removes dir now jobs1 fs1) as H3.
  pose proof (sweep_sub dir now jobs1 fs1) as H5. pose proof (sweep_size dir now jobs1 fs1) as H7.
  destruct (sweepOrphanFiles dir now jobs1 fs1) as [fs2 n2].
  cbn [fst snd] in *. eexists. split; [done|]. cbn zeta.
  cbn [rt_events rt_eventsDeleted rt_jobs rt_exportsDeleted rt_files rt_filesDeleted].
  pose proof (length_filterb (fun j => negb (expired_job now j)) jobs) as Hl. fold jobs1 in Hl.
  split_and!; [apply filter_sublist|by apply kept_events_spec|exact Hlen|apply filter_sublist| |lia| | | | |lia].
  - intros j. unfold jobs1. rewrite in_filter, <- expired_job_spec, negb_true_iff. by rewrite not_true_iff_false.
  - intros j p Hj He%expired_job_spec Hp. apply H5, (H4 j p Hj He Hp). rewrite (Hpath j p Hj Hp). apply export_path_nonempty.
  - intros j Hj. pose proof Hj as [Hjj Hje%negb_true_iff]%in_filter. rewrite H2, H1; [done| |].
    + intros j' Hj' He Hp'. apply (Hpath j' _ Hj') in Hp'. apply export_path_inj in Hp'.
      assert (j' = j) as -> by (by apply (NoDup_map_inj ef_id jobs)). congruence.
    + intros name Hname Hcsv. right. apply ends_with_spec in Hcsv as [t ->]. apply export_path_inj in Hname as <-.
      change 4%nat with (String.length ".csv"). rewrite slice_drop_last_app. by apply list_elem_of_fmap_2.
  - intros p m Hm Hage Hno. assert (forall j, j ∈ jobs -> expired_job now j = true -> ef_filePath j <> Some p) as Hno'.
    { intros j Hj He%expired_job_spec. by apply Hno. }
    rewrite H2, H1; [done|done|]. intros name -> _. left. exists m. by rewrite H1.
  - intros name m Hm Hage Hcsv Hno. apply (H3 name m); [|done|done|].
    + rewrite H1; [done|]. intros j Hj _ Hp. apply (Hpath j _ Hj) in Hp. by apply (Hno j).
    + intros (j & Hid & [Hj _]%in_filter)%list_elem_of_fmap. apply (Hno j Hj). rewrite <- Hid.
      apply ends_with_spec in Hcsv as [t ->]. change 4%nat with (String.length ".csv"). by rewrite slice_drop_last_app.
Qed.

Lemma retention_removes_expired_only_witness :
  let table := [example_event "e1" "2026-07-12T10:15:30.000Z" "1"; example_event "e2" "2026-01-12T10:15:30.000Z" "1"] in
  let jobs := [mkExportFile "a" (Some "/x/a.csv") (Some 5); mkExportFile "b" (Some "/x/b.csv") None] in
  let fs := {[ "/x/a.csv" := 1; "/x/b.csv" := 2; "/x/c.csv" := 3 ]} in
  exists r, runRetention 2 2 table jobs fs "/x" drift_now 90 = Some r /\
    let cutoff := drift_now - 90 * 86400000 in
    let expired j := exists t, ef_expiresAt j = Some t /\ t < drift_now in
    rt_events r `sublist_of` table /\
    (forall e, e ∈ rt_events r <->
       e ∈ table /\ forall t, date_parse (ev_occurredAt e) = Some t -> cutoff <= t) /\
    (length (rt_events r) + rt_eventsDeleted r = length table)%nat /\
    rt_jobs r `sublist_of` jobs /\ (forall j, j ∈ rt_jobs r <-> j ∈ jobs /\ ~ expired j) /\
    (length (rt_jobs r) + rt_exportsDeleted r = length jobs)%nat /\
    (forall j p, j ∈ jobs -> expired j -> ef_filePath j = Some p -> rt_files r !! p = None) /\
    (forall j, j ∈ rt_jobs r -> let p := export_path "/x" (ef_id j +:+ ".csv") in rt_files r !! p = fs !! p) /\
    (forall p m, fs !! p = Some m -> drift_now - m <= 86400000 ->
       (forall j, j ∈ jobs -> expired j -> ef_filePath j <> Some p) -> rt_files r !! p = Some m) /\
    (forall name m, fs !! export_path "/x" name = Some m -> 86400000 < drift_now - m -> ends_with ".csv" name = true ->
       (forall j, j ∈ jobs -> export_path "/x" name <> export_path "/x" (ef_id j +:+ ".csv")) ->
       rt_files r !! export_path "/x" name = None) /\
    (size (rt_files r) + rt_filesDeleted r = size fs)%nat.
Proof.
  apply retention_removes_expired_only.
  - lia.
  - cbn. lia.
  - intros j p Hj Hp. repeat (apply elem_of_cons in Hj as [->|Hj]); [..|by apply not_elem_of_nil in Hj];
      injection Hp as <-; reflexivity.
  - repeat constructor; set_solver.
Defined.
