(* ===== verification/Export.v ===== *)
(** * apps/worker/src/jobs/export-csv.ts: exporting usage events

    The export job's states and the file it writes.  The rows come page by page
    through a keyset cursor on (occurredAt, id) descending; [findMany] is the
    query it issues: filter, sort, take. *)

From S2P Require Import Prelude JsString JsNum JsDate Shared Queue.
From stdpp Require Import sorting.
From Stdlib Require Import Ascii.
#[local] Open Scope Z_scope.

Record ExportRow := mkExportRow {
  er_id : string;
  er_occurredAt : Z;
  er_workspaceId : string;
  er_projectId : string;
  er_userId : string;
  er_projectName : string;
  er_userName : string;
  er_provider : Provider;
  er_model : string;
  er_endpoint : string;
  er_status : EventStatus;
  er_httpStatus : Z;
  er_streamed : bool;
  er_inputTokens : Z;
  er_outputTokens : Z;
  er_cacheReadTokens : Z;
  er_reasoningTokens : Z;
  er_costUsd : string;       (** Decimal.toString() *)
  er_costBasis : CostBasis;
  er_latencyMs : Z;
  er_requestId : string;
}.
Record ExportFilters := mkFilters {
  xf_from : option string;
  xf_to : option string;
  xf_projectId : option string;
  xf_userId : option string;
  xf_provider : option Provider;
  xf_model : option string;
}.
Record ExportParams := mkParams {
  xp_kind : string;
  xp_filters : option ExportFilters;
  xp_scopeUserId : option string;
}.

(** ** buildEventWhere *)
(** [if (v) where.k = v] *)
Definition matches_text (v : option string) (x : string) : bool :=
  match v with None | Some "" => true | Some t => String.eqb x t end.
(** [gte: new Date(f.from)], [lt: new Date(f.to)]; Prisma throws on an invalid
    date. *)
Definition date_bound (v : option string) : js (option Z) :=
  match v with
  | None | Some "" => Ok None
  | Some t => match date_parse t with Some d => Ok (Some d) | None => Throw "Invalid Date" end
  end.
Definition no_filters : ExportFilters := mkFilters None None None None None None.
Definition buildEventWhere (workspaceId : string) (params : ExportParams) : js (ExportRow -> bool) :=
  let f := xp_filters params ?? no_filters in
  from ← date_bound (xf_from f);
  upto ← date_bound (xf_to f);
  Ok (fun r =>
    String.eqb (er_workspaceId r) workspaceId
    && matches_text (match xp_scopeUserId params with None | Some "" => xf_userId f | s => s end) (er_userId r)
    && matches_text (xf_projectId f) (er_projectId r)
    && match xf_provider f with Some p => provider_eqb (er_provider r) p | None => true end
    && matches_text (xf_model f) (er_model r)
    && match from with Some t => t <=? er_occurredAt r | None => true end
    && match upto with Some t => er_occurredAt r <? t | None => true end).

(** ** writeUsageEvents *)
Definition BATCH : nat := 1000.
Definition EXPIRY_MS : Z := 24 * 60 * 60 * 1000.
Definition EVENT_HEADER : list string :=
  ["occurredAt"; "project"; "user"; "provider"; "model"; "endpoint";
   "status"; "httpStatus"; "streamed"; "inputTokens"; "outputTokens";
   "cacheReadTokens"; "reasoningTokens"; "costUsd"; "costBasis"; "latencyMs"; "requestId"].
Definition row_cells (e : ExportRow) : list csv_value :=
  [CText (toISOString (er_occurredAt e)); CText (er_projectName e); CText (er_userName e);
   CText (provider_text (er_provider e)); CText (er_model e); CText (er_endpoint e);
   CText (status_text (er_status e)); CNum (NInt (er_httpStatus e)); CBool (er_streamed e);
   CNum (NInt (er_inputTokens e)); CNum (NInt (er_outputTokens e)); CNum (NInt (er_cacheReadTokens e));
   CNum (NInt (er_reasoningTokens e)); CText (er_costUsd e); CText (basis_text (er_costBasis e));
   CNum (NInt (er_latencyMs e)); CText (er_requestId e)].
Definition writeLine (line : string) : string := line +:+ nl.

(** [orderBy: [{ occurredAt: "desc" }, { id: "desc" }]] *)
Definition newer_first (a b : ExportRow) : Prop :=
  er_occurredAt b < er_occurredAt a \/ er_occurredAt a = er_occurredAt b /\ String.le (er_id b) (er_id a).
#[global] Instance newer_first_dec : RelDecision newer_first.
Proof. intros a b. unfold newer_first. solve_decision. Defined.
Definition after_cursor (cursor : option (Z * string)) (r : ExportRow) : bool :=
  match cursor with
  | None => true
  | Some (t, id) => (er_occurredAt r <? t)
                    || (er_occurredAt r =? t) && negb (bool_decide (String.le id (er_id r)))
  end.
Definition findMany (table : list ExportRow) (wh : ExportRow -> bool) (cursor : option (Z * string)) (n : nat)
  : list ExportRow :=
  take n (merge_sort newer_first (List.filter (fun r => wh r && after_cursor cursor r) table)).
(** The [for (;;)] loop: the rows written, in order; [None] when the fuel is
    spent. *)
Fixpoint page_loop (fuel batch : nat) (table : list ExportRow) (wh : ExportRow -> bool)
    (cursor : option (Z * string)) : option (list ExportRow) :=
  match fuel with
  | O => None
  | S f =>
      let rows := findMany table wh cursor batch in
      match last rows with
      | None => Some []
      | Some l =>
          if (length rows <? batch)%nat then Some rows
          else rest ← page_loop f batch table wh (Some (er_occurredAt l, er_id l)); Some (rows ++ rest)
      end
  end.
Definition writeUsageEvents (fuel batch : nat) (table : list ExportRow) (workspaceId : string)
    (params : ExportParams) : option (js (string * nat)) :=
  match buildEventWhere workspaceId params with
  | Throw e => Some (Throw e)
  | Ok wh =>
      rows ← page_loop fuel batch table wh None;
      Some (Ok (writeLine (csvRow (map CText EVENT_HEADER))
                +:+ JsString.join "" (map (fun e => writeLine (csvRow (row_cells e))) rows), length rows))
  end.

(** ** runExportJob *)
Inductive ExportStatus := PENDING | RUNNING | EXPORT_DONE | FAILED.
Record ExportJob := mkJob {
  xj_id : string;
  xj_workspaceId : string;
  xj_params : ExportParams;
  xj_status : ExportStatus;
  xj_rowCount : option nat;
  xj_filePath : option string;
  xj_error : option string;
  xj_expiresAt : option Z;
}.
Definition with_status (s : ExportStatus) (j : ExportJob) : ExportJob :=
  mkJob (xj_id j) (xj_workspaceId j) (xj_params j) s (xj_rowCount j) (xj_filePath j) (xj_error j) (xj_expiresAt j).
(** [io_error]: what mkdir, a query or the file stream throws, if anything.
    The result is the job row and the content of the file, when one is written
    to the end. *)
Definition runExportJob (fuel batch : nat) (table : list ExportRow) (exportsDir : string) (now : Z)
    (io_error : option string) (found : option ExportJob) : option (option ExportJob * option string) :=
  match found with
  | None => Some (None, None)
  | Some job =>
      match xj_status job with
      | EXPORT_DONE | FAILED => Some (Some job, None)
      | _ =>
          let job := with_status RUNNING job in
          let filePath := exportsDir +:+ "/" +:+ xj_id job +:+ ".csv" in
          result ← match io_error with
                   | Some e => Some (Throw e)
                   | None =>
                       if String.eqb (xp_kind (xj_params job)) "usage_events"
                       then writeUsageEvents fuel batch table (xj_workspaceId job) (xj_params job)
                       else Some (Throw ("Unsupported export kind: " +:+ xp_kind (xj_params job)))
                   end;
          Some match result with
               | Ok (text, rowCount) =>
                   (Some (mkJob (xj_id job) (xj_workspaceId job) (xj_params job) EXPORT_DONE (Some rowCount)
                            (Some filePath) (xj_error job) (Some (now + EXPIRY_MS))), Some text)
               | Throw e =>
                   (Some (mkJob (xj_id job) (xj_workspaceId job) (xj_params job) FAILED (xj_rowCount job)
                            (xj_filePath job) (Some e) (xj_expiresAt job)), None)
               end
      end
  end.

(** ** The pages are the sorted rows *)
Section pages.
Context (table : list ExportRow) (wh : ExportRow -> bool).
Definition row_key (r : ExportRow) : Z * string := (er_occurredAt r, er_id r).
(** The primary key of usage_event. *)
Hypothesis keys_distinct : NoDup (map row_key table).

#[global] Instance newer_first_trans : Transitive newer_first.
Proof.
  intros a b c [H1|[H1 L1]] [H2|[H2 L2]]; unfold newer_first; [left; lia|left; lia|left; lia|right].
  split; [congruence|]. by etransitivity.
Qed.
#[global] Instance newer_first_total : Total newer_first.
Proof.
  intros a b. unfold newer_first. destruct (Z.lt_trichotomy (er_occurredAt a) (er_occurredAt b)) as [H|[H|H]]; [auto| |auto].
  destruct (total String.le (er_id a) (er_id b)); [right; right|left; right]; auto.
Qed.
Lemma newer_first_anti a b : newer_first a b -> newer_first b a -> row_key a = row_key b.
Proof.
  intros [H1|[H1 L1]] [H2|[H2 L2]]; try lia. unfold row_key. f_equal; [done|]. by apply (anti_symm String.le).
Qed.

Definition sorted_rows : list ExportRow := merge_sort newer_first (List.filter wh table).
Lemma in_sorted r : r ∈ sorted_rows <-> r ∈ table /\ wh r = true.
Proof. unfold sorted_rows. rewrite merge_sort_Permutation, !list_elem_of_In, List.filter_In. done. Qed.
Lemma sorted_keys : NoDup (map row_key sorted_rows).
Proof.
  unfold sorted_rows.
  assert (map row_key (merge_sort newer_first (List.filter wh table)) ≡ₚ map row_key (List.filter wh table)) as ->
    by apply Permutation_map, merge_sort_Permutation.
  by apply NoDup_filter_map.
Qed.

Lemma after_cursor_spec c r :
  after_cursor (Some (row_key c)) r = true <-> newer_first c r /\ row_key c <> row_key r.
Proof.
  unfold after_cursor, row_key, newer_first. rewrite orb_true_iff, andb_true_iff, Z.ltb_lt, Z.eqb_eq, negb_true_iff, bool_decide_eq_false.
  split.
  - intros [H|[H Hle]]; [split; [by left|intros [=]; lia]|]. split; [right; split; [done|]|].
    + by destruct (total String.le (er_id r) (er_id c)).
    + intros [= _ Hid]. apply Hle. by rewrite Hid.
  - intros [[H|[H Hle]] Hne]; [by left|right]. split; [done|]. intros Hle'. apply Hne. f_equal; [done|].
    by apply (anti_symm String.le).
Qed.

(** After the cursor at a row come exactly the rows behind it. *)
Lemma rows_after pre c post :
  sorted_rows = pre ++ c :: post ->
  merge_sort newer_first (List.filter (fun r => wh r && after_cursor (Some (row_key c)) r) table) = post.
Proof.
  intros Hs. pose proof (StronglySorted_merge_sort newer_first (List.filter wh table)) as Hst.
  fold sorted_rows in Hst. pose proof sorted_keys as Hnd. rewrite Hs in Hst, Hnd.
  apply StronglySorted_app in Hst as (Hpre & _ & Hst). apply StronglySorted_inv in Hst as [Hpost Hc].
  rewrite Forall_forall in Hc. rewrite map_app, map_cons in Hnd. apply NoDup_app in Hnd as (_ & Hdis & Hnd).
  apply NoDup_cons in Hnd as [Hcn _].
  apply (StronglySorted_unique_strong newer_first).
  - intros x y Hx Hy Hxy Hyx. apply (NoDup_map_inj row_key table); [done| | |by apply newer_first_anti].
    + rewrite merge_sort_Permutation, list_elem_of_In, List.filter_In, <- list_elem_of_In in Hx. tauto.
    + apply in_sorted. rewrite Hs. set_solver.
  - apply StronglySorted_merge_sort; apply _.
  - done.
  - rewrite merge_sort_Permutation.
    rewrite filter_and, (List_filter_filter (after_cursor _)).
    rewrite <- (merge_sort_Permutation newer_first (List.filter wh table)). fold sorted_rows.
    rewrite Hs, filter_app, <- !List_filter_filter. cbn [List.filter].
    rewrite (filter_none _ pre).
    + destruct (after_cursor (Some (row_key c)) c) eqn:E; [apply after_cursor_spec in E as [_ E]; done|].
      rewrite filter_all; [done|]. intros x Hx. apply after_cursor_spec. split; [by apply Hc|].
      intros Hk. apply Hcn. rewrite Hk. by apply list_elem_of_fmap_2.
    + intros x Hx. destruct (after_cursor _ x) eqn:E; [|done]. exfalso. apply after_cursor_spec in E as [Hcx Hne].
      apply Hne. apply newer_first_anti; [done|]. apply (Hpre x c); [done|left].
Qed.

(** Enough fuel for one page per [batch] rows: the pages put together are all
    the matching rows, newest first. *)
Lemma page_loop_spec fuel batch :
  (0 < batch)%nat ->
  (forall pre c post, sorted_rows = pre ++ c :: post -> (length post < fuel * batch)%nat ->
     page_loop fuel batch table wh (Some (row_key c)) = Some post) /\
  ((length sorted_rows < fuel * batch)%nat -> page_loop fuel batch table wh None = Some sorted_rows).
Proof.
  intros Hb. induction fuel as [|f [IH _]]; [split; intros; lia|].
  assert (forall cursor l pre0, merge_sort newer_first (List.filter (fun r => wh r && after_cursor cursor r) table) = l ->
            sorted_rows = pre0 ++ l -> (length l < S f * batch)%nat ->
            page_loop (S f) batch table wh cursor = Some l) as Hstep.
  { intros cursor l pre0 Hl Hs Hlen. cbn [page_loop]. unfold findMany. rewrite Hl.
    destruct (last (take batch l)) as [c|] eqn:Elast.
    - rewrite length_take. destruct (Nat.min batch (length l) <? batch)%nat eqn:E.
      + apply Nat.ltb_lt in E. by rewrite take_ge by lia.
      + apply Nat.ltb_ge in E. apply last_Some in Elast as [pg Hpg].
        change (Some (er_occurredAt c, er_id c)) with (Some (row_key c)).
        rewrite (IH (pre0 ++ pg) c (drop batch l)); [cbn; by rewrite take_drop| |rewrite length_drop; lia].
        rewrite Hs, <- (take_drop batch l) at 1. rewrite Hpg. by rewrite <- !app_assoc.
    - apply last_None in Elast. destruct l as [|x l]; [done|]. destruct batch; [lia|done]. }
  split.
  - intros pre c post Hs Hlen. apply (Hstep _ _ (pre ++ [c])); [by eapply rows_after|by rewrite <- app_assoc|done].
  - intros Hlen. apply (Hstep _ _ []); [|done|done]. unfold sorted_rows. f_equal.
    apply List.filter_ext. intros r. by rewrite andb_true_r.
Qed.
End pages.

(** ** What an export is to contain *)
(** A filter that is wanted (and not the empty text). *)
Definition wanted (v : option string) (t : string) : Prop := v = Some t /\ t <> "".
Definition valid_bound (v : option string) : Prop := forall t, wanted v t -> is_Some (date_parse t).
(** The rows asked for: those of the workspace, of the member the export is
    scoped to or else of the user asked for, of the project, provider and model
    asked for, from the first instant on and before the last. *)
Record asked_for (workspaceId : string) (params : ExportParams) (f : ExportFilters) (r : ExportRow) : Prop := {
  af_workspace : er_workspaceId r = workspaceId;
  af_scope : forall u, wanted (xp_scopeUserId params) u -> er_userId r = u;
  af_user : forall u, wanted (xf_userId f) u -> (forall s, ~ wanted (xp_scopeUserId params) s) -> er_userId r = u;
  af_project : forall p, wanted (xf_projectId f) p -> er_projectId r = p;
  af_provider : forall p, xf_provider f = Some p -> er_provider r = p;
  af_model : forall m, wanted (xf_model f) m -> er_model r = m;
  af_from : forall t d, wanted (xf_from f) t -> date_parse t = Some d -> d <= er_occurredAt r;
  af_to : forall t d, wanted (xf_to f) t -> date_parse t = Some d -> er_occurredAt r < d;
}.
(** The columns of the file. *)
Definition columns : list (string * (ExportRow -> string)) :=
  [("occurredAt", fun r => toISOString (er_occurredAt r)); ("project", er_projectName); ("user", er_userName);
   ("provider", fun r => provider_text (er_provider r)); ("model", er_model); ("endpoint", er_endpoint);
   ("status", fun r => status_text (er_status r)); ("httpStatus", fun r => number_to_string (NInt (er_httpStatus r)));
   ("streamed", fun r => if er_streamed r then "true" else "false");
   ("inputTokens", fun r => number_to_string (NInt (er_inputTokens r))); ("outputTokens", fun r => number_to_string (NInt (er_outputTokens r)));
   ("cacheReadTokens", fun r => number_to_string (NInt (er_cacheReadTokens r)));
   ("reasoningTokens", fun r => number_to_string (NInt (er_reasoningTokens r))); ("costUsd", er_costUsd);
   ("costBasis", fun r => basis_text (er_costBasis r)); ("latencyMs", fun r => number_to_string (NInt (er_latencyMs r)));
   ("requestId", er_requestId)].
Definition record_of (r : ExportRow) : list string := map (fun c => c.2 r) columns.

Lemma row_record r : map csv_text (row_cells r) = record_of r.
Proof. reflexivity. Qed.
Lemma given_none v : (forall t, ~ wanted v t) <-> v = None \/ v = Some "".
Proof.
  unfold wanted. split.
  - intros H. destruct v as [t|]; [|by left]. destruct (String.eqb_spec t "") as [->|Hne]; [by right|]. by destruct (H t).
  - intros [-> | ->] t [[= <-] Hne]; done.
Qed.
Lemma matches_given v x : matches_text v x = true <-> forall t, wanted v t -> x = t.
Proof.
  unfold matches_text, wanted. destruct v as [[|c t]|].
  - split; [by intros _ t [[= <-] ?]|done].
  - rewrite String.eqb_eq. split; [by intros -> ? [[= <-] _]|intros H; by apply H].
  - split; [by intros _ t [[=] _]|done].
Qed.
Lemma bound_given v : match date_bound v with
  | Ok b => valid_bound v /\ forall d, b = Some d <-> exists t, wanted v t /\ date_parse t = Some d
  | Throw _ => ~ valid_bound v
  end.
Proof.
  unfold date_bound, valid_bound, wanted. destruct v as [[|c t]|].
  - split; [by intros t [[= <-] ?]|]. intros d. split; [done|]. by intros (t & [[= <-] ?] & _).
  - destruct (date_parse (String c t)) as [d|] eqn:Ed.
    + split; [intros ? [[= <-] _]; by eexists|]. intros d'. split.
      * intros [= <-]. by exists (String c t).
      * intros (? & [[= <-] _] & Hd). congruence.
    + intros H. destruct (H (String c t)) as [d Hd]; [done|congruence].
  - split; [by intros t [[=] _]|]. intros d. split; [done|]. by intros (t & [[=] _] & _).
Qed.
Lemma where_asked ws params :
  let f := xp_filters params ?? no_filters in
  match buildEventWhere ws params with
  | Ok wh => valid_bound (xf_from f) /\ valid_bound (xf_to f) /\ forall r, wh r = true <-> asked_for ws params f r
  | Throw _ => ~ (valid_bound (xf_from f) /\ valid_bound (xf_to f))
  end.
Proof.
  intros f. unfold buildEventWhere. fold f. pose proof (bound_given (xf_from f)) as Hfrom. pose proof (bound_given (xf_to f)) as Hto.
  destruct (date_bound (xf_from f)) as [from|]; cbn [mbind result_bind]; [|tauto].
  destruct (date_bound (xf_to f)) as [upto|]; cbn [mbind result_bind]; [|tauto].
  destruct Hfrom as [Hvf Hf], Hto as [Hvt Ht]. split_and!; [done..|]. intros r.
  rewrite !andb_true_iff, String.eqb_eq, !matches_given.
  assert ((match from with Some t => t <=? er_occurredAt r | None => true end) = true <->
    forall t d, wanted (xf_from f) t -> date_parse t = Some d -> d <= er_occurredAt r) as ->.
  { destruct from as [d0|].
    - rewrite Z.leb_le. split; [|intros H; destruct (proj1 (Hf d0) eq_refl) as (t & ? & ?); eauto].
      intros Hle t d Hg Hd. assert (Some d0 = Some d) as [= ->]; [|done]. apply Hf. eauto.
    - split; [|done]. intros _ t d Hg Hd. assert (None = Some d); [apply Hf; eauto|done]. }
  assert ((match upto with Some t => er_occurredAt r <? t | None => true end) = true <->
    forall t d, wanted (xf_to f) t -> date_parse t = Some d -> er_occurredAt r < d) as ->.
  { destruct upto as [d0|].
    - rewrite Z.ltb_lt. split; [|intros H; destruct (proj1 (Ht d0) eq_refl) as (t & ? & ?); eauto].
      intros Hle t d Hg Hd. assert (Some d0 = Some d) as [= ->]; [|done]. apply Ht. eauto.
    - split; [|done]. intros _ t d Hg Hd. assert (None = Some d); [apply Ht; eauto|done]. }
  assert ((match xf_provider f with Some p => provider_eqb (er_provider r) p | None => true end) = true <->
    forall p, xf_provider f = Some p -> er_provider r = p) as ->.
  { destruct (xf_provider f) as [p|]; [|naive_solver]. unfold provider_eqb. rewrite bool_decide_eq_true. naive_solver. }
  assert ((forall t, wanted (match xp_scopeUserId params with None | Some "" => xf_userId f | s => s end) t -> er_userId r = t) <->
    (forall u, wanted (xp_scopeUserId params) u -> er_userId r = u) /\
    (forall u, wanted (xf_userId f) u -> (forall s, ~ wanted (xp_scopeUserId params) s) -> er_userId r = u)) as ->.
  { destruct (xp_scopeUserId params) as [[|c s]|].
    - assert (forall s, ~ wanted (Some "") s) as Hn by (apply given_none; by right). naive_solver.
    - split; [intros H; split; [exact H|]; intros u _ Hn; by destruct (Hn (String c s))|naive_solver].
    - assert (forall s, ~ wanted None s) as Hn by (apply given_none; by left). naive_solver. }
  split; [intros ((((((? & ? & ?) & ?) & ?) & ?) & ?) & ?); by constructor|]. intros [? ? ? ? ? ? ? ?]. by split_and!.
Qed.


Definition example_row (id : string) (t : Z) (ws : string) : ExportRow :=
  mkExportRow id t ws "p1" "u1" "Alpha, Inc." "Ann" OPENAI "gpt" "/v1" OK 200 false 3 4 0 0 "0.01050000" ACTUAL 12 "req".
Definition example_table : list ExportRow :=
  [example_row "a" 1000 "ws1"; example_row "c" 2000 "ws1"; example_row "b" 2000 "ws1"; example_row "d" 3000 "ws2"].
Definition example_job : ExportJob :=
  mkJob "j1" "ws1" (mkParams "usage_events" None None) PENDING None None None None.
Definition july : ExportFilters := mkFilters (Some "1970-01-01T00:00:01Z") (Some "1970-01-01T00:00:02.500Z") None None (Some OPENAI) None.
Definition scoped_job : ExportJob :=
  mkJob "j1" "ws1" (mkParams "usage_events" (Some july) (Some "u1")) PENDING None None None None.
Example export_order :
  map er_id (sorted_rows example_table (fun r => String.eqb (er_workspaceId r) "ws1")) = ["c"; "b"; "a"].
Proof. vm_compute. reflexivity. Qed.
