(* ===== verification/Zod.v ===== *)
(** * zod: the request schemas of the API modules

    A schema reads an [option json] ([None] is [undefined]) and answers the
    typed value, or nothing when the request is refused with 400.  Only the
    combinators the modules use; the text formats [email], [uuid], [url] and
    [datetime] are the library's regular expressions and stay parameters. *)

From S2P Require Import Prelude JsString JsNum JsDate Json Shared.
From Stdlib Require Import Ascii.

Record ZodFormats := mkZod {
  z_email : string -> bool;
  z_uuid : string -> bool;
  z_url : string -> bool;
  z_datetime : string -> bool;
}.

Definition schema (A : Type) : Type := option json -> option A.

(** [s.length]: UTF-16 units of UTF-8 text. *)
Fixpoint js_length (s : string) : nat :=
  match s with
  | "" => O
  | String c r => ((if (code c <? 128)%Z then 1 else if (code c <? 192)%Z then 0 else if (code c <? 240)%Z then 1 else 2)
                   + js_length r)%nat
  end.

Definition zstring : schema string := fun v => match v with Some (JStr s) => Some s | _ => None end.
Definition zbool : schema bool := fun v => match v with Some (JBool b) => Some b | _ => None end.
(** [z.number().int()] *)
Definition zint : schema Z := fun v => match v with Some (JNum (NInt n)) => Some n | _ => None end.
Definition zrefine {A} (p : A -> bool) (z : schema A) : schema A :=
  fun v => a ← z v; if p a then Some a else None.
Definition zmap {A B} (f : A -> B) (z : schema A) : schema B := fun v => f <$> z v.
Definition zoptional {A} (z : schema A) : schema (option A) :=
  fun v => match v with None => Some None | _ => Some <$> z v end.
Definition znullable {A} (z : schema A) : schema (option A) :=
  fun v => match v with Some JNull => Some None | _ => Some <$> z v end.
Definition zdefault {A} (d : A) (z : schema A) : schema A :=
  fun v => match v with None => Some d | _ => z v end.
Definition zarray {A} (z : schema A) : schema (list A) :=
  fun v => match v with Some (JArr l) => mapM (fun x => z (Some x)) l | _ => None end.
(** [z.object({...})]: the body refuses anything but a plain object; unknown
    keys are stripped. *)
Definition zobject {A} (body : (string -> option json) -> option A) : schema A :=
  fun v => match v with Some (JObj o) => body (obj_get o) | _ => None end.
Definition zenum {A} (l : list (string * A)) : schema A :=
  fun v => s ← zstring v; snd <$> List.find (fun p => String.eqb p.1 s) l.
(** [min(a).max(b)] on a string *)
Definition zlen (a b : nat) : schema string :=
  zrefine (fun s => (a <=? js_length s)%nat && (js_length s <=? b)%nat) zstring.
Definition zmax {A} (n : nat) (z : schema (list A)) : schema (list A) :=
  zrefine (fun l => (length l <=? n)%nat) z.

(** [Number(s)] where the text is an integer or a JSON number; other forms of
    numeric text (hexadecimal, a leading plus sign) read as [NaN]. *)
Definition number_of_text (s : string) : option number :=
  let t := trim s in
  if String.eqb t "" then Some (NInt 0)
  else if all_digits t then Some (NInt (fround (digits_val t)))
  else match json_parse t with Ok (JNum n) => Some n | _ => None end.
(** [z.coerce.number()] *)
Definition zcoerce_number : schema number := fun v =>
  match v with
  | Some (JNum n) => Some n
  | Some (JStr s) => number_of_text s
  | Some JNull => Some (NInt 0)
  | Some (JBool b) => Some (NInt (if b then 1 else 0))
  | _ => None
  end.
(** [z.coerce.number().int().min(a).max(b)] *)
Definition zcoerce_int (a b : Z) : schema Z := fun v =>
  match zcoerce_number v with
  | Some (NInt n) => if (a <=? n) && (n <=? b) then Some n else None
  | _ => None
  end.
(** [z.coerce.date()]: [new Date(v)]; null is the epoch. *)
Definition zcoerce_date : schema Z := fun v =>
  match v with
  | Some (JStr s) => date_parse s
  | Some (JNum (NInt n)) => if Z.abs n <=? 8640000000000000 then Some n else None
  | Some JNull => Some 0
  | Some (JBool b) => Some (if b then 1 else 0)
  | _ => None
  end.

Definition provider_names : list (string * Provider) := map (fun p => (provider_text p, p)) PROVIDERS.
Definition zprovider : schema Provider := zenum provider_names.
Definition role_text (r : WorkspaceRole) : string :=
  match r with OWNER => "OWNER" | ADMIN => "ADMIN" | MEMBER => "MEMBER" | VIEWER => "VIEWER" end.
Definition role_names (l : list WorkspaceRole) : list (string * WorkspaceRole) :=
  map (fun r => (role_text r, r)) l.
Definition team_role_names : list (string * TeamRole) := [("LEAD", LEAD); ("MEMBER", TEAM_MEMBER)].

(** ** What a schema lets through *)
Lemma zrefine_spec {A} p (z : schema A) v a : zrefine p z v = Some a -> z v = Some a /\ p a = true.
Proof. unfold zrefine. destruct (z v) as [x|]; cbn; [|done]. destruct (p x) eqn:E; [|done]. by intros [= ->]. Qed.
Lemma zenum_in {A} (l : list (string * A)) v a : zenum l v = Some a -> a ∈ map snd l.
Proof.
  unfold zenum. destruct (zstring v) as [s|]; cbn; [|done].
  destruct (List.find _ l) as [[t x]|] eqn:E; cbn; [|done]. intros [= <-].
  apply find_some in E as [E _]. apply list_elem_of_In, in_map_iff. by exists (t, x).
Qed.
