(* ===== verification/Config.v ===== *)
(** * packages/config and the services' configuration

    packages/config/src/index.ts (shared fragments, loadConfig), config.ts of
    the API and the gateway, and the worker's in main.ts.  The environment is a
    JavaScript object of texts; an unset variable is [undefined]. *)

From S2P Require Import Prelude JsString JsNum JsDate Json Shared Queue Auth Zod Pricing Providers Translate.
From S2P Require Import FrameTap Gateway Proxy GatewayServer.
From Stdlib Require Import Ascii.

Definition ProcessEnv : Type := list (string * string).
Definition env_json (e : ProcessEnv) : json := JObj (map (fun kv => (kv.1, JStr kv.2)) e).
(** [loadConfig]: the parsed values, or an error before anything starts; the
    report of issues that follows its first line is left out. *)
Definition loadConfig {A} (schema : Zod.schema A) (source : ProcessEnv) : js A :=
  match schema (Some (env_json source)) with
  | Some a => Ok a
  | None => Throw "Invalid environment configuration"
  end.

(** ** Shared fragments *)
Inductive NodeEnv := development | test | production.
Definition node_envs : list (string * NodeEnv) := [("development", development); ("test", test); ("production", production)].
Definition log_levels : list (string * string) :=
  map (fun l => (l, l)) ["trace"; "debug"; "info"; "warn"; "error"].
Definition at_least (n : nat) : schema string := zrefine (fun s => (n <=? js_length s)%nat) zstring.

Section config.
Context (formats : ZodFormats).
Record BaseEnv := mkBase { NODE_ENV : NodeEnv; LOG_LEVEL : string; PUBLIC_BASE_URL : string }.
Definition baseEnv (k : string -> option json) : option BaseEnv :=
  node ← zdefault development (zenum node_envs) (k "NODE_ENV");
  level ← zdefault "info" (zenum log_levels) (k "LOG_LEVEL");
  url ← zdefault "http://localhost:8080" (zrefine (z_url formats) zstring) (k "PUBLIC_BASE_URL");
  Some (mkBase node level url).
Definition databaseEnv (k : string -> option json) : option string := at_least 1 (k "DATABASE_URL").
Definition redisEnv (k : string -> option json) : option string := at_least 1 (k "REDIS_URL").
Definition failure_policies : list (string * FailurePolicy) := [("FAIL_OPEN", FAIL_OPEN); ("FAIL_CLOSED", FAIL_CLOSED)].
Definition gatewayEnv (k : string -> option json) : option FailurePolicy :=
  zdefault FAIL_OPEN (zenum failure_policies) (k "GATEWAY_FAILURE_POLICY").
Definition smtpEnv (k : string -> option json) : option (option string) := zoptional zstring (k "SMTP_URL").
Definition port (default : Z) : schema Z := zdefault default (zcoerce_int 1 65535).

(** ** apps/api/src/config.ts *)
Record ApiConfig := mkApiConfig {
  ac_base : BaseEnv; ac_DATABASE_URL : string; ac_REDIS_URL : string; ac_SMTP_URL : option string;
  API_PORT : Z; JWT_SECRET : string; ac_MASTER_KEY : option string; SUPERADMIN_EMAILS : option string }.
(** [ephemeral]: the base64 text of 48 random bytes. *)
Definition apiEnv (ephemeral : string) : schema ApiConfig :=
  zobject (fun k =>
    base ← baseEnv k; database ← databaseEnv k; redis ← redisEnv k; smtp ← smtpEnv k;
    p ← port 4000 (k "API_PORT");
    jwt ← zoptional (at_least 32) (k "JWT_SECRET");
    master ← zoptional (at_least 32) (k "TOKENLEDGER_MASTER_KEY");
    admins ← zoptional zstring (k "SUPERADMIN_EMAILS");
    secret ← match jwt, NODE_ENV base with
             | Some s, _ => Some s
             | None, production => None
             | None, _ => Some ephemeral
             end;
    Some (mkApiConfig base database redis smtp p secret master admins)).

(** ** apps/gateway/src/config.ts *)
Record GatewayConfig := mkGatewayConfig {
  gc_base : BaseEnv; gc_REDIS_URL : string; GATEWAY_FAILURE_POLICY : FailurePolicy; GATEWAY_PORT : Z;
  gc_DATABASE_URL : option string; gc_MASTER_KEY : option string }.
Definition gateway_env : schema GatewayConfig :=
  zobject (fun k =>
    base ← baseEnv k; redis ← redisEnv k; policy ← gatewayEnv k;
    p ← port 4100 (k "GATEWAY_PORT");
    database ← zoptional zstring (k "DATABASE_URL");
    master ← zoptional (at_least 32) (k "TOKENLEDGER_MASTER_KEY");
    Some (mkGatewayConfig base redis policy p database master)).

(** ** apps/worker/src/main.ts *)
Record WorkerConfig := mkWorkerConfig {
  wk_base : BaseEnv; wk_DATABASE_URL : string; wk_REDIS_URL : string; INGEST_BATCH_SIZE : Z; INGEST_BLOCK_MS : Z;
  EXPORTS_DIR : option string; EVENT_RETENTION_DAYS : Z }.
Definition worker_env : schema WorkerConfig :=
  zobject (fun k =>
    base ← baseEnv k; database ← databaseEnv k; redis ← redisEnv k;
    batch ← zdefault 500 (zcoerce_int 1 5000) (k "INGEST_BATCH_SIZE");
    block ← zdefault 200 (zcoerce_int 50 5000) (k "INGEST_BLOCK_MS");
    exports ← zoptional zstring (k "EXPORTS_DIR");
    days ← zdefault 90 (zcoerce_int 1 3650) (k "EVENT_RETENTION_DAYS");
    Some (mkWorkerConfig base database redis batch block exports days)).

(** ** What an accepted environment promises *)
Lemma zcoerce_range lo hi v n : zcoerce_int lo hi v = Some n -> lo <= n <= hi.
Proof.
  unfold zcoerce_int. destruct (zcoerce_number v) as [[z|]|]; [|done..].
  destruct ((lo <=? z) && (z <=? hi)) eqn:E; [|done]. intros [= <-]. lia.
Qed.
Lemma default_range d lo hi v n : lo <= d <= hi -> zdefault d (zcoerce_int lo hi) v = Some n -> lo <= n <= hi.
Proof. intros Hd. unfold zdefault. destruct v; [apply zcoerce_range|by intros [= <-]]. Qed.
Lemma at_least_length n v s : at_least n v = Some s -> (n <= js_length s)%nat.
Proof. unfold at_least. intros [_ H]%zrefine_spec. by apply Nat.leb_le. Qed.
Lemma optional_length n v s : zoptional (at_least n) v = Some (Some s) -> (n <= js_length s)%nat.
Proof.
  unfold zoptional. destruct v; [|done]. destruct (at_least n _) eqn:E; [|done]. intros [= <-]. by eapply at_least_length.
Qed.

(** Reads one field of a schema off the equation of the whole. *)
Ltac read_field H x := match type of H with (?m ≫= _) = Some _ => destruct m as [x|] eqn:?; [cbn [mbind option_bind] in H|discriminate H] end.
(** A service that starts has its numbers in their ranges and its secrets long
    enough, and an API in production a secret it was given. *)
Theorem worker_bounds source c :
  loadConfig worker_env source = Ok c ->
  1 <= INGEST_BATCH_SIZE c <= 5000 /\ 50 <= INGEST_BLOCK_MS c <= 5000 /\ 1 <= EVENT_RETENTION_DAYS c <= 3650.
Proof.
  unfold loadConfig, worker_env, zobject. cbn [env_json]. set (k := obj_get _).
  match goal with |- context [match ?m with _ => _ end = Ok c] => destruct m as [x|] eqn:H; [|done] end. intros [= <-].
  do 7 (let f := fresh "f" in read_field H f). injection H as <-. cbn.
  repeat match goal with H : zdefault _ (zcoerce_int _ _) _ = Some _ |- _ => apply default_range in H; [|lia] end. lia.
Qed.
Theorem api_secret source ephemeral c :
  loadConfig (apiEnv ephemeral) source = Ok c ->
  1 <= API_PORT c <= 65535 /\
  ((32 <= js_length (JWT_SECRET c))%nat \/ JWT_SECRET c = ephemeral /\ NODE_ENV (ac_base c) <> production).
Proof.
  unfold loadConfig, apiEnv, zobject. cbn [env_json]. set (k := obj_get _).
  match goal with |- context [match ?m with _ => _ end = Ok c] => destruct m as [x|] eqn:H; [|done] end. intros [= <-].
  do 9 (let f := fresh "f" in read_field H f). injection H as <-. cbn. split.
  - match goal with H : port 4000 _ = Some _ |- _ => apply default_range in H; [done|lia] end.
  - match goal with H : match ?j with _ => _ end = Some _ |- _ => destruct j as [jwt|] eqn:Ej end.
    + left. simplify_eq. by eapply optional_length.
    + right. destruct (NODE_ENV f); by simplify_eq.
Qed.
End config.

Example defaults :
  loadConfig (gateway_env (mkZod (fun _ => true) (fun _ => true) (fun _ => true) (fun _ => true))) [("REDIS_URL", "redis://r")]
  = Ok (mkGatewayConfig (mkBase development "info" "http://localhost:8080") "redis://r" FAIL_OPEN 4100 None None).
Proof. reflexivity. Qed.
