(* ===== verification/Worker.v ===== *)
(** * apps/worker/src/main.ts: the worker at work

    The ingest loop of [Ingest] and the jobs of [Housekeeping] on the same
    tables, statement by statement: a job is suspended between its database
    statements, and batches are ingested meanwhile.  Shutdown on signals.
    What the rollups and the daily check mean over the life of a worker. *)

From stdpp Require Import sorting.
From S2P Require Import Prelude JsString JsNum JsDate Json Shared Pricing Queue Rollups Persist Ingest Housekeeping.
From S2P Require Import Zod Config.
From Stdlib Require Import Ascii.

(** ** The housekeeping queue *)
(** HOUSEKEEPING of packages/queue. *)
Definition HOUSEKEEPING_retention : string := "retention".
Definition HOUSEKEEPING_reconcile : string := "reconcile".
(** [runReconcile(prisma, logger)]: its [windowDays]. *)
Definition WINDOW_DAYS : Z := 7.

(** Where a job waits: in the loop of deletes, after it, or between the two
    queries of the check. *)
Inductive HousekeepingJob :=
| Pruning (cutoff : Z) (eventsDeleted : nat)
| Cleaning (eventsDeleted : nat)
| Comparing (from : Z) (raw : list DayAgg).
Inductive WorkerLog :=
| LDrift (day rawRequests rollupRequests : Z)
| LReconciled (checkedDays driftDays : Z)
| LRetained (eventsDeleted exportsDeleted filesDeleted : nat)
| LUnknownJob (name : string)
| LJobFailed.

(** The ingest loop: a turn is in flight while it runs, and may still end after
    [running = false]. *)
Inductive Loop := LoopRunning | LoopStopping | LoopStopped.
(** What [shutdown] awaits, in its order. *)
Inductive ShutdownStep := StopIngest | CloseExports | CloseHousekeeping | Disconnect | Exit.
Definition shutdown_steps : list ShutdownStep := [StopIngest; CloseExports; CloseHousekeeping; Disconnect; Exit].

(** [config.EXPORTS_DIR ?? join(tmpdir(), "tokenledger-exports")] *)
Definition exportsDir (tmpdir : string) (cfg : WorkerConfig) : string :=
  EXPORTS_DIR cfg ?? (tmpdir +:+ "/tokenledger-exports").
Record Worker := mkWorker {
  wk_ingest : IngestState;
  wk_jobs : list ExportFile;
  wk_files : gmap string Z;
  wk_job : option HousekeepingJob;       (** concurrency 1 *)
  wk_log : list WorkerLog;
  wk_loop : Loop;
  wk_shutdown : option (list ShutdownStep);   (** what is left to await *)
}.
Definition worker_start (db : Db) : Worker := mkWorker (ingest_start db) [] ∅ None [] LoopRunning None.

Inductive WorkerEvent :=
| WIngest (a : IngestAction)
| WExports (jobs : list ExportFile) (files : gmap string Z)   (** the API and the export processor *)
| WJob (name : string) (now : Z)                             (** the queue hands over a job *)
| WResume (now : Z)                                          (** the job's statement is answered *)
| WFailed                                                    (** … or rejected: the job ends *)
| WSignal                                                    (** SIGTERM, SIGINT *)
| WShutdown.                                                 (** what [shutdown] awaits has settled *)

Definition with_ingest (i : IngestState) (w : Worker) : Worker :=
  mkWorker i (wk_jobs w) (wk_files w) (wk_job w) (wk_log w) (wk_loop w) (wk_shutdown w).
Definition with_loop (l : Loop) (w : Worker) : Worker :=
  mkWorker (wk_ingest w) (wk_jobs w) (wk_files w) (wk_job w) (wk_log w) l (wk_shutdown w).
Definition with_job (j : option HousekeepingJob) (lines : list WorkerLog) (w : Worker) : Worker :=
  mkWorker (wk_ingest w) (wk_jobs w) (wk_files w) j (wk_log w ++ lines) (wk_loop w) (wk_shutdown w).
Definition with_shutdown (s : option (list ShutdownStep)) (w : Worker) : Worker :=
  mkWorker (wk_ingest w) (wk_jobs w) (wk_files w) (wk_job w) (wk_log w) (wk_loop w) s.
Definition with_table (t : list UsageEventMessage) (w : Worker) : Worker :=
  let i := wk_ingest w in
  let db := tables i in
  with_ingest (mkIngest (stream i) (undelivered i) (unacked i) (acked i) (dlq i)
                 (mkDb t (usage_rollup_hourly db) (usage_rollup_daily db) (lastUsedAt db))) w.
Definition worker_tables (w : Worker) : Db := tables (wk_ingest w).

Section worker.
Context (pg : Postgres) (tmpdir : string) (cfg : WorkerConfig).

(** The processor of the queue: the first statement of the job it names. *)
Definition process_job (name : string) (now : Z) (w : Worker) : Worker :=
  if String.eqb name HOUSEKEEPING_retention then
    with_job (Some (Pruning (now - EVENT_RETENTION_DAYS cfg * 86400000) O)) [] w
  else if String.eqb name HOUSEKEEPING_reconcile then
    let from := reconcile_from now WINDOW_DAYS in
    with_job (Some (Comparing from (rawRows from (usage_event (worker_tables w))))) [] w
  else with_job None [LUnknownJob name] w.

(** The warnings of one comparison and its last line. *)
Definition drift_warning (rollups : list DayAgg) (raw : DayAgg) : option WorkerLog :=
  if drifts rollups raw
  then Some (LDrift (da_day raw) (da_requests raw)
               ((da_requests <$> List.find (fun r => da_day r =? da_day raw) rollups) ?? 0))
  else None.
Definition compare_log (rollups raw : list DayAgg) : list WorkerLog :=
  omap (drift_warning rollups) raw
  ++ [LReconciled (Z.of_nat (length raw)) (Z.of_nat (length (List.filter (drifts rollups) raw)))].
(** The next statement of a job. *)
Definition resume_job (now : Z) (w : Worker) : Worker :=
  match wk_job w with
  | None => w
  | Some (Pruning cutoff deleted) =>
      let '(t, n) := delete_batch cutoff DELETE_BATCH (usage_event (worker_tables w)) in
      with_job (Some (if (n <? DELETE_BATCH)%nat then Cleaning (deleted + n) else Pruning cutoff (deleted + n))) []
        (with_table t w)
  | Some (Cleaning deleted) =>
      let r := clean_exports (usage_event (worker_tables w)) deleted (wk_jobs w) (wk_files w)
                 (exportsDir tmpdir cfg) now in
      mkWorker (wk_ingest w) (rt_jobs r) (rt_files r) None
        (wk_log w ++ [LRetained (rt_eventsDeleted r) (rt_exportsDeleted r) (rt_filesDeleted r)])
        (wk_loop w) (wk_shutdown w)
  | Some (Comparing from raw) =>
      with_job None (compare_log (rollupRows from (usage_rollup_daily (worker_tables w))) raw) w
  end.

(** The ingest loop and its stream; a turn that ends after [stop] is the last,
    and a missing group is not created again ([if (!running) break]). *)
Definition ingest_event (a : IngestAction) (w : Worker) : Worker :=
  let next := with_ingest (ingest_step pg (wk_ingest w) a) w in
  match a, wk_loop w with
  | IPublish _, _ | IFlushed, _ => next
  | IPass _, LoopRunning | IRecreate, LoopRunning => next
  | IPass _, LoopStopping => with_loop LoopStopped next
  | IRecreate, LoopStopping => with_loop LoopStopped w
  | _, LoopStopped => w
  end.

(** A worker of BullMQ takes no job once it is being closed, and is closed when
    its job is through. *)
Definition takes_jobs (w : Worker) : bool :=
  match wk_shutdown w with
  | Some (StopIngest :: _) | Some (CloseExports :: _) | None => true
  | _ => false
  end.
Definition signal (w : Worker) : Worker :=
  match wk_shutdown w with
  | None => with_loop LoopStopping (with_shutdown (Some shutdown_steps) w)
  | Some _ => w
  end.
Definition shutdown_step (w : Worker) : Worker :=
  match wk_shutdown w with
  | Some (StopIngest :: rest) =>
      match wk_loop w with LoopStopped => with_shutdown (Some rest) w | _ => w end
  | Some (CloseHousekeeping :: rest) =>
      match wk_job w with None => with_shutdown (Some rest) w | Some _ => w end
  | Some (_ :: rest) => with_shutdown (Some rest) w
  | _ => w
  end.

Definition worker_step (w : Worker) (e : WorkerEvent) : Worker :=
  match e with
  | WIngest a => ingest_event a w
  | WExports jobs files =>
      mkWorker (wk_ingest w) jobs files (wk_job w) (wk_log w) (wk_loop w) (wk_shutdown w)
  | WJob name now => match wk_job w with
                     | None => if takes_jobs w then process_job name now w else w
                     | Some _ => w
                     end
  | WResume now => resume_job now w
  | WFailed => match wk_job w with Some _ => with_job None [LJobFailed] w | None => w end
  | WSignal => signal w
  | WShutdown => shutdown_step w
  end.
Definition worker_run (w : Worker) (es : list WorkerEvent) : Worker := fold_left worker_step es w.
End worker.

(** ** Rows and rollups, with what was deleted *)
(** The rollups agree with every row there ever was: those stored now and those
    retention removed. *)
Record books (db : Db) (gone : list UsageEventMessage) : Prop := {
  bk_rows : NoDup (map row_id (usage_event db));
  bk_hour_keys : NoDup (map rr_key (usage_rollup_hourly db));
  bk_day_keys : NoDup (map rr_key (usage_rollup_daily db));
  bk_hour : forall phi,
    agrees (row_total phi (usage_rollup_hourly db)) (table_total phi key_hour (usage_event db ++ gone));
  bk_day : forall phi,
    agrees (row_total phi (usage_rollup_daily db)) (table_total phi key_day (usage_event db ++ gone));
}.

Section bookkeeping.
Context (pg : Postgres).

Lemma books_empty keys : books (empty_db keys) [].
Proof using. clear. split; cbn; [apply NoDup_nil_2..| |]; intros phi; apply agrees_zero. Qed.
Lemma total_swap {A} phi (f : A -> Counts) a b c : total phi f ((a ++ b) ++ c) = cadd (total phi f (a ++ c)) (total phi f b).
Proof using. clear. rewrite !total_app, !cadd_assoc. f_equal. apply cadd_comm. Qed.
Lemma books_persist db events db' n gone :
  sound_batch pg events -> persistBatch pg db events = Ok (db', n) -> books db gone -> books db' gone.
Proof.
  intros Hnd Hp [Hr Hh Hd Hah Had]. apply persist_adds in Hp as (He & _ & Hh' & Hd' & Hth & Htd); [|done..].
  split; [rewrite He; apply rows_NoDup; [done|apply Hnd]|auto|auto|..]; intros phi; rewrite He; unfold table_total; rewrite total_swap.
  - destruct (Hth phi) as (c & -> & Hc). by apply agrees_add.
  - destruct (Htd phi) as (c & -> & Hc). by apply agrees_add.
Qed.

(** The rows one bounded delete takes. *)
Definition batch_rows (cutoff : Z) (limit : nat) (table : list UsageEventMessage) : list UsageEventMessage :=
  take limit (List.filter (expired_event cutoff) table).
Lemma batch_rows_old cutoff limit table e : e ∈ batch_rows cutoff limit table -> expired_event cutoff e = true.
Proof using.
  clear. intros He. apply (in_filter _ table). unfold batch_rows in He.
  rewrite <- (take_drop limit (List.filter _ table)). apply elem_of_app. by left.
Qed.
Lemma delete_batch_rows cutoff limit table :
  (delete_batch cutoff limit table).1 `sublist_of` table /\
  forall phi f, cadd (total phi f (delete_batch cutoff limit table).1) (total phi f (batch_rows cutoff limit table))
                = total phi f table.
Proof using.
  clear. revert limit; induction table as [|e table IH]; intros limit; cbn [delete_batch].
  - split; [done|]. intros phi f. unfold batch_rows. cbn [List.filter]. by rewrite take_nil, total_nil, cadd_zero_l.
  - destruct limit as [|l]; [split; [done|]; intros; unfold batch_rows; by rewrite take_0, total_nil, cadd_zero_r|].
    unfold batch_rows. cbn [List.filter]. destruct (expired_event cutoff e).
    + destruct (IH l) as [Hs Ht]. destruct (delete_batch cutoff l table) as [t k]. cbn [fst] in *.
      split; [by apply sublist_cons|]. intros phi f. cbn [take]. rewrite !total_cons, <- (Ht phi f). unfold batch_rows.
      rewrite <- !cadd_assoc. f_equal. apply cadd_comm.
    + destruct (IH (S l)) as [Hs Ht]. destruct (delete_batch cutoff (S l) table) as [t k]. cbn [fst] in *.
      split; [by apply sublist_skip|]. intros phi f. rewrite !total_cons, <- (Ht phi f). unfold batch_rows.
      by rewrite cadd_assoc.
Qed.
Lemma books_delete cutoff limit db gone :
  books db gone ->
  books (mkDb (delete_batch cutoff limit (usage_event db)).1 (usage_rollup_hourly db) (usage_rollup_daily db) (lastUsedAt db))
    (gone ++ batch_rows cutoff limit (usage_event db)).
Proof using.
  clear. intros [Hr Hh Hd Hah Had]. destruct (delete_batch_rows cutoff limit (usage_event db)) as [Hs Ht].
  set (t := (delete_batch cutoff limit (usage_event db)).1) in *.
  assert (forall phi key, table_total phi key (t ++ gone ++ batch_rows cutoff limit (usage_event db))
                          = table_total phi key (usage_event db ++ gone)) as Heq.
  { intros phi key. unfold table_total. rewrite !total_app, <- Ht, !cadd_assoc. f_equal. apply cadd_comm. }
  split; cbn [usage_event usage_rollup_hourly usage_rollup_daily]; [|done|done|intros phi; by rewrite Heq..].
  eapply sublist_NoDup; [exact Hr|]. clear -Hs. induction Hs; cbn [map]; by constructor.
Qed.
End bookkeeping.

(** ** One comparison *)
Section comparison.
Context (from : Z).
Hypothesis from_midnight : from mod MS_DAY = 0.

Definition in_window (d : Z) (table : list UsageEventMessage) : Counts :=
  table_total (window_day from d) key_day table.
Lemma raw_row table raw : raw ∈ rawRows from table ->
  da_requests raw = requests (in_window (da_day raw) table) /\ da_cost raw = cost8 (in_window (da_day raw) table).
Proof.
  intros (d & -> & _)%list_elem_of_fmap. cbn [day_agg da_day da_requests da_cost]. by rewrite event_window.
Qed.
Lemma rollup_row daily d :
  let roll := List.find (fun r => da_day r =? d) (rollupRows from daily) in
  (da_requests <$> roll) ?? 0 = requests (row_total (window_day from d) daily) /\
  (da_cost <$> roll) ?? 0 = cost8 (row_total (window_day from d) daily).
Proof using.
  clear. unfold rollupRows. rewrite <- rollup_window. apply find_day.
Qed.
(** Rows deleted before the window do not count in it. *)
Lemma window_without_old gone d :
  (forall e, e ∈ gone -> expired_event from e = true) -> in_window d gone = czero.
Proof.
  intros Hold. apply total_none. intros e He. specialize (Hold e He). unfold expired_event in Hold.
  unfold in_dims, dims_of. destruct (date_parse (ev_occurredAt e)) as [t|]; [|done].
  cbn [fmap option_fmap option_map]. unfold window_day.
  change (bucket_of (key_day (event_dims t e))) with (truncateUtc t unit_day).
  rewrite since_trunc by done. bool_to_prop. by rewrite (proj2 (Z.leb_gt _ _)).
Qed.
Lemma books_in_window db gone d :
  books db gone -> (forall e, e ∈ gone -> expired_event from e = true) ->
  agrees (row_total (window_day from d) (usage_rollup_daily db)) (in_window d (usage_event db)).
Proof.
  intros Hb Hold. pose proof (bk_day _ _ Hb (window_day from d)) as H. unfold table_total in H. rewrite total_app in H.
  change (total _ counts_of gone) with (in_window d gone) in H. by rewrite window_without_old, cadd_zero_r in H.
Qed.
Lemma contributed_requests phi table : 0 <= requests (total phi counts_of table).
Proof using.
  clear. induction table as [|e table IH]; [done|]. rewrite total_cons. cbn [cadd requests].
  destruct (phi e); [|exact IH]. unfold counts_of at 1. destruct (contribution e) as [c|] eqn:Ec; [|exact IH].
  assert (requests c = 1) by (unfold contribution in Ec; inv_ok; done). lia.
Qed.
End comparison.

(** ** The life of a worker *)
(** The rows the statement an event stands for deletes, and those a run does. *)
Definition deleted_by (w : Worker) (e : WorkerEvent) : list UsageEventMessage :=
  match e, wk_job w with
  | WResume _, Some (Pruning cutoff _) => batch_rows cutoff DELETE_BATCH (usage_event (worker_tables w))
  | _, _ => []
  end.
Section life.
Context (pg : Postgres) (tmpdir : string) (cfg : WorkerConfig).
#[local] Notation step := (worker_step pg tmpdir cfg).
#[local] Notation running := (worker_run pg tmpdir cfg).

Fixpoint deletions (w : Worker) (es : list WorkerEvent) : list UsageEventMessage :=
  match es with [] => [] | e :: es => deleted_by w e ++ deletions (step w e) es end.
(** Every pass reads a batch of distinct events in canonical text. *)
Definition sound_event (w : Worker) (e : WorkerEvent) : Prop :=
  match e with WIngest a => sound_read pg (wk_ingest w) a | _ => True end.
Fixpoint sound_events (w : Worker) (es : list WorkerEvent) : Prop :=
  match es with [] => True | e :: es => sound_event w e /\ sound_events (step w e) es end.

(** The time of the newest retention job that can still be at work is part of
    its cutoff. *)
Definition cutoff_at (now : Z) : Z := now - EVENT_RETENTION_DAYS cfg * 86400000.
Definition retention_ran (es : list WorkerEvent) (cutoff : Z) : Prop :=
  exists now, WJob HOUSEKEEPING_retention now ∈ es /\ cutoff = cutoff_at now.

Lemma deletions_app w a b : deletions w (a ++ b) = deletions w a ++ deletions (running w a) b.
Proof using. clear. revert w; induction a as [|e a IH]; intros w; [done|]. cbn [app deletions]. by rewrite IH, app_assoc. Qed.
Lemma running_app w a b : running w (a ++ b) = running (running w a) b.
Proof using. clear. apply fold_left_app. Qed.
Lemma sound_events_app w a b : sound_events w (a ++ b) <-> sound_events w a /\ sound_events (running w a) b.
Proof using. clear. revert w; induction a as [|e a IH]; intros w; cbn [app sound_events]; [tauto|]. rewrite IH. cbn. tauto. Qed.

(** What an event does to the consumer and to the job at work. *)
Inductive effect (w : Worker) : WorkerEvent -> Worker -> Prop :=
| EIngest a w' : wk_ingest w' = ingest_step pg (wk_ingest w) a -> wk_job w' = wk_job w -> wk_log w' = wk_log w ->
    effect w (WIngest a) w'
| EDelete now c k w' : wk_job w = Some (Pruning c k) ->
    wk_ingest w' = wk_ingest (with_table (delete_batch c DELETE_BATCH (usage_event (worker_tables w))).1 w) ->
    (wk_job w' = Some (Pruning c (k + (delete_batch c DELETE_BATCH (usage_event (worker_tables w))).2)) \/
     wk_job w' = Some (Cleaning (k + (delete_batch c DELETE_BATCH (usage_event (worker_tables w))).2))) ->
    wk_log w' = wk_log w -> effect w (WResume now) w'
| ECompare now from raw w' : wk_job w = Some (Comparing from raw) -> wk_ingest w' = wk_ingest w -> wk_job w' = None ->
    wk_log w' = wk_log w ++ compare_log (rollupRows from (usage_rollup_daily (worker_tables w))) raw ->
    effect w (WResume now) w'
| EPrune now w' : wk_job w = None -> wk_ingest w' = wk_ingest w -> wk_log w' = wk_log w ->
    wk_job w' = Some (Pruning (cutoff_at now) 0) -> effect w (WJob HOUSEKEEPING_retention now) w'
| ECheck now w' : let from := reconcile_from now WINDOW_DAYS in
    wk_job w = None -> wk_ingest w' = wk_ingest w -> wk_log w' = wk_log w ->
    wk_job w' = Some (Comparing from (rawRows from (usage_event (worker_tables w)))) ->
    effect w (WJob HOUSEKEEPING_reconcile now) w'
| EKeep e w' : deleted_by w e = [] -> wk_ingest w' = wk_ingest w ->
    (wk_job w' = wk_job w \/ wk_job w' = None) ->
    (exists lines, wk_log w' = wk_log w ++ lines /\ forall d r1 r2, LDrift d r1 r2 ∉ lines) -> effect w e w'.
Lemma keep_same w e w' :
  deleted_by w e = [] -> wk_ingest w' = wk_ingest w ->
  (wk_job w' = wk_job w \/ wk_job w' = None) -> wk_log w' = wk_log w -> effect w e w'.
Proof using. clear. intros. apply EKeep; [done..|]. exists []. rewrite app_nil_r. split; [done|]. intros ? ? ?. apply not_elem_of_nil. Qed.
Lemma keep_line w e w' x :
  deleted_by w e = [] -> wk_ingest w' = wk_ingest w -> wk_job w' = None ->
  wk_log w' = wk_log w ++ [x] -> (forall d r1 r2, x <> LDrift d r1 r2) -> effect w e w'.
Proof using.
  clear. intros Hd Hi Hj Hl Hx. apply EKeep; [done..|by right|]. exists [x]. split; [done|].
  intros d r1 r2 He%list_elem_of_singleton. by apply (Hx d r1 r2).
Qed.
Lemma step_effect w e : effect w e (step w e).
Proof using.
  clear. destruct e as [a|jobs files|name now|now| | |]; cbn [worker_step].
  - destruct a; cbn [ingest_event]; [by apply EIngest| | |by apply EIngest];
      (destruct (wk_loop w); [by apply EIngest|..]; try by apply EIngest); apply keep_same; auto.
  - apply keep_same; auto.
  - destruct (wk_job w) eqn:Ej; [apply keep_same; auto|]. destruct (takes_jobs w); [|apply keep_same; auto].
    unfold process_job. destruct (String.eqb_spec name HOUSEKEEPING_retention) as [->|];
      [apply EPrune; try done; apply app_nil_r|].
    destruct (String.eqb_spec name HOUSEKEEPING_reconcile) as [->|]; [apply ECheck; try done; apply app_nil_r|].
    by apply keep_line with (LUnknownJob name).
  - unfold resume_job. destruct (wk_job w) as [[c k|k|f raw]|] eqn:Ej.
    + eapply EDelete; [done|..]; destruct (delete_batch _ _ _) as [t n];
        cbn [fst snd with_job with_table with_ingest wk_job wk_log wk_ingest]; [done| |apply app_nil_r].
      destruct (n <? DELETE_BATCH)%nat; [by right|by left].
    + eapply keep_line; cbn; [by rewrite Ej|done..].
    + by eapply ECompare.
    + apply keep_same; auto. cbn. by rewrite Ej.
  - destruct (wk_job w) eqn:Ej; [by apply keep_line with LJobFailed|apply keep_same; auto].
  - unfold signal. destruct (wk_shutdown w); apply keep_same; auto.
  - unfold shutdown_step. destruct (wk_shutdown w) as [[|[] rest]|]; try (apply keep_same; by auto);
      [destruct (wk_loop w)|destruct (wk_job w) eqn:Ej]; apply keep_same; cbn; auto.
Qed.

(** What holds all along. *)
Record life (w : Worker) (es : list WorkerEvent) (gone : list UsageEventMessage) : Prop := {
  lf_books : books (worker_tables w) gone;
  lf_gone : forall e, e ∈ gone -> exists c, retention_ran es c /\ expired_event c e = true;
  lf_job : match wk_job w with Some (Pruning c _) => retention_ran es c | _ => True end;
}.
Lemma ran_app es es' c : retention_ran es c -> retention_ran (es ++ es') c.
Proof using. clear. intros (now & ? & ?). exists now. set_solver. Qed.
Lemma life_step w es e gone :
  sound_event w e -> life w es gone ->
  life (step w e) (es ++ [e]) (gone ++ deleted_by w e).
Proof.
  intros Hnd [Hb Hg Hj]. pose proof (step_effect w e) as Heff.
  assert (forall j, match j with Some (Pruning c _) => retention_ran es c | _ => True end ->
            match j with Some (Pruning c _) => retention_ran (es ++ [e]) c | _ => True end) as Hup.
  { intros [[]|]; try done. apply ran_app. }
  assert (forall x, x ∈ gone -> exists c, retention_ran (es ++ [e]) c /\ expired_event c x = true) as Hg'.
  { intros x Hx. destruct (Hg x Hx) as (c & ? & ?). eauto using ran_app. }
  destruct Heff as [a w' Hi Hjob _|now c k w' Hjob Hi Hjob' _|now from raw w' Hjob Hi Hjob' _
    |now w' Hjob Hi _ Hjob'|now w' from Hjob Hi _ Hjob'|e w' Hd Hi Hjob _].
  - cbn [deleted_by]. rewrite app_nil_r. split; rewrite ?Hjob; [unfold worker_tables; rewrite Hi|exact Hg'|by apply Hup].
    destruct (step_tables pg a (wk_ingest w) Hnd) as [->|(evs & n & Hn & Hper)];
        [done|]. by eapply books_persist.
  - cbn [deleted_by]. rewrite Hjob. rewrite Hjob in Hj. split.
    + unfold worker_tables. rewrite Hi. by apply books_delete.
    + intros x [Hx|Hx]%elem_of_app; [by apply Hg'|]. exists c. split; [by apply ran_app|].
      by eapply batch_rows_old.
    + destruct Hjob' as [-> | ->]; [by apply ran_app|done].
  - cbn [deleted_by]. rewrite Hjob, app_nil_r. split; rewrite ?Hjob'; [unfold worker_tables; by rewrite Hi|exact Hg'|done].
  - cbn [deleted_by]. rewrite app_nil_r. split; rewrite ?Hjob'; [unfold worker_tables; by rewrite Hi|exact Hg'|].
    exists now. split; [apply elem_of_app; right; left|done].
  - cbn [deleted_by]. rewrite app_nil_r. split; rewrite ?Hjob'; [unfold worker_tables; by rewrite Hi|exact Hg'|done].
  - rewrite Hd, app_nil_r. split; [unfold worker_tables; by rewrite Hi|exact Hg'|].
    destruct Hjob as [-> | ->]; [by apply Hup|done].
Qed.
Lemma life_run keys es :
  sound_events (worker_start (empty_db keys)) es ->
  life (running (worker_start (empty_db keys)) es) es (deletions (worker_start (empty_db keys)) es).
Proof.
  induction es as [|e es IH] using rev_ind; intros Hnd.
  - split; cbn; [apply books_empty|set_solver|done].
  - rewrite running_app, deletions_app. cbn [deletions worker_run fold_left]. rewrite app_nil_r.
    apply sound_events_app in Hnd as (Hnd & He & _). by apply life_step; [|apply IH].
Qed.

(** C18: Over the life of a worker, however ingestion, the statements of retention
    and of the daily check, failures and shutdown interleave - as long as no
    batch holds an event id twice and uuids come in canonical text - stored rows
    are distinct and both rollups agree with the rows stored together with those
    retention removed (costs within half a micro-dollar a request); and it
    removed only rows older than its window. *)
Theorem worker_keeps_the_books keys es phi :
  let start := worker_start (empty_db keys) in
  sound_events start es ->
  let db := worker_tables (running start es) in
  let ever := usage_event db ++ deletions start es in
  NoDup (map row_id (usage_event db)) /\
  agrees (row_total phi (usage_rollup_hourly db)) (table_total phi key_hour ever) /\
  agrees (row_total phi (usage_rollup_daily db)) (table_total phi key_day ever) /\
  (forall e, e ∈ deletions start es ->
     exists now t, WJob HOUSEKEEPING_retention now ∈ es /\ date_parse (ev_occurredAt e) = Some t /\
                   t < now - EVENT_RETENTION_DAYS cfg * 86400000).
Proof.
  intros start Hnd db ever. destruct (life_run keys es Hnd) as [[Hr _ _ Hh Hd] Hg _].
  split_and!; [exact Hr|apply Hh|apply Hd|]. intros e He. destruct (Hg e He) as (c & (now & Hin & ->) & Hc).
  unfold expired_event in Hc. destruct (date_parse _) as [t|] eqn:Et; [|done]. apply Z.ltb_lt in Hc. eauto.
Qed.

(** ** The daily check *)
Definition job_times (es : list WorkerEvent) : list Z :=
  omap (fun e => match e with WJob _ now => Some now | _ => None end) es.
(** Events between the two queries of a check that store no batch and do not
    end it. *)
Definition quiet (e : WorkerEvent) : bool :=
  match e with WIngest (IPass _) | WResume _ | WFailed => false | _ => true end.
Hypothesis long_retention : WINDOW_DAYS < EVENT_RETENTION_DAYS cfg.

Lemma expired_mono c c' e : c <= c' -> expired_event c e = true -> expired_event c' e = true.
Proof using. clear. unfold expired_event. destruct (date_parse _); [|done]. intros ? ?%Z.ltb_lt. apply Z.ltb_lt. lia. Qed.
Lemma old_before_window es gone w now :
  life w es gone -> StronglySorted Z.le (job_times es ++ [now]) ->
  forall e, e ∈ gone -> expired_event (reconcile_from now WINDOW_DAYS) e = true.
Proof.
  intros Hl Hs e He. destruct (lf_gone _ _ _ Hl e He) as (c & (n & Hn & ->) & Hold). revert Hold. apply expired_mono.
  assert (n <= now) as Hle.
  { eapply (StronglySorted_app_1_elem_of Z.le (job_times es) [now]); [done| |left].
    apply list_elem_of_omap. by exists (WJob HOUSEKEEPING_retention n). }
  unfold cutoff_at, reconcile_from, WINDOW_DAYS in *. pose proof (day_bounds (now - 7 * 86400000)). lia.
Qed.
(** What the first query read is what the rollups say. *)
Lemma check_exact es gone w now raw :
  life w es gone -> StronglySorted Z.le (job_times es ++ [now]) ->
  let from := reconcile_from now WINDOW_DAYS in
  raw ∈ rawRows from (usage_event (worker_tables w)) ->
  let roll := row_total (window_day from (da_day raw)) (usage_rollup_daily (worker_tables w)) in
  da_requests raw = requests roll /\ Z.abs (cost8 roll - da_cost raw) <= 50 * da_requests raw.
Proof.
  intros Hl Hs from Hraw roll. pose proof (from_aligned now WINDOW_DAYS) as Hal. fold from in Hal.
  destruct (raw_row from Hal _ _ Hraw) as [Hreq Hcost].
  pose proof (books_in_window from Hal _ _ (da_day raw) (lf_books _ _ _ Hl) (old_before_window _ _ _ _ Hl Hs)) as Hag.
  fold roll in Hag. unfold agrees in Hag. lia.
Qed.
Lemma drift_lines rollups raw d r1 r2 :
  LDrift d r1 r2 ∈ compare_log rollups raw ->
  exists r, r ∈ raw /\ drifts rollups r = true /\ r1 = da_requests r /\
            r2 = (da_requests <$> List.find (fun x => da_day x =? da_day r) rollups) ?? 0.
Proof using.
  clear. unfold compare_log. intros [(r & Hr & Hw)%list_elem_of_omap|H%list_elem_of_singleton]%elem_of_app; [|done].
  unfold drift_warning in Hw. destruct (drifts rollups r) eqn:E; [|done]. injection Hw as _ <- <-. eauto.
Qed.
(** A batch never lowers a day's requests. *)
Lemma ingest_grows i a phi :
  sound_read pg i a ->
  requests (row_total phi (usage_rollup_daily (tables i)))
  <= requests (row_total phi (usage_rollup_daily (tables (ingest_step pg i a)))).
Proof using.
  clear. intros Hnd. destruct (step_tables pg a i Hnd) as [->|(evs & n & Hn & Hp)]; [done|].
  apply persist_adds in Hp as (_ & _ & _ & _ & _ & Hd); [|done..]. destruct (Hd phi) as (c & -> & Hc & _).
  cbn [cadd requests]. rewrite Hc. unfold table_total.
  pose proof (contributed_requests (in_dims (λ d, phi (key_day d))) (new_rows (usage_event (tables i)) evs)). lia.
Qed.

(** No check under way has read more of a day than the rollups hold. *)
Record checks (w : Worker) : Prop := {
  ck_job : match wk_job w with
           | Some (Comparing from raw) => forall r, r ∈ raw ->
               da_requests r <= requests (row_total (window_day from (da_day r)) (usage_rollup_daily (worker_tables w)))
           | _ => True
           end;
  ck_log : forall d r1 r2, LDrift d r1 r2 ∈ wk_log w -> r1 <= r2;
}.
Lemma job_times_app a b : job_times (a ++ b) = job_times a ++ job_times b.
Proof using. clear. apply omap_app. Qed.
Lemma checks_step w es e gone :
  sound_event w e -> StronglySorted Z.le (job_times (es ++ [e])) ->
  life w es gone -> checks w -> checks (step w e).
Proof.
  intros Hnd Hs Hl [Hj Hlog]. rewrite job_times_app in Hs.
  destruct (step_effect w e) as [a w' Hi Hjob Hlg|now c k w' Hjob Hi Hjob' Hlg|now from raw w' Hjob Hi Hjob' Hlg
    |now w' Hjob Hi Hlg Hjob'|now w' from Hjob Hi Hlg Hjob'|e w' Hd Hi Hjob (lines & Hlg & Hno)].
  - split; rewrite ?Hjob, ?Hlg; [|done]. destruct (wk_job w) as [[| |from raw]|]; [done..| |done].
    intros r Hr. etransitivity; [by apply Hj|]. unfold worker_tables. rewrite Hi.
    by apply ingest_grows.
  - split; [by destruct Hjob' as [-> | ->]|by rewrite Hlg].
  - split; [by rewrite Hjob'|]. rewrite Hlg. intros d r1 r2 [?|Hin]%elem_of_app; [by eapply Hlog|].
    apply drift_lines in Hin as (r & Hr & _ & -> & ->). destruct (rollup_row from (usage_rollup_daily (worker_tables w)) (da_day r)) as [-> _].
    rewrite Hjob in Hj. by apply Hj.
  - split; [by rewrite Hjob'|by rewrite Hlg].
  - split; [|by rewrite Hlg]. rewrite Hjob'. unfold worker_tables at 2. rewrite Hi. intros r Hr.
    destruct (check_exact es gone w now r Hl Hs Hr) as [-> _]. done.
  - split; [|rewrite Hlg; intros d r1 r2 [?|Hin]%elem_of_app; [by eapply Hlog|by destruct (Hno d r1 r2)]].
    unfold worker_tables. rewrite Hi. by destruct Hjob as [-> | ->].
Qed.
Lemma checks_run keys es :
  sound_events (worker_start (empty_db keys)) es -> StronglySorted Z.le (job_times es) ->
  checks (running (worker_start (empty_db keys)) es).
Proof.
  induction es as [|e es IH] using rev_ind; intros Hnd Hs.
  - split; cbn; [done|]. intros ? ? ? H. by apply not_elem_of_nil in H.
  - rewrite running_app. cbn [worker_run fold_left].
    apply sound_events_app in Hnd as (Hnd & He & _).
    eapply checks_step; [exact He|exact Hs|by apply life_run|]. apply IH; [done|].
    rewrite job_times_app in Hs. by eapply StronglySorted_app_1_l.
Qed.
(** What a check read stays as it was through quiet events. *)
Lemma quiet_step w e j : quiet e = true -> wk_job w = Some j ->
  wk_job (step w e) = Some j /\ wk_log (step w e) = wk_log w /\
  usage_rollup_daily (worker_tables (step w e)) = usage_rollup_daily (worker_tables w).
Proof using.
  clear. intros Hq Hj. destruct e as [[]|jobs files|name now|now| | |]; try done; cbn [worker_step].
  - cbn. by destruct (wk_loop w).
  - by rewrite Hj.
  - unfold signal. by destruct (wk_shutdown w).
  - unfold shutdown_step. rewrite Hj. destruct (wk_shutdown w) as [[|[] rest]|]; try done. by destruct (wk_loop w).
Qed.
Lemma quiet_run w es j : forallb quiet es = true -> wk_job w = Some j ->
  wk_job (running w es) = Some j /\ wk_log (running w es) = wk_log w /\
  usage_rollup_daily (worker_tables (running w es)) = usage_rollup_daily (worker_tables w).
Proof using.
  clear. revert w; induction es as [|e es IH]; intros w Hq Hj; [done|]. cbn in Hq. apply andb_true_iff in Hq as [Hq Hqs].
  destruct (quiet_step w e j Hq Hj) as (Hj' & <- & <-). by apply IH.
Qed.

(** C19: Where retention keeps more than the seven days the daily check looks back
    on, the clock does not run backwards and no batch holds an event id twice
    (uuids in canonical text): however its two queries interleave with
    ingestion, the deletes of retention, failures and shutdown, a check never
    warns of rollups that lack requests; and when no batch was stored between
    its two queries, it warns of costs only, on days with at least three
    requests. *)
Theorem daily_check_is_honest keys es :
  sound_events (worker_start (empty_db keys)) es -> StronglySorted Z.le (job_times es) ->
  let start := worker_start (empty_db keys) in
  (forall d raw rollup, LDrift d raw rollup ∈ wk_log (running start es) -> raw <= rollup) /\
  (forall before now between now',
     es = before ++ [WJob HOUSEKEEPING_reconcile now] ++ between ++ [WResume now'] ->
     wk_job (running start before) = None -> takes_jobs (running start before) = true ->
     forallb quiet between = true ->
     exists lines, wk_log (running start es) = wk_log (running start before) ++ lines /\
       forall d raw rollup, LDrift d raw rollup ∈ lines -> raw = rollup /\ 3 <= raw).
Proof.
  intros Hnd Hs start. split; [apply (checks_run keys es Hnd Hs)|].
  intros before now between now' -> Hidle Htakes Hq. set (w := running start before) in *.
  apply sound_events_app in Hnd as (Hnd & _).
  assert (StronglySorted Z.le (job_times before ++ [now])) as Hs1.
  { rewrite app_assoc, job_times_app in Hs. apply StronglySorted_app_1_l in Hs. by rewrite job_times_app in Hs. }
  rewrite !running_app. fold w. set (from := reconcile_from now WINDOW_DAYS).
  set (raw := rawRows from (usage_event (worker_tables w))).
  assert (running w [WJob HOUSEKEEPING_reconcile now] = with_job (Some (Comparing from raw)) [] w) as ->.
  { cbn [worker_run fold_left worker_step]. by rewrite Hidle, Htakes. }
  destruct (quiet_run (with_job (Some (Comparing from raw)) [] w) between _ Hq eq_refl) as (Hj & Hlog & Hday).
  set (w2 := running _ between) in *. cbn [worker_run fold_left worker_step]. unfold resume_job. rewrite Hj.
  cbn [wk_log with_job]. rewrite Hlog. cbn [wk_log with_job]. rewrite app_nil_r. eexists. split; [done|].
  intros d r1 r2 (r & Hr & Hdrift & -> & ->)%drift_lines. revert Hdrift. unfold drifts. rewrite Hday.
  change (worker_tables (with_job _ _ w)) with (worker_tables w).
  destruct (rollup_row from (usage_rollup_daily (worker_tables w)) (da_day r)) as [-> ->].
  destruct (check_exact before _ w now r (life_run keys before Hnd) Hs1 Hr) as [-> Hcost]. rewrite Z.sub_diag.
  change (negb (0 =? 0)) with false. cbn [orb]. intros Hd%Z.ltb_lt. fold from in Hcost |- *. split; [done|]. lia.
Qed.
End life.

(** ** Shutdown *)
Section shutdown.
Context (pg : Postgres) (tmpdir : string) (cfg : WorkerConfig).

(** The database connection is being or has been closed. *)
Definition leaving (w : Worker) : bool :=
  match wk_shutdown w with Some [] | Some (Disconnect :: _) | Some (Exit :: _) => true | _ => false end.
(** What [shutdown] still awaits are the last of its steps, and what they wait
    for stays settled. *)
Definition shutdown_ok (w : Worker) : Prop :=
  match wk_shutdown w with
  | None => True
  | Some rest =>
      rest `suffix_of` shutdown_steps /\
      match rest with
      | StopIngest :: _ => True
      | CloseExports :: _ | CloseHousekeeping :: _ => wk_loop w = LoopStopped
      | _ => wk_loop w = LoopStopped /\ wk_job w = None
      end
  end.
Lemma ingest_event_shutdown a w :
  wk_shutdown (ingest_event pg a w) = wk_shutdown w /\ wk_job (ingest_event pg a w) = wk_job w /\
  (wk_loop w = LoopStopped -> wk_loop (ingest_event pg a w) = LoopStopped).
Proof. destruct a; cbn [ingest_event]; [done| | |done]; by destruct (wk_loop w) eqn:E. Qed.
Lemma suffix_next s rest : s :: rest `suffix_of` shutdown_steps -> rest `suffix_of` shutdown_steps.
Proof. intros [k H]. exists (k ++ [s]). rewrite <- app_assoc. exact H. Qed.
Lemma suffix_order s rest : s :: rest `suffix_of` shutdown_steps ->
  match s with StopIngest => rest = [CloseExports; CloseHousekeeping; Disconnect; Exit]
             | CloseExports => rest = [CloseHousekeeping; Disconnect; Exit]
             | CloseHousekeeping => rest = [Disconnect; Exit]
             | Disconnect => rest = [Exit] | Exit => rest = [] end.
Proof.
  intros [k H]. unfold shutdown_steps in H.
  repeat (destruct k as [|? k]; [injection H as <- <-; reflexivity|injection H as <- H]). by destruct k.
Qed.
Lemma resume_shutdown now w : wk_shutdown (resume_job tmpdir cfg now w) = wk_shutdown w /\
  wk_loop (resume_job tmpdir cfg now w) = wk_loop w /\ (wk_job w = None -> wk_job (resume_job tmpdir cfg now w) = None).
Proof. unfold resume_job. destruct (wk_job w) as [[]|] eqn:E; try done. by destruct (delete_batch _ _ _). Qed.
Lemma shutdown_ok_step w e : shutdown_ok w -> shutdown_ok (worker_step pg tmpdir cfg w e).
Proof.
  intros Hok. destruct e as [a|jobs files|name now|now| | |]; cbn [worker_step].
  - destruct (ingest_event_shutdown a w) as (H1 & H2 & H3). revert Hok. unfold shutdown_ok. rewrite H1, H2.
    destruct (wk_shutdown w) as [[|[] rest]|]; try done; naive_solver.
  - exact Hok.
  - destruct (wk_job w) eqn:Ej; [done|]. destruct (takes_jobs w) eqn:Et; [|done]. revert Hok Et. unfold shutdown_ok, takes_jobs.
    assert (forall j l, wk_shutdown (with_job j l w) = wk_shutdown w /\ wk_loop (with_job j l w) = wk_loop w) as Hw by done.
    unfold process_job. destruct (String.eqb _ _); [|destruct (String.eqb _ _)]; cbn [with_job wk_shutdown wk_loop];
      by destruct (wk_shutdown w) as [[|[] rest]|].
  - destruct (resume_shutdown now w) as (H1 & H2 & H3). revert Hok. unfold shutdown_ok. rewrite H1, H2.
    destruct (wk_shutdown w) as [[|[] rest]|]; try done; naive_solver.
  - destruct (wk_job w) eqn:Ej; [|done]. revert Hok. unfold shutdown_ok. cbn [with_job wk_shutdown wk_loop wk_job].
    destruct (wk_shutdown w) as [[|[] rest]|]; try done; naive_solver.
  - unfold signal. destruct (wk_shutdown w) eqn:Es; [done|]. split; [done|done].
  - unfold shutdown_step. destruct (wk_shutdown w) as [[|s rest]|] eqn:Es; [done| |done].
    pose proof Hok as Hok'. unfold shutdown_ok in Hok'. rewrite Es in Hok'. destruct Hok' as [Hs Hr].
    pose proof (suffix_order _ _ Hs) as Ho. apply suffix_next in Hs.
    destruct s; subst rest; [destruct (wk_loop w) eqn:El; [done..|]| |destruct (wk_job w) eqn:Ej; [done|]| |];
      unfold shutdown_ok; cbn [with_shutdown wk_shutdown wk_loop wk_job]; naive_solver.
Qed.
(** Whatever signals arrive, the worker leaves at rest: when it closes the
    database the ingest loop has ended its turn and no job is at work, and from
    then on no event changes the tables or starts a job. *)
Theorem worker_leaves_at_rest db es :
  let w := worker_run pg tmpdir cfg (worker_start db) es in
  leaving w = true ->
  wk_loop w = LoopStopped /\ wk_job w = None /\
  forall e, worker_tables (worker_step pg tmpdir cfg w e) = worker_tables w /\
            wk_job (worker_step pg tmpdir cfg w e) = None /\ leaving (worker_step pg tmpdir cfg w e) = true.
Proof.
  intros w Hl. assert (shutdown_ok w) as Hok.
  { subst w. clear Hl. induction es as [|e es IH] using rev_ind; [done|].
    unfold worker_run. rewrite fold_left_app. cbn [fold_left]. by apply shutdown_ok_step. }
  clearbody w. unfold shutdown_ok, leaving in *.
  destruct (wk_shutdown w) as [[|[] rest]|] eqn:Es; try done; destruct Hok as (Hs & Hloop & Hjob);
    (split_and!; [done|done|]); intros e;
    (destruct e as [[]|jobs files|name now|now| | |]; cbn [worker_step ingest_event];
     rewrite ?Hloop, ?Hjob; unfold resume_job, signal, shutdown_step, takes_jobs; rewrite ?Hjob, ?Es; cbn;
     rewrite ?Es, ?Hjob; try done).
  all: apply suffix_order in Hs; by subst rest.
Qed.
End shutdown.

(** ** A day at work *)
Definition day_accepts (e : UsageEventMessage) : bool :=
  bool_decide (ev_workspaceId e = "ws1" /\ ev_projectId e = "p1" /\ ev_userId e = "u1") &&
  match date_parse (ev_occurredAt e) with Some t => (0 <=? t) && (t <? 253402300800000) | None => false end.
Definition day_pg : Postgres := accepting day_accepts.
Lemma day_accepts_keyed e : day_accepts e = true -> keyed e.
Proof.
  unfold day_accepts, keyed. intros [(-> & -> & ->)%bool_decide_eq_true Ht]%andb_true_iff. split_and!; [done..|].
  destruct (date_parse (ev_occurredAt e)) as [t|]; [|done]. bool_to_prop. eauto.
Qed.
Lemma day_batch events :
  bool_decide (NoDup (map ev_id events)) && forallb day_accepts events = true -> sound_batch day_pg events.
Proof.
  intros [Hn%bool_decide_eq_true Ha]%andb_true_iff. split; [done|]. apply Forall_forall. intros e He.
  rewrite forallb_forall in Ha. by apply accepting_canonical, day_accepts_keyed, Ha, list_elem_of_In.
Qed.
Definition config_for (days : Z) : WorkerConfig :=
  mkWorkerConfig (mkBase development "info" "http://localhost:8080") "postgres://db" "redis://r" 500 200 None days.
Definition day_config : WorkerConfig := config_for 90.
Definition publish (sid id at_time : string) : WorkerEvent :=
  WIngest (IPublish (published_entry sid (example_event id at_time "0.00000040"))).
Definition a_pass : WorkerEvent := WIngest (IPass (mkPass 10 None true true)).
(** An old event and a new one are ingested, retention removes the old one, a
    batch arrives between two checks, and one between the queries of the
    second. *)
Definition day_at_work : list WorkerEvent :=
  [publish "1-0" "old" "2026-01-12T10:15:30.000Z"; publish "1-1" "a" "2026-07-12T10:15:30.000Z"; a_pass;
   WJob HOUSEKEEPING_retention drift_now; WResume drift_now; WResume drift_now;
   WJob HOUSEKEEPING_reconcile drift_now; WResume drift_now;
   publish "1-2" "b" "2026-07-12T11:15:30.000Z"; a_pass;
   WJob HOUSEKEEPING_reconcile drift_now; publish "1-3" "c" "2026-07-12T12:15:30.000Z"].
Definition late_batch : list WorkerEvent := [a_pass; WResume drift_now].
Definition at_work (cfg : WorkerConfig) (es : list WorkerEvent) : Worker :=
  worker_run day_pg "/tmp" cfg (worker_start (empty_db ∅)) es.

Lemma day_sound : sound_events day_pg "/tmp" day_config (worker_start (empty_db ∅)) (day_at_work ++ late_batch).
Proof. repeat split; apply day_batch; vm_compute; reflexivity. Qed.
Lemma worker_keeps_the_books_witness :
  let start := worker_start (empty_db ∅) in
  let es := day_at_work ++ late_batch in
  let db := worker_tables (worker_run day_pg "/tmp" day_config start es) in
  let ever := usage_event db ++ deletions day_pg "/tmp" day_config start es in
  NoDup (map row_id (usage_event db)) /\
  agrees (row_total (fun _ => true) (usage_rollup_hourly db)) (table_total (fun _ => true) key_hour ever) /\
  agrees (row_total (fun _ => true) (usage_rollup_daily db)) (table_total (fun _ => true) key_day ever) /\
  (forall e, e ∈ deletions day_pg "/tmp" day_config start es ->
     exists now t, WJob HOUSEKEEPING_retention now ∈ es /\ date_parse (ev_occurredAt e) = Some t /\
                   t < now - EVENT_RETENTION_DAYS day_config * 86400000).
Proof.
  apply (worker_keeps_the_books day_pg "/tmp" day_config ∅ (day_at_work ++ late_batch) (fun _ => true)).
  apply day_sound.
Defined.
(** The old row is what the run deleted, and the rollups still count it. *)
Lemma day_figures :
  map ev_id (deletions day_pg "/tmp" day_config (worker_start (empty_db ∅)) (day_at_work ++ late_batch)) = ["old"] /\
  let w := at_work day_config (day_at_work ++ late_batch) in
  map ev_id (usage_event (worker_tables w)) = ["a"; "b"; "c"] /\
  requests (row_total (fun _ => true) (usage_rollup_daily (worker_tables w))) = 4 /\
  wk_log w = [LRetained 1 0 0; LReconciled 1 0; LDrift 20646 2 3; LReconciled 1 1].
Proof. vm_compute. repeat split. Qed.
Lemma daily_check_is_honest_witness :
  let es := day_at_work ++ late_batch in
  let start := worker_start (empty_db ∅) in
  let run := worker_run day_pg "/tmp" day_config start in
  (forall d raw rollup, LDrift d raw rollup ∈ wk_log (run es) -> raw <= rollup) /\
  (forall before now between now',
     es = before ++ [WJob HOUSEKEEPING_reconcile now] ++ between ++ [WResume now'] ->
     wk_job (run before) = None -> takes_jobs (run before) = true -> forallb quiet between = true ->
     exists lines, wk_log (run es) = wk_log (run before) ++ lines /\
       forall d raw rollup, LDrift d raw rollup ∈ lines -> raw = rollup /\ 3 <= raw).
Proof.
  apply (daily_check_is_honest day_pg "/tmp" day_config); [done|apply day_sound|].
  change (job_times (day_at_work ++ late_batch)) with [drift_now; drift_now; drift_now].
  repeat (constructor || done).
Defined.

(** The two queries of a check see different moments: a batch stored between
    them is reported as drift although every event was ingested once. *)
Lemma live_batch_is_reported :
  wk_log (at_work day_config ([publish "1-0" "a" "2026-07-12T10:15:30.000Z"; a_pass;
    WJob HOUSEKEEPING_reconcile drift_now; publish "1-1" "b" "2026-07-12T11:15:30.000Z"; a_pass; WResume drift_now]))
  = [LDrift 20646 1 2; LReconciled 1 1].
Proof. vm_compute. repeat split. Qed.
(** A retention of fewer days than the check looks back on, which the
    environment schema accepts, makes every check warn. *)
Lemma short_retention_is_reported :
  wk_log (at_work (config_for 1)
    [publish "1-0" "a" "2026-07-12T10:15:30.000Z"; publish "1-1" "b" "2026-07-12T22:15:30.000Z"; a_pass;
     WJob HOUSEKEEPING_retention (drift_now + 43200000); WResume drift_now; WResume drift_now;
     WJob HOUSEKEEPING_reconcile (drift_now + 43200000); WResume drift_now])
  = [LRetained 1 0 0; LDrift 20646 1 2; LReconciled 1 1].
Proof. vm_compute. repeat split. Qed.
Lemma one_day_is_accepted :
  loadConfig (worker_env (mkZod (fun _ => true) (fun _ => true) (fun _ => true) (fun _ => true)))
    [("DATABASE_URL", "postgres://db"); ("REDIS_URL", "redis://r"); ("EVENT_RETENTION_DAYS", "1")] = Ok (config_for 1).
Proof. vm_compute. reflexivity. Qed.
(** An event delivered again after retention removed its row is counted twice. *)
Lemma redelivery_after_retention_counts_twice :
  let w := at_work day_config
    [publish "1-0" "old" "2026-01-12T10:15:30.000Z"; a_pass;
     WJob HOUSEKEEPING_retention drift_now; WResume drift_now; WResume drift_now;
     WIngest IRecreate; a_pass] in
  map ev_id (usage_event (worker_tables w)) = ["old"] /\
  requests (row_total (fun _ => true) (usage_rollup_daily (worker_tables w))) = 2.
Proof. vm_compute. repeat split. Qed.
