(* ===== verification/Services.v ===== *)
(** * What the services share at their edges

    The liveness probe of packages/queue, the wiring of the gateway
    (apps/gateway/src/server.ts), the shutdown of gateway and API (main.ts),
    the invitation mail (apps/api/src/lib/mailer.ts) and the licence stub
    (ee/licensing). *)

From S2P Require Import Prelude JsString JsNum JsDate Json Shared Queue Pricing Providers Translate.
From S2P Require Import FrameTap Gateway Stores Proxy GatewayServer Zod Config.
From Stdlib Require Import Ascii.

(** ** packages/queue: pingRedis *)
(** The PING settles after some milliseconds, or never while Redis is down. *)
Record PingReply := mkPing { pr_after : Z; pr_outcome : js string }.
(** The answer of the race with the timer, and when it is there. *)
Definition pingRedis (ping : option PingReply) (timeoutMs : Z) : bool * Z :=
  match ping with
  | Some r => if pr_after r <? timeoutMs
              then (match pr_outcome r with Ok s => String.eqb s "PONG" | Throw _ => false end, pr_after r)
              else (false, timeoutMs)
  | None => (false, timeoutMs)
  end.
Definition PING_TIMEOUT : Z := 500.
(** A probe is answered within the time-out whatever Redis does, positively only
    for a PONG in time. *)
Theorem ping_is_bounded ping timeoutMs :
  (forall r, ping = Some r -> 0 <= pr_after r) -> 0 <= timeoutMs ->
  0 <= (pingRedis ping timeoutMs).2 <= timeoutMs /\
  ((pingRedis ping timeoutMs).1 = true <->
   exists r, ping = Some r /\ pr_after r < timeoutMs /\ pr_outcome r = Ok "PONG").
Proof.
  intros Hr Ht. destruct ping as [r|]; cbn; [|split; [lia|split; [done|naive_solver]]].
  pose proof (Hr r eq_refl). destruct (Z.ltb_spec (pr_after r) timeoutMs); cbn; (split; [lia|]).
  - split.
    + intros Ho. exists r. split_and!; [done|done|]. destruct (pr_outcome r) as [s|]; [|done]. by apply String.eqb_eq in Ho as ->.
    + intros (r' & [= <-] & _ & ->). done.
  - split; [done|]. intros (r' & [= <-] & ? & _). lia.
Qed.

(** ** apps/gateway/src/server.ts: the dependencies *)
Section wiring.
(** [new MemoryRateLimiter()]'s answers, and the stores over a database. *)
Context (memoryLimiter : string -> Z -> RateLimitDecision) (database : string -> GatewayDeps).

Definition dev_deps : GatewayDeps :=
  mkDeps (fun keyHash => Ok ((∅ : InMemoryKeyStore) !! keyHash))
    (fun workspaceId provider _ => Ok (memory_getDefault ∅ workspaceId provider))
    (price_match StaticPricing) memoryLimiter.
Definition build_deps (config : GatewayConfig) : GatewayDeps :=
  match gc_DATABASE_URL config with
  | Some url => if String.eqb url "" then dev_deps else database url
  | None => dev_deps
  end.

(** A gateway started without a database calls no provider, whatever key is
    presented. *)
Theorem unconfigured_gateway_calls_nobody config w rq call :
  (gc_DATABASE_URL config ?? "") = "" ->
  EUpstream call ∉ (run (makeGatewayHandler (build_deps config) w rq)).1 /\
  EUpstream call ∉ (run (makeUnifiedHandler (build_deps config) w rq)).1.
Proof.
  intros Hurl. assert (build_deps config = dev_deps) as ->.
  { unfold build_deps. by destruct (gc_DATABASE_URL config) as [url|]; [cbn in Hurl; subst url|]. }
  assert (forall p ctx, Cleared dev_deps w rq p ctx -> False) as Hno.
  { intros p ctx [(key & _ & Hk) _ _ _]. cbn in Hk. rewrite lookup_empty in Hk. discriminate Hk. }
  split; intros Hin; [apply native_calls_cleared in Hin|apply unified_calls_cleared in Hin];
    destruct Hin as (p & ctx & cred & Hc & _); exact (Hno p ctx Hc).
Qed.
End wiring.

(** ** apps/gateway/src/main.ts and apps/api/src/main.ts: shutdown *)
Inductive Service := GatewayService | ApiService.
Inductive Closing := StopPricing | CloseServer | DisconnectPrisma | DisconnectRedis | DisconnectSubscriber | ExitProcess.
Definition closing_steps (s : Service) : list Closing :=
  match s with
  | GatewayService => [StopPricing; CloseServer; DisconnectRedis; DisconnectSubscriber; ExitProcess]
  | ApiService => [CloseServer; DisconnectPrisma; DisconnectRedis; ExitProcess]
  end.
(** What has been done and what is left once [shuttingDown] is set. *)
Record Shutdown := mkShutdown { sd_done : list Closing; sd_left : option (list Closing) }.
Definition service_up : Shutdown := mkShutdown [] None.
Inductive ProcessEvent := PSignal | PSettled.
Definition shutdown_event (s : Service) (st : Shutdown) (e : ProcessEvent) : Shutdown :=
  match e, sd_left st with
  | PSignal, None => mkShutdown [] (Some (closing_steps s))
  | PSignal, Some _ => st
  | PSettled, Some (c :: rest) => mkShutdown (sd_done st ++ [c]) (Some rest)
  | PSettled, _ => st
  end.
(** However many signals arrive, the steps of closing are made once each and in
    order. *)
Theorem closing_in_order s es :
  let st := fold_left (shutdown_event s) es service_up in
  match sd_left st with None => sd_done st = [] | Some rest => sd_done st ++ rest = closing_steps s end.
Proof.
  induction es as [|e es IH] using rev_ind; [done|]. rewrite fold_left_app. cbn [fold_left].
  cbn zeta in *. set (st := fold_left _ es _) in *. destruct e; cbn [shutdown_event].
  - destruct (sd_left st) as [rest|] eqn:E; [by rewrite E|done].
  - destruct (sd_left st) as [[|c rest]|] eqn:E; rewrite ?E; [done| |done]. cbn. by rewrite <- app_assoc.
Qed.

(** ** ee/licensing *)
Inductive EeFeature :=
| provider_pools | budget_enforcement | scheduled_reports | sso | slack | audit_logs | white_label.
#[global] Instance EeFeature_eq_dec : EqDecision EeFeature.
Proof. solve_decision. Defined.
Record LicenseInfo := mkLicense { plan : string; seats : Z; li_expiresAt : Z; features : list EeFeature }.
(** [activeLicense], which nothing assigns. *)
Definition activeLicense : option LicenseInfo := None.
Definition loadLicense (keyText : option string) : option LicenseInfo := activeLicense.
Definition entitled_by (license : option LicenseInfo) (now : Z) (feature : EeFeature) : bool :=
  match license with
  | None => false
  | Some l => if li_expiresAt l <? now then false else bool_decide (feature ∈ features l)
  end.
Definition entitled : Z -> EeFeature -> bool := entitled_by activeLicense.
Lemma nobody_is_entitled keyText now feature : loadLicense keyText = None /\ entitled now feature = false.
Proof. done. Qed.
Lemma entitled_by_spec l now feature :
  entitled_by (Some l) now feature = true <-> now <= li_expiresAt l /\ feature ∈ features l.
Proof.
  cbn. destruct (Z.ltb_spec (li_expiresAt l) now); [split; [done|lia]|]. rewrite bool_decide_eq_true. split; [done|tauto].
Qed.
