(* ===== verification/Mail.v ===== *)
(** * apps/api/src/lib/mailer.ts: the invitation mail

    The mail an invitation sends, and that what a reader of its HTML sees is
    the template with the names as they are. *)

From S2P Require Import Prelude JsString.
From Stdlib Require Import Ascii.

(** ** The module *)
(** The replacement of each of the five characters. *)
Definition html_escape (c : ascii) : string :=
  if Ascii.eqb c "&" then "&amp;" else if Ascii.eqb c "<" then "&lt;" else if Ascii.eqb c ">" then "&gt;"
  else if Ascii.eqb c dquote then "&quot;" else if Ascii.eqb c "'" then "&#39;" else String c "".
Definition escapeHtml (value : string) : string := sconcat_map html_escape value.
Definition quoted (s : string) : string := String dquote (s +:+ String dquote "").

Record InviteMail := mkInviteMail { im_subject : string; im_html : string; im_text : string }.
Definition html_head : string :=
  nl +:+ "      <div style=" +:+ quoted "font-family:sans-serif;max-width:480px" +:+ ">" +:+ nl
  +:+ "        <h2>You're invited to ".
Definition html_names : string := "</h2>" +:+ nl +:+ "        <p>".
Definition html_link : string :=
  " invited you to their TokenLedger workspace.</p>" +:+ nl +:+ "        <p><a href=" +:+ String dquote "".
Definition html_tail : string :=
  String dquote (" style=" +:+ quoted "background:#3b5bdb;color:#fff;padding:10px 18px;border-radius:6px;text-decoration:none"
  +:+ ">Accept invitation</a></p>" +:+ nl +:+ "        <p style=" +:+ quoted "color:#888;font-size:12px"
  +:+ ">This link expires in 7 days. If you weren't expecting this, ignore this email.</p>" +:+ nl +:+ "      </div>").
Definition inviteEmail (workspaceName inviterName acceptUrl : string) : InviteMail :=
  mkInviteMail
    (inviterName +:+ " invited you to " +:+ workspaceName +:+ " on TokenLedger")
    (html_head +:+ escapeHtml workspaceName +:+ html_names +:+ escapeHtml inviterName +:+ html_link +:+ acceptUrl +:+ html_tail)
    (inviterName +:+ " invited you to the " +:+ quoted workspaceName +:+ " workspace on TokenLedger." +:+ nl +:+ nl
     +:+ "Accept the invitation: " +:+ acceptUrl +:+ nl +:+ nl +:+ "This link expires in 7 days.").

(** What [send] does: a line of the log, or a message to the transport. *)
Inductive MailAction :=
| LogMail (to subject text : string)
| SendMail (from to subject html text : string).
Definition createMailer (smtpUrl : option string) (from : string) (to : string) (mail : InviteMail) : MailAction :=
  match smtpUrl with
  | Some url => if String.eqb url "" then LogMail to (im_subject mail) (im_text mail)
                else SendMail from to (im_subject mail) (im_html mail) (im_text mail)
  | None => LogMail to (im_subject mail) (im_text mail)
  end.

(** ** A reader of HTML *)
(** Text, tags with quoted attributes, and the character references [escapeHtml]
    writes. *)
Inductive HtmlState := InText | InTag (acc : string) (quote : bool) | InReference (acc : string).
Inductive HtmlToken := Shown (s : string) | Tag (s : string).
Definition reference (name : string) : string :=
  if String.eqb name "amp" then "&" else if String.eqb name "lt" then "<" else if String.eqb name "gt" then ">"
  else if String.eqb name "quot" then String dquote "" else if String.eqb name "#39" then "'"
  else "&" +:+ name +:+ ";".
Definition html_char (st : HtmlState) (c : ascii) : HtmlState * list HtmlToken :=
  match st with
  | InText => if Ascii.eqb c "<" then (InTag "" false, [])
              else if Ascii.eqb c "&" then (InReference "", [])
              else (InText, [Shown (String c "")])
  | InTag acc quote =>
      if Ascii.eqb c ">" && negb quote then (InText, [Tag acc])
      else (InTag (acc +:+ String c "") (if Ascii.eqb c dquote then negb quote else quote), [])
  | InReference acc => if Ascii.eqb c ";" then (InText, [Shown (reference acc)])
                       else (InReference (acc +:+ String c ""), [])
  end.
Fixpoint html_run (st : HtmlState) (s : string) : HtmlState * list HtmlToken :=
  match s with
  | "" => (st, [])
  | String c rest => let '(st1, out1) := html_char st c in let '(st2, out2) := html_run st1 rest in (st2, out1 ++ out2)
  end.
Definition html_read (s : string) : list HtmlToken := (html_run InText s).2.
Definition shown (l : list HtmlToken) : string := join "" (map (fun t => match t with Shown s => s | Tag _ => "" end) l).
Definition html_tags (l : list HtmlToken) : list string := omap (fun t => match t with Tag s => Some s | Shown _ => None end) l.

Section reading.

Lemma html_run_app st s t :
  html_run st (s +:+ t) = let '(st1, out1) := html_run st s in let '(st2, out2) := html_run st1 t in (st2, out1 ++ out2).
Proof.
  revert st; induction s as [|c s IH]; intros st; cbn [html_run String.append].
  - by destruct (html_run st t).
  - destruct (html_char st c) as [st1 out1]. rewrite IH. destruct (html_run st1 s) as [st2 out2].
    destruct (html_run st2 t) as [st3 out3]. by rewrite app_assoc.
Qed.
Fixpoint letters (s : string) : list HtmlToken :=
  match s with "" => [] | String c rest => Shown (String c "") :: letters rest end.
(** An escaped text is read as the text, without a tag. *)
Lemma read_escaped v : html_run InText (escapeHtml v) = (InText, letters v).
Proof.
  unfold escapeHtml. induction v as [|c v IH]; [done|]. cbn [sconcat_map]. rewrite html_run_app.
  assert (html_run InText (html_escape c) = (InText, [Shown (String c "")])) as ->; [|by rewrite IH].
  unfold html_escape.
  repeat match goal with |- context [if Ascii.eqb c ?x then _ else _] =>
    destruct (Ascii.eqb_spec c x) as [->|?]; [vm_compute; reflexivity|] end.
  cbn [html_run html_char]. by rewrite !(proj2 (Ascii.eqb_neq _ _)).
Qed.
(** So is a quoted attribute value. *)
Lemma read_attribute acc v : no_char dquote v = true -> html_run (InTag acc true) v = (InTag (acc +:+ v) true, []).
Proof.
  revert acc; induction v as [|c v IH]; intros acc Hv; cbn [html_run]; [by rewrite string_app_nil_r|].
  cbn in Hv. apply andb_true_iff in Hv as [Hc%negb_true_iff Hv]. cbn [html_char]. rewrite andb_false_r, Hc.
  rewrite IH by done. by rewrite string_app_assoc.
Qed.
Lemma shown_app a b : shown (a ++ b) = shown a +:+ shown b.
Proof.
  unfold shown. rewrite map_app. generalize (map (fun t => match t with Shown s => s | Tag _ => "" end) b) as y.
  generalize (map (fun t => match t with Shown s => s | Tag _ => "" end) a) as x. intros x y.
  assert (forall l, join "" l = fold_right String.append "" l) as Hj.
  { induction l as [|s [|t l] IHl]; [done|by cbn; rewrite string_app_nil_r|]. cbn in *. by rewrite IHl. }
  rewrite !Hj. induction x as [|s x IH]; [done|]. cbn. by rewrite IH, string_app_assoc.
Qed.
Lemma tags_app a b : html_tags (a ++ b) = html_tags a ++ html_tags b.
Proof. apply omap_app. Qed.
Lemma shown_letters v : shown (letters v) = v /\ html_tags (letters v) = [].
Proof.
  induction v as [|c v [IH1 IH2]]; [done|].
  change (letters (String c v)) with ([Shown (String c "")] ++ letters v). rewrite shown_app, tags_app, IH1, IH2. done.
Qed.

(** The template as its reader sees it. *)
Definition template_text (workspaceName inviterName : string) : string :=
  nl +:+ "      " +:+ nl +:+ "        You're invited to " +:+ workspaceName +:+ nl +:+ "        " +:+ inviterName
  +:+ " invited you to their TokenLedger workspace." +:+ nl +:+ "        Accept invitation" +:+ nl
  +:+ "        This link expires in 7 days. If you weren't expecting this, ignore this email." +:+ nl +:+ "      ".
Definition template_tags (acceptUrl : string) : list string :=
  ["div style=" +:+ quoted "font-family:sans-serif;max-width:480px"; "h2"; "/h2"; "p"; "/p"; "p";
   "a href=" +:+ quoted acceptUrl +:+ " style="
     +:+ quoted "background:#3b5bdb;color:#fff;padding:10px 18px;border-radius:6px;text-decoration:none";
   "/a"; "/p"; "p style=" +:+ quoted "color:#888;font-size:12px"; "/p"; "/div"].
Lemma read_tail acc :
  html_run (InTag acc true) html_tail
  = (InText, [Tag (acc +:+ String dquote (" style="
       +:+ quoted "background:#3b5bdb;color:#fff;padding:10px 18px;border-radius:6px;text-decoration:none"))]
             ++ (html_run InText ("Accept invitation</a></p>" +:+ nl +:+ "        <p style=" +:+ quoted "color:#888;font-size:12px"
  +:+ ">This link expires in 7 days. If you weren't expecting this, ignore this email.</p>" +:+ nl +:+ "      </div>")).2).
Proof.
  assert (forall s acc q, html_run (InTag acc q) s
    = let '(st, out) := html_run (InTag "" q) s in
      (match st with InTag a q' => if bool_decide (out = []) then InTag (acc +:+ a) q' else st | _ => st end,
       match out with Tag t :: out => Tag (acc +:+ t) :: out | _ => out end)) as Hacc.
  { clear acc. assert (forall s b acc q, html_run (InTag (acc +:+ b) q) s
      = let '(st, out) := html_run (InTag b q) s in
        (match st with InTag a q' => if bool_decide (out = []) then InTag (acc +:+ a) q' else st | _ => st end,
         match out with Tag t :: out => Tag (acc +:+ t) :: out | _ => out end)) as H.
    { induction s as [|c s IH]; intros b acc q; cbn [html_run]; [done|]. cbn [html_char].
      destruct (Ascii.eqb c ">" && negb q).
      - destruct (html_run InText s) as [st out]. cbn. by destruct st.
      - rewrite string_app_assoc, IH. destruct (html_run (InTag (b +:+ String c "") _) s) as [st out]. done. }
    intros s acc q. rewrite <- (H s "" acc q), string_app_nil_r. done. }
  rewrite Hacc. vm_compute. reflexivity.
Qed.
(** Whatever the names of the workspace and of the inviter are, the mail has
    the markup of the template with the link as its one reference, and shows
    the names as they are. *)
Theorem mail_shows_names_as_text workspaceName inviterName acceptUrl :
  no_char dquote acceptUrl = true ->
  let tokens := html_read (im_html (inviteEmail workspaceName inviterName acceptUrl)) in
  html_tags tokens = template_tags acceptUrl /\ shown tokens = template_text workspaceName inviterName.
Proof.
  intros Hurl. cbn zeta. unfold html_read. cbn [im_html inviteEmail]. rewrite html_run_app.
  assert (html_run InText html_head = (InText, (html_run InText html_head).2)) as -> by (vm_compute; reflexivity).
  rewrite html_run_app, read_escaped, html_run_app.
  assert (html_run InText html_names = (InText, (html_run InText html_names).2)) as -> by (vm_compute; reflexivity).
  rewrite html_run_app, read_escaped, html_run_app.
  assert (html_run InText html_link = (InTag ("a href=" +:+ String dquote "") true, (html_run InText html_link).2)) as ->
    by (vm_compute; reflexivity).
  rewrite html_run_app, read_attribute, read_tail by done. cbn [snd app].
  destruct (shown_letters workspaceName) as [Hw1 Hw2], (shown_letters inviterName) as [Hi1 Hi2].
  repeat rewrite ?tags_app, ?shown_app. rewrite Hw1, Hw2, Hi1, Hi2.
  assert (forall rest, (("a href=" +:+ String dquote "") +:+ acceptUrl) +:+ String dquote rest
                       = "a href=" +:+ quoted acceptUrl +:+ rest) as ->.
  { intros rest. unfold quoted. cbn. by rewrite string_app_assoc. }
  split; reflexivity.
Qed.
Lemma mail_shows_names_as_text_witness :
  let url := "https://tl.example/invite/abc" in
  let tokens := html_read (im_html (inviteEmail "<b>R&D</b>" "Mallory<script>" url)) in
  html_tags tokens = template_tags url /\ shown tokens = template_text "<b>R&D</b>" "Mallory<script>".
Proof. apply (mail_shows_names_as_text "<b>R&D</b>" "Mallory<script>" "https://tl.example/invite/abc"). reflexivity. Defined.
(** Without SMTP the log line carries the link, and with it the token. *)
Lemma unsent_mail_logs_the_link from to workspaceName inviterName acceptUrl :
  exists subject before, createMailer None from to (inviteEmail workspaceName inviterName acceptUrl)
    = LogMail to subject (before +:+ acceptUrl +:+ nl +:+ nl +:+ "This link expires in 7 days.").
Proof.
  exists (im_subject (inviteEmail workspaceName inviterName acceptUrl)),
    (inviterName +:+ " invited you to the " +:+ quoted workspaceName +:+ " workspace on TokenLedger." +:+ nl +:+ nl
     +:+ "Accept the invitation: ").
  unfold createMailer. f_equal. cbn [im_text inviteEmail]. by repeat rewrite string_app_assoc.
Qed.
End reading.
