(* ===== verification/ApiDb.v ===== *)
(** * The database the API works on, and the handlers' monad

    The tables of packages/db/prisma (schema.prisma and 0_init/migration.sql)
    the API modules read and write, as lists of rows.  [Table] is the interface
    Prisma's model delegates offer over them; its operations check the unique
    indexes and foreign keys of the migration and fail with Prisma's codes.  A
    handler is a state transformer that may throw; [transaction] undoes the
    tables of a body that throws. *)

From S2P Require Import Prelude JsString JsNum JsDate Json Shared Queue Auth Pricing Gateway Persist Export Zod.
From Stdlib Require Import Ascii.

(** ** Rows *)
Record User := mkUser {
  u_id : string; u_email : string; u_passwordHash : option string; u_name : string; u_active : bool }.
Record Session := mkSession {
  s_id : string; s_userId : string; s_familyId : string; s_tokenHash : string; s_expiresAt : Z;
  s_revokedAt : option Z; s_ip : string; s_userAgent : option string }.
Record Workspace := mkWorkspace {
  w_id : string; w_name : string; w_slug : string; w_deletedAt : option Z; w_createdAt : Z }.
Record Member := mkMember {
  m_id : string; m_workspaceId : string; m_userId : string; m_role : WorkspaceRole; m_createdAt : Z }.
Record Team := mkTeam {
  t_id : string; t_workspaceId : string; t_name : string; t_slug : string; t_description : option string;
  t_createdAt : Z }.
Record TeamMember := mkTeamMember {
  tm_id : string; tm_teamId : string; tm_userId : string; tm_role : TeamRole; tm_createdAt : Z }.
Record Project := mkProject {
  p_id : string; p_workspaceId : string; p_teamId : option string; p_name : string; p_slug : string;
  p_description : option string; p_tags : list string; p_active : bool; p_createdAt : Z }.
Record Invitation := mkInvitation {
  i_id : string; i_workspaceId : string; i_email : string; i_role : WorkspaceRole; i_tokenHash : string;
  i_invitedById : string; i_expiresAt : Z; i_acceptedAt : option Z; i_createdAt : Z }.
Record Credential := mkCredential {
  c_id : string; c_workspaceId : string; c_provider : Provider; c_name : string;
  c_encryptedSecret : option string; c_secretLast4 : option string; c_baseUrl : option string;
  c_modelAllowlist : list string; c_isDefault : bool; c_active : bool; c_createdAt : Z }.
Record VirtualKey := mkVirtualKey {
  k_id : string; k_workspaceId : string; k_projectId : string; k_userId : string; k_name : string;
  k_keyHash : string; k_keyLast4 : string; k_providerAllowlist : list Provider;
  k_credentialAllowlist : list string; k_modelAllowlist : list string; k_rpmLimit : option Z;
  k_expiresAt : option Z; k_status : KeyStatus; k_lastUsedAt : option Z; k_createdAt : Z }.
(** The four price columns are DECIMAL(12,6), in units of 1e-6 USD. *)
Record Override := mkOverride {
  o_id : string; o_workspaceId : string; o_provider : Provider; o_modelPattern : string;
  o_input : Z; o_output : Z; o_cacheRead : Z; o_cacheWrite : Z; o_createdAt : Z }.
Record ExportJobRow := mkExportJobRow { ej_job : ExportJob; ej_requestedById : string; ej_createdAt : Z }.

(** [pool_credentials]: the credentials provider pools refer to;
    [usage]: the tables the worker keeps. *)
Record ApiDb := mkApiDb {
  users : list User;
  sessions : list Session;
  workspaces : list Workspace;
  members : list Member;
  teams : list Team;
  team_members : list TeamMember;
  projects : list Project;
  invitations : list Invitation;
  credentials : list Credential;
  virtual_keys : list VirtualKey;
  overrides : list Override;
  export_jobs : list ExportJobRow;
  model_prices : list PriceRow;
  pool_credentials : list string;
  usage : Db;
}.

(** ** The interface of a model delegate *)
Class Table (R : Type) := {
  rows_of : ApiDb -> list R;
  set_rows : list R -> ApiDb -> ApiDb;
  row_key : R -> string;                (** the primary key *)
  clash : R -> R -> bool;               (** two rows a unique index refuses to hold together *)
  refs_ok : ApiDb -> R -> bool;         (** the foreign keys of a row are met *)
  restricted : ApiDb -> R -> bool;      (** a row refers to it ON DELETE RESTRICT *)
  cascade : R -> ApiDb -> ApiDb;        (** ON DELETE CASCADE and SET NULL *)
}.

Definition set_users (l : list User) (d : ApiDb) : ApiDb :=
  mkApiDb l (sessions d) (workspaces d) (members d) (teams d) (team_members d) (projects d) (invitations d) (credentials d) (virtual_keys d) (overrides d) (export_jobs d) (model_prices d) (pool_credentials d) (usage d).
Definition set_sessions (l : list Session) (d : ApiDb) : ApiDb :=
  mkApiDb (users d) l (workspaces d) (members d) (teams d) (team_members d) (projects d) (invitations d) (credentials d) (virtual_keys d) (overrides d) (export_jobs d) (model_prices d) (pool_credentials d) (usage d).
Definition set_workspaces (l : list Workspace) (d : ApiDb) : ApiDb :=
  mkApiDb (users d) (sessions d) l (members d) (teams d) (team_members d) (projects d) (invitations d) (credentials d) (virtual_keys d) (overrides d) (export_jobs d) (model_prices d) (pool_credentials d) (usage d).
Definition set_members (l : list Member) (d : ApiDb) : ApiDb :=
  mkApiDb (users d) (sessions d) (workspaces d) l (teams d) (team_members d) (projects d) (invitations d) (credentials d) (virtual_keys d) (overrides d) (export_jobs d) (model_prices d) (pool_credentials d) (usage d).
Definition set_teams (l : list Team) (d : ApiDb) : ApiDb :=
  mkApiDb (users d) (sessions d) (workspaces d) (members d) l (team_members d) (projects d) (invitations d) (credentials d) (virtual_keys d) (overrides d) (export_jobs d) (model_prices d) (pool_credentials d) (usage d).
Definition set_team_members (l : list TeamMember) (d : ApiDb) : ApiDb :=
  mkApiDb (users d) (sessions d) (workspaces d) (members d) (teams d) l (projects d) (invitations d) (credentials d) (virtual_keys d) (overrides d) (export_jobs d) (model_prices d) (pool_credentials d) (usage d).
Definition set_projects (l : list Project) (d : ApiDb) : ApiDb :=
  mkApiDb (users d) (sessions d) (workspaces d) (members d) (teams d) (team_members d) l (invitations d) (credentials d) (virtual_keys d) (overrides d) (export_jobs d) (model_prices d) (pool_credentials d) (usage d).
Definition set_invitations (l : list Invitation) (d : ApiDb) : ApiDb :=
  mkApiDb (users d) (sessions d) (workspaces d) (members d) (teams d) (team_members d) (projects d) l (credentials d) (virtual_keys d) (overrides d) (export_jobs d) (model_prices d) (pool_credentials d) (usage d).
Definition set_credentials (l : list Credential) (d : ApiDb) : ApiDb :=
  mkApiDb (users d) (sessions d) (workspaces d) (members d) (teams d) (team_members d) (projects d) (invitations d) l (virtual_keys d) (overrides d) (export_jobs d) (model_prices d) (pool_credentials d) (usage d).
Definition set_virtual_keys (l : list VirtualKey) (d : ApiDb) : ApiDb :=
  mkApiDb (users d) (sessions d) (workspaces d) (members d) (teams d) (team_members d) (projects d) (invitations d) (credentials d) l (overrides d) (export_jobs d) (model_prices d) (pool_credentials d) (usage d).
Definition set_overrides (l : list Override) (d : ApiDb) : ApiDb :=
  mkApiDb (users d) (sessions d) (workspaces d) (members d) (teams d) (team_members d) (projects d) (invitations d) (credentials d) (virtual_keys d) l (export_jobs d) (model_prices d) (pool_credentials d) (usage d).
Definition set_export_jobs (l : list ExportJobRow) (d : ApiDb) : ApiDb :=
  mkApiDb (users d) (sessions d) (workspaces d) (members d) (teams d) (team_members d) (projects d) (invitations d) (credentials d) (virtual_keys d) (overrides d) l (model_prices d) (pool_credentials d) (usage d).

Definition has {R} (key : R -> string) (id : string) (l : list R) : bool :=
  existsb (fun r => String.eqb (key r) id) l.
Definition same_text (a b : string) : bool := String.eqb a b.
(** citext *)
Definition same_email (a b : string) : bool := String.eqb (to_lower a) (to_lower b).
Definition detach (p : Project) : Project :=
  mkProject (p_id p) (p_workspaceId p) None (p_name p) (p_slug p) (p_description p) (p_tags p) (p_active p)
    (p_createdAt p).

(** ** The tables' keys, unique indexes and foreign keys *)
#[export] Instance User_table : Table User := {|
  rows_of := users; set_rows := set_users; row_key := u_id;
  clash := fun a b => same_email (u_email a) (u_email b);
  refs_ok := fun _ _ => true;
  restricted := fun d u => has s_userId (u_id u) (sessions d) || has m_userId (u_id u) (members d)
                      || has tm_userId (u_id u) (team_members d) || has k_userId (u_id u) (virtual_keys d);
  cascade := fun _ d => d |}.
#[export] Instance Session_table : Table Session := {|
  rows_of := sessions; set_rows := set_sessions; row_key := s_id;
  clash := fun a b => same_text (s_tokenHash a) (s_tokenHash b);
  refs_ok := fun d s => has u_id (s_userId s) (users d);
  restricted := fun _ _ => false;
  cascade := fun _ d => d |}.
#[export] Instance Workspace_table : Table Workspace := {|
  rows_of := workspaces; set_rows := set_workspaces; row_key := w_id;
  clash := fun a b => same_text (w_slug a) (w_slug b);
  refs_ok := fun _ _ => true;
  restricted := fun d w => has m_workspaceId (w_id w) (members d);
  cascade := fun _ d => d |}.
#[export] Instance Member_table : Table Member := {|
  rows_of := members; set_rows := set_members; row_key := m_id;
  clash := fun a b => same_text (m_workspaceId a) (m_workspaceId b) && same_text (m_userId a) (m_userId b);
  refs_ok := fun d m => has w_id (m_workspaceId m) (workspaces d) && has u_id (m_userId m) (users d);
  restricted := fun _ _ => false;
  cascade := fun _ d => d |}.
#[export] Instance Team_table : Table Team := {|
  rows_of := teams; set_rows := set_teams; row_key := t_id;
  clash := fun a b => same_text (t_workspaceId a) (t_workspaceId b) && same_text (t_slug a) (t_slug b);
  refs_ok := fun d t => has w_id (t_workspaceId t) (workspaces d);
  restricted := fun _ _ => false;
  cascade := fun t d =>
    set_team_members (List.filter (fun m => negb (same_text (tm_teamId m) (t_id t))) (team_members d))
   (set_projects (map (fun p => if bool_decide (p_teamId p = Some (t_id t)) then detach p else p) (projects d)) d) |}.
#[export] Instance TeamMember_table : Table TeamMember := {|
  rows_of := team_members; set_rows := set_team_members; row_key := tm_id;
  clash := fun a b => same_text (tm_teamId a) (tm_teamId b) && same_text (tm_userId a) (tm_userId b);
  refs_ok := fun d m => has t_id (tm_teamId m) (teams d) && has u_id (tm_userId m) (users d);
  restricted := fun _ _ => false;
  cascade := fun _ d => d |}.
#[export] Instance Project_table : Table Project := {|
  rows_of := projects; set_rows := set_projects; row_key := p_id;
  clash := fun a b => same_text (p_workspaceId a) (p_workspaceId b) && same_text (p_slug a) (p_slug b);
  refs_ok := fun d p => has w_id (p_workspaceId p) (workspaces d)
                    && match p_teamId p with Some t => has t_id t (teams d) | None => true end;
  restricted := fun d p => has k_projectId (p_id p) (virtual_keys d) || has ev_projectId (p_id p) (usage_event (usage d));
  cascade := fun _ d => d |}.
#[export] Instance Invitation_table : Table Invitation := {|
  rows_of := invitations; set_rows := set_invitations; row_key := i_id;
  clash := fun a b => same_text (i_tokenHash a) (i_tokenHash b);
  refs_ok := fun d i => has w_id (i_workspaceId i) (workspaces d);
  restricted := fun _ _ => false;
  cascade := fun _ d => d |}.
#[export] Instance Credential_table : Table Credential := {|
  rows_of := credentials; set_rows := set_credentials; row_key := c_id;
  clash := fun a b => c_isDefault a && c_isDefault b && same_text (c_workspaceId a) (c_workspaceId b)
                   && provider_eqb (c_provider a) (c_provider b);
  refs_ok := fun d c => has w_id (c_workspaceId c) (workspaces d);
  restricted := fun d c => existsb (String.eqb (c_id c)) (pool_credentials d);
  cascade := fun _ d => d |}.
#[export] Instance VirtualKey_table : Table VirtualKey := {|
  rows_of := virtual_keys; set_rows := set_virtual_keys; row_key := k_id;
  clash := fun a b => same_text (k_keyHash a) (k_keyHash b);
  refs_ok := fun d k => has w_id (k_workspaceId k) (workspaces d) && has p_id (k_projectId k) (projects d)
                    && has u_id (k_userId k) (users d);
  restricted := fun d k => has ev_virtualKeyId (k_id k) (usage_event (usage d));
  cascade := fun _ d => d |}.
#[export] Instance Override_table : Table Override := {|
  rows_of := overrides; set_rows := set_overrides; row_key := o_id;
  clash := fun a b => same_text (o_workspaceId a) (o_workspaceId b) && provider_eqb (o_provider a) (o_provider b)
                   && same_text (o_modelPattern a) (o_modelPattern b);
  refs_ok := fun d o => has w_id (o_workspaceId o) (workspaces d);
  restricted := fun _ _ => false;
  cascade := fun _ d => d |}.
#[export] Instance ExportJobRow_table : Table ExportJobRow := {|
  rows_of := export_jobs; set_rows := set_export_jobs; row_key := fun j => xj_id (ej_job j);
  clash := fun _ _ => false;
  refs_ok := fun d j => has w_id (xj_workspaceId (ej_job j)) (workspaces d);
  restricted := fun _ _ => false;
  cascade := fun _ d => d |}.

(** ** Handlers *)
(** What a handler throws: a ZodError, a domain error, a Prisma error by its
    code, or another Error. *)
Inductive thrown := TZod | TDomain (e : DomainError) | TPrisma (code : string) | TOther (message : string).
(** The status the error handler of server.ts answers with; Prisma's errors and
    plain ones carry no status code. *)
Definition error_status (t : thrown) : Z :=
  match t with TZod => 400 | TDomain e => httpStatus e | TPrisma _ | TOther _ => 500 end.

(** What leaves the process besides the answer. *)
Inductive Message :=
| RedisDel (key : string)
| RedisPublish (channel message : string)
| EnqueueExport (jobId : string)
| SendInvite (address url : string)
| SetRefreshCookie (token : string)
| ClearRefreshCookie.

Record World := mkWorld { db : ApiDb; outbox : list Message }.
(** A handler between two [await]s that reach the database or another service:
    it is done, or it has one operation to make and goes on with the rest.  An
    operation happens at once; what it throws ends the handler. *)
Definition Op (X : Type) : Type := World -> World * result thrown X.
Inductive H (A : Type) : Type :=
| HRet (r : result thrown A)
| HOp (step : World -> World * H A).
Arguments HRet {A} r.
Arguments HOp {A} step.
Section handlers.
Context {A : Type}.
(** A handler nobody interrupts. *)
Fixpoint run (m : H A) (w : World) : World * result thrown A :=
  match m with
  | HRet r => (w, r)
  | HOp step => let '(w', rest) := step w in run rest w'
  end.
Definition perform_op (op : Op A) : H A := HOp (fun w => let '(w', r) := op w in (w', HRet r)).
Fixpoint hbind {B} (f : B -> H A) (m : H B) : H A :=
  match m with
  | HRet (Ok b) => f b
  | HRet (Throw e) => HRet (Throw e)
  | HOp step => HOp (fun w => let '(w', rest) := step w in (w', hbind f rest))
  end.
(** Induction over the operations a handler may come to. *)
Lemma H_rect_ops (P : H A -> Prop) :
  (forall r, P (HRet r)) -> (forall step, (forall w w' rest, step w = (w', rest) -> P rest) -> P (HOp step)) ->
  forall m, P m.
Proof.
  intros Hr Ho. fix IH 1. intros [r|step]; [apply Hr|]. apply Ho. intros w w' rest Hs.
  change rest with (w', rest).2. rewrite <- Hs.
  destruct (step w) as [w1 m]. apply IH.
Qed.
End handlers.
Coercion run : H >-> Funclass.
#[export] Instance H_ret : MRet H := fun A a => HRet (Ok a).
#[export] Instance H_bind : MBind H := fun A B => @hbind B A.
Definition throw {A} (e : thrown) : H A := HRet (Throw e).
Definition fail {A} (e : DomainError) : H A := throw (TDomain e).
Definition gets {A} (f : ApiDb -> A) : H A := perform_op (fun w => (w, Ok (f (db w)))).
Definition modify (f : ApiDb -> ApiDb) : H unit := perform_op (fun w => (mkWorld (f (db w)) (outbox w), Ok tt)).
Definition say (m : Message) : H unit := perform_op (fun w => (mkWorld (db w) (outbox w ++ [m]), Ok tt)).
Definition require (b : bool) (e : DomainError) : H unit := if b then mret tt else fail e.
(** [schema.parse(body)] *)
Definition parse {A} (z : schema A) (body : option json) : H A :=
  match z body with Some a => mret a | None => throw TZod end.
Definition of_js {A} (r : js A) : H A := match r with Ok a => mret a | Throw e => throw (TOther e) end.
(** A value of the platform's random source; [None]: the blocks handed to the
    request did not suffice. *)
Definition of_random {A} (o : option A) : H A :=
  match o with Some a => mret a | None => throw (TOther "random source exhausted") end.
(** [prisma.$transaction]: its body is one operation. *)
Definition transaction {A} (m : H A) : H A := perform_op (fun w =>
  match run m w with (w', Throw e) => (mkWorld (db w) (outbox w'), Throw e) | r => r end).

Lemma run_bind {A B} (m : H A) (f : A -> H B) w :
  run (m ≫= f) w = match run m w with (w', Ok a) => run (f a) w' | (w', Throw e) => (w', Throw e) end.
Proof.
  unfold mbind, H_bind. revert w. induction m as [[a|e]|step IH] using H_rect_ops; intros w; [done..|]. cbn.
  destruct (step w) as [w' rest] eqn:Es. by eapply IH.
Qed.
Lemma run_gets {A B} (f : ApiDb -> A) (k : A -> H B) w : run (gets f ≫= k) w = run (k (f (db w))) w.
Proof. done. Qed.

Section delegate.
Context {R : Type} {TR : Table R}.

Definition findFirst (p : R -> bool) : H (option R) := gets (fun d => List.find p (rows_of d)).
Definition findMany (p : R -> bool) : H (list R) := gets (fun d => List.filter p (rows_of d)).
Definition count (p : R -> bool) : H nat := gets (fun d => length (List.filter p (rows_of d))).
(** A row next to the others: the primary key and the unique indexes. *)
Definition fits (d : ApiDb) (r : R) (others : list R) : result thrown unit :=
  if has row_key (row_key r) others || existsb (clash r) others then Throw (TPrisma "P2002")
  else if refs_ok d r then Ok tt else Throw (TPrisma "P2003").
Definition create (r : R) : H unit := perform_op (fun w =>
  match fits (db w) r (rows_of (db w)) with
  | Ok _ => (mkWorld (set_rows (rows_of (db w) ++ [r]) (db w)) (outbox w), Ok tt)
  | Throw e => (w, Throw e)
  end).
Definition update_rows (p : R -> bool) (f : R -> R) (l : list R) : list R :=
  map (fun r => if p r then f r else r) l.
(** The code only updates many rows in columns no unique index covers, or out of
    the partial index on default credentials. *)
Definition updateMany (p : R -> bool) (f : R -> R) : H unit :=
  modify (fun d => set_rows (update_rows p f (rows_of d)) d).
Definition with_key (id : string) (r : R) : bool := String.eqb (row_key r) id.
(** [update({ where: { id }, data })]: the new row, or P2025. *)
Definition update (p : R -> bool) (f : R -> R) : H R := perform_op (fun w =>
  match List.find p (rows_of (db w)) with
  | None => (w, Throw (TPrisma "P2025"))
  | Some r =>
      match fits (db w) (f r) (List.filter (fun x => negb (with_key (row_key r) x)) (rows_of (db w))) with
      | Throw e => (w, Throw e)
      | Ok _ => (mkWorld (set_rows (update_rows (with_key (row_key r)) f (rows_of (db w))) (db w)) (outbox w),
                 Ok (f r))
      end
  end).
Definition remove_rows (p : R -> bool) (l : list R) : list R := List.filter (fun r => negb (p r)) l.
Definition deleteMany (p : R -> bool) : H nat := perform_op (fun w =>
  if existsb (fun r => p r && restricted (db w) r) (rows_of (db w)) then (w, Throw (TPrisma "P2003"))
  else (mkWorld (set_rows (remove_rows p (rows_of (db w))) (db w)) (outbox w),
        Ok (length (List.filter p (rows_of (db w)))))).
(** [delete({ where })]: one row, with what its foreign keys take along. *)
Definition delete_one (p : R -> bool) : H unit := perform_op (fun w =>
  match List.find p (rows_of (db w)) with
  | None => (w, Throw (TPrisma "P2025"))
  | Some r =>
      if restricted (db w) r then (w, Throw (TPrisma "P2003"))
      else (mkWorld (cascade r (set_rows (remove_rows (with_key (row_key r)) (rows_of (db w))) (db w))) (outbox w),
            Ok tt)
  end).
End delegate.

(** ** The environment of one request

    One clock reading, the ids Prisma makes for the rows the request creates,
    its random bytes, and the services it may find down. *)
Record ApiEnv := mkApiEnv {
  e_P : Primitives;
  e_J : Jose;
  e_zod : ZodFormats;
  e_uuid : string -> option string;   (** a text as a value of a uuid column *)
  jwtSecret : string;
  publicBaseUrl : string;
  superAdmins : list string;
  ring : option MasterKeyRing;
  e_now : Z;
  e_id : nat -> string;
  e_blocks : list (list Z);
  e_salt : string;
  e_iv : string;
  e_suffix : string;                  (** [Math.random().toString(36).slice(2, 7)] *)
  e_redis_up : bool;
  e_queue_up : bool;
}.
(** A path or body text bound to a uuid column. *)
Definition uuid (E : ApiEnv) (s : string) : H string :=
  match e_uuid E s with Some u => mret u | None => throw (TPrisma "P2023") end.
Fixpoint uuids (E : ApiEnv) (l : list string) : H (list string) :=
  match l with
  | [] => mret []
  | s :: rest => u ← uuid E s; us ← uuids E rest; mret (u :: us)
  end.

(** ** Helpers of the handlers *)
Definition oldest {A} (at_ : A -> Z) (a b : A) : bool := at_ a <=? at_ b.
Definition newest {A} (at_ : A -> Z) (a b : A) : bool := at_ b <=? at_ a.
(** [Array.from(new Set(l))] *)
Definition uniq {A} `{EqDecision A} (l : list A) : list A :=
  fold_left (fun acc a => if bool_decide (a ∈ acc) then acc else acc ++ [a]) l [].
(** [v !== undefined ? v : old] *)
Definition patched {A} (v : option A) (old : A) : A := v ?? old.
(** [catch (err) { if (err.code === code) throw e; throw err; }] *)
Definition recoded {A} (code : string) (e : DomainError) (r : result thrown A) : result thrown A :=
  match r with Throw (TPrisma c) => Throw (if String.eqb c code then TDomain e else TPrisma c) | _ => r end.
Fixpoint recode {A} (code : string) (e : DomainError) (m : H A) : H A :=
  match m with
  | HRet r => HRet (recoded code e r)
  | HOp step => HOp (fun w => let '(w', rest) := step w in (w', recode code e rest))
  end.
Lemma run_recode {A} code e (m : H A) w :
  run (recode code e m) w = let '(w', r) := run m w in (w', recoded code e r).
Proof.
  revert w. induction m as [r|step IH] using H_rect_ops; intros w; [done|]. cbn.
  destruct (step w) as [w' rest] eqn:Es. by eapply IH.
Qed.
