(* ===== verification/ApiAuth.v ===== *)
(** * apps/api: guards and accounts

    plugins/guards.ts (access tokens, workspace membership and minimum role,
    instance super-admins) and modules/auth.ts (register, login, refresh with
    rotation and reuse detection, logout, me). *)

From S2P Require Import Prelude JsString JsNum JsDate Json Shared Auth Persist Zod ApiDb.
From Stdlib Require Import Ascii.

Record ApiRequest := mkApiRequest {
  rq_authorization : option string;
  rq_refresh_cookie : option string;
  rq_ip : string;
  rq_user_agent : option string;
  rq_json : option json;           (** the parsed body *)
  rq_query : option json;
}.
Record AuthedUser := mkAuthedUser { au_id : string; au_email : string }.
Record WorkspaceContext := mkWsCtx { wc_workspaceId : string; wc_slug : string; wc_role : WorkspaceRole }.

Section guards.
Context (E : ApiEnv) (rq : ApiRequest).

(** ** guards.ts *)
Definition makeAuthenticate : H AuthedUser :=
  match rq_authorization rq with
  | None => fail (UnauthorizedError "Authentication required")
  | Some header =>
      if starts_with "Bearer " header then
        match verifyAccessToken (e_J E) (slice_from (String.length "Bearer ") header) (jwtSecret E) (e_now E / 1000) with
        | None => fail (UnauthorizedError "Invalid or expired access token")
        | Some claims => mret (mkAuthedUser (cl_sub claims) (cl_email claims))
        end
      else fail (UnauthorizedError "Authentication required")
  end.

Definition isUuid (value : string) : bool :=
  match split_on "-" value with
  | [a; b; c; d; e] =>
      forallb (sforall is_hex) [a; b; c; d; e]
      && bool_decide (map String.length [a; b; c; d; e] = [8; 4; 4; 4; 12]%nat)
  | _ => false
  end.
(** [deletedAt: null] and the id or the slug *)
Definition ws_named (ws : string) (w : Workspace) : bool :=
  match w_deletedAt w with None => true | Some _ => false end
  && (isUuid ws && bool_decide (e_uuid E ws = Some (w_id w)) || String.eqb (w_slug w) ws).
Definition find_workspace (d : ApiDb) (p : Workspace -> bool) (m : Member) : option Workspace :=
  List.find (fun w => String.eqb (w_id w) (m_workspaceId m) && p w) (workspaces d).
Definition member_of (ws user : string) (d : ApiDb) (m : Member) : bool :=
  String.eqb (m_userId m) user && bool_decide (is_Some (find_workspace d (ws_named ws) m)).
Definition makeWorkspaceGuard (minRole : WorkspaceRole) (user : AuthedUser) (ws : string)
  : H WorkspaceContext :=
  id ← uuid E (au_id user);
  found ← gets (fun d => m ← List.find (member_of ws id d) (members d);
                         w ← find_workspace d (ws_named ws) m; Some (m, w));
  match found with
  | None => fail (NotFoundError "Workspace" (Some ws))
  | Some (membership, w) =>
      _ ← require (hasMinimumRole (m_role membership) minRole)
            (ForbiddenError ("This action requires the " +:+ role_text minRole +:+ " role"));
      mret (mkWsCtx (w_id w) (w_slug w) (m_role membership))
  end.

Definition parseSuperAdmins (raw : option string) : list string :=
  List.filter (fun e => negb (String.eqb e "")) (map (fun e => to_lower (trim e)) (split_on "," (raw ?? ""))).
Definition isSuperAdmin (email : string) (admins : list string) : bool :=
  existsb (String.eqb (to_lower email)) admins.
Definition makeSuperAdminGuard (user : AuthedUser) : H unit :=
  require (isSuperAdmin (au_email user) (superAdmins E)) (ForbiddenError "Instance super-admin access required").

(** A route under [preHandler: [authenticate, makeWorkspaceGuard(prisma, minRole)]]. *)
Definition ws_route {A} (minRole : WorkspaceRole) (ws : string) (handler : AuthedUser -> WorkspaceContext -> H A)
  : H A :=
  user ← makeAuthenticate; ctx ← makeWorkspaceGuard minRole user ws; handler user ctx.

(** ** auth.ts *)
Definition zemail : schema string := zmap to_lower (zrefine (z_email (e_zod E)) zstring).
Record RegisterBody := mkRegister {
  rb_email : string; rb_password : string; rb_name : string; rb_workspaceName : option string }.
Definition registerSchema : schema RegisterBody :=
  zobject (fun k =>
    email ← zemail (k "email"); password ← zlen 8 200 (k "password"); name ← zlen 1 100 (k "name");
    workspaceName ← zoptional (zlen 1 100) (k "workspaceName");
    Some (mkRegister email password name workspaceName)).
Definition loginSchema : schema (string * string) :=
  zobject (fun k => email ← zemail (k "email"); password ← zstring (k "password"); Some (email, password)).

Record PublicUser := mkPublicUser { pu_id : string; pu_email : string; pu_name : string }.
Definition publicUser (u : User) : PublicUser := mkPublicUser (u_id u) (u_email u) (u_name u).
Record SessionReply := mkSessionReply {
  sr_accessToken : string; sr_user : PublicUser; sr_workspace : option (string * string * string) }.

(** A new row of the family, the cookie and the access token. *)
Definition issueSession (id : string) (user : User) (familyId : string) : H string :=
  refresh ← of_random (mintRefreshToken (e_P E) (e_blocks E));
  _ ← create (mkSession id (u_id user) familyId (mt_hash refresh) (e_now E + REFRESH_TOKEN_TTL_S * 1000)
                None (rq_ip rq) (rq_user_agent rq));
  _ ← say (SetRefreshCookie (mt_token refresh));
  mret (signAccessToken (e_J E) (mkClaims (u_id user) (u_email user)) (jwtSecret E) (e_now E / 1000)
          ACCESS_TOKEN_TTL_S).

Definition uniqueSlug (name : string) : H string :=
  let base := slugify 40 "workspace" name in
  taken ← findFirst (R := Workspace) (fun w => String.eqb (w_slug w) base);
  mret match taken with None => base | Some _ => base +:+ "-" +:+ e_suffix E end.
Definition by_email (email : string) (u : User) : bool := same_email (u_email u) email.

Definition register : H SessionReply :=
  body ← parse registerSchema (rq_json rq);
  existing ← findFirst (by_email (rb_email body));
  _ ← require (negb (bool_decide (is_Some existing))) (ConflictError "An account with this email already exists");
  passwordHash ← of_js (hashPassword (e_P E) (e_salt E) (rb_password body));
  let workspaceName := rb_workspaceName body ?? (rb_name body +:+ "'s Workspace") in
  let user := mkUser (e_id E 0) (rb_email body) (Some passwordHash) (rb_name body) true in
  workspace ← transaction (
    _ ← create user;
    slug ← uniqueSlug workspaceName;
    let workspace := mkWorkspace (e_id E 1) workspaceName slug None (e_now E) in
    _ ← create workspace;
    _ ← create (mkMember (e_id E 2) (w_id workspace) (u_id user) OWNER (e_now E));
    mret workspace);
  accessToken ← issueSession (e_id E 3) user (e_id E 4);
  mret (mkSessionReply accessToken (publicUser user) (Some (w_id workspace, w_name workspace, w_slug workspace))).

Definition login : H SessionReply :=
  '(email, password) ← parse loginSchema (rq_json rq);
  found ← findFirst (by_email email);
  let refused := UnauthorizedError "Invalid email or password" in
  match found with
  | None => fail refused
  | Some user =>
      match u_active user, u_passwordHash user with
      | true, Some hash =>
          _ ← require (negb (String.eqb hash "")) refused;
          ok ← of_js (verifyPassword (e_P E) password hash);
          _ ← require ok refused;
          accessToken ← issueSession (e_id E 3) user (e_id E 4);
          mret (mkSessionReply accessToken (publicUser user) None)
      | _, _ => fail refused
      end
  end.

Definition revoke (s : Session) : Session :=
  mkSession (s_id s) (s_userId s) (s_familyId s) (s_tokenHash s) (s_expiresAt s) (Some (e_now E)) (s_ip s)
    (s_userAgent s).
Definition live_in_family (familyId : string) (s : Session) : bool :=
  String.eqb (s_familyId s) familyId && match s_revokedAt s with None => true | Some _ => false end.
Definition by_token (presented : string) (s : Session) : bool :=
  String.eqb (s_tokenHash s) (sha256Hex (e_P E) presented).
Definition refresh : H SessionReply :=
  match rq_refresh_cookie rq with
  | None | Some "" => fail (UnauthorizedError "No refresh token")
  | Some presented =>
      found ← gets (fun d => s ← List.find (by_token presented) (sessions d);
                             u ← List.find (fun u => String.eqb (u_id u) (s_userId s)) (users d); Some (s, u));
      match found with
      | None => _ ← say ClearRefreshCookie; fail (UnauthorizedError "Session expired")
      | Some (session, user) =>
          if s_expiresAt session <? e_now E then
            _ ← say ClearRefreshCookie; fail (UnauthorizedError "Session expired")
          else match s_revokedAt session with
          | Some _ =>
              _ ← updateMany (live_in_family (s_familyId session)) revoke;
              _ ← say ClearRefreshCookie;
              fail (UnauthorizedError "Session revoked")
          | None =>
              _ ← update (with_key (s_id session)) revoke;
              accessToken ← issueSession (e_id E 3) user (s_familyId session);
              mret (mkSessionReply accessToken (publicUser user) None)
          end
      end
  end.

Definition logout : H unit :=
  _ ← match rq_refresh_cookie rq with
      | None | Some "" => mret tt
      | Some presented => updateMany (by_token presented) revoke
      end;
  say ClearRefreshCookie.

(** The memberships in workspaces that are not deleted. *)
Definition memberships (user : string) (d : ApiDb) : list (Workspace * WorkspaceRole) :=
  omap (fun m => w ← find_workspace d (fun w => bool_decide (w_deletedAt w = None)) m; Some (w, m_role m))
    (List.filter (fun m => String.eqb (m_userId m) user) (members d)).
Definition me : H (PublicUser * bool * list (Workspace * WorkspaceRole)) :=
  user ← makeAuthenticate;
  id ← uuid E (au_id user);
  found ← findFirst (with_key id);
  match found with
  | None => throw (TPrisma "P2025")
  | Some u =>
      own ← gets (memberships id);
      mret (publicUser u, isSuperAdmin (u_email u) (superAdmins E), own)
  end.

End guards.
