(* ===== verification/ApiKeys.v ===== *)
(** * apps/api: virtual keys and provider credentials

    modules/keys.ts (list, issue, patch, revoke) and modules/credentials.ts
    (list, create, probe, patch, delete). *)

From S2P Require Import Prelude JsString JsNum JsDate Json Shared Queue Auth Providers Gateway Persist Zod ApiDb.
From S2P Require Import ApiAuth.
From Stdlib Require Import Ascii.

Section keys.
Context (E : ApiEnv) (rq : ApiRequest).

(** ** keys.ts *)
Record IssueBody := mkIssue {
  ib_projectId : string; ib_name : string; ib_userId : option string; ib_providerAllowlist : list Provider;
  ib_credentialAllowlist : list string; ib_modelAllowlist : list string; ib_rpmLimit : option Z;
  ib_expiresAt : option Z }.
Definition zuuid : schema string := zrefine (z_uuid (e_zod E)) zstring.
Definition zrpm : schema Z := zrefine (fun n => 1 <=? n) zint.
Definition zmodels : schema (list string) := zmax 100 (zarray (zlen 0 100)).
Definition issueSchema : schema IssueBody :=
  zobject (fun k =>
    projectId ← zuuid (k "projectId"); name ← zlen 1 100 (k "name"); userId ← zoptional zuuid (k "userId");
    providers ← zdefault [] (zarray zprovider) (k "providerAllowlist");
    creds ← zdefault [] (zmax 50 (zarray zuuid)) (k "credentialAllowlist");
    models ← zdefault [] zmodels (k "modelAllowlist");
    rpm ← zoptional zrpm (k "rpmLimit"); expiresAt ← zoptional zcoerce_date (k "expiresAt");
    Some (mkIssue projectId name userId providers creds models rpm expiresAt)).
Record KeyPatch := mkKeyPatch {
  kp_name : option string; kp_credentialAllowlist : option (list string);
  kp_modelAllowlist : option (list string); kp_rpmLimit : option (option Z); kp_expiresAt : option (option Z) }.
Definition keyPatchSchema : schema KeyPatch :=
  zobject (fun k =>
    name ← zoptional (zlen 1 100) (k "name");
    creds ← zoptional (zmax 50 (zarray zuuid)) (k "credentialAllowlist");
    models ← zoptional zmodels (k "modelAllowlist");
    rpm ← zoptional (znullable zrpm) (k "rpmLimit");
    expiresAt ← zoptional (znullable zcoerce_date) (k "expiresAt");
    Some (mkKeyPatch name creds models rpm expiresAt)).

Record KeyView := mkKeyView {
  kv_id : string; kv_name : string; kv_keyLast4 : string; kv_projectId : string; kv_userId : string;
  kv_providerAllowlist : list Provider; kv_credentialAllowlist : list string; kv_modelAllowlist : list string;
  kv_rpmLimit : option Z; kv_expiresAt : option Z; kv_status : KeyStatus; kv_lastUsedAt : option Z;
  kv_createdAt : Z }.
Definition keySelect (k : VirtualKey) : KeyView :=
  mkKeyView (k_id k) (k_name k) (k_keyLast4 k) (k_projectId k) (k_userId k) (k_providerAllowlist k)
    (k_credentialAllowlist k) (k_modelAllowlist k) (k_rpmLimit k) (k_expiresAt k) (k_status k)
    (k_lastUsedAt k) (k_createdAt k).

Definition resolveProviderAllowlist (workspaceId : string) (credentialAllowlist : list string)
    (baseProviderAllowlist : list Provider) : H (list Provider) :=
  match credentialAllowlist with
  | [] => mret baseProviderAllowlist
  | _ =>
      ids ← uuids E credentialAllowlist;
      creds ← findMany (fun c => bool_decide (c_id c ∈ ids) && String.eqb (c_workspaceId c) workspaceId);
      _ ← require (length creds =? length credentialAllowlist)%nat
            (ValidationError "One or more selected credentials were not found in this workspace");
      mret (uniq (baseProviderAllowlist ++ map c_provider creds))
  end.

Definition isAdmin (ctx : WorkspaceContext) : bool := hasMinimumRole (wc_role ctx) ADMIN.
Definition listKeys (ws : string) : H (list KeyView) :=
  ws_route E rq MEMBER ws (fun user ctx =>
    uid ← uuid E (au_id user);
    keys ← findMany (fun k => String.eqb (k_workspaceId k) (wc_workspaceId ctx)
                              && (isAdmin ctx || String.eqb (k_userId k) uid));
    mret (map keySelect (order_by (newest k_createdAt) keys))).

Definition issueKey (ws : string) : H (KeyView * string) :=
  ws_route E rq MEMBER ws (fun user ctx =>
    body ← parse issueSchema (rq_json rq);
    let workspaceId := wc_workspaceId ctx in
    _ ← require (match ib_userId body with
                 | Some u => String.eqb u "" || String.eqb u (au_id user) || isAdmin ctx
                 | None => true
                 end) (ForbiddenError "Only admins may issue keys for other users");
    let userId := ib_userId body ?? au_id user in
    pid ← uuid E (ib_projectId body);
    project ← findFirst (fun p => String.eqb (p_id p) pid && String.eqb (p_workspaceId p) workspaceId && p_active p);
    _ ← require (bool_decide (is_Some project)) (NotFoundError "Project" (Some (ib_projectId body)));
    providers ← resolveProviderAllowlist workspaceId (ib_credentialAllowlist body) (ib_providerAllowlist body);
    minted ← of_random (mintVirtualKey (e_P E) (e_blocks E));
    uid ← uuid E userId;
    creds ← uuids E (ib_credentialAllowlist body);
    let key := mkVirtualKey (e_id E 0) workspaceId pid uid (ib_name body) (mt_hash minted) (mt_last4 minted)
                 providers creds (ib_modelAllowlist body) (ib_rpmLimit body)
                 (ib_expiresAt body) KEY_ACTIVE None (e_now E) in
    _ ← create key;
    mret (keySelect key, mt_token minted)).

(** [redis.del] and [redis.publish] in one [try]; a Redis that is down is logged. *)
Definition propagate (keyHash message : string) : H unit :=
  if e_redis_up E then
    _ ← say (RedisDel ("vk:" +:+ keyHash));
    say (RedisPublish (invalidateVk keyHash) message)
  else mret tt.

Definition patch_key (body : KeyPatch) (creds : option (list string)) (providers : option (list Provider))
    (k : VirtualKey) : VirtualKey :=
  mkVirtualKey (k_id k) (k_workspaceId k) (k_projectId k) (k_userId k) (patched (kp_name body) (k_name k))
    (k_keyHash k) (k_keyLast4 k) (patched providers (k_providerAllowlist k))
    (patched creds (k_credentialAllowlist k))
    (patched (kp_modelAllowlist body) (k_modelAllowlist k)) (patched (kp_rpmLimit body) (k_rpmLimit k))
    (patched (kp_expiresAt body) (k_expiresAt k)) (k_status k) (k_lastUsedAt k) (k_createdAt k).
Definition key_in (keyId workspaceId : string) (k : VirtualKey) : bool :=
  String.eqb (k_id k) keyId && String.eqb (k_workspaceId k) workspaceId.
(** Find the key in the workspace and check that the caller may touch it. *)
Definition own_key (user : AuthedUser) (ctx : WorkspaceContext) (keyId verb : string) : H VirtualKey :=
  id ← uuid E keyId;
  found ← findFirst (key_in id (wc_workspaceId ctx));
  match found with
  | None => fail (NotFoundError "Virtual key" (Some keyId))
  | Some key =>
      _ ← require (String.eqb (k_userId key) (au_id user) || isAdmin ctx)
            (ForbiddenError ("Only the key owner or an admin may " +:+ verb +:+ " this key"));
      mret key
  end.
Definition patchKey (ws keyId : string) : H KeyView :=
  ws_route E rq MEMBER ws (fun user ctx =>
    body ← parse keyPatchSchema (rq_json rq);
    existing ← own_key user ctx keyId "edit";
    providers ← match kp_credentialAllowlist body with
                | None => mret None
                | Some l => p ← resolveProviderAllowlist (wc_workspaceId ctx) l (k_providerAllowlist existing);
                            mret (Some p)
                end;
    creds ← match kp_credentialAllowlist body with
            | None => mret None
            | Some l => c ← uuids E l; mret (Some c)
            end;
    key ← update (with_key (k_id existing)) (patch_key body creds providers);
    _ ← propagate (k_keyHash existing) "updated";
    mret (keySelect key)).

Definition revoke_key (k : VirtualKey) : VirtualKey :=
  mkVirtualKey (k_id k) (k_workspaceId k) (k_projectId k) (k_userId k) (k_name k) (k_keyHash k) (k_keyLast4 k)
    (k_providerAllowlist k) (k_credentialAllowlist k) (k_modelAllowlist k) (k_rpmLimit k) (k_expiresAt k)
    KEY_REVOKED (k_lastUsedAt k) (k_createdAt k).
Definition revokeKey (ws keyId : string) : H unit :=
  ws_route E rq MEMBER ws (fun user ctx =>
    key ← own_key user ctx keyId "revoke";
    _ ← update (with_key (k_id key)) revoke_key;
    propagate (k_keyHash key) "revoked").

(** ** credentials.ts *)
Record CredView := mkCredView {
  cv_id : string; cv_provider : Provider; cv_name : string; cv_secretLast4 : option string;
  cv_baseUrl : option string; cv_modelAllowlist : list string; cv_isDefault : bool; cv_active : bool;
  cv_createdAt : Z }.
Definition credSelect (c : Credential) : CredView :=
  mkCredView (c_id c) (c_provider c) (c_name c) (c_secretLast4 c) (c_baseUrl c) (c_modelAllowlist c)
    (c_isDefault c) (c_active c) (c_createdAt c).
Record CredBody := mkCredBody {
  cb_provider : Provider; cb_name : string; cb_secret : option string; cb_baseUrl : option string;
  cb_modelAllowlist : list string; cb_isDefault : bool }.
Definition zurl : schema string := zrefine (z_url (e_zod E)) zstring.
Definition credSchema : schema CredBody :=
  zobject (fun k =>
    provider ← zprovider (k "provider"); name ← zlen 1 100 (k "name");
    secret ← zoptional (zlen 1 500) (k "secret"); baseUrl ← zoptional zurl (k "baseUrl");
    models ← zdefault [] (zmax 100 (zarray zstring)) (k "modelAllowlist");
    isDefault ← zdefault false zbool (k "isDefault");
    Some (mkCredBody provider name secret baseUrl models isDefault)).
(** "status", "isDefault: true", "name", "secret", "baseUrl" *)
Record CredPatch := mkCredPatch {
  cp_active : option bool; cp_isDefault : bool; cp_name : option string; cp_secret : option string;
  cp_baseUrl : option (option string) }.
Definition credPatchSchema : schema CredPatch :=
  zobject (fun k =>
    status ← zoptional (zenum [("ACTIVE", true); ("DISABLED", false)]) (k "status");
    isDefault ← zoptional (zrefine id zbool) (k "isDefault");
    name ← zoptional (zlen 1 100) (k "name"); secret ← zoptional (zlen 1 500) (k "secret");
    baseUrl ← zoptional (znullable zurl) (k "baseUrl");
    Some (mkCredPatch status (isDefault ?? false) name secret baseUrl)).

Definition provider_order (p : Provider) : Z :=
  match p with ANTHROPIC => 0 | OPENAI => 1 | GEMINI => 2 | MINIMAX => 3 | OPENROUTER => 4 | DEEPSEEK => 5
             | OLLAMA => 6 end.
Definition by_provider (a b : Credential) : bool :=
  (provider_order (c_provider a) <? provider_order (c_provider b))
  || provider_eqb (c_provider a) (c_provider b) && (c_createdAt a <=? c_createdAt b).
Definition listCredentials (ws : string) : H (list CredView) :=
  ws_route E rq ADMIN ws (fun _ ctx =>
    creds ← findMany (fun c => String.eqb (c_workspaceId c) (wc_workspaceId ctx));
    mret (map credSelect (order_by by_provider creds))).

Definition default_of (workspaceId : string) (p : Provider) (c : Credential) : bool :=
  String.eqb (c_workspaceId c) workspaceId && provider_eqb (c_provider c) p && c_isDefault c.
Definition undefault (c : Credential) : Credential :=
  mkCredential (c_id c) (c_workspaceId c) (c_provider c) (c_name c) (c_encryptedSecret c) (c_secretLast4 c)
    (c_baseUrl c) (c_modelAllowlist c) false (c_active c) (c_createdAt c).
(** [if (body.isDefault)]: the workspace's former default for the provider steps
    back. *)
Definition clear_default (b : bool) (workspaceId : string) (p : Provider) : H unit :=
  if b then updateMany (default_of workspaceId p) undefault else mret tt.
Definition no_master_key : DomainError :=
  ValidationError "TOKENLEDGER_MASTER_KEY is not configured — cannot store encrypted credentials".
(** The sealed secret and its last four characters, when there is one. *)
Definition seal (secret : option string) : H (option string * option string) :=
  match if_truthy secret, ring E with
  | Some s, Some r => envelope ← of_js (encryptSecret (e_P E) (e_iv E) s r);
                      mret (Some envelope, Some (slice_last 4 s))
  | Some _, None => fail no_master_key
  | None, _ => mret (None, None)
  end.
Definition createCredential (ws : string) : H CredView :=
  ws_route E rq ADMIN ws (fun _ ctx =>
    body ← parse credSchema (rq_json rq);
    let workspaceId := wc_workspaceId ctx in
    let provider := cb_provider body in
    let given v := bool_decide (is_Some (if_truthy v)) in
    _ ← require (negb (provider_eqb provider OLLAMA) || given (cb_baseUrl body))
          (ValidationError "Ollama credentials require a baseUrl");
    _ ← require (provider_eqb provider OLLAMA || given (cb_secret body))
          (ValidationError (provider_text provider +:+ " credentials require a secret"));
    _ ← require (negb (given (cb_secret body)) || bool_decide (is_Some (ring E))) no_master_key;
    transaction (
      _ ← clear_default (cb_isDefault body) workspaceId provider;
      n ← count (fun c => String.eqb (c_workspaceId c) workspaceId && provider_eqb (c_provider c) provider);
      '(sealed, last4) ← seal (cb_secret body);
      let credential := mkCredential (e_id E 0) workspaceId provider (cb_name body) sealed last4 (cb_baseUrl body)
                          (cb_modelAllowlist body) (cb_isDefault body || (n =? 0)%nat) true (e_now E) in
      _ ← create credential;
      mret (credSelect credential))).

Definition cred_in (id workspaceId : string) (c : Credential) : bool :=
  String.eqb (c_id c) id && String.eqb (c_workspaceId c) workspaceId.
Definition own_credential (ctx : WorkspaceContext) (id : string) : H Credential :=
  u ← uuid E id;
  found ← findFirst (cred_in u (wc_workspaceId ctx));
  match found with Some c => mret c | None => fail (NotFoundError "Credential" (Some id)) end.

Definition PROBE_PATHS (p : Provider) : option string :=
  match p with
  | ANTHROPIC | OPENAI => Some "/v1/models"
  | OLLAMA => Some "/api/tags"
  | _ => None
  end.
Record ProbeReply := mkProbeReply { pb_ok : option bool; pb_checked : bool; pb_httpStatus : option Z; pb_message : option string }.
(** [get]: the status undici answers a GET with, [None] when it throws. *)
Definition testCredential (get : UpstreamRequest -> option Z) (ws id : string) : H ProbeReply :=
  ws_route E rq ADMIN ws (fun _ ctx =>
    stored ← own_credential ctx id;
    match PROBE_PATHS (c_provider stored), bool_decide (c_provider stored ∈ supportedProviders) with
    | Some path, true =>
        secret ← match c_encryptedSecret stored, ring E with
                 | Some envelope, Some r => s ← of_js (decryptSecret (e_P E) envelope r); mret (Some s)
                 | _, _ => mret None
                 end;
        let upstream := buildUpstream (getAdapter (c_provider stored)) path
                          (mkResolvedCredential secret (if_truthy (c_baseUrl stored))) in
        mret match get upstream with
             | Some status => mkProbeReply (Some (status <? 400)) true (Some status) None
             | None => mkProbeReply (Some false) true None (Some "Provider unreachable")
             end
    | _, _ => mret (mkProbeReply None false None (Some "No live probe available for this provider yet"))
    end).

Definition patch_credential (body : CredPatch) (sealed last4 : option string) (c : Credential) : Credential :=
  mkCredential (c_id c) (c_workspaceId c) (c_provider c) (patched (cp_name body) (c_name c))
    (if sealed then sealed else c_encryptedSecret c) (if sealed then last4 else c_secretLast4 c)
    (patched (cp_baseUrl body) (c_baseUrl c)) (c_modelAllowlist c) (cp_isDefault body || c_isDefault c)
    (patched (cp_active body) (c_active c)) (c_createdAt c).
Definition patchCredential (ws id : string) : H CredView :=
  ws_route E rq ADMIN ws (fun _ ctx =>
    body ← parse credPatchSchema (rq_json rq);
    stored ← own_credential ctx id;
    _ ← require (negb (bool_decide (is_Some (if_truthy (cp_secret body)))) || bool_decide (is_Some (ring E)))
          no_master_key;
    _ ← require (negb (provider_eqb (c_provider stored) OLLAMA && bool_decide (cp_baseUrl body = Some None)))
          (ValidationError "Ollama credentials require a baseUrl");
    transaction (
      _ ← clear_default (cp_isDefault body) (wc_workspaceId ctx) (c_provider stored);
      '(sealed, last4) ← seal (cp_secret body);
      updated ← update (with_key (c_id stored)) (patch_credential body sealed last4);
      mret (credSelect updated))).

Definition deleteCredential (ws id : string) : H unit :=
  ws_route E rq ADMIN ws (fun _ ctx =>
    stored ← own_credential ctx id;
    recode "P2003"
      (ValidationError "This credential is in use by a provider pool — disable it instead of deleting")
      (delete_one (R := Credential) (with_key (c_id stored)))).

End keys.
