(* ===== verification/ApiMembers.v ===== *)
(** * apps/api/src/modules/invitations.ts: members and invitations

    Listing and changing members (with the last-OWNER rule), issuing, sharing
    and withdrawing invitations, and the public flow that accepts one. *)

From S2P Require Import Prelude JsString JsNum JsDate Json Shared Auth Persist Zod ApiDb ApiAuth.
From Stdlib Require Import Ascii.

Section members.
Context (E : ApiEnv) (rq : ApiRequest).

Definition INVITE_TTL_MS : Z := 7 * 24 * 60 * 60 * 1000.
Definition invitable : list (string * WorkspaceRole) := role_names [ADMIN; MEMBER; VIEWER].
Definition inviteSchema : schema (string * WorkspaceRole) :=
  zobject (fun k => email ← zemail E (k "email"); role ← zdefault MEMBER (zenum invitable) (k "role");
                    Some (email, role)).
Definition acceptSchema : schema (option string * option string) :=
  zobject (fun k => name ← zoptional (zlen 1 100) (k "name"); password ← zoptional (zlen 8 200) (k "password");
                    Some (name, password)).
Definition updateMemberSchema : schema WorkspaceRole := zobject (fun k => zenum invitable (k "role")).

(** ** Lists *)
Record MemberView := mkMemberView {
  mv_id : string; mv_name : string; mv_email : string; mv_active : bool; mv_role : WorkspaceRole;
  mv_joinedAt : Z }.
Definition listMembers (ws : string) : H (list MemberView) :=
  ws_route E rq VIEWER ws (fun _ ctx =>
    rows ← findMany (fun m => String.eqb (m_workspaceId m) (wc_workspaceId ctx));
    gets (fun d => omap (fun m => u ← List.find (with_key (m_userId m)) (users d);
                                  Some (mkMemberView (u_id u) (u_name u) (u_email u) (u_active u) (m_role m)
                                          (m_createdAt m)))
                     (order_by (oldest m_createdAt) rows))).

Definition open_invitation (i : Invitation) : bool :=
  match i_acceptedAt i with None => true | Some _ => false end && (e_now E <? i_expiresAt i).
Record InvitationView := mkInvitationView {
  iv_id : string; iv_email : string; iv_role : WorkspaceRole; iv_expiresAt : Z }.
Definition invitationSelect (i : Invitation) : InvitationView :=
  mkInvitationView (i_id i) (i_email i) (i_role i) (i_expiresAt i).
Definition listInvitations (ws : string) : H (list InvitationView) :=
  ws_route E rq ADMIN ws (fun _ ctx =>
    rows ← findMany (fun i => String.eqb (i_workspaceId i) (wc_workspaceId ctx) && open_invitation i);
    mret (map invitationSelect (order_by (newest i_createdAt) rows))).

(** ** Inviting *)
Definition acceptUrl (token : string) : string := publicBaseUrl E +:+ "/invite/" +:+ token.
Definition is_member_email (workspaceId email : string) (d : ApiDb) (m : Member) : bool :=
  String.eqb (m_workspaceId m) workspaceId
  && existsb (fun u => String.eqb (u_id u) (m_userId m) && by_email email u) (users d).
(** The three queries of [Promise.all] in the order they are issued: a failing
    look-up leaves the row.  The mail is sent in the background. *)
Definition invite (ws : string) : H (InvitationView * string) :=
  ws_route E rq ADMIN ws (fun user ctx =>
    '(email, role) ← parse inviteSchema (rq_json rq);
    let workspaceId := wc_workspaceId ctx in
    existingMember ← gets (fun d => List.find (is_member_email workspaceId email d) (members d));
    _ ← require (negb (bool_decide (is_Some existingMember)))
          (ConflictError "This user is already a workspace member");
    pending ← findFirst (fun i => String.eqb (i_workspaceId i) workspaceId && same_email (i_email i) email
                                  && open_invitation i);
    _ ← require (negb (bool_decide (is_Some pending)))
          (ConflictError "An invitation for this email is already pending");
    minted ← of_random (mintInviteToken (e_P E) (e_blocks E));
    uid ← uuid E (au_id user);
    let invitation := mkInvitation (e_id E 0) workspaceId email role (mt_hash minted) uid
                        (e_now E + INVITE_TTL_MS) None (e_now E) in
    _ ← create invitation;
    workspace ← findFirst (R := Workspace) (with_key workspaceId);
    inviter ← findFirst (R := User) (with_key uid);
    match workspace, inviter with
    | Some _, Some _ =>
        _ ← say (SendInvite email (acceptUrl (mt_token minted)));
        mret (invitationSelect invitation, acceptUrl (mt_token minted))
    | _, _ => throw (TPrisma "P2025")
    end).

Definition with_token (hash : string) (i : Invitation) : Invitation :=
  mkInvitation (i_id i) (i_workspaceId i) (i_email i) (i_role i) hash (i_invitedById i) (i_expiresAt i)
    (i_acceptedAt i) (i_createdAt i).
Definition invitation_in (id workspaceId : string) (i : Invitation) : bool :=
  String.eqb (i_id i) id && String.eqb (i_workspaceId i) workspaceId.
Definition reissueLink (ws id : string) : H (InvitationView * string) :=
  ws_route E rq ADMIN ws (fun _ ctx =>
    iid ← uuid E id;
    found ← findFirst (fun i => invitation_in iid (wc_workspaceId ctx) i && open_invitation i);
    match found with
    | None => fail (NotFoundError "Invitation" (Some id))
    | Some invitation =>
        minted ← of_random (mintInviteToken (e_P E) (e_blocks E));
        _ ← update (with_key (i_id invitation)) (with_token (mt_hash minted));
        mret (invitationSelect invitation, acceptUrl (mt_token minted))
    end).

Definition withdrawInvitation (ws id : string) : H unit :=
  ws_route E rq ADMIN ws (fun _ ctx =>
    iid ← uuid E id;
    n ← deleteMany (fun i => invitation_in iid (wc_workspaceId ctx) i
                             && bool_decide (i_acceptedAt i = None));
    require (negb (n =? 0)%nat) (NotFoundError "Invitation" (Some id))).

(** ** Members *)
Definition membership (workspaceId userId : string) (m : Member) : bool :=
  String.eqb (m_workspaceId m) workspaceId && String.eqb (m_userId m) userId.
Definition is_owner (workspaceId : string) (m : Member) : bool :=
  String.eqb (m_workspaceId m) workspaceId && bool_decide (m_role m = OWNER).
Definition with_role (role : WorkspaceRole) (m : Member) : Member :=
  mkMember (m_id m) (m_workspaceId m) (m_userId m) role (m_createdAt m).
Definition find_member (workspaceId uid userId : string) : H Member :=
  found ← findFirst (membership workspaceId uid);
  match found with Some m => mret m | None => fail (NotFoundError "Workspace member" (Some userId)) end.
(** Refuse to take the last OWNER away. *)
Definition keep_an_owner (workspaceId message : string) (target : Member) : H unit :=
  if bool_decide (m_role target = OWNER) then
    owners ← count (is_owner workspaceId);
    require (1 <? owners)%nat (ValidationError message)
  else mret tt.
Definition updateMember (ws userId : string) : H Member :=
  ws_route E rq ADMIN ws (fun _ ctx =>
    let workspaceId := wc_workspaceId ctx in
    role ← parse updateMemberSchema (rq_json rq);
    uid ← uuid E userId;
    target ← find_member workspaceId uid userId;
    _ ← (if bool_decide (role = OWNER) then mret tt
         else keep_an_owner workspaceId
                "Cannot demote the last OWNER — promote another member to OWNER first" target);
    update (membership workspaceId uid) (with_role role)).

Definition removeMember (ws userId : string) : H unit :=
  ws_route E rq VIEWER ws (fun user ctx =>
    let workspaceId := wc_workspaceId ctx in
    _ ← require (String.eqb userId (au_id user) || hasMinimumRole (wc_role ctx) ADMIN)
          (ForbiddenError "Only workspace admins can remove other members");
    uid ← uuid E userId;
    target ← find_member workspaceId uid userId;
    _ ← keep_an_owner workspaceId "Cannot remove the last OWNER — transfer ownership before leaving" target;
    delete_one (membership workspaceId uid)).

(** ** Accepting *)
Definition by_invite_token (token : string) (i : Invitation) : bool :=
  String.eqb (i_tokenHash i) (sha256Hex (e_P E) token).
(** The invitation and its workspace. *)
Definition findValidInvitation (token : string) : H (Invitation * Workspace) :=
  found ← gets (fun d => i ← List.find (by_invite_token token) (invitations d);
                         w ← List.find (with_key (i_workspaceId i)) (workspaces d); Some (i, w));
  match found with
  | Some (i, w) =>
      _ ← require (bool_decide (i_acceptedAt i = None) && negb (i_expiresAt i <? e_now E))
            (UnauthorizedError "This invitation is invalid or has expired");
      mret (i, w)
  | None => fail (UnauthorizedError "This invitation is invalid or has expired")
  end.
Record InvitationInfo := mkInvitationInfo {
  ii_email : string; ii_role : WorkspaceRole; ii_workspace : string * string * string; ii_accountExists : bool }.
Definition showInvitation (token : string) : H InvitationInfo :=
  '(i, w) ← findValidInvitation token;
  existing ← findFirst (by_email (i_email i));
  mret (mkInvitationInfo (i_email i) (i_role i) (w_id w, w_name w, w_slug w) (bool_decide (is_Some existing))).

Definition accepted (i : Invitation) : Invitation :=
  mkInvitation (i_id i) (i_workspaceId i) (i_email i) (i_role i) (i_tokenHash i) (i_invitedById i)
    (i_expiresAt i) (Some (e_now E)) (i_createdAt i).
(** The account of the invited address, made when there is none. *)
Definition invited_user (email : string) (name password : option string) : H User :=
  found ← findFirst (by_email email);
  match found with
  | Some user => mret user
  | None =>
      match name, password with
      | Some n, Some p =>
          hash ← of_js (hashPassword (e_P E) (e_salt E) p);
          let user := mkUser (e_id E 0) email (Some hash) n true in
          _ ← create user; mret user
      | _, _ => fail (ValidationError "name and password are required to create your account")
      end
  end.
Definition acceptInvitation (token : string) : H (string * bool) :=
  '(name, password) ← parse acceptSchema (Some (non_null (rq_json rq) ?? JObj []));
  '(invitation, workspace) ← findValidInvitation token;
  user ← invited_user (i_email invitation) name password;
  _ ← transaction (
    _ ← create (mkMember (e_id E 1) (i_workspaceId invitation) (u_id user) (i_role invitation) (e_now E));
    update (with_key (i_id invitation)) accepted);
  mret (w_id workspace, bool_decide (is_Some name)).

End members.

(** ** OWNER is never handed out *)
Lemma invitable_role v r : zenum invitable v = Some r -> r <> OWNER.
Proof. intros H%zenum_in. cbn in H. set_solver. Qed.
Lemma inviteSchema_role E v email r : inviteSchema E v = Some (email, r) -> r <> OWNER.
Proof.
  unfold inviteSchema, zobject. destruct v as [[]|]; try done.
  destruct (zemail E _) as [e|]; [|done]. unfold zdefault.
  destruct (obj_get o "role") as [x|] eqn:F; [|by intros [= _ <-]].
  destruct (zenum invitable (Some x)) as [r'|] eqn:G; [|discriminate].
  intros [= _ <-]. by eapply invitable_role.
Qed.
Lemma updateMemberSchema_role v r : updateMemberSchema v = Some r -> r <> OWNER.
Proof.
  unfold updateMemberSchema, zobject. destruct v as [[]|]; try done. apply invitable_role.
Qed.
