(* ===== verification/ApiOrg.v ===== *)
(** * apps/api: workspaces, projects, teams and the operator's view

    modules/org.ts (workspaces and projects), modules/teams.ts (teams, their
    members and leads) and modules/admin.ts (the instance super-admin's counts). *)

From S2P Require Import Prelude JsString JsNum JsDate Json Shared Queue Gateway Rollups Persist Zod ApiDb ApiAuth.
From Stdlib Require Import Ascii.

Section org.
Context (E : ApiEnv) (rq : ApiRequest).

(** ** org.ts *)
Definition zuuid_text : schema string := zrefine (z_uuid (e_zod E)) zstring.
(** [/^[a-z0-9-]{2,50}$/] *)
Definition zslug : schema string :=
  zrefine (fun s => sforall (fun c => is_slug_char c || is_dash c) s
                    && (2 <=? String.length s)%nat && (String.length s <=? 50)%nat) zstring.
Definition ztags : schema (list string) := zmax 20 (zarray (zlen 0 40)).
Record ProjectBody := mkProjectBody {
  pb_name : string; pb_slug : option string; pb_teamId : option string; pb_description : option string;
  pb_tags : list string }.
Definition createProjectSchema : schema ProjectBody :=
  zobject (fun k =>
    name ← zlen 1 100 (k "name"); slug ← zoptional zslug (k "slug"); teamId ← zoptional zuuid_text (k "teamId");
    description ← zoptional (zlen 0 500) (k "description"); tags ← zdefault [] ztags (k "tags");
    Some (mkProjectBody name slug teamId description tags)).
Record ProjectPatch := mkProjectPatch {
  pp_name : option string; pp_teamId : option (option string); pp_description : option (option string);
  pp_tags : option (list string); pp_active : option bool }.
Definition zstatus : schema bool := zenum [("ACTIVE", true); ("ARCHIVED", false)].
Definition updateProjectSchema : schema ProjectPatch :=
  zobject (fun k =>
    name ← zoptional (zlen 1 100) (k "name"); teamId ← zoptional (znullable zuuid_text) (k "teamId");
    description ← zoptional (znullable (zlen 0 500)) (k "description"); tags ← zoptional ztags (k "tags");
    status ← zoptional zstatus (k "status");
    Some (mkProjectPatch name teamId description tags status)).

Definition listWorkspaces : H (list (Workspace * WorkspaceRole)) :=
  user ← makeAuthenticate E rq; id ← uuid E (au_id user); gets (memberships id).
Definition getWorkspace (ws : string) : H (Workspace * WorkspaceRole) :=
  ws_route E rq VIEWER ws (fun _ ctx =>
    found ← findFirst (with_key (wc_workspaceId ctx));
    match found with Some w => mret (w, wc_role ctx) | None => throw (TPrisma "P2025") end).

Definition project_in (id workspaceId : string) (p : Project) : bool :=
  String.eqb (p_id p) id && String.eqb (p_workspaceId p) workspaceId.
Definition team_in (id workspaceId : string) (t : Team) : bool :=
  String.eqb (t_id t) id && String.eqb (t_workspaceId t) workspaceId.
Definition projectStatusQuery : schema bool := zobject (fun k => zdefault true zstatus (k "status")).
Definition listProjects (ws : string) : H (list Project) :=
  ws_route E rq VIEWER ws (fun _ ctx =>
    active ← parse projectStatusQuery (Some (non_null (rq_query rq) ?? JObj []));
    rows ← findMany (fun p => String.eqb (p_workspaceId p) (wc_workspaceId ctx) && Bool.eqb (p_active p) active);
    mret (order_by (newest p_createdAt) rows)).

(** [if (body.teamId)]: the owning team must be of the workspace; the answer is
    its id as stored. *)
Definition check_team (workspaceId : string) (teamId : option string) : H (option string) :=
  match teamId with
  | None => mret None
  | Some "" => throw (TPrisma "P2023")   (** unchecked, but no uuid *)
  | Some t =>
      tid ← uuid E t;
      team ← findFirst (team_in tid workspaceId);
      _ ← require (bool_decide (is_Some team)) (NotFoundError "Team" (Some t));
      mret (Some tid)
  end.
Definition createProject (ws : string) : H Project :=
  ws_route E rq ADMIN ws (fun _ ctx =>
    body ← parse createProjectSchema (rq_json rq);
    let workspaceId := wc_workspaceId ctx in
    teamId ← check_team workspaceId (pb_teamId body);
    let slug := pb_slug body ?? slugify 50 "project" (pb_name body) in
    existing ← findFirst (fun p => String.eqb (p_workspaceId p) workspaceId && String.eqb (p_slug p) slug);
    _ ← require (negb (bool_decide (is_Some existing)))
          (ValidationError ("A project with slug '" +:+ slug +:+ "' already exists"));
    let project := mkProject (e_id E 0) workspaceId teamId (pb_name body) slug (pb_description body)
                     (pb_tags body) true (e_now E) in
    _ ← create project;
    mret project).

Definition patch_project (body : ProjectPatch) (teamId : option (option string)) (p : Project) : Project :=
  mkProject (p_id p) (p_workspaceId p) (patched teamId (p_teamId p)) (patched (pp_name body) (p_name p)) (p_slug p)
    (patched (pp_description body) (p_description p)) (patched (pp_tags body) (p_tags p))
    (patched (pp_active body) (p_active p)) (p_createdAt p).
Definition own_project (ctx : WorkspaceContext) (id : string) : H Project :=
  pid ← uuid E id;
  found ← findFirst (project_in pid (wc_workspaceId ctx));
  match found with Some p => mret p | None => fail (NotFoundError "Project" (Some id)) end.
Definition updateProject (ws id : string) : H Project :=
  ws_route E rq ADMIN ws (fun _ ctx =>
    body ← parse updateProjectSchema (rq_json rq);
    project ← own_project ctx id;
    teamId ← match pp_teamId body with
             | None => mret None
             | Some t => t' ← check_team (wc_workspaceId ctx) t; mret (Some t')
             end;
    update (with_key (p_id project)) (patch_project body teamId)).

Definition deleteProject (ws id : string) : H unit :=
  ws_route E rq ADMIN ws (fun _ ctx =>
    project ← own_project ctx id;
    usageCount ← gets (fun d => length (List.filter (fun e => String.eqb (ev_projectId e) (p_id project))
                                          (usage_event (usage d))));
    _ ← require (usageCount =? 0)%nat
          (ValidationError
             "This project has recorded usage — archive it instead of deleting, to preserve the history");
    transaction (
      _ ← deleteMany (fun k => String.eqb (k_projectId k) (p_id project));
      delete_one (R := Project) (with_key (p_id project)))).

(** ** teams.ts *)
Record TeamBody := mkTeamBody { tb_name : string; tb_slug : option string; tb_description : option string }.
Definition createTeamSchema : schema TeamBody :=
  zobject (fun k =>
    name ← zlen 1 100 (k "name"); slug ← zoptional zslug (k "slug");
    description ← zoptional (zlen 0 500) (k "description"); Some (mkTeamBody name slug description)).
Definition updateTeamSchema : schema (option string * option (option string)) :=
  zobject (fun k => name ← zoptional (zlen 1 100) (k "name");
                    description ← zoptional (znullable (zlen 0 500)) (k "description"); Some (name, description)).
Definition teamMemberSchema : schema (string * TeamRole) :=
  zobject (fun k => userId ← zuuid_text (k "userId");
                    role ← zdefault TEAM_MEMBER (zenum team_role_names) (k "role"); Some (userId, role)).
Definition teamRoleSchema : schema TeamRole := zobject (fun k => zenum team_role_names (k "role")).

Definition loadTeam (workspaceId teamId : string) : H Team :=
  tid ← uuid E teamId;
  found ← findFirst (team_in tid workspaceId);
  match found with Some t => mret t | None => fail (NotFoundError "Team" (Some teamId)) end.
(** Workspace admins and the team's own leads. *)
Definition assertCanManageTeam (user : AuthedUser) (ctx : WorkspaceContext) (team : Team) : H unit :=
  if hasMinimumRole (wc_role ctx) ADMIN then mret tt
  else
    uid ← uuid E (au_id user);
    lead ← findFirst (fun m => String.eqb (tm_teamId m) (t_id team) && String.eqb (tm_userId m) uid
                               && bool_decide (tm_role m = LEAD));
    require (bool_decide (is_Some lead)) (ForbiddenError "Only workspace admins or team leads can manage this team").

Record TeamSummary := mkTeamSummary { ts_team : Team; ts_memberCount : nat; ts_projectCount : nat }.
Definition listTeams (ws : string) : H (list TeamSummary) :=
  ws_route E rq VIEWER ws (fun _ ctx =>
    rows ← findMany (fun t => String.eqb (t_workspaceId t) (wc_workspaceId ctx));
    gets (fun d => map (fun t => mkTeamSummary t
        (length (List.filter (fun m => String.eqb (tm_teamId m) (t_id t)) (team_members d)))
        (length (List.filter (fun p => bool_decide (p_teamId p = Some (t_id t))) (projects d))))
      (order_by (oldest t_createdAt) rows))).
Definition createTeam (ws : string) : H Team :=
  ws_route E rq ADMIN ws (fun _ ctx =>
    body ← parse createTeamSchema (rq_json rq);
    let workspaceId := wc_workspaceId ctx in
    let slug := tb_slug body ?? slugify 50 "team" (tb_name body) in
    existing ← findFirst (fun t => String.eqb (t_workspaceId t) workspaceId && String.eqb (t_slug t) slug);
    _ ← require (negb (bool_decide (is_Some existing)))
          (ConflictError ("A team with slug '" +:+ slug +:+ "' already exists"));
    let team := mkTeam (e_id E 0) workspaceId (tb_name body) slug (tb_description body) (e_now E) in
    _ ← create team;
    mret team).
Record TeamDetail := mkTeamDetail {
  td_team : Team; td_members : list (User * TeamRole * Z); td_projects : list Project }.
Definition getTeam (ws teamId : string) : H TeamDetail :=
  ws_route E rq VIEWER ws (fun _ ctx =>
    team ← loadTeam (wc_workspaceId ctx) teamId;
    gets (fun d => mkTeamDetail team
      (omap (fun m => u ← List.find (with_key (tm_userId m)) (users d); Some (u, tm_role m, tm_createdAt m))
         (order_by (oldest tm_createdAt)
            (List.filter (fun m => String.eqb (tm_teamId m) (t_id team)) (team_members d))))
      (order_by (fun a b => bool_decide (String.le (p_name a) (p_name b)))
         (List.filter (fun p => bool_decide (p_teamId p = Some (t_id team)) && p_active p) (projects d))))).
Definition patch_team (name : option string) (description : option (option string)) (t : Team) : Team :=
  mkTeam (t_id t) (t_workspaceId t) (patched name (t_name t)) (t_slug t) (patched description (t_description t))
    (t_createdAt t).
Definition updateTeam (ws teamId : string) : H Team :=
  ws_route E rq VIEWER ws (fun user ctx =>
    team ← loadTeam (wc_workspaceId ctx) teamId;
    _ ← assertCanManageTeam user ctx team;
    '(name, description) ← parse updateTeamSchema (rq_json rq);
    update (with_key (t_id team)) (patch_team name description)).
Definition deleteTeam (ws teamId : string) : H unit :=
  ws_route E rq ADMIN ws (fun _ ctx =>
    team ← loadTeam (wc_workspaceId ctx) teamId;
    delete_one (R := Team) (with_key (t_id team))).

Definition team_membership (teamId userId : string) (m : TeamMember) : bool :=
  String.eqb (tm_teamId m) teamId && String.eqb (tm_userId m) userId.
Definition addTeamMember (ws teamId : string) : H TeamMember :=
  ws_route E rq VIEWER ws (fun user ctx =>
    team ← loadTeam (wc_workspaceId ctx) teamId;
    _ ← assertCanManageTeam user ctx team;
    '(userId, role) ← parse teamMemberSchema (rq_json rq);
    uid ← uuid E userId;
    inWorkspace ← findFirst (fun m => String.eqb (m_workspaceId m) (wc_workspaceId ctx)
                                      && String.eqb (m_userId m) uid);
    _ ← require (bool_decide (is_Some inWorkspace)) (NotFoundError "Workspace member" (Some userId));
    existing ← findFirst (team_membership (t_id team) uid);
    _ ← require (negb (bool_decide (is_Some existing))) (ConflictError "User is already a member of this team");
    let created := mkTeamMember (e_id E 0) (t_id team) uid role (e_now E) in
    _ ← create created;
    mret created).
Definition with_team_role (role : TeamRole) (m : TeamMember) : TeamMember :=
  mkTeamMember (tm_id m) (tm_teamId m) (tm_userId m) role (tm_createdAt m).
Definition updateTeamMember (ws teamId userId : string) : H TeamRole :=
  ws_route E rq VIEWER ws (fun user ctx =>
    team ← loadTeam (wc_workspaceId ctx) teamId;
    _ ← assertCanManageTeam user ctx team;
    role ← parse teamRoleSchema (rq_json rq);
    uid ← uuid E userId;
    existing ← findFirst (team_membership (t_id team) uid);
    _ ← require (bool_decide (is_Some existing)) (NotFoundError "Team member" (Some userId));
    _ ← update (team_membership (t_id team) uid) (with_team_role role);
    mret role).
Definition removeTeamMember (ws teamId userId : string) : H unit :=
  ws_route E rq VIEWER ws (fun user ctx =>
    team ← loadTeam (wc_workspaceId ctx) teamId;
    _ ← assertCanManageTeam user ctx team;
    uid ← uuid E userId;
    n ← deleteMany (team_membership (t_id team) uid);
    require (negb (n =? 0)%nat) (NotFoundError "Team member" (Some userId))).

(** ** admin.ts

    Rollup keys hold the bucket first, the workspace second; costs are in units
    of 1e-8 USD ([Decimal.toString] prints them exactly). *)
Definition admin_from : Z := e_now E - 30 * 86400000.
Definition rollup_bucket (r : RollupRow) : Z := (rr_key r).1.1.1.1.1.
Definition rollup_workspace (r : RollupRow) : string := (rr_key r).1.1.1.1.2.
Definition recent (d : ApiDb) : list RollupRow :=
  List.filter (fun r => admin_from <=? rollup_bucket r) (usage_rollup_daily (usage d)).
Definition sum_of (f : Counts -> Z) (rows : list RollupRow) : Z := zsum (fun r => f (rr_counts r)) rows.
Definition admin_route {A} (handler : H A) : H A :=
  user ← makeAuthenticate E rq; _ ← makeSuperAdminGuard E user; handler.
Record AdminStats := mkAdminStats {
  as_workspaces : nat; as_users : nat; as_activeKeys : nat; as_requests30d : Z; as_cost30d : Z }.
Definition live_workspace (w : Workspace) : bool := bool_decide (w_deletedAt w = None).
Definition adminStats : H AdminStats :=
  admin_route (
    ws ← count live_workspace; us ← count u_active; ks ← count (fun k => bool_decide (k_status k = KEY_ACTIVE));
    gets (fun d => mkAdminStats ws us ks (sum_of requests (recent d)) (sum_of cost8 (recent d)))).
(** [groupBy({ by: ["bucket"], orderBy: { bucket: "asc" } })] *)
Definition adminTimeseries : H (list (string * Z * Z)) :=
  admin_route (gets (fun d =>
    map (fun b => let rows := List.filter (fun r => rollup_bucket r =? b) (recent d) in
                  (slice_to 10 (toISOString b), sum_of requests rows, sum_of cost8 rows))
      (order_by Z.leb (uniq (map rollup_bucket (recent d)))))).
Record WorkspaceUsage := mkWorkspaceUsage {
  wu_workspace : Workspace; wu_members : nat; wu_projects : nat; wu_requests30d : Z; wu_cost30d : Z }.
Definition adminWorkspaces : H (list WorkspaceUsage) :=
  admin_route (
    ws ← findMany live_workspace;
    gets (fun d => map (fun w =>
        let rows := List.filter (fun r => String.eqb (rollup_workspace r) (w_id w)) (recent d) in
        mkWorkspaceUsage w (length (List.filter (fun m => String.eqb (m_workspaceId m) (w_id w)) (members d)))
          (length (List.filter (fun p => String.eqb (p_workspaceId p) (w_id w)) (projects d)))
          (sum_of requests rows) (sum_of cost8 rows))
      (order_by (oldest w_createdAt) ws))).

End org.
