(* ===== verification/ApiPricing.v ===== *)
(** * apps/api/src/modules/pricing.ts: the catalog and a workspace's overrides *)

From S2P Require Import Prelude JsString JsNum JsDate Json Shared Queue Pricing Rollups Persist Zod ApiDb ApiAuth.
From S2P Require Import ApiKeys.
From Stdlib Require Import Ascii.

(** ** Money columns *)
(** [z.string().regex(/^\d+(\.\d{1,6})?$/)] *)
Definition zprice : schema string :=
  zrefine (fun s => match match_decimal s with Some (_, f) => (String.length (f ?? "") <=? 6)%nat | None => false end)
    zstring.
(** [new Prisma.Decimal(s)], in units of 1e-6. *)
Definition Decimal (s : string) : Z :=
  match match_decimal s with
  | Some (w, f) => digits_val w * 10 ^ 6 + digits_val (pad_end (f ?? "") 6 "0")
  | None => 0
  end.
Lemma Decimal_nonneg s : 0 <= Decimal s.
Proof.
  unfold Decimal. destruct (match_decimal s) as [[w f]|] eqn:E; [|done].
  apply match_decimal_spec in E as (_ & Hw & Hf).
  assert (all_digits (f ?? "") = true) as Hg by (destruct f as [g|]; [by destruct Hf as (_ & ? & _)|done]).
  pose proof (digits_val_bound w Hw). pose proof (digits_val_bound _ (pad_end_digits _ 6 Hg)). lia.
Qed.
(** A value of a DECIMAL(12,6) column: at most six digits before the point. *)
Definition numeric_12_6 (units : Z) : H Z :=
  if units <? 10 ^ 12 then mret units else throw (TPrisma "P2020").
(** The column as node-pg hands it to the gateway: always six decimals. *)
Definition numeric_text (units : Z) : string :=
  dec (units / 10 ^ 6) +:+ "." +:+ pad_start (dec (units mod 10 ^ 6)) 6 "0".
(** [Decimal.toString()]: without trailing zeros. *)
Definition decimal_text (units : Z) : string :=
  let f := drop_while_end (Ascii.eqb "0") (pad_start (dec (units mod 10 ^ 6)) 6 "0") in
  dec (units / 10 ^ 6) +:+ (if String.eqb f "" then "" else "." +:+ f).

Section pricing.
Context (E : ApiEnv) (rq : ApiRequest).

(** ** The global catalog *)
Definition listQuerySchema : schema (option Provider * option string) :=
  zobject (fun k => provider ← zoptional zprovider (k "provider");
                    at_ ← zoptional (zrefine (z_datetime (e_zod E)) zstring) (k "at"); Some (provider, at_)).
Definition catalog_order (a b : PriceRow) : bool :=
  (provider_order (row_provider a) <? provider_order (row_provider b))
  || provider_eqb (row_provider a) (row_provider b) && bool_decide (String.le (row_pattern a) (row_pattern b)).
Definition listModels : H (list PriceRow) :=
  _ ← makeAuthenticate E rq;
  '(provider, at_) ← parse listQuerySchema (Some (non_null (rq_query rq) ?? JObj []));
  at_ ← match at_ with
        | None | Some "" => mret (e_now E)
        | Some s => match date_parse s with Some t => mret t | None => throw (TOther "Invalid Date") end
        end;
  gets (fun d => order_by catalog_order
    (List.filter (fun r => effective at_ r && match provider with Some p => provider_eqb (row_provider r) p | None => true end)
       (model_prices d))).

(** ** Overrides *)
Record OverrideBody := mkOverrideBody {
  ob_provider : Provider; ob_modelPattern : string; ob_input : string; ob_output : string;
  ob_cacheRead : string; ob_cacheWrite : string }.
(** [/^[A-Za-z0-9._:/\-*]+$/] *)
Definition is_pattern_char (c : ascii) : bool :=
  is_digit c || is_upper c || is_lower c || existsb (Ascii.eqb c) ["."; "_"; ":"; "/"; "-"; "*"]%char.
Definition zpattern : schema string := zrefine (sforall is_pattern_char) (zlen 1 200).
Definition overrideSchema : schema OverrideBody :=
  zobject (fun k =>
    provider ← zprovider (k "provider"); pattern ← zpattern (k "modelPattern");
    input ← zprice (k "inputPerMtok"); output ← zprice (k "outputPerMtok");
    cr ← zdefault "0" zprice (k "cacheReadPerMtok"); cw ← zdefault "0" zprice (k "cacheWritePerMtok");
    Some (mkOverrideBody provider pattern input output cr cw)).
Record OverridePatch := mkOverridePatch {
  op_provider : option Provider; op_modelPattern : option string; op_input : option string;
  op_output : option string; op_cacheRead : option string; op_cacheWrite : option string }.
(** [overrideSchema.partial()]: the inner defaults no longer apply. *)
Definition overridePatchSchema : schema OverridePatch :=
  zobject (fun k =>
    provider ← zoptional zprovider (k "provider"); pattern ← zoptional zpattern (k "modelPattern");
    input ← zoptional zprice (k "inputPerMtok"); output ← zoptional zprice (k "outputPerMtok");
    cr ← zoptional zprice (k "cacheReadPerMtok"); cw ← zoptional zprice (k "cacheWritePerMtok");
    Some (mkOverridePatch provider pattern input output cr cw)).

Record OverrideView := mkOverrideView {
  ov_id : string; ov_workspaceId : string; ov_provider : Provider; ov_modelPattern : string;
  ov_input : string; ov_output : string; ov_cacheRead : string; ov_cacheWrite : string; ov_createdAt : Z }.
Definition serializeOverride (o : Override) : OverrideView :=
  mkOverrideView (o_id o) (o_workspaceId o) (o_provider o) (o_modelPattern o) (decimal_text (o_input o))
    (decimal_text (o_output o)) (decimal_text (o_cacheRead o)) (decimal_text (o_cacheWrite o)) (o_createdAt o).

Definition override_order (a b : Override) : bool :=
  (provider_order (o_provider a) <? provider_order (o_provider b))
  || provider_eqb (o_provider a) (o_provider b) && bool_decide (String.le (o_modelPattern a) (o_modelPattern b)).
Definition listOverrides (ws : string) : H (list OverrideView) :=
  ws_route E rq VIEWER ws (fun _ ctx =>
    rows ← findMany (fun o => String.eqb (o_workspaceId o) (wc_workspaceId ctx));
    mret (map serializeOverride (order_by override_order rows))).

Definition override_for (workspaceId : string) (p : Provider) (pattern : string) (o : Override) : bool :=
  String.eqb (o_workspaceId o) workspaceId && provider_eqb (o_provider o) p && String.eqb (o_modelPattern o) pattern.
Definition target_text (p : option Provider) (pattern : option string) : string :=
  match p with Some p => provider_text p | None => "undefined" end +:+ "/" +:+ (pattern ?? "undefined").
Definition createOverride (ws : string) : H OverrideView :=
  ws_route E rq ADMIN ws (fun _ ctx =>
    body ← parse overrideSchema (rq_json rq);
    let workspaceId := wc_workspaceId ctx in
    existing ← findFirst (override_for workspaceId (ob_provider body) (ob_modelPattern body));
    _ ← require (negb (bool_decide (is_Some existing)))
          (ConflictError ("Override already exists for " +:+
             target_text (Some (ob_provider body)) (Some (ob_modelPattern body)) +:+
             " — use PATCH to update it"));
    i ← numeric_12_6 (Decimal (ob_input body)); o ← numeric_12_6 (Decimal (ob_output body));
    cr ← numeric_12_6 (Decimal (ob_cacheRead body)); cw ← numeric_12_6 (Decimal (ob_cacheWrite body));
    let created := mkOverride (e_id E 0) workspaceId (ob_provider body) (ob_modelPattern body) i o cr cw (e_now E) in
    _ ← create created;
    mret (serializeOverride created)).

(** [if (v !== undefined) data.… = new Prisma.Decimal(v)] *)
Definition price_patch (v : option string) : H (option Z) :=
  match v with Some s => z ← numeric_12_6 (Decimal s); mret (Some z) | None => mret None end.
Definition patch_override (body : OverridePatch) (i o cr cw : option Z) (x : Override) : Override :=
  mkOverride (o_id x) (o_workspaceId x) (patched (op_provider body) (o_provider x))
    (patched (op_modelPattern body) (o_modelPattern x)) (patched i (o_input x)) (patched o (o_output x))
    (patched cr (o_cacheRead x)) (patched cw (o_cacheWrite x)) (o_createdAt x).
Definition override_in (id workspaceId : string) (o : Override) : bool :=
  String.eqb (o_id o) id && String.eqb (o_workspaceId o) workspaceId.
Definition updateOverride (ws id : string) : H OverrideView :=
  ws_route E rq ADMIN ws (fun _ ctx =>
    body ← parse overridePatchSchema (rq_json rq);
    let workspaceId := wc_workspaceId ctx in
    oid ← uuid E id;
    found ← findFirst (override_in oid workspaceId);
    match found with
    | None => fail (NotFoundError "Pricing override" (Some id))
    | Some existing =>
        let provider := patched (op_provider body) (o_provider existing) in
        let pattern := patched (op_modelPattern body) (o_modelPattern existing) in
        let isRekeying := negb (provider_eqb provider (o_provider existing))
                          || negb (String.eqb pattern (o_modelPattern existing)) in
        _ ← require (negb isRekeying || bool_decide (wc_role ctx = OWNER))
              (ForbiddenError "Only workspace OWNERs can change the (provider, model) of an override");
        conflict ← (if isRekeying
                    then findFirst (fun o => override_for workspaceId provider pattern o && negb (String.eqb (o_id o) oid))
                    else mret None);
        _ ← require (negb (bool_decide (is_Some conflict)))
              (ConflictError ("Another override already targets " +:+
                 target_text (op_provider body) (op_modelPattern body)));
        i ← price_patch (op_input body); o ← price_patch (op_output body);
        cr ← price_patch (op_cacheRead body); cw ← price_patch (op_cacheWrite body);
        updated ← update (with_key oid) (patch_override body i o cr cw);
        mret (serializeOverride updated)
    end).
Definition deleteOverride (ws id : string) : H unit :=
  ws_route E rq ADMIN ws (fun _ ctx =>
    oid ← uuid E id;
    n ← deleteMany (override_in oid (wc_workspaceId ctx));
    require (negb (n =? 0)%nat) (NotFoundError "Pricing override" (Some id))).

(** ** Models without a price *)
Definition unpriced_since : Z := e_now E - 30 * 24 * 60 * 60 * 1000.
Definition unpriced_event (workspaceId : string) (e : UsageEventMessage) : bool :=
  String.eqb (ev_workspaceId e) workspaceId && bool_decide (ev_costBasis e = UNPRICED)
  && match date_parse (ev_occurredAt e) with Some t => unpriced_since <=? t | None => false end.
Definition event_units (e : UsageEventMessage) : Z :=
  match parseDecimalScaled (ev_costUsd e) COST_SCALE with Ok c => c | Throw _ => 0 end.
Record UnpricedRow := mkUnpriced { un_provider : Provider; un_model : string; un_requests : nat; un_cost : Z }.
Definition model_key (e : UsageEventMessage) : Provider * string := (ev_provider e, ev_model e).
Definition listUnpriced (ws : string) : H (list UnpricedRow) :=
  ws_route E rq ADMIN ws (fun _ ctx =>
    gets (fun d =>
      let events := List.filter (unpriced_event (wc_workspaceId ctx)) (usage_event (usage d)) in
      take 200 (order_by (fun a b => (un_requests b <=? un_requests a)%nat)
        (map (fun k => let l := List.filter (fun e => bool_decide (model_key e = k)) events in
                       mkUnpriced k.1 k.2 (length l) (zsum event_units l))
           (uniq (map model_key events)))))).

End pricing.
