(* ===== verification/ApiReports.v ===== *)
(** * apps/api: exports and analytics

    modules/exports.ts (asking for an export, listing, downloading),
    modules/analytics.ts (summary, raw events page by page, explorer) and
    modules/analytics-query.ts (the grouped queries over the rollup tables).
    Costs are in units of 1e-8 USD; a ratio the code computes in doubles is the
    exact rational. *)

From S2P Require Import Prelude JsString JsNum JsDate Json Shared Queue Auth Gateway Pricing Rollups Persist Export.
From S2P Require Import Zod ApiDb ApiAuth ApiKeys ApiOrg.
From Stdlib Require Import Ascii QArith.
#[local] Open Scope Z_scope.

Section reports.
Context (E : ApiEnv) (rq : ApiRequest).

(** ADMIN, OWNER and VIEWER see the workspace, a MEMBER only their own usage. *)
Definition wide (role : WorkspaceRole) : bool := hasMinimumRole role ADMIN || bool_decide (role = VIEWER).
Definition scopeUserId (user : AuthedUser) (ctx : WorkspaceContext) : option string :=
  if wide (wc_role ctx) then None else Some (au_id user).
(** The scope as the value bound to a uuid column. *)
Definition scope_uid (user : AuthedUser) (ctx : WorkspaceContext) : H (option string) :=
  match if_truthy (scopeUserId user ctx) with
  | None => mret None
  | Some u => uid ← uuid E u; mret (Some uid)
  end.
Definition in_scope (scope : option string) (u : string) : bool :=
  match scope with Some s => String.eqb u s | None => true end.

(** ** exports.ts *)
Definition zdatetime : schema string := zrefine (z_datetime (e_zod E)) zstring.
Definition filtersSchema : schema ExportFilters :=
  zobject (fun k =>
    from ← zoptional zdatetime (k "from"); to ← zoptional zdatetime (k "to");
    projectId ← zoptional (zuuid_text E) (k "projectId"); userId ← zoptional (zuuid_text E) (k "userId");
    provider ← zoptional zprovider (k "provider"); model ← zoptional (zlen 0 100) (k "model");
    Some (mkFilters from to projectId userId provider model)).
Definition createExportSchema : schema ExportFilters :=
  zobject (fun k => _ ← zenum [("usage_events", tt)] (k "kind"); zdefault no_filters filtersSchema (k "filters")).

Record ExportView := mkExportView {
  xv_id : string; xv_status : ExportStatus; xv_kind : string; xv_rowCount : option nat; xv_error : option string;
  xv_expiresAt : option Z; xv_createdAt : Z; xv_downloadUrl : option string }.
Definition serialize (r : ExportJobRow) : ExportView :=
  let j := ej_job r in
  mkExportView (xj_id j) (xj_status j) (xp_kind (xj_params j)) (xj_rowCount j) (xj_error j) (xj_expiresAt j)
    (ej_createdAt r)
    match xj_status j with EXPORT_DONE => Some ("./exports/" +:+ xj_id j +:+ "/download") | _ => None end.

Definition createExport (ws : string) : H ExportView :=
  ws_route E rq VIEWER ws (fun user ctx =>
    filters ← parse createExportSchema (rq_json rq);
    uid ← uuid E (au_id user);
    let params := mkParams "usage_events" (Some filters) (if_truthy (scopeUserId user ctx)) in
    let job := mkExportJobRow (mkJob (e_id E 0) (wc_workspaceId ctx) params PENDING None None None None) uid (e_now E) in
    _ ← create job;
    _ ← (if e_queue_up E then say (EnqueueExport (e_id E 0)) else throw (TOther "queue unreachable"));
    mret (serialize job)).
Definition job_visible (workspaceId : string) (scope : option string) (r : ExportJobRow) : bool :=
  String.eqb (xj_workspaceId (ej_job r)) workspaceId && in_scope scope (ej_requestedById r).
Definition listExports (ws : string) : H (list ExportView) :=
  ws_route E rq VIEWER ws (fun user ctx =>
    scope ← scope_uid user ctx;
    rows ← ApiDb.findMany (job_visible (wc_workspaceId ctx) scope);
    mret (map serialize (take 50 (order_by (newest ej_createdAt) rows)))).
Definition findJob (user : AuthedUser) (ctx : WorkspaceContext) (id : string) : H ExportJobRow :=
  jid ← uuid E id;
  scope ← scope_uid user ctx;
  found ← findFirst (fun r => String.eqb (xj_id (ej_job r)) jid && job_visible (wc_workspaceId ctx) scope r);
  match found with Some r => mret r | None => fail (NotFoundError "Export" (Some id)) end.
Definition getExport (ws id : string) : H ExportView :=
  ws_route E rq VIEWER ws (fun user ctx => job ← findJob user ctx id; mret (serialize job)).
(** The path of the file that is streamed and the name it is offered under;
    [stat] says whether a path exists. *)
Definition downloadExport (stat : string -> bool) (ws id : string) : H (string * string) :=
  ws_route E rq VIEWER ws (fun user ctx =>
    row ← findJob user ctx id;
    let job := ej_job row in
    match xj_status job, if_truthy (xj_filePath job) with
    | EXPORT_DONE, Some path =>
        _ ← require (match xj_expiresAt job with Some t => negb (t <? e_now E) | None => true end)
              (NotFoundError "Export file (expired)" None);
        _ ← require (stat path) (NotFoundError "Export file" None);
        mret (path, "tokenledger-export-" +:+ xj_id job +:+ ".csv")
    | _, _ => fail (NotFoundError "Export file (job not finished)" None)
    end).

(** ** analytics-query.ts *)
Inductive Dimension := dim_project | dim_team | dim_user | dim_provider | dim_model.
Inductive Metric := metric_cost | metric_requests | metric_tokens | metric_errors.
Inductive Granularity := by_hour | by_day | by_week | by_month.
Definition DIMENSIONS : list (string * Dimension) :=
  [("project", dim_project); ("team", dim_team); ("user", dim_user); ("provider", dim_provider); ("model", dim_model)].
Definition METRICS : list (string * Metric) :=
  [("cost", metric_cost); ("requests", metric_requests); ("tokens", metric_tokens); ("errors", metric_errors)].
Definition GRANULARITIES : list (string * Granularity) :=
  [("hour", by_hour); ("day", by_day); ("week", by_week); ("month", by_month)].

Definition rk_bucket (k : RollupKey) : Z := k.1.1.1.1.1.
Definition rk_workspace (k : RollupKey) : string := k.1.1.1.1.2.
Definition rk_project (k : RollupKey) : string := k.1.1.1.2.
Definition rk_user (k : RollupKey) : string := k.1.1.2.
Definition rk_provider (k : RollupKey) : Provider := k.1.2.
Definition rk_model (k : RollupKey) : string := k.2.
Definition DIM_COLUMN (d : Dimension) (r : RollupRow) : option string :=
  let k := rr_key r in
  match d with
  | dim_project => Some (rk_project k)
  | dim_team => rr_teamId r
  | dim_user => Some (rk_user k)
  | dim_provider => Some (provider_text (rk_provider k))
  | dim_model => Some (rk_model k)
  end.
Definition METRIC_EXPR (m : Metric) (rows : list RollupRow) : Z :=
  match m with
  | metric_cost => sum_of cost8 rows
  | metric_requests => sum_of requests rows
  | metric_tokens => sum_of (fun c => c_inputTokens c + c_outputTokens c) rows
  | metric_errors => sum_of errors rows
  end.
Record ExplorerFilters := mkExplorer {
  ef_projectId : option string; ef_teamId : option string; ef_userId : option string;
  ef_provider : option Provider; ef_model : option string }.
(** The WHERE clause: workspace, range, filters and the caller's scope. *)
Definition buildWhere (workspaceId : string) (from to : Z) (filters : ExplorerFilters) (scope : option string)
    (r : RollupRow) : bool :=
  let k := rr_key r in
  String.eqb (rk_workspace k) workspaceId && (from <=? rk_bucket k) && (rk_bucket k <? to)
  && in_scope (ef_projectId filters) (rk_project k)
  && match ef_teamId filters with Some t => bool_decide (rr_teamId r = Some t) | None => true end
  && in_scope (ef_userId filters) (rk_user k)
  && match ef_provider filters with Some p => provider_eqb (rk_provider k) p | None => true end
  && in_scope (ef_model filters) (rk_model k)
  && in_scope scope (rk_user k).
Definition tableFor (g : Granularity) (d : ApiDb) : list RollupRow :=
  match g with by_hour => usage_rollup_hourly (usage d) | _ => usage_rollup_daily (usage d) end.
(** [date_trunc(unit, bucket)] in a UTC session; weeks start on Monday. *)
Definition date_trunc (g : Granularity) (t : Z) : Z :=
  match g with
  | by_hour => t / MS_HOUR * MS_HOUR
  | by_day => t / MS_DAY * MS_DAY
  | by_week => ((t / MS_DAY + 3) / 7 * 7 - 3) * MS_DAY
  | by_month => let '(y, m, _) := civil_from_days (t / MS_DAY) in days_from_civil y m 1 * MS_DAY
  end.

Definition distinct_keys (f : RollupRow -> option string) (rows : list RollupRow) : list (option string) :=
  uniq (map f rows).
Definition resolveLabels (d : ApiDb) (dim : Dimension) (ids : list (option string)) (id : string) : option string :=
  if bool_decide (Some id ∈ ids) then
    match dim with
    | dim_project => p_name <$> List.find (with_key id) (projects d)
    | dim_team => t_name <$> List.find (with_key id) (teams d)
    | dim_user => u_name <$> List.find (with_key id) (users d)
    | dim_provider | dim_model => None
    end
  else None.
Record TimeseriesSeries := mkSeries { se_key : option (string * string); se_points : list (string * Z) }.
(** The points of a selection of rows: one per truncated bucket, in time order. *)
Definition points_of (g : Granularity) (m : Metric) (rows : list RollupRow) : list (string * Z) :=
  map (fun t => (toISOString t, METRIC_EXPR m (List.filter (fun r => date_trunc g (rk_bucket (rr_key r)) =? t) rows)))
    (order_by Z.leb (uniq (map (fun r => date_trunc g (rk_bucket (rr_key r))) rows))).
(** Grouped rows come ordered by time, and the series in the order of their
    first row; a null key is labelled "unknown". *)
Definition queryTimeseries (d : ApiDb) (wh : RollupRow -> bool) (m : Metric) (g : Granularity)
    (groupBy : option Dimension) : list TimeseriesSeries :=
  let rows := List.filter wh (tableFor g d) in
  match groupBy with
  | None => [mkSeries None (points_of g m rows)]
  | Some dim =>
      let col r := DIM_COLUMN dim r ?? "unknown" in
      let sorted := order_by (oldest (fun r => date_trunc g (rk_bucket (rr_key r)))) rows in
      let labels := resolveLabels d dim (map (DIM_COLUMN dim) rows) in
      map (fun id => mkSeries (Some (id, labels id ?? id))
                       (points_of g m (List.filter (fun r => String.eqb (col r) id) rows)))
        (uniq (map col sorted))
  end.

Record BreakdownRow := mkBreakdown {
  bd_key : string * string; bd_costUsd : Z; bd_requests : Z; bd_errors : Z; bd_inputTokens : Z;
  bd_outputTokens : Z; bd_errorRate : Q; bd_sharePct : Q }.
Definition ratio (a b : Z) : Q := if 0 <? b then Qmake a (Z.to_pos b) else 0%Q.
Record BreakdownGroup := mkGroupRow { bg_key : option string; bg_rows : list RollupRow }.
(** [GROUP BY k ORDER BY cost DESC LIMIT n] *)
Definition groups_by (f : RollupRow -> option string) (rows : list RollupRow) : list BreakdownGroup :=
  map (fun k => mkGroupRow k (List.filter (fun r => bool_decide (f r = k)) rows)) (distinct_keys f rows).
Definition bg_cost (g : BreakdownGroup) : Z := sum_of cost8 (bg_rows g).
Definition dearest (a b : BreakdownGroup) : bool := bg_cost b <=? bg_cost a.
Definition queryBreakdown (d : ApiDb) (wh : RollupRow -> bool) (dim : Dimension) (limit : nat)
  : list BreakdownRow * Z :=
  let rows := List.filter wh (usage_rollup_daily (usage d)) in
  let raw := take limit (order_by dearest (groups_by (DIM_COLUMN dim) rows)) in
  let labels := resolveLabels d dim (map bg_key raw) in
  let total := zsum bg_cost raw in
  (map (fun g => let id := bg_key g ?? "unknown" in
                 mkBreakdown (id, labels id ?? id) (bg_cost g) (sum_of requests (bg_rows g)) (sum_of errors (bg_rows g))
                   (sum_of c_inputTokens (bg_rows g)) (sum_of c_outputTokens (bg_rows g))
                   (ratio (sum_of errors (bg_rows g)) (sum_of requests (bg_rows g)))
                   (ratio (100 * bg_cost g) total)) raw, total).

(** ** analytics.ts *)
Definition summaryQuery : schema Z := zobject (fun k => zdefault 30 (zcoerce_int 1 365) (k "days")).
Definition eventsQuery : schema (Z * option string) :=
  zobject (fun k => limit ← zdefault 50 (zcoerce_int 1 200) (k "limit"); cursor ← zoptional zstring (k "cursor");
                    Some (limit, cursor)).
Record ExplorerQuery := mkExplorerQuery {
  eq_from : Z; eq_to : Z; eq_filters : ExplorerFilters; eq_metric : Metric; eq_granularity : Granularity;
  eq_groupBy : option Dimension; eq_limit : nat }.
(** The fields both explorer queries share; [toFilters] drops empty texts. *)
Definition filterFields (k : string -> option json) : option (Z * Z * ExplorerFilters) :=
  from ← zcoerce_date (k "from"); to ← zcoerce_date (k "to");
  projectId ← zoptional (zuuid_text E) (k "projectId"); teamId ← zoptional (zuuid_text E) (k "teamId");
  userId ← zoptional (zuuid_text E) (k "userId"); provider ← zoptional zprovider (k "provider");
  model ← zoptional (zlen 0 100) (k "model");
  Some (from, to, mkExplorer (if_truthy projectId) (if_truthy teamId) (if_truthy userId) provider (if_truthy model)).
Definition timeseriesQuery : schema ExplorerQuery :=
  zobject (fun k =>
    '(from, to, filters) ← filterFields k;
    metric ← zdefault metric_cost (zenum METRICS) (k "metric");
    granularity ← zdefault by_day (zenum GRANULARITIES) (k "granularity");
    groupBy ← zoptional (zenum DIMENSIONS) (k "groupBy");
    Some (mkExplorerQuery from to filters metric granularity groupBy 0)).
Definition breakdownQuery : schema ExplorerQuery :=
  zobject (fun k =>
    '(from, to, filters) ← filterFields k;
    groupBy ← zenum DIMENSIONS (k "groupBy"); limit ← zdefault 50 (zcoerce_int 1 200) (k "limit");
    Some (mkExplorerQuery from to filters metric_cost by_day (Some groupBy) (Z.to_nat limit))).
Definition query_of : option json := Some (non_null (rq_query rq) ?? JObj []).

Record Summary := mkSummary {
  su_rangeDays : Z; su_costUsd : Z; su_requests : Z; su_inputTokens : Z; su_outputTokens : Z; su_errorRate : Q;
  su_byProvider : list (option string * Z * Z); su_byModel : list (Provider * string * Z * Z);
  su_byDay : list (string * Z * Z) }.
(** The rollup rows a summary reads. *)
Definition summary_where (workspaceId : string) (from : Z) (scope : option string) (r : RollupRow) : bool :=
  String.eqb (rk_workspace (rr_key r)) workspaceId && (from <=? rk_bucket (rr_key r))
  && in_scope scope (rk_user (rr_key r)).
Definition model_of (r : RollupRow) : Provider * string := (rk_provider (rr_key r), rk_model (rr_key r)).
Definition summarize (days : Z) (rows : list RollupRow) : Summary :=
  let cost_of {K} `{EqDecision K} (f : RollupRow -> K) k := List.filter (fun r => bool_decide (f r = k)) rows in
  let n := sum_of requests rows in
  mkSummary days (sum_of cost8 rows) n (sum_of c_inputTokens rows) (sum_of c_outputTokens rows)
    (ratio (sum_of errors rows) n)
    (map (fun g => (bg_key g, bg_cost g, sum_of requests (bg_rows g)))
       (order_by dearest (groups_by (DIM_COLUMN dim_provider) rows)))
    (take 8 (order_by (fun a b => b.1.2 <=? a.1.2)
      (map (fun k => let l := cost_of model_of k in (k.1, k.2, sum_of cost8 l, sum_of requests l))
         (uniq (map model_of rows)))))
    (map (fun b => let l := cost_of (fun r => rk_bucket (rr_key r)) b in
                   (slice_to 10 (toISOString b), sum_of cost8 l, sum_of requests l))
       (order_by Z.leb (uniq (map (fun r => rk_bucket (rr_key r)) rows)))).
Definition analyticsSummary (ws : string) : H Summary :=
  ws_route E rq VIEWER ws (fun user ctx =>
    days ← parse summaryQuery query_of;
    scope ← scope_uid user ctx;
    gets (fun d => summarize days
      (List.filter (summary_where (wc_workspaceId ctx) (e_now E - days * 86400000) scope)
         (usage_rollup_daily (usage d))))).

(** [Buffer.from(iso).toString("base64url")] and back; both alphabets decode. *)
Definition url_char (c : ascii) : ascii := if Ascii.eqb c "+" then "-"%char else if Ascii.eqb c "/" then "_"%char else c.
Definition std_char (c : ascii) : ascii := if Ascii.eqb c "-" then "+"%char else if Ascii.eqb c "_" then "/"%char else c.
Definition encodeCursor (occurredAt : Z) : string :=
  smap url_char (drop_while_end (Ascii.eqb "=") (base64_encode (toISOString occurredAt))).
Definition decodeCursor (cursor : string) : Z :=
  match date_parse (utf8_decode (base64_decode (smap std_char cursor))) with Some t => t | None => e_now E end.

(** A stored event with the instant of its [occurredAt] column. *)
Definition event_time (e : UsageEventMessage) : Z := match date_parse (ev_occurredAt e) with Some t => t | None => 0 end.
Definition events_where (workspaceId : string) (scope : option string) (before : option Z) (e : UsageEventMessage) : bool :=
  String.eqb (ev_workspaceId e) workspaceId && in_scope scope (ev_userId e)
  && match before with Some t => event_time e <? t | None => true end.
(** [take: limit + 1] of the newest matching events: the page and the cursor
    after it. *)
Definition events_page (table : list UsageEventMessage) (wh : UsageEventMessage -> bool) (limit : nat)
  : list UsageEventMessage * option string :=
  let events := take (limit + 1) (order_by (newest event_time) (List.filter wh table)) in
  let page := take limit events in
  (page, match last page with
         | Some l => if (limit <? length events)%nat then Some (encodeCursor (event_time l)) else None
         | None => None
         end).
Definition usageEvents (ws : string) : H (list UsageEventMessage * option string) :=
  ws_route E rq VIEWER ws (fun user ctx =>
    '(limit, cursor) ← parse eventsQuery query_of;
    scope ← scope_uid user ctx;
    let before := decodeCursor <$> if_truthy cursor in
    gets (fun d => events_page (usage_event (usage d)) (events_where (wc_workspaceId ctx) scope before)
                     (Z.to_nat limit))).

(** Filter texts bound to uuid columns. *)
Definition bind_uuid (v : option string) : H (option string) :=
  match v with None => mret None | Some s => u ← uuid E s; mret (Some u) end.
Definition bind_filters (f : ExplorerFilters) : H ExplorerFilters :=
  p ← bind_uuid (ef_projectId f); t ← bind_uuid (ef_teamId f); u ← bind_uuid (ef_userId f);
  mret (mkExplorer p t u (ef_provider f) (ef_model f)).
Definition analyticsTimeseries (ws : string) : H (list TimeseriesSeries) :=
  ws_route E rq VIEWER ws (fun user ctx =>
    q ← parse timeseriesQuery query_of;
    scope ← scope_uid user ctx;
    filters ← bind_filters (eq_filters q);
    gets (fun d => queryTimeseries d (buildWhere (wc_workspaceId ctx) (eq_from q) (eq_to q) filters scope)
                     (eq_metric q) (eq_granularity q) (eq_groupBy q))).
Definition analyticsBreakdown (ws : string) : H (list BreakdownRow * Z) :=
  ws_route E rq VIEWER ws (fun user ctx =>
    q ← parse breakdownQuery query_of;
    scope ← scope_uid user ctx;
    filters ← bind_filters (eq_filters q);
    gets (fun d => queryBreakdown d (buildWhere (wc_workspaceId ctx) (eq_from q) (eq_to q) filters scope)
                     (eq_groupBy q ?? dim_model) (eq_limit q))).

End reports.
