(* ===== verification/ApiServer.v ===== *)
(** * apps/api: the routes and the error handler

    server.ts: which handler a method and path reach, the status of its answer,
    the problem document of what it throws, and the readiness answer.  [serve]
    is one request run to its end. *)

From S2P Require Import Prelude JsString JsNum JsDate Json Shared Queue Auth Providers Gateway Persist Export Zod ApiDb ApiAuth.
From S2P Require Import ApiKeys ApiMembers ApiOrg ApiPricing ApiReports.
From Stdlib Require Import Ascii.

(** ** What can be asked *)
Inductive ApiCall :=
| CallRegister | CallLogin | CallRefresh | CallLogout | CallMe
| CallAdminStats | CallAdminTimeseries | CallAdminWorkspaces
| CallListWorkspaces | CallGetWorkspace (ws : string)
| CallListProjects (ws : string) | CallCreateProject (ws : string)
| CallUpdateProject (ws id : string) | CallDeleteProject (ws id : string)
| CallListTeams (ws : string) | CallCreateTeam (ws : string) | CallGetTeam (ws id : string)
| CallUpdateTeam (ws id : string) | CallDeleteTeam (ws id : string)
| CallAddTeamMember (ws id : string) | CallUpdateTeamMember (ws id userId : string)
| CallRemoveTeamMember (ws id userId : string)
| CallListCredentials (ws : string) | CallCreateCredential (ws : string) | CallTestCredential (ws id : string)
| CallPatchCredential (ws id : string) | CallDeleteCredential (ws id : string)
| CallListKeys (ws : string) | CallIssueKey (ws : string) | CallPatchKey (ws id : string) | CallRevokeKey (ws id : string)
| CallSummary (ws : string) | CallEvents (ws : string) | CallTimeseries (ws : string) | CallBreakdown (ws : string)
| CallCreateExport (ws : string) | CallListExports (ws : string) | CallGetExport (ws id : string)
| CallDownload (ws id : string)
| CallListMembers (ws : string) | CallListInvitations (ws : string) | CallInvite (ws : string)
| CallReissueLink (ws id : string) | CallWithdraw (ws id : string)
| CallUpdateMember (ws userId : string) | CallRemoveMember (ws userId : string)
| CallShowInvitation (token : string) | CallAccept (token : string)
| CallModels | CallListOverrides (ws : string) | CallCreateOverride (ws : string)
| CallUpdateOverride (ws id : string) | CallDeleteOverride (ws id : string) | CallUnpriced (ws : string).

(** The routes under /api/v1, in the order the modules register them. *)
Definition api_routes : list (string * string * ((string -> string) -> ApiCall)) :=
  [ ("POST", "/auth/register", fun _ => CallRegister);
    ("POST", "/auth/login", fun _ => CallLogin);
    ("POST", "/auth/refresh", fun _ => CallRefresh);
    ("POST", "/auth/logout", fun _ => CallLogout);
    ("GET", "/auth/me", fun _ => CallMe);
    ("GET", "/admin/stats", fun _ => CallAdminStats);
    ("GET", "/admin/timeseries", fun _ => CallAdminTimeseries);
    ("GET", "/admin/workspaces", fun _ => CallAdminWorkspaces);
    ("GET", "/workspaces", fun _ => CallListWorkspaces);
    ("GET", "/workspaces/:ws", fun p => CallGetWorkspace (p "ws"));
    ("GET", "/workspaces/:ws/projects", fun p => CallListProjects (p "ws"));
    ("POST", "/workspaces/:ws/projects", fun p => CallCreateProject (p "ws"));
    ("PATCH", "/workspaces/:ws/projects/:id", fun p => CallUpdateProject (p "ws") (p "id"));
    ("DELETE", "/workspaces/:ws/projects/:id", fun p => CallDeleteProject (p "ws") (p "id"));
    ("GET", "/workspaces/:ws/teams", fun p => CallListTeams (p "ws"));
    ("POST", "/workspaces/:ws/teams", fun p => CallCreateTeam (p "ws"));
    ("GET", "/workspaces/:ws/teams/:teamId", fun p => CallGetTeam (p "ws") (p "teamId"));
    ("PATCH", "/workspaces/:ws/teams/:teamId", fun p => CallUpdateTeam (p "ws") (p "teamId"));
    ("DELETE", "/workspaces/:ws/teams/:teamId", fun p => CallDeleteTeam (p "ws") (p "teamId"));
    ("POST", "/workspaces/:ws/teams/:teamId/members", fun p => CallAddTeamMember (p "ws") (p "teamId"));
    ("PATCH", "/workspaces/:ws/teams/:teamId/members/:userId",
       fun p => CallUpdateTeamMember (p "ws") (p "teamId") (p "userId"));
    ("DELETE", "/workspaces/:ws/teams/:teamId/members/:userId",
       fun p => CallRemoveTeamMember (p "ws") (p "teamId") (p "userId"));
    ("GET", "/workspaces/:ws/credentials", fun p => CallListCredentials (p "ws"));
    ("POST", "/workspaces/:ws/credentials", fun p => CallCreateCredential (p "ws"));
    ("POST", "/workspaces/:ws/credentials/:id/test", fun p => CallTestCredential (p "ws") (p "id"));
    ("PATCH", "/workspaces/:ws/credentials/:id", fun p => CallPatchCredential (p "ws") (p "id"));
    ("DELETE", "/workspaces/:ws/credentials/:id", fun p => CallDeleteCredential (p "ws") (p "id"));
    ("GET", "/workspaces/:ws/keys", fun p => CallListKeys (p "ws"));
    ("POST", "/workspaces/:ws/keys", fun p => CallIssueKey (p "ws"));
    ("PATCH", "/workspaces/:ws/keys/:keyId", fun p => CallPatchKey (p "ws") (p "keyId"));
    ("POST", "/workspaces/:ws/keys/:keyId/revoke", fun p => CallRevokeKey (p "ws") (p "keyId"));
    ("GET", "/workspaces/:ws/analytics/summary", fun p => CallSummary (p "ws"));
    ("GET", "/workspaces/:ws/usage/events", fun p => CallEvents (p "ws"));
    ("GET", "/workspaces/:ws/analytics/timeseries", fun p => CallTimeseries (p "ws"));
    ("GET", "/workspaces/:ws/analytics/breakdown", fun p => CallBreakdown (p "ws"));
    ("POST", "/workspaces/:ws/exports", fun p => CallCreateExport (p "ws"));
    ("GET", "/workspaces/:ws/exports", fun p => CallListExports (p "ws"));
    ("GET", "/workspaces/:ws/exports/:id", fun p => CallGetExport (p "ws") (p "id"));
    ("GET", "/workspaces/:ws/exports/:id/download", fun p => CallDownload (p "ws") (p "id"));
    ("GET", "/workspaces/:ws/members", fun p => CallListMembers (p "ws"));
    ("GET", "/workspaces/:ws/invitations", fun p => CallListInvitations (p "ws"));
    ("POST", "/workspaces/:ws/invitations", fun p => CallInvite (p "ws"));
    ("POST", "/workspaces/:ws/invitations/:id/link", fun p => CallReissueLink (p "ws") (p "id"));
    ("DELETE", "/workspaces/:ws/invitations/:id", fun p => CallWithdraw (p "ws") (p "id"));
    ("PATCH", "/workspaces/:ws/members/:userId", fun p => CallUpdateMember (p "ws") (p "userId"));
    ("DELETE", "/workspaces/:ws/members/:userId", fun p => CallRemoveMember (p "ws") (p "userId"));
    ("GET", "/auth/invitations/:token", fun p => CallShowInvitation (p "token"));
    ("POST", "/auth/invitations/:token/accept", fun p => CallAccept (p "token"));
    ("GET", "/pricing/models", fun _ => CallModels);
    ("GET", "/workspaces/:ws/pricing/overrides", fun p => CallListOverrides (p "ws"));
    ("POST", "/workspaces/:ws/pricing/overrides", fun p => CallCreateOverride (p "ws"));
    ("PATCH", "/workspaces/:ws/pricing/overrides/:id", fun p => CallUpdateOverride (p "ws") (p "id"));
    ("DELETE", "/workspaces/:ws/pricing/overrides/:id", fun p => CallDeleteOverride (p "ws") (p "id"));
    ("GET", "/workspaces/:ws/pricing/unpriced", fun p => CallUnpriced (p "ws")) ].

(** A path against a route's: [:name] takes one non-empty segment. *)
Fixpoint match_segments (pattern path : list string) : option (list (string * string)) :=
  match pattern, path with
  | [], [] => Some []
  | p :: ps, s :: ss =>
      rest ← match_segments ps ss;
      if starts_with ":" p then
        if String.eqb s "" then None else Some ((slice_from 1 p, s) :: rest)
      else if String.eqb p s then Some rest else None
  | _, _ => None
  end.
Definition param (l : list (string * string)) (name : string) : string :=
  match List.find (fun b => String.eqb b.1 name) l with Some b => b.2 | None => "" end.
Definition API_PREFIX : string := "/api/v1".
Fixpoint find_route (rs : list (string * string * ((string -> string) -> ApiCall))) (method : string)
    (segments : list string) : option ApiCall :=
  match rs with
  | [] => None
  | (m, pattern, call) :: rest =>
      match match_segments (split_on "/"%char pattern) segments with
      | Some l => if String.eqb m method then Some (call (param l)) else find_route rest method segments
      | None => find_route rest method segments
      end
  end.
Definition find_call (method path : string) : option ApiCall :=
  if starts_with API_PREFIX path
  then find_route api_routes method (split_on "/"%char (slice_from (String.length API_PREFIX) path))
  else None.

Section server.
(** [get], [stat]: the probe of a credential and the file system. *)
Context (get : UpstreamRequest -> option Z) (stat : string -> bool) (E : ApiEnv) (rq : ApiRequest).

(** A handler's answer, by its status. *)
Definition replies {A} (status : Z) (m : H A) : H Z := _ ← m; mret status.
Definition perform (c : ApiCall) : H Z :=
  match c with
  | CallRegister => replies 201 (register E rq)
  | CallLogin => replies 200 (login E rq)
  | CallRefresh => replies 200 (ApiAuth.refresh E rq)
  | CallLogout => replies 200 (logout E rq)
  | CallMe => replies 200 (me E rq)
  | CallAdminStats => replies 200 (adminStats E rq)
  | CallAdminTimeseries => replies 200 (adminTimeseries E rq)
  | CallAdminWorkspaces => replies 200 (adminWorkspaces E rq)
  | CallListWorkspaces => replies 200 (listWorkspaces E rq)
  | CallGetWorkspace ws => replies 200 (getWorkspace E rq ws)
  | CallListProjects ws => replies 200 (listProjects E rq ws)
  | CallCreateProject ws => replies 201 (createProject E rq ws)
  | CallUpdateProject ws id => replies 200 (updateProject E rq ws id)
  | CallDeleteProject ws id => replies 200 (deleteProject E rq ws id)
  | CallListTeams ws => replies 200 (listTeams E rq ws)
  | CallCreateTeam ws => replies 201 (createTeam E rq ws)
  | CallGetTeam ws id => replies 200 (getTeam E rq ws id)
  | CallUpdateTeam ws id => replies 200 (updateTeam E rq ws id)
  | CallDeleteTeam ws id => replies 200 (deleteTeam E rq ws id)
  | CallAddTeamMember ws id => replies 201 (addTeamMember E rq ws id)
  | CallUpdateTeamMember ws id u => replies 200 (updateTeamMember E rq ws id u)
  | CallRemoveTeamMember ws id u => replies 200 (removeTeamMember E rq ws id u)
  | CallListCredentials ws => replies 200 (listCredentials E rq ws)
  | CallCreateCredential ws => replies 201 (createCredential E rq ws)
  | CallTestCredential ws id => replies 200 (testCredential E rq get ws id)
  | CallPatchCredential ws id => replies 200 (patchCredential E rq ws id)
  | CallDeleteCredential ws id => replies 200 (deleteCredential E rq ws id)
  | CallListKeys ws => replies 200 (listKeys E rq ws)
  | CallIssueKey ws => replies 201 (issueKey E rq ws)
  | CallPatchKey ws id => replies 200 (patchKey E rq ws id)
  | CallRevokeKey ws id => replies 200 (revokeKey E rq ws id)
  | CallSummary ws => replies 200 (analyticsSummary E rq ws)
  | CallEvents ws => replies 200 (usageEvents E rq ws)
  | CallTimeseries ws => replies 200 (analyticsTimeseries E rq ws)
  | CallBreakdown ws => replies 200 (analyticsBreakdown E rq ws)
  | CallCreateExport ws => replies 202 (createExport E rq ws)
  | CallListExports ws => replies 200 (listExports E rq ws)
  | CallGetExport ws id => replies 200 (getExport E rq ws id)
  | CallDownload ws id => replies 200 (downloadExport E rq stat ws id)
  | CallListMembers ws => replies 200 (listMembers E rq ws)
  | CallListInvitations ws => replies 200 (listInvitations E rq ws)
  | CallInvite ws => replies 201 (invite E rq ws)
  | CallReissueLink ws id => replies 200 (reissueLink E rq ws id)
  | CallWithdraw ws id => replies 200 (withdrawInvitation E rq ws id)
  | CallUpdateMember ws u => replies 200 (updateMember E rq ws u)
  | CallRemoveMember ws u => replies 200 (removeMember E rq ws u)
  | CallShowInvitation token => replies 200 (showInvitation E token)
  | CallAccept token => replies 200 (acceptInvitation E rq token)
  | CallModels => replies 200 (listModels E rq)
  | CallListOverrides ws => replies 200 (listOverrides E rq ws)
  | CallCreateOverride ws => replies 201 (createOverride E rq ws)
  | CallUpdateOverride ws id => replies 200 (updateOverride E rq ws id)
  | CallDeleteOverride ws id => replies 200 (deleteOverride E rq ws id)
  | CallUnpriced ws => replies 200 (listUnpriced E rq ws)
  end.

(** ** The problem document of an error *)
Record Problem := mkProblem {
  pb_type : string; pb_title : string; pb_status : Z; pb_detail : option string }.
Definition errorHandler (t : thrown) : Problem :=
  match t with
  | TZod => mkProblem "https://tokenledger.dev/problems/validation_failed" "validation_failed" 400
              (Some "Request validation failed")
  | TDomain e => mkProblem ("https://tokenledger.dev/problems/" +:+ err_code e) (err_code e) (httpStatus e)
                   (Some (err_message e))
  | TPrisma _ | TOther _ => mkProblem "about:blank" "Internal Server Error" (error_status t) None
  end.

(** A request run to its end: the tables and messages after it and the answer's
    status; no route: Fastify's 404. *)
Definition serve (method path : string) (w : World) : World * Z :=
  match find_call method path with
  | None => (w, 404)
  | Some c =>
      match perform c w with
      | (w', Ok status) => (w', status)
      | (w', Throw e) => (w', pb_status (errorHandler e))
      end
  end.
End server.

(** ** Readiness *)
Definition readyz (postgres redis : bool) : Z * string :=
  let ready := postgres && redis in
  (if ready then 200 else 503, if ready then "ready" else "degraded").
