(* ===== verification/ApiRules.v ===== *)
(** * Reasoning about handlers

    [safe S m w K]: run in [w], [m] either returns a value and a world that
    satisfy [K], or throws leaving tables that satisfy [S].  One rule per
    operation of ApiDb.v; [run] applies them. *)

From S2P Require Import Prelude JsString JsNum JsDate Json Shared Auth Persist Zod ApiDb ApiAuth ApiKeys ApiMembers.
From S2P Require Import ApiOrg.

Lemma in_update_rows {R} (p : R -> bool) f l x :
  x ∈ update_rows p f l <-> exists y, y ∈ l /\ x = if p y then f y else y.
Proof. unfold update_rows. rewrite list_elem_of_fmap. split; intros (y & ? & ?); eauto. Qed.

Section safe.
Context (S : ApiDb -> Prop).

Definition safe {A} (m : H A) (w : World) (K : A -> World -> Prop) : Prop :=
  match m w with (w', Ok a) => K a w' | (w', Throw _) => S (db w') end.

Lemma safe_ret {A} (a : A) w (K : A -> World -> Prop) : K a w -> safe (mret a) w K.
Proof. done. Qed.
Lemma safe_throw {A} e w (K : A -> World -> Prop) : S (db w) -> safe (throw e) w K.
Proof. done. Qed.
Lemma safe_fail {A} e w (K : A -> World -> Prop) : S (db w) -> safe (fail e) w K.
Proof. done. Qed.
Lemma safe_bind {A B} (m : H A) (f : A -> H B) w K :
  safe m w (fun a w' => safe (f a) w' K) -> safe (m ≫= f) w K.
Proof. unfold safe. rewrite run_bind. by destruct (m w) as [w' [a|e]]. Qed.
Lemma safe_weaken {A} (m : H A) w (K K' : A -> World -> Prop) :
  (forall a w', K a w' -> K' a w') -> safe m w K -> safe m w K'.
Proof. unfold safe. destruct (m w) as [w' [a|e]]; auto. Qed.
Lemma safe_gets {A} (f : ApiDb -> A) w (K : A -> World -> Prop) : K (f (db w)) w -> safe (gets f) w K.
Proof. done. Qed.
Lemma safe_say m w (K : unit -> World -> Prop) : K tt (mkWorld (db w) (outbox w ++ [m])) -> safe (say m) w K.
Proof. done. Qed.
Lemma safe_require b e w (K : unit -> World -> Prop) : S (db w) -> (b = true -> K tt w) -> safe (require b e) w K.
Proof. destruct b; [|done]. intros _ H. by apply H. Qed.
Lemma safe_parse {A} (z : schema A) body w (K : A -> World -> Prop) :
  S (db w) -> (forall a, z body = Some a -> K a w) -> safe (parse z body) w K.
Proof. unfold safe, parse. intros Hs HK. destruct (z body); [by apply HK|done]. Qed.
Lemma safe_of_js {A} (r : js A) w (K : A -> World -> Prop) :
  S (db w) -> (forall a, r = Ok a -> K a w) -> safe (of_js r) w K.
Proof. destruct r; [intros _ H; by apply H|done]. Qed.
Lemma safe_of_random {A} (o : option A) w (K : A -> World -> Prop) :
  S (db w) -> (forall a, o = Some a -> K a w) -> safe (of_random o) w K.
Proof. destruct o; [intros _ H; by apply H|done]. Qed.
Lemma safe_uuid E s w (K : string -> World -> Prop) :
  S (db w) -> (forall u, e_uuid E s = Some u -> K u w) -> safe (uuid E s) w K.
Proof. unfold safe, uuid. intros Hs HK. destruct (e_uuid E s); [by apply HK|done]. Qed.
Lemma safe_uuids E l w (K : list string -> World -> Prop) :
  S (db w) -> (forall us, mapM (e_uuid E) l = Some us -> K us w) -> safe (uuids E l) w K.
Proof.
  revert K; induction l as [|s l IH]; intros K Hs HK; [by apply safe_ret, HK|]. cbn [uuids].
  apply safe_bind, safe_uuid; [done|]. intros u Hu. apply safe_bind, IH; [done|].
  intros us Hus. apply safe_ret, HK. cbn. by rewrite Hu, Hus.
Qed.

Section tables.
Context {R : Type} {TR : Table R}.
Lemma safe_findFirst (p : R -> bool) w (K : option R -> World -> Prop) :
  (forall r, List.find p (rows_of (db w)) = Some r -> r ∈ rows_of (db w) -> p r = true -> K (Some r) w) ->
  (List.find p (rows_of (db w)) = None -> K None w) -> safe (findFirst p) w K.
Proof.
  intros Hs Hn. apply safe_gets. destruct (List.find p (rows_of (db w))) as [r|] eqn:E; [|by apply Hn].
  destruct (find_some _ _ E) as [Hin Hp]. apply Hs; [done| |done]. by apply list_elem_of_In.
Qed.
Lemma safe_findMany (p : R -> bool) w (K : list R -> World -> Prop) :
  K (List.filter p (rows_of (db w))) w -> safe (findMany p) w K.
Proof. done. Qed.
Lemma safe_count (p : R -> bool) w (K : nat -> World -> Prop) :
  K (length (List.filter p (rows_of (db w)))) w -> safe (count p) w K.
Proof. done. Qed.
Lemma safe_create (r : R) w (K : unit -> World -> Prop) :
  S (db w) ->
  (fits (db w) r (rows_of (db w)) = Ok tt ->
     K tt (mkWorld (set_rows (rows_of (db w) ++ [r]) (db w)) (outbox w))) ->
  safe (create r) w K.
Proof. intros Hs HK. unfold safe, create. cbn. destruct (fits _ _ _) as [[]|e]; [by apply HK|done]. Qed.
Lemma safe_updateMany (p : R -> bool) f w (K : unit -> World -> Prop) :
  K tt (mkWorld (set_rows (update_rows p f (rows_of (db w))) (db w)) (outbox w)) -> safe (updateMany p f) w K.
Proof. done. Qed.
Lemma safe_update (p : R -> bool) f w (K : R -> World -> Prop) :
  S (db w) ->
  (forall r, List.find p (rows_of (db w)) = Some r -> r ∈ rows_of (db w) -> p r = true ->
     fits (db w) (f r) (List.filter (fun x => negb (with_key (row_key r) x)) (rows_of (db w))) = Ok tt ->
     K (f r) (mkWorld (set_rows (update_rows (with_key (row_key r)) f (rows_of (db w))) (db w)) (outbox w))) ->
  safe (update p f) w K.
Proof.
  intros Hs HK. unfold safe, update. cbn. destruct (List.find p (rows_of (db w))) as [r|] eqn:E; [|done].
  destruct (fits _ _ _) as [[]|e] eqn:F; [|done].
  destruct (find_some _ _ E) as [Hin Hp]. apply HK; [done| |done|done]. by apply list_elem_of_In.
Qed.
Lemma safe_deleteMany (p : R -> bool) w (K : nat -> World -> Prop) :
  S (db w) ->
  ((forall r, r ∈ rows_of (db w) -> p r = true -> restricted (db w) r = false) ->
   K (length (List.filter p (rows_of (db w)))) (mkWorld (set_rows (remove_rows p (rows_of (db w))) (db w)) (outbox w))) ->
  safe (deleteMany p) w K.
Proof.
  intros Hs HK. unfold safe, deleteMany. cbn. destruct (existsb _ _) eqn:E; [done|]. apply HK.
  intros r Hr Hp. destruct (restricted (db w) r) eqn:F; [|done]. exfalso.
  rewrite (proj2 (existsb_exists _ _)) in E; [done|]. exists r.
  split; [by apply list_elem_of_In|by rewrite Hp, F].
Qed.
Lemma safe_delete_one (p : R -> bool) w (K : unit -> World -> Prop) :
  S (db w) ->
  (forall r, List.find p (rows_of (db w)) = Some r -> r ∈ rows_of (db w) -> p r = true ->
     restricted (db w) r = false ->
     K tt (mkWorld (cascade r (set_rows (remove_rows (with_key (row_key r)) (rows_of (db w))) (db w))) (outbox w))) ->
  safe (delete_one p) w K.
Proof.
  intros Hs HK. unfold safe, delete_one. cbn. destruct (List.find p (rows_of (db w))) as [r|] eqn:E; [|done].
  destruct (restricted (db w) r) eqn:F; [done|].
  destruct (find_some _ _ E) as [Hin Hp]. apply HK; [done| |done|done]. by apply list_elem_of_In.
Qed.
End tables.

End safe.

Lemma safe_transaction S {A} (m : H A) w (K : A -> World -> Prop) :
  S (db w) -> safe (fun _ => True) m w K -> safe S (transaction m) w K.
Proof. unfold safe, transaction. cbn. by destruct (m w) as [w' [a|e]]. Qed.
Lemma safe_recode S {A} code e (m : H A) w (K : A -> World -> Prop) : safe S m w K -> safe S (recode code e m) w K.
Proof. unfold safe. rewrite run_recode. by destruct (m w) as [w' [a|[]]]. Qed.

(** A handler whose every outcome leaves acceptable tables. *)
Lemma safe_done (S : ApiDb -> Prop) {A} (m : H A) w :
  safe S m w (fun _ w' => S (db w')) -> S (db (m w).1).
Proof. unfold safe. by destruct (m w) as [w' [a|e]]. Qed.

(** What a success of a handler says. *)
Lemma safe_ok {A} (S : ApiDb -> Prop) (m : H A) w w' a K : safe S m w K -> m w = (w', Ok a) -> K a w'.
Proof. unfold safe. intros Hs Hm. by rewrite Hm in Hs. Qed.

(** ** Who is calling *)
Definition authenticated (E : ApiEnv) (rq : ApiRequest) (user : AuthedUser) : Prop :=
  forall w, makeAuthenticate E rq w = (w, Ok user).
Definition has_role (d : ApiDb) (uid ws : string) (min : WorkspaceRole) : Prop :=
  exists m, m ∈ members d /\ m_userId m = uid /\ m_workspaceId m = ws /\ hasMinimumRole (m_role m) min = true.

Lemma safe_authenticate S E rq w (K : AuthedUser -> World -> Prop) :
  S (db w) -> (forall user, authenticated E rq user -> K user w) -> safe S (makeAuthenticate E rq) w K.
Proof.
  unfold safe, authenticated, makeAuthenticate. intros Hs HK.
  destruct (rq_authorization rq) as [header|]; [|done]. destruct (starts_with _ _); [|done].
  destruct (verifyAccessToken _ _ _ _) as [claims|]; [|done]. by apply HK.
Qed.
Lemma safe_guard S E min user ws w (K : WorkspaceContext -> World -> Prop) :
  S (db w) ->
  (forall uid ctx m, e_uuid E (au_id user) = Some uid ->
     m ∈ members (db w) -> m_userId m = uid -> m_workspaceId m = wc_workspaceId ctx ->
     m_role m = wc_role ctx -> hasMinimumRole (wc_role ctx) min = true -> K ctx w) ->
  safe S (makeWorkspaceGuard E min user ws) w K.
Proof.
  intros Hs HK. apply safe_bind, safe_uuid; [done|]. intros uid Hu. apply safe_bind, safe_gets.
  destruct (List.find (member_of E ws uid (db w)) (members (db w))) as [m|] eqn:Em; cbn; [|done].
  destruct (find_workspace (db w) (ws_named E ws) m) as [x|] eqn:Ex; cbn; [|done].
  apply safe_bind, safe_require; [done|]. intros Hr. apply safe_ret.
  apply find_some in Em as [Hin Hm]. apply andb_true_iff in Hm as [Hm _].
  apply find_some in Ex as [_ Hx]. apply andb_true_iff in Hx as [Hx _].
  apply String.eqb_eq in Hm, Hx. eapply (HK uid _ m); cbn; [done| |done|by symmetry|done|done].
  by apply list_elem_of_In.
Qed.
Lemma safe_route S {A} E rq min ws (handler : AuthedUser -> WorkspaceContext -> H A) w K :
  S (db w) ->
  (forall user uid ctx m, authenticated E rq user -> e_uuid E (au_id user) = Some uid ->
     m ∈ members (db w) -> m_userId m = uid -> m_workspaceId m = wc_workspaceId ctx ->
     m_role m = wc_role ctx -> hasMinimumRole (wc_role ctx) min = true ->
     safe S (handler user ctx) w K) ->
  safe S (ws_route E rq min ws handler) w K.
Proof.
  intros Hs HK. apply safe_bind, safe_authenticate; [done|]. intros user Hu.
  apply safe_bind, safe_guard; [done|]. intros uid ctx m; intros. by eapply HK.
Qed.

(** ** The context a guard finds *)
Definition guard_ctx (E : ApiEnv) (uid ws : string) (d : ApiDb) : option WorkspaceContext :=
  m ← List.find (member_of E ws uid d) (members d); x ← find_workspace d (ws_named E ws) m;
  Some (mkWsCtx (w_id x) (w_slug x) (m_role m)).
Definition guarded (E : ApiEnv) (uid ws : string) (d : ApiDb) : option string := wc_workspaceId <$> guard_ctx E uid ws d.
Lemma guarded_ctx E uid ws d ctx : guard_ctx E uid ws d = Some ctx -> guarded E uid ws d = Some (wc_workspaceId ctx).
Proof. unfold guarded. by intros ->. Qed.
Lemma guarded_same E E' uid ws d d' :
  e_uuid E = e_uuid E' -> members d = members d' -> workspaces d = workspaces d' ->
  guarded E uid ws d = guarded E' uid ws d'.
Proof. unfold guarded, guard_ctx, member_of, find_workspace, ws_named. by intros -> -> ->. Qed.
Lemma safe_guarded E min user ws w (K : WorkspaceContext -> World -> Prop) :
  (forall uid ctx, e_uuid E (au_id user) = Some uid -> guard_ctx E uid ws (db w) = Some ctx -> K ctx w) ->
  safe (fun _ => True) (makeWorkspaceGuard E min user ws) w K.
Proof.
  intros HK. apply safe_bind, safe_uuid; [done|]. intros uid Hu. apply safe_bind, safe_gets.
  specialize (HK uid). unfold guard_ctx in HK.
  destruct (List.find _ _) as [m|]; cbn in HK |- *; [|done]. destruct (find_workspace _ _ _) as [x|]; cbn in HK |- *; [|done].
  apply safe_bind, safe_require; [done|]. intros _. apply safe_ret. by apply HK.
Qed.
Lemma safe_route_of {A} E rq min ws (h : AuthedUser -> WorkspaceContext -> H A) user w K :
  authenticated E rq user ->
  (forall uid ctx, e_uuid E (au_id user) = Some uid -> guard_ctx E uid ws (db w) = Some ctx ->
     safe (fun _ => True) (h user ctx) w K) ->
  safe (fun _ => True) (ws_route E rq min ws h) w K.
Proof.
  intros Hu Hh. apply safe_bind. unfold safe at 1. rewrite (Hu w). apply safe_bind, safe_guarded. intros uid ctx. apply Hh.
Qed.
