(* ===== verification/ApiSteps.v ===== *)
(** * What the API may do to the tables

    [api_step]: the transitions a request may make, each with the conditions it
    is allowed under.  This is the abstract specification of the API modules;
    ApiRefine.v shows every handler stays within it, ApiSafety.v what follows
    for all of them. *)

From S2P Require Import Prelude JsString JsNum JsDate Json Shared Queue Auth Gateway Persist Export Zod ApiDb ApiAuth.
From S2P Require Import ApiKeys ApiMembers ApiOrg ApiPricing ApiReports ApiRules.

(** [tok]: the invitation token in the request's path. *)
Section steps.
Context (E : ApiEnv) (rq : ApiRequest) (tok : option string).

(** The request's access token is this user's, whose id the database writes [uid]. *)
Definition acts (user : AuthedUser) (uid : string) : Prop :=
  authenticated E rq user /\ e_uuid E (au_id user) = Some uid.
Definition by_role (d : ApiDb) (ws : string) (min : WorkspaceRole) : Prop :=
  exists user uid, acts user uid /\ has_role d uid ws min.
Definition owner_count (ws : string) (d : ApiDb) : nat := length (List.filter (is_owner ws) (members d)).
Definition team_of (d : ApiDb) (ws t : string) : Prop :=
  exists team, team ∈ teams d /\ t_id team = t /\ t_workspaceId team = ws.
(** A workspace admin, or a lead of the team who is still in the workspace. *)
Definition can_manage (d : ApiDb) (t : Team) : Prop :=
  exists user uid, acts user uid /\ has_role d uid (t_workspaceId t) VIEWER /\
    (has_role d uid (t_workspaceId t) ADMIN \/
     exists l, l ∈ team_members d /\ tm_teamId l = t_id t /\ tm_userId l = uid /\ tm_role l = LEAD).
(** The key's owner, or a workspace admin. *)
Definition may_touch_key (d : ApiDb) (k : VirtualKey) : Prop :=
  exists user uid, acts user uid /\ has_role d uid (k_workspaceId k) MEMBER /\
    (k_userId k = au_id user \/ has_role d uid (k_workspaceId k) ADMIN).
(** The sessions a request may end: the one whose refresh token it presents and,
    when that token was spent before, those of the same login. *)
Definition presents (d : ApiDb) (s : Session) : Prop :=
  exists t, rq_refresh_cookie rq = Some t /\ t <> "" /\ s ∈ sessions d /\ by_token E t s = true.
Definition may_end (d : ApiDb) (x : Session) : Prop :=
  exists s, presents d s /\ (s_id x = s_id s \/ s_revokedAt s <> None /\ s_familyId x = s_familyId s).
(** The account a registration makes, and the one an accepted invitation makes. *)
Definition registers (u : User) : Prop :=
  exists b h, registerSchema E (rq_json rq) = Some b /\ hashPassword (e_P E) (e_salt E) (rb_password b) = Ok h /\
    u = mkUser (e_id E 0) (rb_email b) (Some h) (rb_name b) true.
Definition invited (i : Invitation) (u : User) : Prop :=
  exists name password h, acceptSchema (Some (non_null (rq_json rq) ?? JObj [])) = Some (Some name, Some password) /\
    hashPassword (e_P E) (e_salt E) password = Ok h /\ u = mkUser (e_id E 0) (i_email i) (Some h) name true.
(** An account whose address and password the body of a login states. *)
Definition logs_in (u : User) : Prop :=
  exists email password h, loginSchema E (rq_json rq) = Some (email, password) /\ by_email email u = true /\
    u_active u = true /\ u_passwordHash u = Some h /\ verifyPassword (e_P E) password h = Ok true.
(** A session as issued, and one that takes the place of another. *)
Definition issued (s : Session) : Prop :=
  s_revokedAt s = None /\ s_expiresAt s = e_now E + REFRESH_TOKEN_TTL_S * 1000 /\
  exists m, mintRefreshToken (e_P E) (e_blocks E) = Some m /\ s_tokenHash s = mt_hash m.
Definition succeeds (s0 s : Session) : Prop :=
  e_now E <= s_expiresAt s0 /\ s_userId s = s_userId s0 /\ s_familyId s = s_familyId s0.
(** Credentials a key is pinned to are of its workspace, and their providers are
    among those it may use. *)
Definition pinned_rows (d : ApiDb) (ws : string) (creds : list string) : list Credential :=
  List.filter (fun c => bool_decide (c_id c ∈ creds) && String.eqb (c_workspaceId c) ws) (credentials d).
Definition pins (d : ApiDb) (ws : string) (creds : list string) (base providers : list Provider) : Prop :=
  creds = [] /\ providers = base \/
  length (pinned_rows d ws creds) = length creds /\
  providers = uniq (base ++ map c_provider (pinned_rows d ws creds)).
Definition undefaulted (b : bool) (ws : string) (p : Provider) (l : list Credential) : list Credential :=
  if b then update_rows (default_of ws p) undefault l else l.
Definition prices (o : Override) : list Z := [o_input o; o_output o; o_cacheRead o; o_cacheWrite o].
Definition price_ok (z : Z) : Prop := 0 <= z < 10 ^ 12.
Definition new_price_ok (v : option Z) : Prop := forall z, v = Some z -> price_ok z.
(** Primary keys are unique. *)
Record keys_ok (d : ApiDb) : Prop := {
  ko_users : NoDup (map u_id (users d));
  ko_sessions : NoDup (map s_id (sessions d));
  ko_workspaces : NoDup (map w_id (workspaces d));
  ko_members : NoDup (map m_id (members d));
  ko_teams : NoDup (map t_id (teams d));
  ko_team_members : NoDup (map tm_id (team_members d));
  ko_projects : NoDup (map p_id (projects d));
  ko_invitations : NoDup (map i_id (invitations d));
  ko_credentials : NoDup (map c_id (credentials d));
  ko_virtual_keys : NoDup (map k_id (virtual_keys d));
  ko_overrides : NoDup (map o_id (overrides d));
}.

Inductive api_step (d : ApiDb) : ApiDb -> Prop :=
(** Accounts and sessions *)
| st_register u w m :
    let d1 := set_users (users d ++ [u]) d in
    let d2 := set_workspaces (workspaces d ++ [w]) d1 in
    registers u ->
    fits d u (users d) = Ok tt -> fits d1 w (workspaces d) = Ok tt -> fits d2 m (members d) = Ok tt ->
    m_userId m = u_id u -> m_workspaceId m = w_id w -> m_role m = OWNER -> w_deletedAt w = None ->
    api_step d (set_members (members d ++ [m]) d2)
| st_account u i token :
    i ∈ invitations d -> tok = Some token -> by_invite_token E token i = true -> i_acceptedAt i = None -> invited i u ->
    fits d u (users d) = Ok tt -> api_step d (set_users (users d ++ [u]) d)
| st_session u s :
    u ∈ users d -> registers u \/ logs_in u ->
    s_userId s = u_id u -> s_familyId s = e_id E 4 -> issued s -> fits d s (sessions d) = Ok tt ->
    api_step d (set_sessions (sessions d ++ [s]) d)
| st_rotate s0 s :   (** [s0] was revoked at this instant, by [st_revoke] *)
    presents d s0 -> s_revokedAt s0 = Some (e_now E) -> succeeds s0 s -> issued s -> fits d s (sessions d) = Ok tt ->
    api_step d (set_sessions (sessions d ++ [s]) d)
| st_revoke p :
    (forall x, x ∈ sessions d -> p x = true -> may_end d x) ->
    api_step d (set_sessions (update_rows p (revoke E) (sessions d)) d)
| st_accept i token m u :
    i ∈ invitations d -> tok = Some token -> by_invite_token E token i = true -> i_acceptedAt i = None ->
    e_now E <= i_expiresAt i ->
    u ∈ users d -> by_email (i_email i) u = true -> m_userId m = u_id u ->
    m_workspaceId m = i_workspaceId i -> m_role m = i_role i -> fits d m (members d) = Ok tt ->
    api_step d (set_invitations (update_rows (with_key (i_id i)) (accepted E) (invitations d))
                  (set_members (members d ++ [m]) d))
(** Members and invitations *)
| st_role m role :
    by_role d (m_workspaceId m) ADMIN -> m ∈ members d -> role <> OWNER ->
    (m_role m = OWNER -> (2 <= owner_count (m_workspaceId m) d)%nat) ->
    api_step d (set_members (update_rows (with_key (m_id m)) (with_role role) (members d)) d)
| st_leave user uid m :
    acts user uid -> m ∈ members d -> has_role d uid (m_workspaceId m) VIEWER ->
    m_userId m = uid \/ has_role d uid (m_workspaceId m) ADMIN ->
    (m_role m = OWNER -> (2 <= owner_count (m_workspaceId m) d)%nat) ->
    api_step d (set_members (remove_rows (with_key (m_id m)) (members d)) d)
| st_invite i :
    by_role d (i_workspaceId i) ADMIN -> i_role i <> OWNER -> i_acceptedAt i = None ->
    fits d i (invitations d) = Ok tt -> api_step d (set_invitations (invitations d ++ [i]) d)
| st_relink i hash :
    by_role d (i_workspaceId i) ADMIN -> i ∈ invitations d -> i_acceptedAt i = None ->
    api_step d (set_invitations (update_rows (with_key (i_id i)) (with_token hash) (invitations d)) d)
| st_withdraw ws p :
    by_role d ws ADMIN -> (forall i, p i = true -> i_workspaceId i = ws /\ i_acceptedAt i = None) ->
    api_step d (set_invitations (remove_rows p (invitations d)) d)
(** Teams *)
| st_team t :
    by_role d (t_workspaceId t) ADMIN -> fits d t (teams d) = Ok tt -> api_step d (set_teams (teams d ++ [t]) d)
| st_team_patch t name description :
    t ∈ teams d -> can_manage d t ->
    api_step d (set_teams (update_rows (with_key (t_id t)) (patch_team name description) (teams d)) d)
| st_team_delete t :
    t ∈ teams d -> by_role d (t_workspaceId t) ADMIN ->
    api_step d (cascade t (set_teams (remove_rows (with_key (t_id t)) (teams d)) d))
| st_team_member t m :
    t ∈ teams d -> can_manage d t -> tm_teamId m = t_id t ->
    (exists x, x ∈ members d /\ m_workspaceId x = t_workspaceId t /\ m_userId x = tm_userId m) ->
    fits d m (team_members d) = Ok tt -> api_step d (set_team_members (team_members d ++ [m]) d)
| st_team_role t m role :
    t ∈ teams d -> can_manage d t -> m ∈ team_members d -> tm_teamId m = t_id t ->
    api_step d (set_team_members (update_rows (with_key (tm_id m)) (with_team_role role) (team_members d)) d)
| st_team_remove t p :
    t ∈ teams d -> can_manage d t -> (forall m, p m = true -> tm_teamId m = t_id t) ->
    api_step d (set_team_members (remove_rows p (team_members d)) d)
(** Projects *)
| st_project p :
    by_role d (p_workspaceId p) ADMIN -> (forall t, p_teamId p = Some t -> team_of d (p_workspaceId p) t) ->
    fits d p (projects d) = Ok tt -> api_step d (set_projects (projects d ++ [p]) d)
| st_project_patch p body teamId :
    p ∈ projects d -> by_role d (p_workspaceId p) ADMIN ->
    (forall t, teamId = Some (Some t) -> team_of d (p_workspaceId p) t) ->
    api_step d (set_projects (update_rows (with_key (p_id p)) (patch_project body teamId) (projects d)) d)
| st_project_delete p :
    p ∈ projects d -> by_role d (p_workspaceId p) ADMIN ->
    (forall e, e ∈ usage_event (usage d) -> ev_projectId e <> p_id p) ->
    (forall k, k ∈ virtual_keys d -> k_projectId k = p_id p -> restricted d k = false) ->
    api_step d (set_projects (remove_rows (with_key (p_id p)) (projects d))
                  (set_virtual_keys (remove_rows (fun k => String.eqb (k_projectId k) (p_id p)) (virtual_keys d)) d))
(** Credentials *)
| st_credential b c :
    let l := undefaulted b (c_workspaceId c) (c_provider c) (credentials d) in
    by_role d (c_workspaceId c) ADMIN -> fits (set_credentials l d) c l = Ok tt ->
    api_step d (set_credentials (l ++ [c]) d)
| st_credential_patch c body sealed last4 :
    let l := undefaulted (cp_isDefault body) (c_workspaceId c) (c_provider c) (credentials d) in
    by_role d (c_workspaceId c) ADMIN -> c ∈ credentials d ->
    api_step d (set_credentials (update_rows (with_key (c_id c)) (patch_credential body sealed last4) l) d)
| st_credential_delete c :
    c ∈ credentials d -> by_role d (c_workspaceId c) ADMIN -> restricted d c = false ->
    api_step d (set_credentials (remove_rows (with_key (c_id c)) (credentials d)) d)
(** Virtual keys *)
| st_key user uid k p base :
    acts user uid -> has_role d uid (k_workspaceId k) MEMBER ->
    k_userId k = uid \/ has_role d uid (k_workspaceId k) ADMIN ->
    p ∈ projects d -> p_id p = k_projectId k -> p_workspaceId p = k_workspaceId k -> p_active p = true ->
    pins d (k_workspaceId k) (k_credentialAllowlist k) base (k_providerAllowlist k) ->
    k_status k = KEY_ACTIVE -> fits d k (virtual_keys d) = Ok tt ->
    api_step d (set_virtual_keys (virtual_keys d ++ [k]) d)
| st_key_patch k body creds providers :
    k ∈ virtual_keys d -> may_touch_key d k ->
    (forall l, creds = Some l -> exists ps, providers = Some ps /\ pins d (k_workspaceId k) l (k_providerAllowlist k) ps) ->
    (creds = None -> providers = None) ->
    api_step d (set_virtual_keys (update_rows (with_key (k_id k)) (patch_key body creds providers) (virtual_keys d)) d)
| st_key_revoke k :
    k ∈ virtual_keys d -> may_touch_key d k ->
    api_step d (set_virtual_keys (update_rows (with_key (k_id k)) revoke_key (virtual_keys d)) d)
(** Price overrides *)
| st_override o :
    by_role d (o_workspaceId o) ADMIN ->
    Forall price_ok (prices o) ->
    fits d o (overrides d) = Ok tt -> api_step d (set_overrides (overrides d ++ [o]) d)
| st_override_patch o body i out cr cw :
    let o' := patch_override body i out cr cw o in
    o ∈ overrides d -> by_role d (o_workspaceId o) ADMIN ->
    (o_provider o' = o_provider o /\ o_modelPattern o' = o_modelPattern o \/ by_role d (o_workspaceId o) OWNER) ->
    Forall new_price_ok [i; out; cr; cw] ->
    fits d o' (List.filter (fun x => negb (with_key (o_id o) x)) (overrides d)) = Ok tt ->
    api_step d (set_overrides (update_rows (with_key (o_id o)) (patch_override body i out cr cw) (overrides d)) d)
| st_override_delete ws p :
    by_role d ws ADMIN -> (forall o, p o = true -> o_workspaceId o = ws) ->
    api_step d (set_overrides (remove_rows p (overrides d)) d)
(** Export jobs: a MEMBER's is bound to their own usage. *)
| st_export user uid m j :
    acts user uid -> m ∈ members d -> m_userId m = uid -> m_workspaceId m = xj_workspaceId (ej_job j) ->
    ej_requestedById j = uid -> xj_status (ej_job j) = PENDING ->
    wide (m_role m) = true \/ xp_scopeUserId (xj_params (ej_job j)) = if_truthy (Some (au_id user)) ->
    fits d j (export_jobs d) = Ok tt -> api_step d (set_export_jobs (export_jobs d ++ [j]) d).

Definition api_steps : ApiDb -> ApiDb -> Prop := rtc api_step.

End steps.
