(* ===== verification/ApiRefine.v ===== *)
(** * Every request stays within the API's transitions

    Each handler, on every path through it (refusals, failed look-ups, Prisma
    errors, a Redis or queue that is down), moves the tables along [api_step]. *)

From S2P Require Import Prelude JsString JsNum JsDate Json Shared Queue Auth Providers Gateway Persist Export Zod ApiDb ApiAuth.
From S2P Require Import ApiKeys ApiMembers ApiOrg ApiPricing ApiReports ApiServer ApiRules ApiSteps.

(** Side conditions of a transition: facts read off the look-ups' predicates. *)
Ltac look :=
  repeat match goal with
  | H : (_ && _) = true |- _ => apply andb_true_iff in H as [? ?]
  | H : String.eqb _ _ = true |- _ => apply String.eqb_eq in H
  | H : bool_decide _ = true |- _ => apply bool_decide_eq_true in H
  | H : negb _ = true |- _ => apply negb_true_iff in H
  | H : bool_decide _ = false |- _ => apply bool_decide_eq_false in H
  | H : provider_eqb _ _ = true |- _ => unfold provider_eqb in H
  | H : is_Some (Some _) |- _ => clear H
  | H : with_key _ _ = true |- _ => unfold with_key in H; cbn in H
  | H : project_in _ _ _ = true |- _ => unfold project_in in H
  | H : team_in _ _ _ = true |- _ => unfold team_in in H
  | H : key_in _ _ _ = true |- _ => unfold key_in in H
  | H : cred_in _ _ _ = true |- _ => unfold cred_in in H
  | H : invitation_in _ _ _ = true |- _ => unfold invitation_in in H
  | H : membership _ _ _ = true |- _ => unfold membership in H
  | H : override_in _ _ _ = true |- _ => unfold override_in in H
  | H : team_membership _ _ _ = true |- _ => unfold team_membership in H
  end.

(** One rule of ApiRules.v; side goals ask that the tables so far be acceptable. *)
Ltac stay := first [exact I | match goal with |- rtc _ _ _ => first [eassumption | apply rtc_refl] end].
Ltac run1 :=
  lazymatch goal with
  | |- safe _ (_ ≫= _) _ _ => apply safe_bind
  | |- safe _ (mret _) _ _ => apply safe_ret
  | |- safe _ (throw _) _ _ => apply safe_throw
  | |- safe _ (fail _) _ _ => apply safe_fail
  | |- safe _ (gets _) _ _ => apply safe_gets
  | |- safe _ (say _) _ _ => apply safe_say
  | |- safe _ (require _ _) _ _ =>
      let F := fresh "F" in apply safe_require; [try stay | intros F; try discriminate F]
  | |- safe _ (parse _ _) _ _ => apply safe_parse; [try stay | intros ? ?]
  | |- safe _ (of_js _) _ _ => apply safe_of_js; [try stay | intros ? ?]
  | |- safe _ (of_random _) _ _ => apply safe_of_random; [try stay | intros ? ?]
  | |- safe _ (uuid _ _) _ _ => apply safe_uuid; [try stay | intros ? ?]
  | |- safe _ (uuids _ _) _ _ => apply safe_uuids; [try stay | intros ? ?]
  | |- safe _ (findFirst _) _ _ => apply safe_findFirst; [intros ? ? ? ? | intros ?]
  | |- safe _ (findMany _) _ _ => apply safe_findMany
  | |- safe _ (count _) _ _ => apply safe_count
  | |- safe _ (create _) _ _ => apply safe_create; [try stay | intros ?]
  | |- safe _ (updateMany _ _) _ _ => apply safe_updateMany
  | |- safe _ (update _ _) _ _ => apply safe_update; [try stay | intros ? ? ? ? ?]
  | |- safe _ (deleteMany _) _ _ => apply safe_deleteMany; [try stay | intros ?]
  | |- safe _ (delete_one _) _ _ => apply safe_delete_one; [try stay | intros ? ? ? ? ?]
  | |- safe _ (transaction _) _ _ => apply safe_transaction; [try stay |]
  | |- safe _ (recode _ _ _) _ _ => apply safe_recode
  | |- safe _ (makeAuthenticate _ _) _ _ => apply safe_authenticate; [try stay | intros ? ?]
  | |- safe _ (ws_route _ _ _ _ _) _ _ => apply safe_route; [try stay | intros ? ? ? ? ? ? ? ? ? ? ?]
  | |- safe _ (match ?x with _ => _ end) _ _ => let F := fresh "F" in destruct x eqn:F
  | |- safe _ (if ?b then _ else _) _ _ => let F := fresh "F" in destruct b eqn:F
  end; cbv beta zeta; cbn [db outbox is_Some rows_of set_rows].
Ltac tidy :=
  cbn [db outbox rows_of set_rows row_key cascade User_table Session_table Workspace_table Member_table Team_table
       TeamMember_table Project_table Invitation_table Credential_table VirtualKey_table Override_table
       ExportJobRow_table] in *.
Ltac run := repeat run1; try stay; tidy.

Section refine.
Context (E : ApiEnv) (rq : ApiRequest) (tok : option string).

(** ** Guards the handlers share *)
Lemma role_of d m uid (ctx : WorkspaceContext) min :
  m_role m = wc_role ctx -> m ∈ members d -> m_userId m = uid -> m_workspaceId m = wc_workspaceId ctx ->
  hasMinimumRole (wc_role ctx) min = true -> has_role d uid (wc_workspaceId ctx) min.
Proof. intros Hr ? ? ? Hm. exists m. rewrite Hr. auto. Qed.
Lemma by_role_of d user uid m (ctx : WorkspaceContext) min :
  m_role m = wc_role ctx -> m ∈ members d -> m_userId m = uid -> m_workspaceId m = wc_workspaceId ctx ->
  hasMinimumRole (wc_role ctx) min = true ->
  authenticated E rq user -> e_uuid E (au_id user) = Some uid -> by_role E rq d (wc_workspaceId ctx) min.
Proof. intros. exists user, uid. split; [done|]. by eapply role_of. Qed.

Definition refines {A} (m : H A) : Prop := forall w, api_steps E rq tok (db w) (db (m w).1).
Lemma refines_intro {A} (m : H A) :
  (forall w, safe (api_steps E rq tok (db w)) m w (fun _ w' => api_steps E rq tok (db w) (db w'))) -> refines m.
Proof. intros Hm w. apply safe_done, Hm. Qed.
Lemma steps_once d d' : api_step E rq tok d d' -> rtc (api_step E rq tok) d d'.
Proof. apply rtc_once. Qed.

(** The conditions of a transition, from the guards and look-ups in scope. *)
Ltac fin :=
  cbn; first [eassumption | reflexivity | congruence | eapply by_role_of; eassumption | eapply role_of; eassumption
             | split; eassumption | idtac].

(** ** Sessions *)
Lemma session_step d w id user familyId (K : string -> World -> Prop) :
  rtc (api_step E rq tok) d (db w) ->
  (forall s, s_userId s = u_id user -> s_familyId s = familyId -> issued E s -> fits (db w) s (sessions (db w)) = Ok tt ->
     api_step E rq tok (db w) (set_sessions (sessions (db w) ++ [s]) (db w))) ->
  (forall token w', rtc (api_step E rq tok) d (db w') -> K token w') ->
  safe (rtc (api_step E rq tok) d) (issueSession E rq id user familyId) w K.
Proof.
  intros Hs Hf HK. unfold issueSession. run. apply HK. cbn.
  eapply rtc_r; [exact Hs|]. apply Hf; try done. split_and!; [done|done|by exists a].
Qed.
Lemma safe_uniqueSlug S name w (K : string -> World -> Prop) :
  (forall slug, K slug w) -> safe S (uniqueSlug E name) w K.
Proof. intros HK. unfold uniqueSlug. repeat run1; apply HK. Qed.
Lemma register_refines : refines (register E rq).
Proof.
  apply refines_intro. intros w. unfold register, api_steps. run.
  apply safe_uniqueSlug. intros slug. run.
  assert (registers E rq (mkUser (e_id E 0) (rb_email a) (Some a0) (rb_name a) true)) as Hr by (by exists a, a0).
  apply session_step; [| |intros; run].
  - eapply steps_once, (st_register E rq tok (db w)); [exact Hr|eassumption..| | | | ]; done.
  - intros s Hu Hf Hi Hfit. eapply st_session; [|left; exact Hr|done..]. cbn. set_solver.
Qed.
Lemma login_refines : refines (login E rq).
Proof.
  apply refines_intro. intros w. unfold login, api_steps. run.
  look. subst. apply session_step; [apply rtc_refl| |intros; run].
  intros s' Hu Hf Hi Hfit. eapply (st_session E rq tok _ r); try done. right. by exists s, s0, s1.
Qed.
(** The look-up of refresh: the presented token's session and its user. *)
Lemma presents_found t d s u (f : Session -> option User) :
  rq_refresh_cookie rq = Some t -> t <> "" ->
  (x ← List.find (by_token E t) (sessions d); y ← f x; Some (x, y)) = Some (s, u) -> presents E rq d s.
Proof.
  intros Ht Hne Hf. destruct (List.find _ _) as [x|] eqn:Ex; [|done]. cbn in Hf.
  destruct (f x); [|done]. injection Hf as -> ->. apply find_some in Ex as [Hin Hp].
  exists t. split_and!; [done|done| |done]. by apply list_elem_of_In.
Qed.
Lemma session_user {A} (l : option A) (us : list User) (f : A -> string) s u :
  (x ← l; y ← List.find (fun u => String.eqb (u_id u) (f x)) us; Some (x, y)) = Some (s, u) -> u_id u = f s.
Proof.
  destruct l as [x|]; [|done]. cbn. destruct (List.find _ _) as [y|] eqn:Ey; [|done]. intros [= <- <-].
  by apply find_some in Ey as [_ Hy%String.eqb_eq].
Qed.
Lemma presents_revoked d s :
  presents E rq d s ->
  presents E rq (set_sessions (update_rows (with_key (s_id s)) (revoke E) (sessions d)) d) (revoke E s).
Proof.
  intros (t & Ht & Hne & Hs & Hp). exists t. split_and!; [done|done| |done]. apply in_update_rows. exists s.
  split; [done|]. by replace (with_key (s_id s) s) with true by (symmetry; apply String.eqb_refl).
Qed.
Lemma refresh_refines : refines (ApiAuth.refresh E rq).
Proof.
  apply refines_intro. intros w. unfold ApiAuth.refresh, api_steps.
  destruct (rq_refresh_cookie rq) as [[|c t]|] eqn:Ht; [run| |run]. run.
  all: assert (presents E rq (db w) s) as Hs by (eapply presents_found; [exact Ht|done|exact F]).
  - apply steps_once, st_revoke. intros x _ [Hx _]%andb_true_iff. exists s. split; [done|right].
    split; [congruence|by apply String.eqb_eq].
  - apply session_user in F. repeat match goal with H : with_key _ _ = true |- _ => apply String.eqb_eq in H end. cbn in *.
    match goal with H : s_id ?r = s_id s |- _ => rewrite H end.
    apply session_step; [apply steps_once, st_revoke| |intros; run].
    + intros x _ Hx%String.eqb_eq. exists s. split; [done|by left].
    + intros s' Hu Hf Hi Hfit. apply (st_rotate E rq tok _ (revoke E s)); try done; [by apply presents_revoked|].
      match goal with G : (_ <? _) = false |- _ => apply Z.ltb_ge in G end. split_and!; [done|cbn; congruence|done].
Qed.
Lemma logout_refines : refines (logout E rq).
Proof.
  apply refines_intro. intros w. unfold logout, api_steps.
  destruct (rq_refresh_cookie rq) as [[|c t]|] eqn:Ht; run.
  apply steps_once, st_revoke. intros x Hx Hp. exists x. split; [by exists (String c t)|by left].
Qed.

(** ** Virtual keys *)
Lemma safe_pins S ws creds base w (K : list Provider -> World -> Prop) :
  S (db w) ->
  (forall ids ps, mapM (e_uuid E) creds = Some ids -> pins (db w) ws ids base ps -> K ps w) ->
  safe S (resolveProviderAllowlist E ws creds base) w K.
Proof.
  intros Hs HK. destruct creds as [|c creds].
  - apply safe_ret, (HK [] base); [done|by left].
  - unfold resolveProviderAllowlist. apply safe_bind, safe_uuids; [done|]. intros ids Hids.
    apply safe_bind, safe_findMany, safe_bind, safe_require; [done|]. intros Hl%Nat.eqb_eq. apply safe_ret.
    apply (HK ids _ Hids). right. split; [|done]. rewrite <- (length_mapM _ _ _ Hids). exact Hl.
Qed.
Lemma safe_own_key S user ctx keyId verb w (K : VirtualKey -> World -> Prop) :
  S (db w) ->
  (forall k, k ∈ virtual_keys (db w) -> k_workspaceId k = wc_workspaceId ctx ->
     k_userId k = au_id user \/ isAdmin ctx = true -> K k w) ->
  safe S (own_key E user ctx keyId verb) w K.
Proof.
  intros Hs HK. unfold own_key. run; try exact Hs. look.
  match goal with F : _ || _ = true |- _ => apply orb_true_iff in F as [F|F] end; look; apply HK; auto.
Qed.
Lemma issueKey_refines ws : e_uuid E "" = None -> refines (issueKey E rq ws).
Proof.
  intros Hempty. apply refines_intro. intros w. unfold issueKey, api_steps. run.
  apply safe_pins; [apply rtc_refl|]. intros ids ps Hids Hpins. run. look.
  apply steps_once. rename a into body. rename u0 into owner.
  assert (us = ids) as -> by congruence.
  eapply (st_key E rq tok (db w) user uid); fin.
  destruct (ib_userId body) as [t|]; [|left; cbn in *; congruence].
  match goal with F : _ || _ || _ = true |- _ => apply orb_true_iff in F as [[F|F]%orb_true_iff|F] end; look;
    cbn in *; [congruence|left; congruence|right; by eapply role_of].
Qed.
Lemma propagate_safe S d hash message w :
  S d -> db w = d -> safe S (propagate E hash message) w (fun _ w' => S (db w')).
Proof. intros Hs <-. unfold propagate. run; exact Hs. Qed.
Lemma may_touch d user uid m (ctx : WorkspaceContext) k :
  authenticated E rq user -> e_uuid E (au_id user) = Some uid ->
  m ∈ members d -> m_userId m = uid -> m_workspaceId m = wc_workspaceId ctx -> m_role m = wc_role ctx ->
  hasMinimumRole (wc_role ctx) MEMBER = true -> k_workspaceId k = wc_workspaceId ctx ->
  k_userId k = au_id user \/ isAdmin ctx = true -> may_touch_key E rq d k.
Proof.
  intros Ha Hu Hm Hmu Hmw Hr Hmin Hk Hown. exists user, uid. rewrite Hk. split_and!; [done| |].
  - by eapply role_of.
  - destruct Hown as [|Had]; [by left|right]. by eapply role_of.
Qed.
Lemma revokeKey_refines ws keyId : refines (revokeKey E rq ws keyId).
Proof.
  apply refines_intro. intros w. unfold revokeKey, api_steps. run.
  apply safe_own_key; [apply rtc_refl|]. intros k Hk Hkw Hown. run.
  eapply propagate_safe; [|reflexivity]. apply steps_once. look.
  match goal with F : k_id ?r = k_id k |- _ => rewrite F end.
  apply st_key_revoke; [done|]. by eapply may_touch.
Qed.
Lemma patchKey_refines ws keyId : refines (patchKey E rq ws keyId).
Proof.
  apply refines_intro. intros w. unfold patchKey, api_steps. run.
  apply safe_own_key; [apply rtc_refl|]. intros k Hk Hkw Hown.
  apply safe_bind.
  assert (forall (K : option (list Provider) -> World -> Prop) ,
    (forall ids ps, mapM (e_uuid E) (kp_credentialAllowlist a ?? []) = Some ids ->
       (kp_credentialAllowlist a = None -> ps = None) ->
       (kp_credentialAllowlist a <> None ->
          exists l, ps = Some l /\ pins (db w) (k_workspaceId k) ids (k_providerAllowlist k) l) -> K ps w) ->
    safe (rtc (api_step E rq tok) (db w))
      (match kp_credentialAllowlist a with
       | None => mret None
       | Some l => p ← resolveProviderAllowlist E (wc_workspaceId ctx) l (k_providerAllowlist k); mret (Some p)
       end) w K) as Hpins.
  { intros K HK. destruct (kp_credentialAllowlist a) as [l|]; [|by apply safe_ret, (HK [])].
    apply safe_bind, safe_pins; [apply rtc_refl|]. intros ids ps Hids Hp. apply safe_ret.
    apply (HK ids); [done|done|]. intros _. exists ps. by rewrite Hkw. }
  apply Hpins. clear Hpins. intros ids ps Hids Hnone Hsome. run; look;
    (eapply propagate_safe; [|reflexivity]); apply steps_once;
    match goal with F : k_id ?r = k_id k |- _ => rewrite F end;
    (apply st_key_patch; [done|by eapply may_touch| |]); try done.
  - intros l' [= <-]. destruct Hsome as (lp & -> & Hl); [congruence|]. exists lp. split; [done|].
    cbn in Hids. congruence.
Qed.

(** ** Credentials *)
Lemma safe_own_credential S ctx id w (K : Credential -> World -> Prop) :
  S (db w) -> (forall c, c ∈ credentials (db w) -> c_workspaceId c = wc_workspaceId ctx -> K c w) ->
  safe S (own_credential E ctx id) w K.
Proof. intros Hs HK. unfold own_credential. run; try exact Hs. look. by apply HK. Qed.
Lemma safe_seal S secret w (K : option string * option string -> World -> Prop) :
  S (db w) -> (forall p, K p w) -> safe S (seal E secret) w K.
Proof. intros Hs HK. unfold seal. run; try exact Hs; apply HK. Qed.
Lemma set_credentials_id d : set_credentials (credentials d) d = d.
Proof. by destruct d. Qed.
(** The optional update that clears the former default. *)
Lemma safe_undefault S b ws p w (K : unit -> World -> Prop) :
  (forall w', db w' = set_credentials (undefaulted b ws p (credentials (db w))) (db w) -> K tt w') ->
  safe S (clear_default b ws p) w K.
Proof.
  intros HK. unfold clear_default. destruct b; [apply safe_updateMany|apply safe_ret]; apply HK; cbn; [done|].
  by rewrite set_credentials_id.
Qed.
Lemma createCredential_refines ws : refines (createCredential E rq ws).
Proof.
  apply refines_intro. intros w. unfold createCredential, api_steps. run.
  apply safe_undefault. intros w1 Hw1. run. apply safe_seal; [done|]. intros [sealed last4]. run.
  apply steps_once. rewrite Hw1 in *. cbn in *.
  eapply (st_credential E rq tok (db w) (cb_isDefault a)
    (mkCredential _ (wc_workspaceId ctx) (cb_provider a) _ _ _ _ _ _ _ _)); fin.
Qed.
Lemma patchCredential_refines ws id : refines (patchCredential E rq ws id).
Proof.
  apply refines_intro. intros w. unfold patchCredential, api_steps. run.
  apply safe_own_credential; [apply rtc_refl|]. intros c Hc Hcw. run.
  apply safe_undefault. intros w1 Hw1. run. apply safe_seal; [done|]. intros [sealed last4]. run. look.
  apply steps_once. rewrite Hw1 in *. cbn in *.
  match goal with F : c_id ?r = c_id c |- _ => rewrite F end. rewrite <- Hcw.
  refine (st_credential_patch E rq tok (db w) c a sealed last4 _ Hc). rewrite Hcw. by eapply by_role_of.
Qed.
Lemma deleteCredential_refines ws id : refines (deleteCredential E rq ws id).
Proof.
  apply refines_intro. intros w. unfold deleteCredential, api_steps. run.
  apply safe_own_credential; [apply rtc_refl|]. intros c Hc Hcw. run. look.
  match goal with F : c_id ?r = c_id c |- _ => rewrite F end.
  apply steps_once, st_credential_delete; [done|rewrite Hcw; by eapply by_role_of|].
  match goal with F : restricted _ ?r = false, G : c_id ?r = c_id c |- _ =>
    unfold restricted in *; cbn in *; by rewrite G in F end.
Qed.

(** ** Members and invitations *)
Lemma invite_refines ws : refines (invite E rq ws).
Proof.
  apply refines_intro. intros w. unfold invite, api_steps. run;
    match goal with F : inviteSchema _ _ = Some _ |- _ => apply inviteSchema_role in F end;
    (apply steps_once, st_invite; fin).
Qed.
Lemma reissueLink_refines ws id : refines (reissueLink E rq ws id).
Proof.
  apply refines_intro. intros w. unfold reissueLink, api_steps. run. look.
  match goal with F : i_id ?r = i_id ?r0 |- context [with_key (i_id ?r)] => rewrite F end.
  unfold open_invitation in *. look.
  apply steps_once, st_relink; [|done|by destruct (i_acceptedAt _)].
  match goal with F : i_workspaceId _ = wc_workspaceId ctx |- _ => rewrite F end. by eapply by_role_of.
Qed.
Lemma withdrawInvitation_refines ws id : refines (withdrawInvitation E rq ws id).
Proof.
  apply refines_intro. intros w. unfold withdrawInvitation, api_steps. run;
    (apply steps_once, (st_withdraw E rq tok (db w) (wc_workspaceId ctx)); [by eapply by_role_of|]);
    intros i Hi; look; done.
Qed.
Lemma safe_find_member S ws uid userId w (K : Member -> World -> Prop) :
  S (db w) ->
  (forall m, m ∈ members (db w) -> m_workspaceId m = ws -> m_userId m = uid ->
     List.find (membership ws uid) (members (db w)) = Some m -> K m w) ->
  safe S (find_member ws uid userId) w K.
Proof. intros Hs HK. unfold find_member. run; try exact Hs. look. by apply HK. Qed.
Lemma safe_keep_an_owner S ws message target w (K : unit -> World -> Prop) :
  S (db w) -> ((m_role target = OWNER -> (2 <= owner_count ws (db w))%nat) -> K tt w) ->
  safe S (keep_an_owner ws message target) w K.
Proof.
  intros Hs HK. unfold keep_an_owner. run; try exact Hs.
  - apply HK. intros _. match goal with F : (1 <? _)%nat = true |- _ => apply Nat.ltb_lt in F; unfold owner_count end.
    cbn in *. lia.
  - apply HK. match goal with F : bool_decide _ = false |- _ => apply bool_decide_eq_false in F end. done.
Qed.
Lemma updateMember_refines ws userId : refines (updateMember E rq ws userId).
Proof.
  apply refines_intro. intros w. unfold updateMember, api_steps. run.
  apply safe_find_member; [apply rtc_refl|]. intros t Ht Htw Htu Hfind.
  match goal with F : updateMemberSchema _ = Some ?r |- _ => apply updateMemberSchema_role in F; rename r into role end.
  run; [by look|]. apply safe_keep_an_owner; [apply rtc_refl|]. intros Howners. run.
  assert (r = t) as -> by congruence.
  apply steps_once, st_role; [rewrite Htw; by eapply by_role_of|done|done|by rewrite Htw].
Qed.
Lemma removeMember_refines ws userId : refines (removeMember E rq ws userId).
Proof.
  apply refines_intro. intros w. unfold removeMember, api_steps. run.
  apply safe_find_member; [apply rtc_refl|]. intros t Ht Htw Htu Hfind. run.
  apply safe_keep_an_owner; [apply rtc_refl|]. intros Howners. run.
  assert (r = t) as -> by congruence.
  apply steps_once, (st_leave E rq tok (db w) user uid); [done|done| | |by rewrite Htw].
  - rewrite Htw. by eapply role_of.
  - match goal with F : _ || _ = true |- _ => apply orb_true_iff in F as [F|F] end; look.
    + left. congruence.
    + right. rewrite Htw. by eapply role_of.
Qed.
Lemma safe_findValidInvitation S token w (K : Invitation * Workspace -> World -> Prop) :
  S (db w) ->
  (forall i x, i ∈ invitations (db w) -> by_invite_token E token i = true -> i_acceptedAt i = None ->
     e_now E <= i_expiresAt i -> K (i, x) w) ->
  safe S (findValidInvitation E token) w K.
Proof.
  intros Hs HK. unfold findValidInvitation. apply safe_bind, safe_gets.
  destruct (List.find (by_invite_token E token) (invitations (db w))) as [i|] eqn:Ei; [|exact Hs].
  cbn [mbind option_bind]. destruct (List.find (with_key (i_workspaceId i)) (workspaces (db w))) as [x|]; [|exact Hs].
  cbn [mbind option_bind]. run; [exact Hs|]. apply find_some in Ei as [Hin%list_elem_of_In Ht]. look.
  match goal with F : (_ <? _) = false |- _ => apply Z.ltb_ge in F end. by apply HK.
Qed.
(** The accept flow makes the account in a step of its own. *)
Lemma safe_invited_user d0 d i token name password w (K : User -> World -> Prop) :
  api_steps E rq tok d0 d -> db w = d -> i ∈ invitations d -> tok = Some token -> by_invite_token E token i = true ->
  i_acceptedAt i = None -> acceptSchema (Some (non_null (rq_json rq) ?? JObj [])) = Some (name, password) ->
  (forall u w', u ∈ users (db w') -> by_email (i_email i) u = true -> invitations (db w') = invitations d ->
     api_steps E rq tok d0 (db w') -> K u w') ->
  safe (api_steps E rq tok d0) (invited_user E (i_email i) name password) w K.
Proof.
  intros Hs <- Hi Htok Ht Ha Hb HK. unfold invited_user, api_steps in *. run.
  - by apply HK.
  - apply HK; cbn; [set_solver|by apply String.eqb_eq|done|].
    eapply rtc_r; [exact Hs|]. eapply st_account; try done. by exists s, s0, a.
Qed.
Lemma acceptInvitation_refines token : tok = Some token -> refines (acceptInvitation E rq token).
Proof.
  intros Htok. apply refines_intro. intros w. unfold acceptInvitation, api_steps. run1; run1.
  destruct a as [name password]. run1. apply safe_findValidInvitation; [apply rtc_refl|]. intros i x Hi Ht Ha Hx. run1.
  eapply safe_invited_user; [apply rtc_refl|done..|]. intros u w' Hu He Hinv Hs.
  unfold api_steps in *. run. look.
  match goal with F : i_id ?r = i_id i |- _ => rewrite F end.
  eapply rtc_r; [exact Hs|]. eapply (st_accept E rq tok (db w') i token _ u); try done. by rewrite Hinv.
Qed.

(** ** Projects *)
Lemma safe_check_team S ws teamId w (K : option string -> World -> Prop) :
  S (db w) -> (forall t, (forall x, t = Some x -> team_of (db w) ws x) -> K t w) ->
  safe S (check_team E ws teamId) w K.
Proof.
  intros Hs HK. unfold check_team. run; try exact Hs; try (by apply HK). look.
  apply HK. intros x [= <-]. by exists r.
Qed.
Lemma createProject_refines ws : refines (createProject E rq ws).
Proof.
  apply refines_intro. intros w. unfold createProject, api_steps. run.
  apply safe_check_team; [apply rtc_refl|]. intros t Ht. run. apply steps_once, st_project; fin.
Qed.
Lemma safe_own_project S ctx id w (K : Project -> World -> Prop) :
  S (db w) -> (forall p, p ∈ projects (db w) -> p_workspaceId p = wc_workspaceId ctx -> K p w) ->
  safe S (own_project E ctx id) w K.
Proof. intros Hs HK. unfold own_project. run; try exact Hs. look. by apply HK. Qed.
Lemma updateProject_refines ws id : refines (updateProject E rq ws id).
Proof.
  apply refines_intro. intros w. unfold updateProject, api_steps. run.
  apply safe_own_project; [apply rtc_refl|]. intros p Hp Hpw. run1.
  assert (forall teamId w1 b, db w1 = db w ->
    (forall x, teamId = Some (Some x) -> team_of (db w) (p_workspaceId p) x) ->
    safe (rtc (api_step E rq tok) (db w)) (update (with_key (p_id p)) (patch_project b teamId)) w1
      (fun _ w' => rtc (api_step E rq tok) (db w) (db w'))) as Hup.
  { intros teamId w1 b Hw1 Ht. run; rewrite Hw1; [apply rtc_refl|]. rewrite Hw1 in *. look.
    match goal with F : p_id ?r = p_id p |- _ => rewrite F end.
    apply steps_once, st_project_patch; [done|rewrite Hpw; by eapply by_role_of|done]. }
  run1.
  - run1. apply safe_check_team; [apply rtc_refl|]. intros t Ht. run1. apply Hup; [done|].
    intros x [= ->]. rewrite Hpw. by apply Ht.
  - run1. by apply Hup.
Qed.
Lemma deleteProject_refines ws id : refines (deleteProject E rq ws id).
Proof.
  apply refines_intro. intros w. unfold deleteProject, api_steps. run.
  apply safe_own_project; [apply rtc_refl|]. intros p Hp Hpw. run. look.
  match goal with F : p_id ?r = p_id p |- _ => rewrite F end.
  apply steps_once. refine (st_project_delete E rq tok (db w) p Hp _ _ _).
  - rewrite Hpw. by eapply by_role_of.
  - intros e He Hid.
    match goal with F : (length ?l =? 0)%nat = true |- _ =>
      assert (e ∈ l) as Hin; [|apply Nat.eqb_eq, nil_length_inv in F; rewrite F in Hin; by apply elem_of_nil in Hin] end.
    apply in_filter. split; [done|by apply String.eqb_eq].
  - intros k Hk Hkp. match goal with F : forall r, r ∈ virtual_keys _ -> _ |- _ => apply F end; [done|].
    by apply String.eqb_eq.
Qed.

(** ** Teams *)
Lemma safe_loadTeam S ws teamId w (K : Team -> World -> Prop) :
  S (db w) -> (forall t, t ∈ teams (db w) -> t_workspaceId t = ws -> K t w) -> safe S (loadTeam E ws teamId) w K.
Proof. intros Hs HK. unfold loadTeam. run; try exact Hs. look. by apply HK. Qed.
Lemma safe_assertCanManageTeam S user uid m ctx team w (K : unit -> World -> Prop) :
  S (db w) -> authenticated E rq user -> e_uuid E (au_id user) = Some uid ->
  m ∈ members (db w) -> m_userId m = uid -> m_workspaceId m = wc_workspaceId ctx -> m_role m = wc_role ctx ->
  hasMinimumRole (wc_role ctx) VIEWER = true -> t_workspaceId team = wc_workspaceId ctx ->
  (can_manage E rq (db w) team -> K tt w) -> safe S (assertCanManageTeam E user ctx team) w K.
Proof.
  intros Hs Ha Hu Hm Hmu Hmw Hr Hmin Ht HK. unfold assertCanManageTeam. run; try exact Hs.
  - apply HK. exists user, uid. rewrite Ht. split_and!; [done|by eapply role_of|left; by eapply role_of].
  - look. apply HK. exists user, uid. rewrite Ht. split_and!; [done|by eapply role_of|right].
    exists r. split_and!; try done; congruence.
Qed.
(** A route of a team its caller may manage. *)
Lemma safe_team_route {A} ws teamId w (handler : AuthedUser -> WorkspaceContext -> Team -> H A)
    (K : A -> World -> Prop) :
  (forall user uid m ctx team, acts E rq user uid -> m ∈ members (db w) -> m_userId m = uid ->
     m_workspaceId m = wc_workspaceId ctx -> team ∈ teams (db w) -> t_workspaceId team = wc_workspaceId ctx ->
     can_manage E rq (db w) team -> safe (rtc (api_step E rq tok) (db w)) (handler user ctx team) w K) ->
  safe (rtc (api_step E rq tok) (db w))
    (ws_route E rq VIEWER ws (fun user ctx =>
       team ← loadTeam E (wc_workspaceId ctx) teamId;
       _ ← assertCanManageTeam E user ctx team; handler user ctx team)) w K.
Proof.
  intros HK. run. apply safe_loadTeam; [apply rtc_refl|]. intros t Ht Htw. run1.
  eapply safe_assertCanManageTeam; [apply rtc_refl|eassumption..|]. intros Hcan. by eapply HK.
Qed.
Lemma createTeam_refines ws : refines (createTeam E rq ws).
Proof.
  apply refines_intro. intros w. unfold createTeam, api_steps. run. apply steps_once, st_team; fin.
Qed.
Lemma updateTeam_refines ws teamId : refines (updateTeam E rq ws teamId).
Proof.
  apply refines_intro. intros w. apply safe_team_route. intros user uid m ctx team Hu Hm Hmu Hmw Ht Htw Hcan.
  run. look. match goal with F : t_id ?r = t_id team |- _ => rewrite F end.
  by apply steps_once, st_team_patch.
Qed.
Lemma deleteTeam_refines ws teamId : refines (deleteTeam E rq ws teamId).
Proof.
  apply refines_intro. intros w. unfold deleteTeam, api_steps. run.
  apply safe_loadTeam; [apply rtc_refl|]. intros t Ht Htw. run. look. apply steps_once.
  match goal with F : t_id ?r = t_id t |- _ => rewrite F end.
  refine (st_team_delete E rq tok (db w) t Ht _). rewrite Htw. by eapply by_role_of.
Qed.
Lemma addTeamMember_refines ws teamId : refines (addTeamMember E rq ws teamId).
Proof.
  apply refines_intro. intros w. apply safe_team_route. intros user uid m ctx team Hu Hm Hmu Hmw Ht Htw Hcan.
  run. look. eapply steps_once, (st_team_member E rq tok (db w) team); fin.
  exists r. split_and!; congruence.
Qed.
Lemma updateTeamMember_refines ws teamId userId : refines (updateTeamMember E rq ws teamId userId).
Proof.
  apply refines_intro. intros w. apply safe_team_route. intros user uid m ctx team Hu Hm Hmu Hmw Ht Htw Hcan.
  run. look. by eapply steps_once, (st_team_role E rq tok (db w) team).
Qed.
Lemma removeTeamMember_refines ws teamId userId : refines (removeTeamMember E rq ws teamId userId).
Proof.
  apply refines_intro. intros w. apply safe_team_route. intros user uid m ctx team Hu Hm Hmu Hmw Ht Htw Hcan.
  run; eapply steps_once, (st_team_remove E rq tok (db w) team); try done; intros x Hx; by look.
Qed.

(** ** Price overrides *)
Lemma safe_numeric S z w (K : Z -> World -> Prop) :
  S (db w) -> (price_ok (Decimal z) -> K (Decimal z) w) -> safe S (numeric_12_6 (Decimal z)) w K.
Proof.
  intros Hs HK. unfold numeric_12_6. run; [|exact Hs]. apply HK. split; [apply Decimal_nonneg|].
  by apply Z.ltb_lt.
Qed.
Lemma safe_price_patch S v w (K : option Z -> World -> Prop) :
  S (db w) -> (forall z, new_price_ok z -> K z w) -> safe S (price_patch v) w K.
Proof.
  intros Hs HK. destruct v; [|by apply safe_ret, HK]. apply safe_bind, safe_numeric; [done|]. intros Hz.
  apply safe_ret, HK. by intros z [= <-].
Qed.
Lemma createOverride_refines ws : refines (createOverride E rq ws).
Proof.
  apply refines_intro. intros w. unfold createOverride, api_steps. run.
  do 4 (apply safe_numeric; [apply rtc_refl|]; intros ?; run1). run.
  apply steps_once, st_override; fin. unfold prices. by rewrite !Forall_cons.
Qed.
Lemma same_target (p q : Provider) (s t : string) :
  negb (provider_eqb p q) || negb (String.eqb s t) = false -> p = q /\ s = t.
Proof. intros [Hp%negb_false_iff Hs%negb_false_iff]%orb_false_iff. by look. Qed.
Lemma updateOverride_refines ws id w :
  NoDup (map o_id (overrides (db w))) ->
  api_steps E rq tok (db w) (db (updateOverride E rq ws id w).1).
Proof.
  intros Hnd. apply safe_done. unfold updateOverride, api_steps. run.
  all: do 4 (apply safe_price_patch; [apply rtc_refl|]; intros ? ?; run1); run; look.
  all: match goal with F : find (override_in _ _) _ = Some ?o, G : find (with_key _) _ = Some ?x |- _ =>
         assert (x = o) as -> by (eapply NoDup_map_inj; [exact Hnd|assumption|assumption|congruence]) end.
  all: apply steps_once, st_override_patch; try eassumption; try by rewrite !Forall_cons.
  all: repeat match goal with G : o_workspaceId ?o = wc_workspaceId _ |- context [o_workspaceId ?o] => rewrite G end; try (by eapply by_role_of).
  all: match goal with G : _ || _ = false |- _ => apply same_target in G; by left | _ => right end.
  all: cbn in F; apply bool_decide_eq_true in F.
  all: eapply by_role_of; [eassumption..| |eassumption|eassumption]; by rewrite F.
Qed.
Lemma deleteOverride_refines ws id : refines (deleteOverride E rq ws id).
Proof.
  apply refines_intro. intros w. unfold deleteOverride, api_steps. run;
    (apply steps_once, (st_override_delete E rq tok (db w) (wc_workspaceId ctx)); [by eapply by_role_of|]);
    intros o Ho; by look.
Qed.

(** ** Exports *)
Lemma createExport_refines ws : refines (createExport E rq ws).
Proof.
  apply refines_intro. intros w. unfold createExport, api_steps. run;
    (apply steps_once; eapply (st_export E rq tok (db w)); try match goal with |- acts _ _ _ _ => by split end; fin);
    unfold scopeUserId; match goal with G : m_role _ = _ |- _ => rewrite G end;
    match goal with |- context [wide ?r] => destruct (wide r); auto end.
Qed.

(** ** Routes that only read *)
Ltac reads := intros; apply refines_intro; intros w; unfold api_steps; run; unfold api_steps; apply rtc_refl.
Lemma me_refines : refines (me E rq).
Proof. unfold me. reads. Qed.
Lemma listWorkspaces_refines : refines (listWorkspaces E rq).
Proof. unfold listWorkspaces. reads. Qed.
Lemma getWorkspace_refines ws : refines (getWorkspace E rq ws).
Proof. unfold getWorkspace. reads. Qed.
Lemma listProjects_refines ws : refines (listProjects E rq ws).
Proof. unfold listProjects. reads. Qed.
Lemma listTeams_refines ws : refines (listTeams E rq ws).
Proof. unfold listTeams. reads. Qed.
Lemma getTeam_refines ws id : refines (getTeam E rq ws id).
Proof. unfold getTeam, loadTeam. reads. Qed.
Lemma adminStats_refines : refines (adminStats E rq).
Proof. unfold adminStats, admin_route, makeSuperAdminGuard. reads. Qed.
Lemma adminTimeseries_refines : refines (adminTimeseries E rq).
Proof. unfold adminTimeseries, admin_route, makeSuperAdminGuard. reads. Qed.
Lemma adminWorkspaces_refines : refines (adminWorkspaces E rq).
Proof. unfold adminWorkspaces, admin_route, makeSuperAdminGuard. reads. Qed.
Lemma listKeys_refines ws : refines (listKeys E rq ws).
Proof. unfold listKeys. reads. Qed.
Lemma listCredentials_refines ws : refines (listCredentials E rq ws).
Proof. unfold listCredentials. reads. Qed.
Lemma listMembers_refines ws : refines (listMembers E rq ws).
Proof. unfold listMembers. reads. Qed.
Lemma listInvitations_refines ws : refines (listInvitations E rq ws).
Proof. unfold listInvitations. reads. Qed.
Lemma listModels_refines : refines (listModels E rq).
Proof. unfold listModels. reads. Qed.
Lemma listOverrides_refines ws : refines (listOverrides E rq ws).
Proof. unfold listOverrides. reads. Qed.
Lemma listUnpriced_refines ws : refines (listUnpriced E rq ws).
Proof. unfold listUnpriced. reads. Qed.
Lemma listExports_refines ws : refines (listExports E rq ws).
Proof. unfold listExports, scope_uid. reads. Qed.
Lemma getExport_refines ws id : refines (getExport E rq ws id).
Proof. unfold getExport, findJob, scope_uid. reads. Qed.
Lemma analyticsSummary_refines ws : refines (analyticsSummary E rq ws).
Proof. unfold analyticsSummary, scope_uid. reads. Qed.
Lemma usageEvents_refines ws : refines (usageEvents E rq ws).
Proof. unfold usageEvents, scope_uid. reads. Qed.
Lemma analyticsTimeseries_refines ws : refines (analyticsTimeseries E rq ws).
Proof. unfold analyticsTimeseries, scope_uid, bind_filters, bind_uuid. reads. Qed.
Lemma analyticsBreakdown_refines ws : refines (analyticsBreakdown E rq ws).
Proof. unfold analyticsBreakdown, scope_uid, bind_filters, bind_uuid. reads. Qed.
Lemma testCredential_refines get ws id : refines (testCredential E rq get ws id).
Proof. unfold testCredential, own_credential. reads. Qed.
Lemma showInvitation_refines token : refines (showInvitation E token).
Proof. unfold showInvitation, findValidInvitation. reads. Qed.
Lemma downloadExport_refines stat ws id : refines (downloadExport E rq stat ws id).
Proof. unfold downloadExport, findJob, scope_uid. reads. Qed.
End refine.

Create HintDb refines discriminated.
#[export] Hint Constants Opaque : refines.
#[export] Hint Variables Opaque : refines.
#[export] Hint Resolve
  acceptInvitation_refines addTeamMember_refines adminStats_refines adminTimeseries_refines
  adminWorkspaces_refines analyticsBreakdown_refines analyticsSummary_refines analyticsTimeseries_refines
  createCredential_refines createExport_refines createOverride_refines createProject_refines
  createTeam_refines deleteCredential_refines deleteOverride_refines deleteProject_refines deleteTeam_refines
  downloadExport_refines getExport_refines getTeam_refines getWorkspace_refines invite_refines
  issueKey_refines listCredentials_refines listExports_refines listInvitations_refines listKeys_refines
  listMembers_refines listModels_refines listOverrides_refines listProjects_refines listTeams_refines
  listUnpriced_refines listWorkspaces_refines login_refines logout_refines me_refines patchCredential_refines
  patchKey_refines refresh_refines register_refines reissueLink_refines removeMember_refines
  removeTeamMember_refines revokeKey_refines showInvitation_refines testCredential_refines
  updateMember_refines updateProject_refines updateTeamMember_refines updateTeam_refines usageEvents_refines
  withdrawInvitation_refines : refines.

(** ** Every route *)
(** The token in an invitation's path. *)
Definition call_token (c : ApiCall) : option string :=
  match c with CallAccept token => Some token | _ => None end.

Section serving.
Context (get : UpstreamRequest -> option Z) (stat : string -> bool) (E : ApiEnv) (rq : ApiRequest).

Lemma replies_refines {A} tok st (m : H A) : refines E rq tok m -> refines E rq tok (replies st m).
Proof. unfold refines, replies. intros Hm w. specialize (Hm w). rewrite run_bind. by destruct (m w) as [w' [a|e]]. Qed.
Lemma perform_steps (c : ApiCall) w :
  e_uuid E "" = None -> keys_ok (db w) -> api_steps E rq (call_token c) (db w) (db (perform get stat E rq c w).1).
Proof.
  intros Hempty Hkeys.
  assert (forall tok ws id, api_steps E rq tok (db w) (db (replies 200 (updateOverride E rq ws id) w).1)) as Hover.
  { intros tok ws id. pose proof (updateOverride_refines E rq tok ws id w (ko_overrides _ Hkeys)) as Ho.
    unfold replies. rewrite run_bind. by destruct (updateOverride E rq ws id w) as [w' [a|e]]. }
  destruct c; cbn [perform]; first [by auto with refines | by apply replies_refines; auto with refines].
Qed.
Lemma serve_steps method path w :
  e_uuid E "" = None -> keys_ok (db w) -> api_steps E rq (find_call method path ≫= call_token) (db w) (db (serve get stat E rq method path w).1).
Proof.
  intros Hempty Hkeys. unfold serve. destruct (find_call method path) as [c|]; [|apply rtc_refl].
  pose proof (perform_steps c w Hempty Hkeys) as Hc. by destruct (perform get stat E rq c w) as [w' [s|e]].
Qed.
End serving.
