(* ===== verification/ApiEffects.v ===== *)
(** * What a change does to the tables

    [effect]: the row changes the API's requests consist of, each with the
    workspace it touches and the conditions on the rows it rests on, whoever asks
    for it.  Unique keys, well-formedness and the isolation of the other
    workspaces follow from them alone; ApiSafety.v and ApiConcurrent.v show that
    the steps of requests, one at a time and interleaved, are such changes. *)

From S2P Require Import Prelude JsString JsNum JsDate Json Shared Queue Auth Gateway Persist Export Zod ApiDb ApiAuth.
From S2P Require Import ApiKeys ApiMembers ApiOrg ApiPricing ApiReports ApiRules ApiSteps ApiRefine.

(** ** Rows after an operation *)
Lemma in_remove_rows {R} (p : R -> bool) l x : x ∈ remove_rows p l <-> x ∈ l /\ p x = false.
Proof. unfold remove_rows. by rewrite in_filter, negb_true_iff. Qed.
Lemma in_snoc {R} (l : list R) x y : x ∈ l ++ [y] <-> x ∈ l \/ x = y.
Proof. rewrite elem_of_app. set_solver. Qed.
Lemma map_update_rows {R B} (k : R -> B) p f l :
  (forall r, k (f r) = k r) -> map k (update_rows p f l) = map k l.
Proof.
  intros Hk. unfold update_rows. rewrite map_map. apply map_ext. intros r. destruct (p r); [apply Hk|done].
Qed.
Lemma has_spec {R} (key : R -> string) id l : has key id l = true <-> exists r, r ∈ l /\ key r = id.
Proof.
  unfold has. rewrite existsb_exists. setoid_rewrite String.eqb_eq. by setoid_rewrite list_elem_of_In.
Qed.

Lemma nodup_update {R} (k : R -> string) p f l :
  (forall r, k (f r) = k r) -> NoDup (map k l) -> NoDup (map k (update_rows p f l)).
Proof. intros Hf. by rewrite map_update_rows. Qed.
Lemma nodup_remove {R} (k : R -> string) p l : NoDup (map k l) -> NoDup (map k (remove_rows p l)).
Proof. apply NoDup_filter_map. Qed.

Section rows.
Context {R : Type} {TR : Table R}.
Implicit Types (d : ApiDb) (r : R) (l : list R).

Lemma fits_inv d r l :
  fits d r l = Ok tt ->
  (forall x, x ∈ l -> row_key x <> row_key r) /\ (forall x, x ∈ l -> clash r x = false) /\ refs_ok d r = true.
Proof.
  unfold fits. destruct (has row_key (row_key r) l) eqn:Eh; [done|]. destruct (existsb (clash r) l) eqn:Ec; [done|].
  cbn [orb]. destruct (refs_ok d r); [|done]. intros _. split_and!; [| |done].
  - intros x Hx Hk. assert (has row_key (row_key r) l = true) as Ht by (apply has_spec; eauto). congruence.
  - intros x Hx. destruct (clash r x) eqn:Ex; [|done]. exfalso.
    assert (existsb (clash r) l = true) as Ht; [|congruence]. apply existsb_exists. exists x.
    by rewrite <- list_elem_of_In.
Qed.
Lemma nodup_create k d r l : row_key = k -> NoDup (map k l) -> fits d r l = Ok tt -> NoDup (map k (l ++ [r])).
Proof.
  intros <- Hl (Hk & _ & _)%fits_inv. rewrite map_app. apply NoDup_app. split_and!; [done| |cbn; apply NoDup_singleton].
  intros k (x & -> & Hx)%list_elem_of_fmap. cbn. rewrite list_elem_of_singleton. by apply Hk.
Qed.
(** With unique keys, [with_key] is the row itself. *)
Lemma with_key_self k l r x :
  row_key = k -> NoDup (map k l) -> r ∈ l -> x ∈ l -> with_key (k r) x = true -> x = r.
Proof. intros <- Hl Hr Hx Hk%String.eqb_eq. by apply (NoDup_map_inj row_key l). Qed.
End rows.

(** Rows of one table, after any step. *)
Ltac rows := repeat match goal with
  | H : _ ∈ _ ++ [_] |- _ => apply in_snoc in H as [H|H]; [|subst]
  | H : _ ∈ update_rows _ _ _ |- _ => apply in_update_rows in H as (? & H & ->); try case_match
  | H : _ ∈ remove_rows _ _ |- _ => apply in_remove_rows in H as [H _]
  end.

(** ** Unique keys *)
Lemma undefaulted_keys b ws p l : map c_id (undefaulted b ws p l) = map c_id l.
Proof. unfold undefaulted. destruct b; [|done]. by rewrite map_update_rows. Qed.

(** ** The changes *)
(** The team [id], if there is one, is of the workspace. *)
Definition team_at (d : ApiDb) (ws id : string) : Prop :=
  forall t, t ∈ teams d -> t_id t = id -> t_workspaceId t = ws.
(** [effect d lbl d']: [lbl] is the workspace whose rows change. *)
Inductive effect (E : ApiEnv) (d : ApiDb) : option string -> ApiDb -> Prop :=
| ef_none : effect E d None d
| ef_register u w m :
    let d1 := set_users (users d ++ [u]) d in
    let d2 := set_workspaces (workspaces d ++ [w]) d1 in
    fits d u (users d) = Ok tt -> fits d1 w (workspaces d) = Ok tt -> fits d2 m (members d) = Ok tt ->
    m_workspaceId m = w_id w ->
    effect E d (Some (w_id w)) (set_members (members d ++ [m]) d2)
| ef_account u : fits d u (users d) = Ok tt -> effect E d None (set_users (users d ++ [u]) d)
| ef_session s : fits d s (sessions d) = Ok tt -> effect E d None (set_sessions (sessions d ++ [s]) d)
| ef_revoke p : effect E d None (set_sessions (update_rows p (revoke E) (sessions d)) d)
| ef_accept i m :
    i ∈ invitations d -> m_workspaceId m = i_workspaceId i -> m_role m = i_role i -> fits d m (members d) = Ok tt ->
    effect E d (Some (i_workspaceId i))
      (set_invitations (update_rows (with_key (i_id i)) (accepted E) (invitations d)) (set_members (members d ++ [m]) d))
| ef_role m role :
    m ∈ members d -> role <> OWNER ->
    effect E d (Some (m_workspaceId m)) (set_members (update_rows (with_key (m_id m)) (with_role role) (members d)) d)
| ef_leave m :
    m ∈ members d -> effect E d (Some (m_workspaceId m)) (set_members (remove_rows (with_key (m_id m)) (members d)) d)
| ef_invite i :
    i_role i <> OWNER -> fits d i (invitations d) = Ok tt ->
    effect E d (Some (i_workspaceId i)) (set_invitations (invitations d ++ [i]) d)
| ef_relink i hash :
    i ∈ invitations d ->
    effect E d (Some (i_workspaceId i))
      (set_invitations (update_rows (with_key (i_id i)) (with_token hash) (invitations d)) d)
| ef_withdraw ws p :
    (forall i, p i = true -> i_workspaceId i = ws) ->
    effect E d (Some ws) (set_invitations (remove_rows p (invitations d)) d)
| ef_team t :
    fits d t (teams d) = Ok tt -> effect E d (Some (t_workspaceId t)) (set_teams (teams d ++ [t]) d)
| ef_team_patch t name description :
    t ∈ teams d ->
    effect E d (Some (t_workspaceId t))
      (set_teams (update_rows (with_key (t_id t)) (patch_team name description) (teams d)) d)
| ef_team_delete t :
    t ∈ teams d ->
    effect E d (Some (t_workspaceId t)) (cascade t (set_teams (remove_rows (with_key (t_id t)) (teams d)) d))
| ef_team_member ws m :
    team_at d ws (tm_teamId m) -> fits d m (team_members d) = Ok tt ->
    effect E d (Some ws) (set_team_members (team_members d ++ [m]) d)
| ef_team_role ws m role :
    team_at d ws (tm_teamId m) -> m ∈ team_members d ->
    effect E d (Some ws) (set_team_members (update_rows (with_key (tm_id m)) (with_team_role role) (team_members d)) d)
| ef_team_remove ws p :
    (forall m, p m = true -> team_at d ws (tm_teamId m)) ->
    effect E d (Some ws) (set_team_members (remove_rows p (team_members d)) d)
| ef_project p :
    (forall t, p_teamId p = Some t -> team_of d (p_workspaceId p) t) -> fits d p (projects d) = Ok tt ->
    effect E d (Some (p_workspaceId p)) (set_projects (projects d ++ [p]) d)
| ef_project_patch p body teamId :
    p ∈ projects d -> (forall t, teamId = Some (Some t) -> team_of d (p_workspaceId p) t) ->
    effect E d (Some (p_workspaceId p))
      (set_projects (update_rows (with_key (p_id p)) (patch_project body teamId) (projects d)) d)
| ef_project_delete p :
    p ∈ projects d ->
    effect E d (Some (p_workspaceId p))
      (set_projects (remove_rows (with_key (p_id p)) (projects d))
         (set_virtual_keys (remove_rows (fun k => String.eqb (k_projectId k) (p_id p)) (virtual_keys d)) d))
| ef_credential b c :
    let l := undefaulted b (c_workspaceId c) (c_provider c) (credentials d) in
    fits (set_credentials l d) c l = Ok tt ->
    effect E d (Some (c_workspaceId c)) (set_credentials (l ++ [c]) d)
| ef_credential_patch c body sealed last4 :
    let l := undefaulted (cp_isDefault body) (c_workspaceId c) (c_provider c) (credentials d) in
    c ∈ credentials d ->
    effect E d (Some (c_workspaceId c))
      (set_credentials (update_rows (with_key (c_id c)) (patch_credential body sealed last4) l) d)
| ef_credential_delete c :
    c ∈ credentials d ->
    effect E d (Some (c_workspaceId c)) (set_credentials (remove_rows (with_key (c_id c)) (credentials d)) d)
| ef_key k p :
    p ∈ projects d -> p_id p = k_projectId k -> p_workspaceId p = k_workspaceId k -> fits d k (virtual_keys d) = Ok tt ->
    effect E d (Some (k_workspaceId k)) (set_virtual_keys (virtual_keys d ++ [k]) d)
| ef_key_patch k body creds providers :
    k ∈ virtual_keys d ->
    effect E d (Some (k_workspaceId k))
      (set_virtual_keys (update_rows (with_key (k_id k)) (patch_key body creds providers) (virtual_keys d)) d)
| ef_key_revoke k :
    k ∈ virtual_keys d ->
    effect E d (Some (k_workspaceId k)) (set_virtual_keys (update_rows (with_key (k_id k)) revoke_key (virtual_keys d)) d)
| ef_override o :
    Forall price_ok (prices o) -> fits d o (overrides d) = Ok tt ->
    effect E d (Some (o_workspaceId o)) (set_overrides (overrides d ++ [o]) d)
| ef_override_patch o body i out cr cw :
    o ∈ overrides d -> Forall new_price_ok [i; out; cr; cw] ->
    fits d (patch_override body i out cr cw o) (List.filter (fun x => negb (with_key (o_id o) x)) (overrides d)) = Ok tt ->
    effect E d (Some (o_workspaceId o))
      (set_overrides (update_rows (with_key (o_id o)) (patch_override body i out cr cw) (overrides d)) d)
| ef_override_delete ws p :
    (forall o, p o = true -> o_workspaceId o = ws) ->
    effect E d (Some ws) (set_overrides (remove_rows p (overrides d)) d)
| ef_export j :
    fits d j (export_jobs d) = Ok tt ->
    effect E d (Some (xj_workspaceId (ej_job j))) (set_export_jobs (export_jobs d ++ [j]) d).

Section keys.
Context (E : ApiEnv).

Lemma effect_keys d lbl d' : effect E d lbl d' -> keys_ok d -> keys_ok d'.
Proof.
  intros Hs []. destruct Hs; constructor; cbn; try done;
    first [ by eapply nodup_create; [reflexivity|..] | by apply nodup_update | by apply nodup_remove | idtac ].
  - unfold l. eapply nodup_create; [reflexivity| |done]. cbn. by rewrite undefaulted_keys.
  - unfold l. apply nodup_update; [done|]. cbn. by rewrite undefaulted_keys.
Qed.
End keys.

(** ** Unique indexes *)
Definition unique_rows {R} `{Table R} (l : list R) : Prop :=
  forall a b, a ∈ l -> b ∈ l -> clash a b = true -> a = b.
Section unique.
Context {R : Type} {TR : Table R}.
Implicit Types (d : ApiDb) (r : R) (l : list R).

Lemma unique_create d r l :
  (forall a b, clash a b = clash b a) -> unique_rows l -> fits d r l = Ok tt -> unique_rows (l ++ [r]).
Proof.
  intros Hsym Hl (_ & Hc & _)%fits_inv a b [Ha| ->]%in_snoc [Hb| ->]%in_snoc Hab; [by apply Hl| | |done].
  - rewrite Hsym in Hab. by rewrite (Hc a Ha) in Hab.
  - by rewrite (Hc b Hb) in Hab.
Qed.
Lemma unique_remove p l : unique_rows l -> unique_rows (remove_rows p l).
Proof. intros Hl a b [Ha _]%in_remove_rows [Hb _]%in_remove_rows. by apply Hl. Qed.
(** An update of columns the index does not cover. *)
Lemma unique_update p f l :
  (forall a b, clash (f a) b = clash a b) -> (forall a b, clash a (f b) = clash a b) ->
  unique_rows l -> unique_rows (update_rows p f l).
Proof.
  intros H1 H2 Hl a b (x & Hx & ->)%in_update_rows (y & Hy & ->)%in_update_rows Hxy.
  assert (x = y) as ->; [|done]. apply Hl; [done..|]. revert Hxy.
  destruct (p x), (p y); by rewrite ?H1, ?H2.
Qed.
(** An update of one row that still fits beside the others. *)
Lemma unique_update_one k d r r' f l :
  row_key = k -> (forall a b, clash a b = clash b a) -> NoDup (map k l) -> r ∈ l -> f r = r' ->
  fits d r' (List.filter (fun x => negb (with_key (k r) x)) l) = Ok tt ->
  unique_rows l -> unique_rows (update_rows (with_key (k r)) f l).
Proof.
  intros <- Hsym Hnd Hr <- (_ & Hc & _)%fits_inv Hl a b (x & Hx & ->)%in_update_rows (y & Hy & ->)%in_update_rows.
  destruct (with_key (row_key r) x) eqn:Ex, (with_key (row_key r) y) eqn:Ey; intros Hxy.
  - by rewrite (with_key_self row_key l r x), (with_key_self row_key l r y).
  - rewrite (with_key_self row_key l r x) in Hxy by done. rewrite Hc in Hxy; [done|]. by rewrite in_filter, Ey.
  - rewrite (with_key_self row_key l r y) in Hxy by done. rewrite Hsym in Hxy. rewrite Hc in Hxy; [done|].
    by rewrite in_filter, Ex.
  - by apply Hl.
Qed.
End unique.

Lemma text_sym a b : same_text a b = same_text b a.
Proof. apply String.eqb_sym. Qed.
Lemma provider_sym p q : provider_eqb p q = provider_eqb q p.
Proof. unfold provider_eqb. apply bool_decide_ext. naive_solver. Qed.
Lemma member_sym (a b : Member) : clash a b = clash b a.
Proof. cbn. by rewrite (text_sym (m_workspaceId a)), (text_sym (m_userId a)). Qed.
Lemma session_sym (a b : Session) : clash a b = clash b a.
Proof. apply text_sym. Qed.
Lemma key_sym (a b : VirtualKey) : clash a b = clash b a.
Proof. apply text_sym. Qed.
Lemma override_sym (a b : Override) : clash a b = clash b a.
Proof.
  cbn. by rewrite (text_sym (o_workspaceId a)), (provider_sym (o_provider a)), (text_sym (o_modelPattern a)).
Qed.
Lemma credential_sym (a b : Credential) : clash a b = clash b a.
Proof.
  cbn. by rewrite (text_sym (c_workspaceId a)), (provider_sym (c_provider a)), (andb_comm (c_isDefault a)).
Qed.

(** ** Well-formed tables *)
Record wf (d : ApiDb) : Prop := {
  wf_keys : keys_ok d;
  (** A key's project is of the key's workspace, a project's team of the project's. *)
  wf_key_project : forall k, k ∈ virtual_keys d ->
    exists p, p ∈ projects d /\ p_id p = k_projectId k /\ p_workspaceId p = k_workspaceId k;
  wf_project_team : forall p t, p ∈ projects d -> p_teamId p = Some t -> team_of d (p_workspaceId p) t;
  (** One session per token, one membership per user and workspace, one key per
      hash, one default credential and one override per workspace and target. *)
  wf_tokens : unique_rows (sessions d);
  wf_members : unique_rows (members d);
  wf_hashes : unique_rows (virtual_keys d);
  wf_defaults : unique_rows (credentials d);
  wf_targets : unique_rows (overrides d);
  wf_prices : forall o, o ∈ overrides d -> Forall price_ok (prices o);
  wf_member_workspace : forall m, m ∈ members d -> has w_id (m_workspaceId m) (workspaces d) = true;
  (** No invitation makes an owner. *)
  wf_invitations : forall i, i ∈ invitations d -> i_role i <> OWNER;
}.

Section wf_effects.
Context (E : ApiEnv).
Implicit Types d : ApiDb.

Lemma effect_key_project d lbl d' : effect E d lbl d' -> wf d -> forall k, k ∈ virtual_keys d' ->
  exists p, p ∈ projects d' /\ p_id p = k_projectId k /\ p_workspaceId p = k_workspaceId k.
Proof.
  intros Hs Hwf k Hk. pose proof (wf_key_project d Hwf) as Hkp.
  destruct Hs; cbn in *; try (by apply Hkp).
  - destruct (Hkp k Hk) as (p & Hp & ? & ?).
    exists (if bool_decide (p_teamId p = Some (t_id t)) then detach p else p).
    split; [apply list_elem_of_fmap; eauto|by case_match].
  - destruct (Hkp k Hk) as (q & Hq & ? & ?). exists q. rewrite in_snoc. auto.
  - destruct (Hkp k Hk) as (q & Hq & ? & ?).
    exists (if with_key (p_id p) q then patch_project body teamId q else q).
    split; [apply in_update_rows; eauto|by case_match].
  - apply in_remove_rows in Hk as [Hk Hne%String.eqb_neq]. destruct (Hkp k Hk) as (q & Hq & Hid & ?).
    exists q. split; [|done]. apply in_remove_rows. split; [done|]. apply String.eqb_neq. cbn. congruence.
  - apply in_snoc in Hk as [Hk| ->]; [by apply Hkp|eauto].
  - apply in_update_rows in Hk as (x & Hx & ->). destruct (Hkp x Hx) as (q & ? & ? & ?). exists q. by case_match.
  - apply in_update_rows in Hk as (x & Hx & ->). destruct (Hkp x Hx) as (q & ? & ? & ?). exists q. by case_match.
Qed.
Lemma effect_project_team d lbl d' : effect E d lbl d' -> wf d -> forall p t, p ∈ projects d' ->
  p_teamId p = Some t -> team_of d' (p_workspaceId p) t.
Proof.
  intros Hs Hwf p t Hp Ht. pose proof (wf_project_team d Hwf) as Hpt.
  destruct Hs; cbn in *; try (by apply Hpt).
  - destruct (Hpt p t Hp Ht) as (x & Hx & ? & ?). exists x. cbn. rewrite in_snoc. auto.
  - destruct (Hpt p t Hp Ht) as (x & Hx & ? & ?).
    exists (if with_key (t_id t0) x then patch_team name description x else x).
    split; [apply in_update_rows; eauto|by case_match].
  - apply list_elem_of_fmap in Hp as (q & -> & Hq). case_bool_decide as Hd; [done|].
    destruct (Hpt q t Hq Ht) as (x & Hx & Hid & ?). exists x. split; [|done].
    apply in_remove_rows. split; [done|]. apply String.eqb_neq. cbn. congruence.
  - apply in_snoc in Hp as [Hp| ->]; [by apply Hpt|eauto].
  - apply in_update_rows in Hp as (q & Hq & ->).
    destruct (with_key (p_id p0) q) eqn:Ek; [|by apply Hpt].
    pose proof (with_key_self p_id _ _ _ eq_refl (ko_projects _ (wf_keys _ Hwf)) H Hq Ek) as ->.
    destruct teamId as [[t'|]|]; cbn in *; simplify_eq; [by apply H0|by apply Hpt].
  - apply in_remove_rows in Hp as [Hp _]. by apply Hpt.
Qed.

(** The default credential: the former one has stepped back. *)
Lemma undefault_clash b ws p x y :
  let f c := if b && default_of ws p c then undefault c else c in
  clash (f x) (f y) = true -> clash x y = true /\ f x = x /\ f y = y.
Proof.
  cbn. destruct (b && default_of ws p x); [by intros|]. destruct (b && default_of ws p y); [|done].
  cbn. by rewrite andb_false_r.
Qed.
Lemma undefaulted_update b ws p l :
  undefaulted b ws p l = update_rows (fun c => b && default_of ws p c) undefault l.
Proof. unfold undefaulted, update_rows. destruct b; cbn; [done|]. by rewrite map_id. Qed.
Lemma unique_undefaulted b ws p l : unique_rows l -> unique_rows (undefaulted b ws p l).
Proof.
  rewrite undefaulted_update. intros Hl a c (x & Hx & ->)%in_update_rows (y & Hy & ->)%in_update_rows Hc.
  apply undefault_clash in Hc as (Hc & -> & ->). by apply Hl.
Qed.
Lemma undefaulted_none ws p l c :
  c ∈ undefaulted true ws p l -> c_workspaceId c = ws -> c_provider c = p -> c_isDefault c = false.
Proof.
  intros (x & Hx & ->)%in_update_rows. unfold default_of, provider_eqb.
  destruct (c_isDefault x) eqn:Ex; [|by case_match].
  destruct (String.eqb (c_workspaceId x) ws) eqn:Ew; [|by apply String.eqb_neq in Ew].
  destruct (bool_decide (c_provider x = p)) eqn:Ep; [done|by apply bool_decide_eq_false in Ep].
Qed.
Lemma unique_credential_patch c body sealed last4 l0 :
  let l := undefaulted (cp_isDefault body) (c_workspaceId c) (c_provider c) l0 in
  NoDup (map c_id l0) -> c ∈ l0 -> unique_rows l0 ->
  unique_rows (update_rows (with_key (c_id c)) (patch_credential body sealed last4) l).
Proof.
  intros l Hnd Hc Hu. assert (unique_rows l) as Hl by by apply unique_undefaulted.
  destruct (cp_isDefault body) eqn:Eb; [|by apply unique_update; [intros a b; cbn; by rewrite Eb..|]].
  assert (forall x, x ∈ l -> c_id x = c_id c -> c_workspaceId x = c_workspaceId c /\ c_provider x = c_provider c) as Hsame.
  { intros x (y & Hy & ->)%in_update_rows Hid.
    assert (y = c) as ->; [|by case_match]. apply (NoDup_map_inj c_id l0); [done..|]. by destruct (default_of _ _ y). }
  assert (forall x y, x ∈ l -> y ∈ l -> c_id x = c_id c -> clash (patch_credential body sealed last4 x) y = true -> False) as Hno.
  { intros x y Hx Hy Hid Hcl. destruct (Hsame x Hx Hid) as [Hw Hp]. cbn in Hcl. rewrite Eb, Hw, Hp in Hcl. look.
    rewrite (undefaulted_none _ _ _ _ Hy) in *; done. }
  intros a b (x & Hx & ->)%in_update_rows (y & Hy & ->)%in_update_rows.
  destruct (with_key (c_id c) x) eqn:Ex, (with_key (c_id c) y) eqn:Ey; intros Hxy; [| | |by apply Hl].
  - f_equal. apply (NoDup_map_inj c_id l); [unfold l; by rewrite undefaulted_keys|done..|].
    apply String.eqb_eq in Ex, Ey. cbn in *. congruence.
  - exfalso. apply String.eqb_eq in Ex. exact (Hno x y Hx Hy Ex Hxy).
  - exfalso. apply String.eqb_eq in Ey. rewrite credential_sym in Hxy. exact (Hno y x Hy Hx Ey Hxy).
Qed.

Lemma has_snoc {R} (key : R -> string) id l x : has key id l = true -> has key id (l ++ [x]) = true.
Proof. unfold has. rewrite existsb_app. by intros ->. Qed.
Lemma has_self {R} (key : R -> string) l x : has key (key x) (l ++ [x]) = true.
Proof. apply has_spec. exists x. by rewrite in_snoc; auto. Qed.

Lemma effect_prices d lbl d' : effect E d lbl d' -> wf d -> forall o, o ∈ overrides d' -> Forall price_ok (prices o).
Proof.
  intros Hs Hwf o Ho. pose proof (wf_prices d Hwf) as Hp.
  destruct Hs; cbn in *; try (by apply Hp); rows; try (by apply Hp); [done|].
  match goal with H : Forall new_price_ok _, H' : ?x ∈ overrides d, _ : with_key _ ?x = true |- _ => apply Hp in H'; revert H H' end.
  unfold prices, new_price_ok. rewrite !Forall_cons. cbn. intros (? & ? & ? & ? & _) (? & ? & ? & ? & _).
  split_and!; [..|done]; match goal with |- price_ok (patched ?v _) => destruct v end; cbn; auto.
Qed.
Lemma effect_invitations d lbl d' : effect E d lbl d' -> wf d -> forall i, i ∈ invitations d' -> i_role i <> OWNER.
Proof.
  intros Hs Hwf i Hi. pose proof (wf_invitations d Hwf) as Hr.
  destruct Hs; cbn in *; try (by apply Hr); rows; try done; apply Hr in Hi; done.
Qed.
Lemma effect_workspaces d lbl d' : effect E d lbl d' -> wf d -> forall m, m ∈ members d' ->
  has w_id (m_workspaceId m) (workspaces d') = true.
Proof.
  intros Hs Hwf m Hm. pose proof (wf_member_workspace d Hwf) as Hr.
  destruct Hs; cbn in *; try (by apply Hr); rows; try (by apply Hr).
  - by apply has_snoc, Hr.
  - match goal with H : m_workspaceId _ = w_id _ |- _ => rewrite H end. apply has_self.
  - match goal with H : fits _ _ _ = Ok tt |- _ => apply fits_inv in H as (_ & _ & [H _]%andb_true_iff) end. done.
  - by apply Hr in Hm.
Qed.
Lemma effect_unique d lbl d' : effect E d lbl d' -> wf d ->
  unique_rows (sessions d') /\ unique_rows (members d') /\ unique_rows (virtual_keys d') /\ unique_rows (credentials d') /\ unique_rows (overrides d').
Proof.
  intros Hs Hwf. pose proof (wf_keys d Hwf) as Hk.
  pose proof (conj (wf_tokens d Hwf) (conj (wf_members d Hwf) (conj (wf_hashes d Hwf)
                (conj (wf_defaults d Hwf) (wf_targets d Hwf))))) as Hu.
  destruct Hs; cbn; try exact Hu; destruct Hu as (Hss & Hm & Hv & Hc & Ho); split_and!; try done;
    first [ by apply unique_remove
          | by eapply unique_create; [first [exact session_sym | exact member_sym | exact key_sym | exact override_sym]| |eassumption]
          | by apply unique_update | idtac ].
  - eapply unique_create; [exact credential_sym| |eassumption]. by apply unique_undefaulted.
  - apply unique_credential_patch; [by destruct Hk|done..].
  - eapply (unique_update_one o_id); [reflexivity|exact override_sym|by destruct Hk|done| |eassumption|done].
    reflexivity.
Qed.
Lemma effect_wf d lbl d' : effect E d lbl d' -> wf d -> wf d'.
Proof.
  intros Hs Hwf. destruct (effect_unique d lbl d' Hs Hwf) as (? & ? & ? & ? & ?). constructor.
  - by eapply effect_keys, wf_keys.
  - by eapply effect_key_project.
  - by eapply effect_project_team.
  - done.
  - done.
  - done.
  - done.
  - done.
  - by eapply effect_prices.
  - by eapply effect_workspaces.
  - by eapply effect_invitations.
Qed.
End wf_effects.

(** ** Isolation of workspaces *)
Definition of_ws {R} (key : R -> string) (ws : string) (r : R) : bool := String.eqb (key r) ws.
Definition team_ids (ws : string) (l : list Team) : list string := map t_id (List.filter (of_ws t_workspaceId ws) l).
Definition of_teams (ids : list string) : list TeamMember -> list TeamMember :=
  List.filter (fun m => bool_decide (tm_teamId m ∈ ids)).
(** Everything the tables hold of a workspace. *)
Record WorkspaceRows := mkRows {
  wr_workspace : list Workspace; wr_members : list Member; wr_teams : list Team; wr_team_members : list TeamMember;
  wr_projects : list Project; wr_invitations : list Invitation; wr_credentials : list Credential;
  wr_keys : list VirtualKey; wr_overrides : list Override; wr_exports : list ExportJobRow }.
Definition workspace_rows (ws : string) (d : ApiDb) : WorkspaceRows :=
  mkRows (List.filter (of_ws w_id ws) (workspaces d)) (List.filter (of_ws m_workspaceId ws) (members d))
    (List.filter (of_ws t_workspaceId ws) (teams d))
    (of_teams (team_ids ws (teams d)) (team_members d))
    (List.filter (of_ws p_workspaceId ws) (projects d)) (List.filter (of_ws i_workspaceId ws) (invitations d))
    (List.filter (of_ws c_workspaceId ws) (credentials d)) (List.filter (of_ws k_workspaceId ws) (virtual_keys d))
    (List.filter (of_ws o_workspaceId ws) (overrides d))
    (List.filter (of_ws (fun j => xj_workspaceId (ej_job j)) ws) (export_jobs d)).

Section others.
Context {R : Type} (q : R -> bool).
Lemma other_create l r : q r = false -> List.filter q (l ++ [r]) = List.filter q l.
Proof. intros Hr. rewrite List.filter_app. cbn. by rewrite Hr, app_nil_r. Qed.
Lemma other_update p f l :
  (forall x, x ∈ l -> p x = true -> q x = false /\ q (f x) = false) ->
  List.filter q (update_rows p f l) = List.filter q l.
Proof.
  intros Hl. induction l as [|x l IH]; [done|]. cbn. fold (update_rows p f l). rewrite IH by set_solver.
  destruct (p x) eqn:Ep; [|done]. destruct (Hl x) as [Hq Hf]; [set_solver|done|]. by rewrite Hq, Hf.
Qed.
Lemma other_remove p l :
  (forall x, x ∈ l -> p x = true -> q x = false) -> List.filter q (remove_rows p l) = List.filter q l.
Proof.
  intros Hl. unfold remove_rows. induction l as [|x l IH]; [done|]. cbn. rewrite <- IH by set_solver.
  destruct (p x) eqn:Ep; [|done]. cbn. by rewrite (Hl x) by (set_solver || done).
Qed.
End others.

Section isolation.
Context (E : ApiEnv) (ws : string).
Implicit Types d : ApiDb.

Lemma of_ws_false {R} (key : R -> string) r : key r <> ws -> of_ws key ws r = false.
Proof. by intros ?%String.eqb_neq. Qed.
Lemma of_team d t id : wf d -> t ∈ teams d -> t_id t = id -> t_workspaceId t <> ws -> id ∉ team_ids ws (teams d).
Proof.
  intros Hwf Ht <- Hne (x & Hid & [Hx Hw%String.eqb_eq]%in_filter)%list_elem_of_fmap. apply Hne.
  rewrite <- Hw. f_equal. by apply (NoDup_map_inj t_id (teams d)); [apply wf_keys|..].
Qed.
Lemma team_at_other d ws' id : team_at d ws' id -> ws' <> ws -> id ∉ team_ids ws (teams d).
Proof.
  intros Hat Hne (x & Hid & [Hx Hw%String.eqb_eq]%in_filter)%list_elem_of_fmap. apply Hne.
  by rewrite <- (Hat x Hx).
Qed.
(** One row, named by its key, of another workspace. *)
Lemma keyed_update {R} (k key : R -> string) f l r :
  NoDup (map k l) -> r ∈ l -> key r <> ws -> (forall x, key (f x) = key x) ->
  List.filter (of_ws key ws) (update_rows (fun x => String.eqb (k x) (k r)) f l) = List.filter (of_ws key ws) l.
Proof.
  intros Hl Hr Hne Hf. apply other_update. intros x Hx Hk%String.eqb_eq.
  assert (x = r) as -> by by apply (NoDup_map_inj k l). by split; apply of_ws_false; rewrite ?Hf.
Qed.
Lemma keyed_remove {R} (k key : R -> string) l r :
  NoDup (map k l) -> r ∈ l -> key r <> ws ->
  List.filter (of_ws key ws) (remove_rows (fun x => String.eqb (k x) (k r)) l) = List.filter (of_ws key ws) l.
Proof.
  intros Hl Hr Hne. apply other_remove. intros x Hx Hk%String.eqb_eq.
  assert (x = r) as -> by by apply (NoDup_map_inj k l). by apply of_ws_false.
Qed.
Lemma undefaulted_other b ws' p l :
  ws' <> ws -> List.filter (of_ws c_workspaceId ws) (undefaulted b ws' p l) = List.filter (of_ws c_workspaceId ws) l.
Proof.
  intros Hne. rewrite undefaulted_update. apply other_update. intros x _ Hp.
  apply andb_true_iff in Hp as [_ Hp]. unfold default_of in Hp. look.
  split; apply of_ws_false; cbn; congruence.
Qed.

Ltac other :=
  match goal with
  | |- List.filter _ (_ ++ [_]) = _ => rewrite other_create; [done|apply of_ws_false; congruence]
  | Hk : NoDup (map ?k ?l) |- List.filter (of_ws ?key _) (update_rows _ ?f ?l) = _ =>
      eapply (keyed_update k key f l); [done|eassumption|congruence|done]
  | Hk : NoDup (map ?k ?l) |- List.filter (of_ws ?key _) (remove_rows _ ?l) = _ =>
      eapply (keyed_remove k key l); [done|eassumption|congruence]
  end.
Lemma new_workspace d d1 w :
  fits d1 w (workspaces d) = Ok tt -> has w_id ws (workspaces d) = true -> w_id w <> ws.
Proof. intros (Hk & _ & _)%fits_inv (x & Hx & Hid)%has_spec Hw. apply (Hk x Hx). cbn. congruence. Qed.
(** A team of another workspace goes, with its members, and its projects keep none. *)
Lemma team_delete_members d t :
  wf d -> t ∈ teams d -> t_workspaceId t <> ws ->
  of_teams (team_ids ws (remove_rows (with_key (t_id t)) (teams d)))
    (remove_rows (fun m => same_text (tm_teamId m) (t_id t)) (team_members d)) =
  of_teams (team_ids ws (teams d)) (team_members d).
Proof.
  intros Hwf Ht Hne. unfold team_ids.
  assert (List.filter (of_ws t_workspaceId ws) (remove_rows (with_key (t_id t)) (teams d)) =
          List.filter (of_ws t_workspaceId ws) (teams d)) as ->
    by (apply (keyed_remove t_id t_workspaceId _ t); [apply wf_keys, Hwf|done..]).
  apply other_remove. intros m Hm Hk%String.eqb_eq. apply bool_decide_eq_false. by eapply of_team.
Qed.
Lemma team_delete_projects d t :
  wf d -> t ∈ teams d -> t_workspaceId t <> ws ->
  List.filter (of_ws p_workspaceId ws)
    (update_rows (fun p => bool_decide (p_teamId p = Some (t_id t))) detach (projects d)) =
  List.filter (of_ws p_workspaceId ws) (projects d).
Proof.
  intros Hwf Ht Hne. apply other_update. intros p Hp Hpt%bool_decide_eq_true.
  destruct (wf_project_team d Hwf p _ Hp Hpt) as (x & Hx & Hid & Hw).
  assert (x = t) as -> by (apply (NoDup_map_inj t_id (teams d)); [apply wf_keys, Hwf|done..]).
  split; apply of_ws_false; cbn; congruence.
Qed.
(** The keys that go with a project are of its workspace. *)
Lemma project_delete_keys d p :
  wf d -> p ∈ projects d -> p_workspaceId p <> ws ->
  List.filter (of_ws k_workspaceId ws) (remove_rows (fun k => String.eqb (k_projectId k) (p_id p)) (virtual_keys d)) =
  List.filter (of_ws k_workspaceId ws) (virtual_keys d).
Proof.
  intros Hwf Hp Hne. apply other_remove. intros k Hk Hid%String.eqb_eq. apply of_ws_false.
  destruct (wf_key_project d Hwf k Hk) as (x & Hx & Hx' & <-).
  assert (x = p) as ->; [|done]. apply (NoDup_map_inj p_id (projects d)); [apply wf_keys, Hwf|done|done|congruence].
Qed.
Lemma effect_has_workspace d lbl d' :
  effect E d lbl d' -> has w_id ws (workspaces d) = true -> has w_id ws (workspaces d') = true.
Proof. intros Hs Hw. destruct Hs; try exact Hw. by apply has_snoc. Qed.
(** A change of one workspace leaves the rows of the others. *)
Lemma effect_isolated d lbl d' :
  effect E d lbl d' -> wf d -> has w_id ws (workspaces d) = true -> lbl <> Some ws ->
  workspace_rows ws d' = workspace_rows ws d.
Proof.
  intros Hs Hwf Hws Ho. pose proof (wf_keys d Hwf) as []. unfold workspace_rows.
  assert (forall x, lbl = Some x -> x <> ws) as Hne by congruence. clear Ho.
  destruct Hs; try (specialize (Hne _ eq_refl));
    cbn; try reflexivity; f_equal; try other; try (f_equal; unfold team_ids; f_equal; other);
    fold (team_ids ws (teams d)).
  - apply other_remove. intros i _ Hp. apply of_ws_false.
    match goal with H : forall i, p i = true -> _ |- _ => by rewrite (H i Hp) end.
  - by apply team_delete_members.
  - by apply team_delete_projects.
  - apply other_create, bool_decide_eq_false. by eapply team_at_other.
  - apply other_update. intros x Hx Hk.
    assert (x = m) as -> by (eapply (with_key_self tm_id); [reflexivity|done..]).
    split; apply bool_decide_eq_false; by eapply team_at_other.
  - apply other_remove. intros x Hx Hp. apply bool_decide_eq_false. eapply team_at_other; [|done].
    match goal with H : forall m, p m = true -> _ |- _ => by apply H end.
  - by apply project_delete_keys.
  - rewrite other_create by by apply of_ws_false. by apply undefaulted_other.
  - rewrite other_update; [by apply undefaulted_other|]. intros x Hx Hk.
    enough (c_workspaceId x <> ws) by (by split; apply of_ws_false).
    unfold l in Hx. rewrite undefaulted_update in Hx. apply in_update_rows in Hx as (y & Hy & ->).
    assert (y = c) as ->; [|by case_match]. apply (with_key_self c_id (credentials d)); [done..|].
    by destruct (_ && _).
  - apply other_remove. intros o _ Hp. apply of_ws_false.
    match goal with H : forall o, p o = true -> _ |- _ => by rewrite (H o Hp) end.
Qed.
End isolation.

(** Nobody is made an owner of a workspace that exists. *)
Lemma effect_new_owner E ws d lbl d' :
  effect E d lbl d' -> wf d -> has w_id ws (workspaces d) = true ->
  forall m', m' ∈ members d' -> m_workspaceId m' = ws -> m_role m' = OWNER -> m' ∈ members d.
Proof.
  intros Hs Hwf Hws m' Hm' Hw Hr. destruct Hs; try exact Hm'; cbn in Hm'; rows; try done.
  - exfalso. match goal with H : fits _ w _ = Ok tt |- _ => apply fits_inv in H as (Hk & _ & _) end.
    apply has_spec in Hws as (x & Hx & Hid). cbn in *. apply (Hk x Hx). congruence.
  - exfalso. apply (wf_invitations d Hwf i); [done|]. congruence.
Qed.
