(* ===== verification/ApiSafety.v ===== *)
(** * What every sequence of API requests keeps

    Every transition of ApiSteps.v is a change of ApiEffects.v: it keeps the
    tables well formed and the rows of workspaces its caller is not in.  [serves]
    runs a list of requests; the theorems carry over to it by ApiRefine.v.  The
    last owner stays. *)

From S2P Require Import Prelude JsString JsNum JsDate Json Shared Queue Auth Providers Gateway Persist Export Zod ApiDb ApiAuth.
From S2P Require Import ApiKeys ApiMembers ApiOrg ApiPricing ApiReports ApiServer ApiRules ApiSteps ApiRefine ApiEffects.

(** ** Callers outside a workspace *)
Section outsiders.
Context (E : ApiEnv) (rq : ApiRequest) (tok : option string) (ws : string).
Implicit Types d : ApiDb.

(** Not a member of the workspace, and without the token of an invitation to it. *)
Definition outsider d : Prop :=
  (forall user uid, acts E rq user uid -> ~ has_role d uid ws VIEWER) /\
  (forall i token, i ∈ invitations d -> tok = Some token -> by_invite_token E token i = true -> i_workspaceId i <> ws).

Lemma hasMinimumRole_viewer r : hasMinimumRole r VIEWER = true.
Proof. by destruct r. Qed.
Lemma outsider_role d user uid ws' min : outsider d -> acts E rq user uid -> has_role d uid ws' min -> ws' <> ws.
Proof.
  intros [Hout _] Ha (m & ? & ? & ? & ?) ->. apply (Hout user uid Ha). exists m. auto using hasMinimumRole_viewer.
Qed.
Lemma outsider_member d user uid m : outsider d -> acts E rq user uid -> m ∈ members d -> m_userId m = uid ->
  m_workspaceId m <> ws.
Proof. intros Ho Ha Hm Hu. eapply outsider_role; [done..|]. by exists m; auto using hasMinimumRole_viewer. Qed.
Lemma outsider_by_role d ws' min : outsider d -> by_role E rq d ws' min -> ws' <> ws.
Proof. intros Ho (user & uid & ? & ?). by eapply outsider_role. Qed.
Lemma outsider_manage d t : outsider d -> can_manage E rq d t -> t_workspaceId t <> ws.
Proof. intros Ho (user & uid & ? & ? & ?). by eapply outsider_role. Qed.
Lemma outsider_touch d k : outsider d -> may_touch_key E rq d k -> k_workspaceId k <> ws.
Proof. intros Ho (user & uid & ? & ? & ?). by eapply outsider_role. Qed.
(** Being an outsider depends on the workspace's rows alone. *)
Lemma outsider_rows d d' : workspace_rows ws d' = workspace_rows ws d -> outsider d -> outsider d'.
Proof.
  intros Hrows [Hm Hi].
  pose proof (f_equal wr_members Hrows) as Em. pose proof (f_equal wr_invitations Hrows) as Ei. cbn in Em, Ei. split.
  - intros user uid Ha (m & Hin & Hu & Hw & Hr). apply (Hm user uid Ha). exists m. split; [|done].
    assert (m ∈ List.filter (of_ws m_workspaceId ws) (members d)) as H; [|by apply in_filter in H as [H _]].
    rewrite <- Em. apply in_filter. split; [done|by apply String.eqb_eq].
  - intros i token Hin Ht Hb Hw. apply (Hi i token); [|done..].
    assert (i ∈ List.filter (of_ws i_workspaceId ws) (invitations d)) as H; [|by apply in_filter in H as [H _]].
    rewrite <- Ei. apply in_filter. split; [done|by apply String.eqb_eq].
Qed.
End outsiders.

(** ** Transitions are changes *)
Section changes.
Context (E : ApiEnv) (rq : ApiRequest) (tok : option string).
Implicit Types d : ApiDb.

Lemma new_workspace_other ws d d1 w :
  fits d1 w (workspaces d) = Ok tt -> has w_id ws (workspaces d) = true -> w_id w <> ws.
Proof. intros (Hk & _ & _)%fits_inv (x & Hx & Hid)%has_spec Hw. apply (Hk x Hx). cbn. congruence. Qed.
Lemma team_at_self d t : keys_ok d -> t ∈ teams d -> team_at d (t_workspaceId t) (t_id t).
Proof.
  intros Hk Ht x Hx Hid. f_equal. by apply (NoDup_map_inj t_id (teams d)); [apply Hk|..].
Qed.
(** The workspace a transition changes is one its caller belongs to or holds an
    invitation to. *)
Lemma api_step_effect d d' :
  api_step E rq tok d d' -> keys_ok d ->
  exists lbl, effect E d lbl d' /\
    forall ws, has w_id ws (workspaces d) = true -> outsider E rq tok ws d -> lbl <> Some ws.
Proof.
  intros Hs Hwf. destruct Hs; repeat match goal with x := _ |- _ => subst x end;
    eexists; (split; [once (first [ eapply (ef_register E d u w m) | econstructor ]; eauto using team_at_self)|]); 
    try (intros ws0 Hws Ho; first [discriminate | intros [= Heq]]).
  all: lazymatch goal with
    | |- team_at _ _ (tm_teamId _) => match goal with H : tm_teamId _ = t_id _ |- _ => rewrite H; by apply team_at_self end
    | |- forall m, _ -> team_at _ _ _ =>
        intros ? Hp; match goal with H : forall m, _ -> _ |- _ => rewrite (H _ Hp); by apply team_at_self end
    | |- forall i, _ -> i_workspaceId _ = _ =>
        intros ? Hp; match goal with H : forall m, _ -> _ |- _ => by destruct (H _ Hp) as [-> _] end
    | |- False => match goal with
      | H : by_role _ _ _ _ _ |- _ => by apply (outsider_by_role _ _ _ _ _ _ _ Ho) in H
      | H : can_manage _ _ _ _ |- _ => by apply (outsider_manage _ _ _ _ _ _ Ho) in H
      | H : may_touch_key _ _ _ _ |- _ => by apply (outsider_touch _ _ _ _ _ _ Ho) in H
      | H : acts _ _ _ ?uid, H' : has_role _ ?uid _ _ |- _ => by apply (outsider_role _ _ _ _ _ _ _ _ _ Ho H) in H'
      | H : acts _ _ _ ?uid, H' : ?m ∈ members _, H'' : m_userId ?m = ?uid |- _ =>
          apply (outsider_member _ _ _ _ _ _ _ _ Ho H) in H'; [congruence|exact H'']
      | H : ?i ∈ invitations _, H' : by_invite_token _ _ ?i = true, H'' : tok = Some _ |- _ =>
          by apply (proj2 Ho _ _ H H'' H')
      | H : fits _ ?w (workspaces _) = Ok tt |- _ => by apply (new_workspace_other _ _ _ _ H Hws)
      end
    end.
Qed.
Lemma api_step_keys d d' : api_step E rq tok d d' -> keys_ok d -> keys_ok d'.
Proof. intros Hs Hk. destruct (api_step_effect d d' Hs Hk) as (lbl & He & _). by eapply effect_keys. Qed.
Lemma api_step_wf d d' : api_step E rq tok d d' -> wf d -> wf d'.
Proof. intros Hs Hwf. destruct (api_step_effect d d' Hs (wf_keys d Hwf)) as (lbl & He & _). by eapply effect_wf. Qed.
Lemma api_steps_wf d d' : api_steps E rq tok d d' -> wf d -> wf d'.
Proof. intros Hs. induction Hs; [done|]. intros Hd. by eauto using api_step_wf. Qed.
Lemma api_step_has_workspace ws d d' :
  api_step E rq tok d d' -> wf d -> has w_id ws (workspaces d) = true -> has w_id ws (workspaces d') = true.
Proof.
  intros Hs Hwf. destruct (api_step_effect d d' Hs (wf_keys d Hwf)) as (lbl & He & _). by eapply effect_has_workspace.
Qed.
Lemma api_step_isolated ws d d' :
  api_step E rq tok d d' -> wf d -> has w_id ws (workspaces d) = true -> outsider E rq tok ws d ->
  workspace_rows ws d' = workspace_rows ws d.
Proof.
  intros Hs Hwf Hws Ho. destruct (api_step_effect d d' Hs (wf_keys d Hwf)) as (lbl & He & Hl). eapply effect_isolated; eauto.
Qed.
Lemma api_step_new_owner ws d d' :
  api_step E rq tok d d' -> wf d -> has w_id ws (workspaces d) = true ->
  forall m', m' ∈ members d' -> m_workspaceId m' = ws -> m_role m' = OWNER -> m' ∈ members d.
Proof.
  intros Hs Hwf. destruct (api_step_effect d d' Hs (wf_keys d Hwf)) as (lbl & He & _). by eapply effect_new_owner.
Qed.
End changes.
(** ** Runs of requests *)
(** One request with the environment it runs in. *)
Record Request := mkRequest {
  r_env : ApiEnv; r_rq : ApiRequest; r_method : string; r_path : string }.
Section runs.
Context (get : UpstreamRequest -> option Z) (stat : string -> bool).
Definition serve_one (w : World) (r : Request) : World :=
  (serve get stat (r_env r) (r_rq r) (r_method r) (r_path r) w).1.
Definition serves (w : World) (rs : list Request) : World := fold_left serve_one rs w.
(** The empty text is no uuid. *)
Definition no_empty_uuid (rs : list Request) : Prop := Forall (fun r => e_uuid (r_env r) "" = None) rs.
Definition request_token (r : Request) : option string := find_call (r_method r) (r_path r) ≫= call_token.

(** What each transition keeps, a request keeps, and a run of them. *)
Lemma request_keeps (I : ApiDb -> Prop) r w :
  e_uuid (r_env r) "" = None ->
  (forall d d', api_step (r_env r) (r_rq r) (request_token r) d d' -> wf d -> I d -> I d') ->
  wf (db w) -> I (db w) -> wf (db (serve_one w r)) /\ I (db (serve_one w r)).
Proof.
  intros Hempty Hstep Hwf HI.
  pose proof (serve_steps get stat (r_env r) (r_rq r) (r_method r) (r_path r) w Hempty (wf_keys _ Hwf)) as Hs.
  fold (serve_one w r) in Hs. induction Hs as [|d1 d2 d3 H12 _ IH]; [done|].
  apply IH; [by eapply api_step_wf|by eapply Hstep].
Qed.
Lemma run_keeps (I : ApiDb -> Prop) rs w :
  no_empty_uuid rs ->
  (forall E rq tok d d', api_step E rq tok d d' -> wf d -> I d -> I d') ->
  wf (db w) -> I (db w) -> wf (db (serves w rs)) /\ I (db (serves w rs)).
Proof.
  intros Hrs Hstep. revert w. induction Hrs as [|r rs Hr Hrs IH]; intros w Hwf HI; [done|].
  destruct (request_keeps I r w Hr (Hstep _ _ _) Hwf HI) as [Hwf' HI']. by apply IH.
Qed.
End runs.

(** ** Owners *)
Section count.
Context {R : Type} (P : R -> bool) (k : R -> string) (id : string).
Let hit x := String.eqb (k x) id.
Notation amount l := (length (List.filter P l)).

Lemma update_none f l : id ∉ map k l -> update_rows hit f l = l.
Proof.
  induction l as [|x l IH]; [done|]. intros [Hne Hl]%not_elem_of_cons.
  change (update_rows hit f (x :: l)) with ((if hit x then f x else x) :: update_rows hit f l).
  rewrite IH by done. unfold hit. rewrite (proj2 (String.eqb_neq (k x) id)); [done|congruence].
Qed.
Lemma remove_none l : id ∉ map k l -> remove_rows hit l = l.
Proof.
  intros Hl. apply filter_all. intros x Hx. apply negb_true_iff, String.eqb_neq. intros <-. apply Hl.
  by apply list_elem_of_fmap_2.
Qed.
(** A row lost from a count, by an update or a deletion under its key. *)
Lemma amount_update f l :
  NoDup (map k l) ->
  (amount l <= amount (update_rows hit f l) + 1)%nat /\
  ((forall x, x ∈ l -> k x = id -> P x = false) -> (amount l <= amount (update_rows hit f l))%nat).
Proof.
  induction l as [|x l IH]; [cbn; lia|]. cbn [map]. intros [Hx Hnd]%NoDup_cons. cbn [update_rows map].
  destruct (hit x) eqn:Eh; unfold hit in Eh.
  - apply String.eqb_eq in Eh. fold (update_rows hit f l). rewrite update_none by by rewrite <- Eh.
    cbn [List.filter]. split; [destruct (P x), (P (f x)); cbn; lia|]. intros HP.
    rewrite (HP x) by (set_solver || done). destruct (P (f x)); cbn; lia.
  - destruct (IH Hnd) as [IH1 IH2]. fold (update_rows hit f l). cbn [List.filter].
    split; [destruct (P x); cbn; lia|]. intros HP.
    assert (amount l <= amount (update_rows hit f l))%nat by (apply IH2; intros; apply HP; set_solver).
    destruct (P x); cbn; lia.
Qed.
Lemma amount_remove l :
  NoDup (map k l) ->
  (amount l <= amount (remove_rows hit l) + 1)%nat /\
  ((forall x, x ∈ l -> k x = id -> P x = false) -> (amount l <= amount (remove_rows hit l))%nat).
Proof.
  induction l as [|x l IH]; [cbn; lia|]. cbn [map]. intros [Hx Hnd]%NoDup_cons.
  unfold remove_rows. cbn [List.filter]. fold (remove_rows hit l).
  destruct (hit x) eqn:Eh; unfold hit in Eh; cbn [negb].
  - apply String.eqb_eq in Eh. rewrite remove_none by by rewrite <- Eh.
    split; [destruct (P x); cbn; lia|]. intros HP. by rewrite (HP x) by (set_solver || done).
  - destruct (IH Hnd) as [IH1 IH2]. cbn [List.filter].
    split; [destruct (P x); cbn; lia|]. intros HP.
    assert (amount l <= amount (remove_rows hit l))%nat by (apply IH2; intros; apply HP; set_solver).
    destruct (P x); cbn; lia.
Qed.
End count.

Section owners.
Context (E : ApiEnv) (rq : ApiRequest) (tok : option string).
Implicit Types d : ApiDb.

(** A member leaves the owners of [ws], by [f] or by deletion, only if another stays. *)
Lemma owner_count_kept ws d m (l' : list Member) :
  wf d -> m ∈ members d -> (m_role m = OWNER -> (2 <= owner_count (m_workspaceId m) d)%nat) ->
  (owner_count ws d <= length (List.filter (is_owner ws) l') + 1)%nat ->
  ((forall x, x ∈ members d -> m_id x = m_id m -> is_owner ws x = false) ->
     (owner_count ws d <= length (List.filter (is_owner ws) l'))%nat) ->
  (1 <= owner_count ws d)%nat -> (1 <= length (List.filter (is_owner ws) l'))%nat.
Proof.
  intros Hwf Hm H2 Hlost Hkept Hd. destruct (is_owner ws m) eqn:Eo.
  - apply andb_true_iff in Eo as [<-%String.eqb_eq Hr%bool_decide_eq_true]. specialize (H2 Hr). lia.
  - apply Nat.le_trans with (owner_count ws d); [done|]. apply Hkept. intros x Hx Hid.
    assert (x = m) as ->; [|done]. by apply (NoDup_map_inj m_id (members d)); [apply wf_keys| | |].
Qed.
Lemma api_step_owner ws d d' :
  api_step E rq tok d d' -> wf d -> (1 <= owner_count ws d)%nat -> (1 <= owner_count ws d')%nat.
Proof.
  intros Hs Hwf Hd. pose proof (ko_members _ (wf_keys _ Hwf)) as Hnd. unfold owner_count.
  destruct Hs; try exact Hd; cbn.
  - rewrite List.filter_app, length_app. unfold owner_count in Hd. lia.
  - rewrite List.filter_app, length_app. unfold owner_count in Hd. lia.
  - eapply (owner_count_kept ws d m); [done..| | |done]; apply (amount_update (is_owner ws) m_id); done.
  - eapply (owner_count_kept ws d m); [done..| | |done]; apply (amount_remove (is_owner ws) m_id); done.
Qed.
(** Nobody is made an owner of a workspace that exists. *)
End owners.
