(* ===== verification/ApiExample.v ===== *)
(** * A small instance

    Two workspaces with an owner each, a project and a virtual key in the first,
    stand-ins for the services of a request, and requests on them: the inputs
    the theorems about the API are tried on. *)

From S2P Require Import Prelude JsString JsNum JsDate Json Shared Queue Auth Providers Gateway Persist Export Zod ApiDb ApiAuth.
From S2P Require Import ApiKeys ApiMembers ApiOrg ApiPricing ApiReports ApiServer ApiRules ApiSteps ApiRefine ApiEffects ApiSafety.
From Stdlib Require Import Ascii.

(** A token is the id of its user. *)
Definition ex_jose : Jose :=
  mkJose (fun _ _ => "jwt") (fun token _ _ _ => Ok (JObj [("sub", JStr token); ("email", JStr (token +:+ "@x.io"))])).
Definition ex_env_with (P : Primitives) : ApiEnv := {|
  e_P := P; e_J := ex_jose; e_zod := mkZod (fun _ => true) (fun _ => true) (fun _ => true) (fun _ => true);
  e_uuid := fun s => if String.eqb s "" then None else Some s;
  jwtSecret := "secret"; publicBaseUrl := "https://tl.io"; superAdmins := ["u1@x.io"]; ring := Some {[ 0 := "master" ]};
  e_now := 1000000; e_id := fun n => "id" +:+ dec (Z.of_nat n);
  e_blocks := replicate 8 (map Z.of_nat (seq 0 64)); e_salt := "salt"; e_iv := "iviviviviviv"; e_suffix := "ab1cd";
  e_redis_up := true; e_queue_up := true |}.
Definition ex_env : ApiEnv := ex_env_with toy_primitives.
Definition ex_get (_ : UpstreamRequest) : option Z := Some 200.
Definition ex_stat (_ : string) : bool := true.

Definition ex_user (id : string) : User := mkUser id (id +:+ "@x.io") None id true.
Definition ex_owner (m ws u : string) : Member := mkMember m ws u OWNER 0.
Definition ex_project : Project := mkProject "p1" "w1" None "Project" "project" None [] true 0.
Definition ex_key : VirtualKey :=
  mkVirtualKey "k1" "w1" "p1" "u1" "key" (repeat_char "b"%char 64) "aaaa" [] [] [] None None KEY_ACTIVE None 0.
Definition ex_price : Override := mkOverride "o1" "w1" OPENAI "gpt-4" 2500000 10000000 0 0 0.
Definition ex_db : ApiDb := {|
  users := map ex_user ["u1"; "u2"]; sessions := [];
  workspaces := [mkWorkspace "w1" "One" "one" None 0; mkWorkspace "w2" "Two" "two" None 0];
  members := [ex_owner "m1" "w1" "u1"; ex_owner "m2" "w2" "u2"];
  teams := []; team_members := []; projects := [ex_project]; invitations := [];
  credentials := []; virtual_keys := [ex_key]; overrides := [ex_price]; export_jobs := []; model_prices := [];
  pool_credentials := []; usage := empty_db ∅ |}.
Definition ex_world : World := mkWorld ex_db [].

(** A user's request with a body. *)
Definition ex_request (user : string) (body : option json) : ApiRequest :=
  mkApiRequest (Some ("Bearer " +:+ user)) None "10.0.0.1" None body None.
Definition ex_ask (user method path : string) (body : option json) : Request :=
  mkRequest ex_env (ex_request user body) method path.
(** u2 tries to read, change and delete what is of w1. *)
Definition ex_attacks : list Request :=
  [ ex_ask "u2" "GET" "/api/v1/workspaces/one/keys" None;
    ex_ask "u2" "POST" "/api/v1/workspaces/one/keys/k1/revoke" None;
    ex_ask "u2" "DELETE" "/api/v1/workspaces/one/projects/p1" None;
    ex_ask "u2" "DELETE" "/api/v1/workspaces/one/members/u1" None ].
(** u1 gives up the only ownership of w1. *)
Definition ex_abdication : list Request :=
  [ ex_ask "u1" "PATCH" "/api/v1/workspaces/one/members/u1" (Some (JObj [("role", JStr "MEMBER")]));
    ex_ask "u1" "DELETE" "/api/v1/workspaces/one/members/u1" None ].

Lemma ex_no_empty rs : Forall (fun r => r_env r = ex_env) rs -> no_empty_uuid rs.
Proof. intros Hr. eapply Forall_impl; [exact Hr|]. by intros r ->. Qed.
Ltac one_row := intros; repeat match goal with
  | H : _ ∈ _ :: _ |- _ => apply elem_of_cons in H as [->|H]
  | H : _ ∈ [] |- _ => by apply elem_of_nil in H
  end.
Lemma ex_wf : wf ex_db.
Proof.
  constructor; cbn; [| |one_row; done|intros a b Ha; one_row| | | | |one_row| |one_row].
  - constructor; cbn; repeat (constructor; [set_solver|]); constructor.
  - one_row. exists ex_project. split; [set_solver|done].
  - intros a b Ha Hb; one_row; cbn; done.
  - intros a b Ha Hb; one_row; cbn; done.
  - intros a b Ha Hb; one_row.
  - intros a b Ha Hb; one_row; cbn; done.
  - unfold prices, price_ok. cbn. rewrite !Forall_cons. split_and!; done || lia.
  - one_row; done.
Qed.

Example ex_served :
  map (fun r => (serve ex_get ex_stat (r_env r) (r_rq r) (r_method r) (r_path r) ex_world).2) ex_attacks
    = [404; 404; 404; 404] /\
  map (fun r => (serve ex_get ex_stat (r_env r) (r_rq r) (r_method r) (r_path r) ex_world).2) ex_abdication
    = [400; 400].
Proof. vm_compute. done. Qed.
(** u2's requests without an invitation come from outside w1. *)
Lemma ex_outsider method path body :
  find_call method path ≫= call_token = None ->
  outsider ex_env (ex_request "u2" body) (request_token (ex_ask "u2" method path body)) "w1" ex_db.
Proof.
  intros Hno. split.
  - intros user uid [Ha Hu] (m & Hm & Hmu & Hmw & _).
    specialize (Ha ex_world). vm_compute in Ha. injection Ha as <-. cbn in Hu. injection Hu as <-.
    cbn in Hm. one_row; done.
  - intros i token _ Ht. unfold request_token in Ht. cbn in Ht. congruence.
Qed.
