(* ===== verification/ApiGuarantees.v ===== *)
(** * What the API guarantees

    The theorems about whole requests and runs of them, each tried on the small
    instance of ApiExample.v. *)

From S2P Require Import Prelude JsString JsNum JsDate Json Shared Queue Auth Providers Gateway Persist Export Zod ApiDb ApiAuth.
From S2P Require Import ApiKeys ApiMembers ApiOrg ApiPricing ApiReports ApiServer ApiRules ApiSteps ApiRefine ApiEffects ApiSafety.
From S2P Require Import ApiExample.

Section runs.
Context (get : UpstreamRequest -> option Z) (stat : string -> bool).

(** C9: Every request, whatever route it takes and wherever on its way it is
    refused or fails, moves the tables along the permitted transitions only,
    and keeps primary keys unique: sessions only for the account the request
    registers, for one whose password its body states, or in place of the live
    session whose token it presents; the rest for the roles [api_step] names
    (teams may be patched by their leads too). *)
Theorem requests_refine (E : ApiEnv) (rq : ApiRequest) method path (w : World) :
  e_uuid E "" = None -> keys_ok (db w) ->
  let w' := (serve get stat E rq method path w).1 in
  api_steps E rq (find_call method path ≫= call_token) (db w) (db w') /\ keys_ok (db w').
Proof.
  intros Hempty Hkeys w'. pose proof (serve_steps get stat E rq method path w Hempty Hkeys) as Hs.
  split; [exact Hs|]. fold w' in Hs. revert Hkeys. induction Hs as [|d1 d2 d3 H12 _ IH]; [done|].
  intros Hk. by eapply IH, api_step_keys.
Qed.

(** Any run of requests keeps the tables well formed: unique keys, one
    session per token, one membership per user and workspace, one key per hash, one default credential
    and one price override per target, keys in projects and projects in teams of
    their own workspace, override prices inside DECIMAL(12,6), and no invitation
    that makes an owner. *)
Theorem requests_keep_wf (w : World) (rs : list Request) :
  no_empty_uuid rs -> wf (db w) -> wf (db (serves get stat w rs)).
Proof. intros Hrs Hwf. by apply (run_keeps get stat (fun _ => True)). Qed.

(** Ownership is fixed: over any run of requests a workspace with an owner
    keeps one, nobody becomes owner of a workspace that exists, and a sole owner
    stays the sole owner. *)
Theorem ownership_is_fixed (w : World) (rs : list Request) ws :
  no_empty_uuid rs -> wf (db w) -> has w_id ws (workspaces (db w)) = true -> (1 <= owner_count ws (db w))%nat ->
  let d := db w in let d' := db (serves get stat w rs) in
  (1 <= owner_count ws d')%nat /\
  (forall m, m ∈ members d' -> is_owner ws m = true -> m ∈ members d) /\
  (owner_count ws d = 1%nat -> List.filter (is_owner ws) (members d') = List.filter (is_owner ws) (members d)).
Proof.
  intros Hrs Hwf Hws Hown d d'.
  set (I x := has w_id ws (workspaces x) = true /\ (1 <= owner_count ws x)%nat /\
              forall m, m ∈ members x -> is_owner ws m = true -> m ∈ members d).
  assert (wf d' /\ I d') as (Hwf' & _ & Hone & Hsub).
  { apply run_keeps; [done| |done|by split_and!]. intros E rq tok x y Hs Hx (H1 & H2 & H3). split_and!.
    - by eapply api_step_has_workspace.
    - by eapply api_step_owner.
    - intros m Hm Ho. pose proof Ho as [Hw%String.eqb_eq Hr%bool_decide_eq_true]%andb_true_iff.
      apply H3; [|done]. by eapply api_step_new_owner. }
  split_and!; [done|done|]. intros Hsole. unfold owner_count in *.
  destruct (List.filter (is_owner ws) (members d)) as [|o [|]] eqn:Ed; try discriminate Hsole.
  assert (forall m, m ∈ List.filter (is_owner ws) (members d') -> m = o) as Hall.
  { intros m [Hm Ho]%in_filter. assert (m ∈ [o]) as Hin; [|by apply list_elem_of_singleton in Hin].
    rewrite <- Ed. apply in_filter. auto. }
  pose proof (NoDup_filter_map m_id (is_owner ws) _ (ko_members _ (wf_keys _ Hwf'))) as Hnd.
  destruct (List.filter (is_owner ws) (members d')) as [|a [|b l]]; [cbn in Hone; lia| |].
  - f_equal. apply Hall. set_solver.
  - exfalso. assert (a = o /\ b = o) as [-> ->] by (split; apply Hall; set_solver).
    cbn in Hnd. apply NoDup_cons in Hnd as [Hn _]. set_solver.
Qed.

(** Workspaces are isolated: over any run of requests whose callers are not
    members of a workspace and hold no token of an invitation to it, no row of
    that workspace is added, changed or removed. *)
Theorem workspaces_are_isolated (w : World) (rs : list Request) ws :
  no_empty_uuid rs -> wf (db w) -> has w_id ws (workspaces (db w)) = true ->
  Forall (fun r => outsider (r_env r) (r_rq r) (request_token r) ws (db w)) rs ->
  workspace_rows ws (db (serves get stat w rs)) = workspace_rows ws (db w).
Proof.
  intros Hrs Hwf Hws Hout.
  set (I d := has w_id ws (workspaces d) = true /\ workspace_rows ws d = workspace_rows ws (db w)).
  assert (forall v, wf (db v) -> I (db v) -> workspace_rows ws (db (serves get stat v rs)) = workspace_rows ws (db w))
    as Hgen; [|by apply Hgen]. clear Hwf Hws.
  revert Hrs. induction Hout as [|r rs Ho Hout IH]; intros Hrs v Hv [HI1 HI2]; [done|].
  apply Forall_cons in Hrs as [Hr Hrs].
  destruct (request_keeps get stat I r v Hr) as [Hv' HI']; [|done|done|by apply IH].
  intros d d' Hs Hd [Hw Hrows]. split; [by eapply api_step_has_workspace|]. rewrite <- Hrows.
  eapply api_step_isolated; [done..|]. by eapply outsider_rows.
Qed.
End runs.

Lemma requests_refine_witness :
  let w' := (serve ex_get ex_stat ex_env (ex_request "u1" None) "POST" "/api/v1/workspaces/one/keys/k1/revoke"
               ex_world).1 in
  map k_status (virtual_keys (db w')) = [KEY_REVOKED] /\
  api_steps ex_env (ex_request "u1" None) None ex_db (db w') /\ keys_ok (db w').
Proof.
  cbv zeta. split; [vm_compute; reflexivity|].
  exact (requests_refine ex_get ex_stat ex_env (ex_request "u1" None) "POST" "/api/v1/workspaces/one/keys/k1/revoke"
           ex_world eq_refl (wf_keys _ ex_wf)).
Defined.
Lemma requests_keep_wf_witness : wf (db (serves ex_get ex_stat ex_world (ex_attacks ++ ex_abdication))).
Proof. exact (requests_keep_wf ex_get ex_stat ex_world _ (ex_no_empty _ ltac:(repeat constructor)) ex_wf). Defined.
Lemma ownership_is_fixed_witness :
  List.filter (is_owner "w1") (members (db (serves ex_get ex_stat ex_world ex_abdication))) = [ex_owner "m1" "w1" "u1"].
Proof.
  destruct (ownership_is_fixed ex_get ex_stat ex_world ex_abdication "w1") as (_ & _ & Hsole).
  - apply ex_no_empty. repeat constructor.
  - exact ex_wf.
  - reflexivity.
  - apply le_n.
  - exact (Hsole eq_refl).
Defined.
Lemma workspaces_are_isolated_witness :
  workspace_rows "w1" (db (serves ex_get ex_stat ex_world ex_attacks)) = workspace_rows "w1" ex_db.
Proof.
  apply (workspaces_are_isolated ex_get ex_stat ex_world ex_attacks "w1").
  - apply ex_no_empty. repeat constructor.
  - exact ex_wf.
  - reflexivity.
  - repeat (constructor; [by apply ex_outsider|]). constructor.
Defined.
