(* ===== verification/ApiGateway.v ===== *)
(** * From the API's tables to the gateway

    The gateway reads the tables the API writes: [key_tables] are the rows of
    the two SELECTs of stores/db.ts over them.  A key the API issues is admitted
    by the gateway with what it was issued for; one it revoked is refused. *)

From S2P Require Import Prelude JsString JsNum JsDate Json Shared Queue Auth Providers Gateway Persist Stores Export Zod.
From S2P Require Import ApiDb ApiAuth ApiKeys ApiMembers ApiOrg ApiPricing ApiReports ApiServer ApiRules ApiSteps ApiRefine.
From S2P Require Import ApiEffects ApiSafety ApiExample.
From Stdlib Require Import Ascii.

(** The row node-pg hands over: the enum array as its literal, the text arrays parsed. *)
Definition vk_row (k : VirtualKey) : VkRow :=
  mkVkRow (k_id k) (k_keyHash k) (k_workspaceId k) (k_projectId k) (k_userId k) (k_status k) (k_expiresAt k)
    (PgText (pg_literal (fun _ => false) (map provider_text (k_providerAllowlist k))))
    (PgArray (k_credentialAllowlist k)) (PgArray (k_modelAllowlist k)) (k_rpmLimit k).
Definition project_row (p : Project) : ProjectRow := mkProjectRow (p_id p) (p_teamId p).
Definition key_tables (d : ApiDb) : KeyTables :=
  mkKeyTables (map vk_row (virtual_keys d)) (map project_row (projects d)).
Definition key_ctx (p : Project) (k : VirtualKey) : ResolvedKeyContext :=
  mkCtx (k_id k) (k_workspaceId k) (k_projectId k) (if_truthy (p_teamId p)) (k_userId k) (k_status k) (k_expiresAt k)
    (k_providerAllowlist k) (k_credentialAllowlist k) (k_modelAllowlist k) (k_rpmLimit k).

Lemma provider_words l : Forall pg_word (map provider_text l).
Proof. apply List.Forall_map, Forall_forall. intros p _. by destruct p. Qed.
Lemma provider_texts l : omap provider_of_text (map provider_text l) = l.
Proof. induction l as [|p l IH]; [done|]. cbn -[provider_of_text]. by rewrite provider_of_text_of, IH. Qed.
Lemma filter_one {A} (q : A -> bool) l x :
  NoDup l -> x ∈ l -> q x = true -> (forall y, y ∈ l -> q y = true -> y = x) -> List.filter q l = [x].
Proof.
  induction l as [|a l IH]; [by intros _ ?%elem_of_nil|]. intros [Ha Hnd]%NoDup_cons Hx Hq Hall. cbn [List.filter].
  apply elem_of_cons in Hx as [->|Hx].
  - rewrite Hq. f_equal. apply filter_none. intros y Hy. destruct (q y) eqn:E; [|done].
    exfalso. apply Ha. rewrite <- (Hall y); [done|set_solver|done].
  - destruct (q a) eqn:E; [|apply IH; [done..|set_solver]].
    exfalso. apply Ha. rewrite (Hall a); [done|set_solver|done].
Qed.
(** The gateway's SELECT finds the row of a hash, joined with its project. *)
Lemma resolve_row d k :
  wf d -> k ∈ virtual_keys d -> exists p, p ∈ projects d /\ p_id p = k_projectId k /\
    PgKeyStore_resolve (key_tables d) (k_keyHash k) = Some (key_ctx p k).
Proof.
  intros Hwf Hk. destruct (wf_key_project d Hwf k Hk) as (p & Hp & Hid & _). exists p. split_and!; [done..|].
  destruct (wf_keys d Hwf). unfold PgKeyStore_resolve, key_tables. cbn [t_virtual_key t_project].
  rewrite (filter_one _ _ (vk_row k)).
  - cbn [mbind list_bind]. rewrite app_nil_r. cbn [vr_projectId vk_row]. rewrite (filter_one _ _ (project_row p)).
    + cbn -[parsePgArray provider_of_text omap pg_literal if_truthy]. unfold key_ctx. f_equal. f_equal; [].
      rewrite pg_array_roundtrip by apply provider_words. apply provider_texts.
    + apply (NoDup_fmap_1 pr_id). rewrite <- list_fmap_compose. done.
    + by apply list_elem_of_fmap_2.
    + by apply String.eqb_eq.
    + intros y (q & -> & Hq)%list_elem_of_fmap Hy%String.eqb_eq. f_equal.
      apply (NoDup_map_inj p_id (projects d)); [done..|]. cbn in Hy. congruence.
  - apply (NoDup_fmap_1 vr_id). rewrite <- list_fmap_compose. done.
  - by apply list_elem_of_fmap_2.
  - apply String.eqb_refl.
  - intros y (x & -> & Hx)%list_elem_of_fmap Hy. f_equal. by apply (wf_hashes d Hwf).
Qed.

(** ** What a success of a handler says *)
Lemma minted P blocks m :
  mintVirtualKey P blocks = Some m ->
  mt_hash m = sha256Hex P (mt_token m) /\ starts_with TOKEN_PREFIX_virtualKey (mt_token m) = true.
Proof.
  unfold mintVirtualKey, mint. destruct (randomBase62 24 blocks) as [r|]; [|done]. intros [= <-]. cbn [mt_hash mt_token].
  split; [done|]. exact (starts_with_app TOKEN_PREFIX_virtualKey r).
Qed.
(** A key row goes in as issued. *)
Lemma issueKey_spec E rq ws w w' view token :
  issueKey E rq ws w = (w', Ok (view, token)) ->
  exists k, db w' = set_virtual_keys (virtual_keys (db w) ++ [k]) (db w) /\ view = keySelect k /\
    k_keyHash k = sha256Hex (e_P E) token /\ k_status k = KEY_ACTIVE /\
    starts_with TOKEN_PREFIX_virtualKey token = true.
Proof.
  apply (safe_ok (fun _ => True) (issueKey E rq ws) w w' (view, token) (fun r w' => exists k,
    db w' = set_virtual_keys (virtual_keys (db w) ++ [k]) (db w) /\ r.1 = keySelect k /\
    k_keyHash k = sha256Hex (e_P E) r.2 /\ k_status k = KEY_ACTIVE /\
    starts_with TOKEN_PREFIX_virtualKey r.2 = true)).
  unfold issueKey. run. apply safe_pins; [done|]. intros ids ps _ _. run.
  match goal with H : mintVirtualKey _ _ = Some _ |- _ => apply minted in H as [Hh Ht] end.
  eexists. by split_and!.
Qed.
Lemma safe_own_key_found S E user ctx keyId verb w (K : VirtualKey -> World -> Prop) :
  S (db w) ->
  (forall k, k ∈ virtual_keys (db w) -> e_uuid E keyId = Some (k_id k) -> K k w) ->
  safe S (own_key E user ctx keyId verb) w K.
Proof. intros Hs HK. unfold own_key. run; try exact Hs. look. apply HK; [done|congruence]. Qed.
Definition invalidation (E : ApiEnv) (hash message : string) : list Message :=
  if e_redis_up E then [RedisDel ("vk:" +:+ hash); RedisPublish (invalidateVk hash) message] else [].
Lemma revokeKey_spec E rq ws keyId w w' u :
  revokeKey E rq ws keyId w = (w', Ok u) ->
  exists k, k ∈ virtual_keys (db w) /\ e_uuid E keyId = Some (k_id k) /\
    db w' = set_virtual_keys (update_rows (with_key (k_id k)) revoke_key (virtual_keys (db w))) (db w) /\
    outbox w' = outbox w ++ invalidation E (k_keyHash k) "revoked".
Proof.
  apply (safe_ok (fun _ => True) (revokeKey E rq ws keyId) w w' u (fun _ w' => exists k,
    k ∈ virtual_keys (db w) /\ e_uuid E keyId = Some (k_id k) /\
    db w' = set_virtual_keys (update_rows (with_key (k_id k)) revoke_key (virtual_keys (db w))) (db w) /\
    outbox w' = outbox w ++ invalidation E (k_keyHash k) "revoked")).
  unfold revokeKey. run. apply safe_own_key_found; [done|]. intros k Hk Hid. run. look.
  unfold propagate, invalidation. run; exists k; cbn; rewrite <- ?app_assoc, ?app_nil_r; split_and!; try done;
    match goal with F : k_id ?r = k_id k |- _ => by rewrite F end.
Qed.

(** The client's header. *)
Definition bearer (token : string) : headers := {[ "authorization" := HOne ("Bearer " +:+ token) ]}.
Lemma extract_bearer token : starts_with TOKEN_PREFIX_virtualKey token = true -> extractKey (bearer token) = Some token.
Proof.
  intros [t ->]%starts_with_spec. unfold extractKey, bearer. rewrite lookup_singleton_eq.
  by rewrite <- string_app_assoc, starts_with_app.
Qed.
(** The gateway on the tables: its key store is the SELECT over them. *)
Definition reads_tables (deps : GatewayDeps) (d : ApiDb) : Prop :=
  forall h, keyStore_resolve deps h = Ok (PgKeyStore_resolve (key_tables d) h).

(** C11: An issued key works until it is revoked: after a successful issue the
    gateway, when it reads the tables as the issue left them and the key has not
    expired, admits the returned token as the key of the answer, with its
    project, allowlists, limit and expiry; when it reads the tables as a
    successful revocation left them, it refuses the token.  If Redis answers the
    API, the revocation deletes the cached context and tells every gateway; if
    not, nothing tells them.  How far a gateway that caches lags behind the
    tables is KeyCache.v's subject. *)
Theorem issued_key_works_until_revoked E rq ws w w1 view token E' rq' ws' keyId w2 u deps1 deps2 :
  wf (db w) -> e_uuid E "" = None ->
  issueKey E rq ws w = (w1, Ok (view, token)) ->
  revokeKey E' rq' ws' keyId w1 = (w2, Ok u) -> e_uuid E' keyId = Some (kv_id view) ->
  reads_tables deps1 (db w1) -> reads_tables deps2 (db w2) ->
  (exists p, p ∈ projects (db w) /\ p_id p = kv_projectId view /\
     let ctx := mkCtx (kv_id view) (p_workspaceId p) (kv_projectId view) (if_truthy (p_teamId p)) (kv_userId view)
                  KEY_ACTIVE (kv_expiresAt view) (kv_providerAllowlist view) (kv_credentialAllowlist view)
                  (kv_modelAllowlist view) (kv_rpmLimit view) in
     forall now, (forall t, kv_expiresAt view = Some t -> now <= t) ->
       authorizeKey deps1 (sha256Hex (e_P E)) now (bearer token) = Ok (inl ctx)) /\
  (forall now, authorizeKey deps2 (sha256Hex (e_P E)) now (bearer token) =
     Ok (inr (mkKeyError 401 "key_revoked" "This virtual key has been revoked"))) /\
  outbox w2 = outbox w1 ++
    (let hash := sha256Hex (e_P E) token in
     if e_redis_up E' then [RedisDel ("vk:" +:+ hash); RedisPublish (invalidateVk hash) "revoked"] else []).
Proof.
  intros Hwf Hempty Hissue Hrevoke Hid H1 H2.
  pose proof (issueKey_refines E rq None ws Hempty w) as Hs1. rewrite Hissue in Hs1.
  pose proof (revokeKey_refines E' rq' None ws' keyId w1) as Hs2. rewrite Hrevoke in Hs2. cbn [fst] in Hs1, Hs2.
  assert (wf (db w1)) as Hwf1 by by eapply api_steps_wf.
  assert (wf (db w2)) as Hwf2 by by eapply api_steps_wf.
  destruct (issueKey_spec _ _ _ _ _ _ _ Hissue) as (k & Hd1 & -> & Hh & Hst & Hpre).
  destruct (revokeKey_spec _ _ _ _ _ _ _ Hrevoke) as (k' & Hk' & Hid' & Hd2 & Hout).
  assert (k ∈ virtual_keys (db w1)) as Hk by (rewrite Hd1; cbn; set_solver).
  assert (k' = k) as ->.
  { apply (NoDup_map_inj k_id (virtual_keys (db w1))); [apply wf_keys, Hwf1|done|done|]. cbn in Hid. congruence. }
  rewrite <- Hh. unfold authorizeKey. rewrite (extract_bearer token Hpre), <- Hh, H1, H2. split_and!; [| |done].
  - destruct (wf_key_project _ Hwf1 k Hk) as (p & Hp & Hpid & Hpw). exists p.
    destruct (resolve_row (db w1) k Hwf1 Hk) as (q & Hq & Hqid & Hres).
    assert (q = p) as ->.
    { apply (NoDup_map_inj p_id (projects (db w1))); [apply wf_keys, Hwf1|done|done|congruence]. }
    split_and!; [by rewrite Hd1 in Hp|done|]. intros now Hnow. rewrite Hres. cbn. rewrite Hst. cbn.
    unfold key_ctx. rewrite Hpw, Hst.
    destruct (k_expiresAt k) as [t|] eqn:Et; [|done]. rewrite (proj2 (Z.ltb_ge t now)); [done|]. by apply Hnow.
  - intros now. assert (revoke_key k ∈ virtual_keys (db w2)) as Hk2.
    { rewrite Hd2. apply in_update_rows. exists k. split; [done|]. unfold with_key. cbn. by rewrite String.eqb_refl. }
    destruct (resolve_row (db w2) _ Hwf2 Hk2) as (q & _ & _ & Hres). cbn in Hres. rewrite Hres. done.
Qed.

Definition ex_deps (d : ApiDb) : GatewayDeps :=
  mkDeps (fun h => Ok (PgKeyStore_resolve (key_tables d) h)) (fun _ _ _ => Ok None) (fun _ _ _ => None)
    (fun _ _ => mkDecision true 0).
Definition ex_issue : ApiRequest :=
  ex_request "u1" (Some (JObj [("projectId", JStr "p1"); ("name", JStr "ci"); ("rpmLimit", JNum (NInt 60))])).
Lemma issued_key_works_until_revoked_witness :
  match issueKey ex_env ex_issue "one" ex_world with
  | (w1, Ok (view, token)) =>
      authorizeKey (ex_deps (db w1)) (sha256Hex toy_primitives) 5 (bearer token) =
        Ok (inl (mkCtx (kv_id view) "w1" "p1" None "u1" KEY_ACTIVE None [] [] [] (Some 60))) /\
      let w2 := (revokeKey ex_env (ex_request "u1" None) "one" (kv_id view) w1).1 in
      authorizeKey (ex_deps (db w2)) (sha256Hex toy_primitives) 5 (bearer token) =
        Ok (inr (mkKeyError 401 "key_revoked" "This virtual key has been revoked")) /\
      length (outbox w2) = 2%nat
  | _ => False
  end.
Proof.
  destruct (issueKey ex_env ex_issue "one" ex_world) as [w1 [[view token]|e]] eqn:Hissue;
    [|vm_compute in Hissue; discriminate Hissue].
  destruct (revokeKey ex_env (ex_request "u1" None) "one" (kv_id view) w1) as [w2 [u|e]] eqn:Hrevoke;
    [|vm_compute in Hissue; injection Hissue as <- <- <-; vm_compute in Hrevoke; discriminate Hrevoke].
  destruct (issued_key_works_until_revoked ex_env ex_issue "one" ex_world w1 view token ex_env (ex_request "u1" None)
              "one" (kv_id view) w2 u (ex_deps (db w1)) (ex_deps (db w2)) ex_wf eq_refl Hissue Hrevoke)
    as ((p & Hp & Hpid & Hok) & Hno & Hout).
  - vm_compute in Hissue. injection Hissue as <- <- <-. reflexivity.
  - intros h. reflexivity.
  - intros h. reflexivity.
  - cbn [fst]. split; [|split; [exact (Hno 5)|]].
    + vm_compute in Hissue. injection Hissue as <- <- <-. cbn in Hp. apply list_elem_of_singleton in Hp as ->.
      cbv zeta in Hok. apply Hok. done.
    + cbn. rewrite Hout. vm_compute in Hissue. injection Hissue as <- <- <-. reflexivity.
Defined.

(** ** Credentials *)
Definition cred_row (c : Credential) : CredRow :=
  mkCredRow (c_id c) (c_workspaceId c) (c_provider c) (c_active c) (c_isDefault c) (c_createdAt c)
    (c_encryptedSecret c) (c_baseUrl c).
(** The sealed form of a secret under the API's ring. *)
Definition sealed_by (E : ApiEnv) (secret sealed : option string) : Prop :=
  match if_truthy secret with
  | None => sealed = None
  | Some s => exists r envelope, ring E = Some r /\ sealed = Some envelope /\
                encryptSecret (e_P E) (e_iv E) s r = Ok envelope
  end.
Lemma safe_seal_sealed S E secret w (K : option string * option string -> World -> Prop) :
  S (db w) -> (forall sealed last4, sealed_by E secret sealed -> K (sealed, last4) w) -> safe S (seal E secret) w K.
Proof.
  intros Hs HK. unfold seal, sealed_by in *. destruct (if_truthy secret) as [s|].
  - destruct (ring E) as [r|]; [|exact Hs]. run; try exact Hs. apply HK. eauto.
  - by apply HK.
Qed.
Lemma createCredential_spec E rq ws w w' view :
  createCredential E rq ws w = (w', Ok view) ->
  exists body c b, credSchema E (rq_json rq) = Some body /\ view = credSelect c /\
    db w' = set_credentials (undefaulted b (c_workspaceId c) (c_provider c) (credentials (db w)) ++ [c]) (db w) /\
    c_provider c = cb_provider body /\ c_baseUrl c = cb_baseUrl body /\ c_active c = true /\
    sealed_by E (cb_secret body) (c_encryptedSecret c).
Proof.
  apply (safe_ok (fun _ => True) (createCredential E rq ws) w w' view (fun view w' => exists body c b,
    credSchema E (rq_json rq) = Some body /\ view = credSelect c /\
    db w' = set_credentials (undefaulted b (c_workspaceId c) (c_provider c) (credentials (db w)) ++ [c]) (db w) /\
    c_provider c = cb_provider body /\ c_baseUrl c = cb_baseUrl body /\ c_active c = true /\
    sealed_by E (cb_secret body) (c_encryptedSecret c))).
  unfold createCredential. run. apply safe_undefault. intros w1 Hw1. run.
  apply safe_seal_sealed; [done|]. intros sealed last4 Hsealed. run.
  eexists a, (mkCredential _ _ _ _ _ _ _ _ _ _ _), (cb_isDefault a). split_and!; try done. cbn. by rewrite Hw1.
Qed.
(** What was sealed opens again with any ring that still has the API's keys. *)
Lemma sealed_opens E `{!PrimitivesOk (e_P E)} s r envelope ring' :
  encryptSecret (e_P E) (e_iv E) s r = Ok envelope -> String.length (e_iv E) = IV_LENGTH ->
  (forall k, is_Some (r !! k) -> 0 <= k < 256) -> r ⊆ ring' -> utf8_decode s = s ->
  decryptSecret (e_P E) envelope ring' = Ok s.
Proof.
  unfold encryptSecret. intros He Hiv Hids Hsub Htext.
  destruct (max_key r) as [keyId|]; [|done]. destruct (r !! keyId) as [key|] eqn:Hkey; [|cbn in He; by rewrite Hkey in He].
  cbn in He. rewrite Hkey in He. cbn in He. rewrite (surjective_pairing (gcm_encrypt _ key (e_iv E) s)) in He.
  injection He as <-. rewrite (decrypt_envelope (e_P E) ring' keyId key); [by rewrite Htext| | |done].
  - by eapply lookup_weaken.
  - apply Hids. eauto.
Qed.
(** The gateway picks a credential named by the key, or the default one. *)
Lemma getDefault_row P d c ring' ids secret :
  wf d -> c ∈ credentials d -> c_active c = true ->
  ids = [c_id c] \/ ids = [] /\ c_isDefault c = true ->
  match c_encryptedSecret c with
  | None => secret = None
  | Some envelope => exists s, secret = Some s /\ decryptSecret P envelope ring' = Ok s
  end ->
  PgCredentialStore_getDefault P (map cred_row (credentials d)) (Some ring') (c_workspaceId c) (c_provider c) ids =
    Ok (Some (mkSecret (c_id c) secret (if_truthy (c_baseUrl c)))).
Proof.
  intros Hwf Hc Hact Hids Hsec. unfold PgCredentialStore_getDefault.
  set (q := cred_matches (c_workspaceId c) (c_provider c) ids).
  assert (cred_row c ∈ List.filter q (map cred_row (credentials d))) as Hin.
  { apply in_filter. split; [by apply list_elem_of_fmap_2|]. unfold q, cred_matches, cred_row, provider_eqb. cbn.
    rewrite String.eqb_refl, bool_decide_eq_true_2, Hact by done. cbn.
    destruct Hids as [->|[-> _]]; [|done]. apply orb_true_iff. right. apply bool_decide_eq_true_2. set_solver. }
  pose proof (first_row_spec (List.filter q (map cred_row (credentials d)))) as Hfirst.
  destruct (first_row _) as [best|]; [|rewrite Hfirst in Hin; by apply elem_of_nil in Hin].
  destruct Hfirst as [[(b & -> & Hb)%list_elem_of_fmap Hq]%in_filter Hbest].
  assert (b = c) as ->.
  { destruct (wf_keys d Hwf). unfold q, cred_matches in Hq. cbn in Hq. look.
    destruct Hids as [->|[-> Hdef]].
    - apply (NoDup_map_inj c_id (credentials d)); [done..|].
      match goal with F : _ || _ = true |- _ => apply orb_true_iff in F as [F|F] end; look; set_solver.
    - apply (wf_defaults d Hwf); [done..|]. specialize (Hbest _ Hin). unfold cred_before in Hbest. cbn in Hbest.
      rewrite Hdef in Hbest. destruct (c_isDefault b) eqn:Eb; [|done]. cbn. rewrite Eb, Hdef. cbn.
      unfold same_text, provider_eqb. rewrite (bool_decide_eq_true_2 (c_provider b = c_provider c)) by congruence.
      rewrite andb_true_r. by apply String.eqb_eq. }
  cbn [cr_encryptedSecret cr_id cr_baseUrl cred_row]. destruct (c_encryptedSecret c) as [envelope|].
  - destruct Hsec as (s & -> & Hs). cbn. by rewrite Hs.
  - by rewrite Hsec.
Qed.

(** A stored provider credential reaches the upstream call unchanged: after
    a successful creation the gateway, reading the same tables with a key ring
    that still has the API's keys, finds for a key pinned to it, and for any key
    of the workspace when it is the default, exactly the secret and base URL of
    the request, and the former default no longer stands in its way. *)
Theorem stored_credential_reaches_gateway E `{!PrimitivesOk (e_P E)} rq ws w w' view ring' ids :
  createCredential E rq ws w = (w', Ok view) -> wf (db w) -> String.length (e_iv E) = IV_LENGTH ->
  (forall r, ring E = Some r -> r ⊆ ring' /\ forall k, is_Some (r !! k) -> 0 <= k < 256) ->
  ids = [cv_id view] \/ ids = [] /\ cv_isDefault view = true ->
  exists body c, credSchema E (rq_json rq) = Some body /\ c ∈ credentials (db w') /\ c_id c = cv_id view /\
    ((forall s, cb_secret body = Some s -> utf8_decode s = s) ->
     PgCredentialStore_getDefault (e_P E) (map cred_row (credentials (db w'))) (Some ring') (c_workspaceId c)
       (cb_provider body) ids =
     Ok (Some (mkSecret (cv_id view) (if_truthy (cb_secret body)) (if_truthy (cb_baseUrl body))))).
Proof.
  intros Hcreate Hwf Hiv Hring Hids.
  pose proof (createCredential_refines E rq None ws w) as Hs. rewrite Hcreate in Hs. cbn [fst] in Hs.
  assert (wf (db w')) as Hwf' by by eapply api_steps_wf.
  destruct (createCredential_spec _ _ _ _ _ _ Hcreate) as (body & c & b & Hb & -> & Hd & Hp & Hu & Ha & Hsealed).
  assert (c ∈ credentials (db w')) as Hc by (rewrite Hd; cbn; apply in_snoc; by right).
  exists body, c. split_and!; [done..|]. intros Htext. rewrite <- Hp, <- Hu. apply getDefault_row; [done..|].
  unfold sealed_by in Hsealed. destruct (if_truthy (cb_secret body)) as [s|] eqn:Es; [|by rewrite Hsealed].
  destruct Hsealed as (r & envelope & Hr & -> & He). exists s. split; [done|].
  destruct (Hring r Hr) as [Hsub Hrange]. eapply sealed_opens; [done..|]. apply Htext.
  unfold if_truthy in Es. destruct (cb_secret body) as [t|]; [|done]. by case_match; simplify_eq.
Qed.

Definition ex_credential : ApiRequest :=
  ex_request "u1" (Some (JObj [("provider", JStr "OPENAI"); ("name", JStr "main"); ("secret", JStr "sk-123456")])).
Lemma stored_credential_reaches_gateway_witness :
  match createCredential ex_env ex_credential "one" ex_world with
  | (w', Ok view) =>
      PgCredentialStore_getDefault toy_primitives (map cred_row (credentials (db w'))) (Some {[ 0 := "master" ]})
        "w1" OPENAI [] = Ok (Some (mkSecret (cv_id view) (Some "sk-123456") None))
  | _ => False
  end.
Proof.
  destruct (createCredential ex_env ex_credential "one" ex_world) as [w' [view|e]] eqn:Hc;
    [|vm_compute in Hc; discriminate Hc].
  destruct (stored_credential_reaches_gateway ex_env (PrimitivesOk0 := toy_ok) ex_credential "one" ex_world w' view
              {[ 0 := "master" ]} [] Hc ex_wf eq_refl) as (body & c & Hb & Hin & Hid & Hget).
  - intros r [= <-]. split; [done|]. intros k [v [<- _]%lookup_singleton_Some]. lia.
  - right. split; [done|]. vm_compute in Hc. by injection Hc as <- <-.
  - vm_compute in Hb. injection Hb as <-. vm_compute in Hc. injection Hc as <- <-.
    cbn in Hin. apply list_elem_of_singleton in Hin as ->. apply Hget. by intros s [= <-].
Defined.

(** ** What does not stop a key *)
(** Archiving its project: docs/07-rest-api.md promises that it revokes the keys. *)
Lemma archived_project_key_works :
  let r := ex_ask "u1" "PATCH" "/api/v1/workspaces/one/projects/p1" (Some (JObj [("status", JStr "ARCHIVED")])) in
  let d := db (serve_one ex_get ex_stat ex_world r) in
  map p_active (projects d) = [false] /\
  ctx_status <$> PgKeyStore_resolve (key_tables d) (k_keyHash ex_key) = Some KEY_ACTIVE.
Proof. vm_compute. split; reflexivity. Qed.
(** Removing its owner from the workspace. *)
Lemma removed_member_key_works :
  let m := mkMember "m3" "w1" "u3" MEMBER 0 in
  let k := mkVirtualKey "k3" "w1" "p1" "u3" "key" "hash3" "aaaa" [] [] [] None None KEY_ACTIVE None 0 in
  let d0 := set_virtual_keys [k] (set_members (members ex_db ++ [m]) (set_users (users ex_db ++ [ex_user "u3"]) ex_db)) in
  let r := ex_ask "u1" "DELETE" "/api/v1/workspaces/one/members/u3" None in
  let d := db (serve_one ex_get ex_stat (mkWorld d0 []) r) in
  map m_userId (members d) = ["u1"; "u2"] /\
  ctx_status <$> PgKeyStore_resolve (key_tables d) "hash3" = Some KEY_ACTIVE.
Proof. vm_compute. split; reflexivity. Qed.
