(* ===== verification/ApiMoney.v ===== *)
(** * A price on its way from the admin to the ledger

    The text an admin sends becomes a DECIMAL(12,6) column; the gateway reads
    the column's text and the admin is shown another.  All of them are the same
    number of micro-dollars. *)

From S2P Require Import Prelude JsString JsNum JsDate Json Shared Queue Auth Providers Pricing Persist Export Zod ApiDb.
From S2P Require Import ApiAuth ApiKeys ApiMembers ApiOrg ApiPricing ApiReports ApiServer ApiRules ApiSteps ApiRefine.
From S2P Require Import ApiEffects ApiSafety ApiExample.
From Stdlib Require Import Ascii.

Lemma repeat_char_snoc c n : repeat_char c n +:+ String c "" = repeat_char c (S n).
Proof. induction n as [|n IH]; [done|]. cbn in *. by rewrite IH. Qed.
Lemma repeat_char_length' c n : String.length (repeat_char c n) = n.
Proof. induction n as [|n IH]; [done|]. cbn. by rewrite IH. Qed.
Lemma trailing_zeros s : exists n, s = drop_while_end (Ascii.eqb "0") s +:+ repeat_char "0" n.
Proof.
  enough (forall t, exists n, srev t = srev (drop_while (Ascii.eqb "0") t) +:+ repeat_char "0" n) as Ht.
  { destruct (Ht (srev s)) as [n Hn]. rewrite srev_involutive in Hn. by exists n. }
  induction t as [|c t [n IH]]; [by exists O|]. cbn [drop_while]. destruct (Ascii.eqb "0" c) eqn:E.
  - apply Ascii.eqb_eq in E as <-. exists (S n).
    by rewrite srev_cons, IH, string_app_assoc, repeat_char_snoc.
  - exists O. by rewrite string_app_nil_r.
Qed.

Section text.
Context (z : Z) (Hz : price_ok z).
Let whole := dec (z / 10 ^ 6).
Let frac := pad_start (dec (z mod 10 ^ 6)) 6 "0".
Lemma whole_digits : whole <> "" /\ all_digits whole = true /\ digits_val whole = z / 10 ^ 6.
Proof.
  destruct Hz. assert (0 <= z / 10 ^ 6) by (apply Z.div_pos; lia). split_and!.
  - intros Hn. pose proof (dec_length_pos (z / 10 ^ 6)) as Hl. fold whole in Hl. rewrite Hn in Hl. cbn in Hl. lia.
  - by apply dec_digits.
  - by apply digits_val_dec.
Qed.
Lemma frac_digits : all_digits frac = true /\ String.length frac = 6%nat /\ digits_val frac = z mod 10 ^ 6.
Proof.
  pose proof (Z.mod_pos_bound z (10 ^ 6) ltac:(lia)) as Hm. split_and!.
  - apply pad_start_digits, dec_digits. lia.
  - apply pad_start_length, dec_length_le; lia.
  - unfold frac. rewrite digits_val_pad_start. apply digits_val_dec. lia.
Qed.
(** The text of a column reads as its number of micro-dollars. *)
Lemma numeric_text_exact : microUsdPerMtok (numeric_text z) = Ok z.
Proof.
  destruct whole_digits as (? & ? & Hw), frac_digits as (? & Hl & Hf). apply microUsdPerMtok_ok.
  exists whole, frac. rewrite Hw, Hf, Hl. split_and!; try done.
  - right. split; [done|]. intros E. by rewrite E in Hl.
  - pose proof (Z.div_mod z (10 ^ 6)). cbn -[Z.pow Z.div Z.modulo]. lia.
Qed.
(** So does the text the API shows. *)
Lemma decimal_text_exact : microUsdPerMtok (decimal_text z) = Ok z.
Proof.
  destruct whole_digits as (? & ? & Hw), frac_digits as (Hd & Hl & Hf). apply microUsdPerMtok_ok.
  destruct (trailing_zeros frac) as [n Hn]. set (f := drop_while_end (Ascii.eqb "0") frac) in *.
  assert (String.length f + n = 6)%nat as Hlen by (rewrite Hn, length_string_app, repeat_char_length' in Hl; done).
  unfold all_digits in Hd. rewrite Hn, sforall_app in Hd. apply andb_true_iff in Hd as [Hd _].
  rewrite Hn, digits_val_app, digits_val_zeros, repeat_char_length' in Hf.
  exists whole, f. rewrite Hw. split_and!; try done; [lia| |].
  - unfold decimal_text. fold frac f whole. destruct (String.eqb_spec f "") as [->|]; [left|right]; [|done].
    by rewrite string_app_nil_r.
  - replace (6 - Z.of_nat (String.length f)) with (Z.of_nat n) by lia. pose proof (Z.div_mod z (10 ^ 6)). lia.
Qed.
End text.

(** ** From the request to the column *)
(** A text the schema lets through is the number it spells. *)
Lemma zprice_exact v s : zprice v = Some s -> microUsdPerMtok s = Ok (Decimal s).
Proof.
  intros [_ Hs]%zrefine_spec. unfold microUsdPerMtok, Decimal. destruct (match_decimal s) as [[w f]|]; [|done].
  apply Nat.leb_le in Hs. by rewrite (proj2 (Nat.ltb_ge 6 _) Hs).
Qed.
Lemma zprice_default_exact v s : zdefault "0" zprice v = Some s -> microUsdPerMtok s = Ok (Decimal s).
Proof. destruct v as [x|]; [apply zprice_exact|]. by intros [= <-]. Qed.
Definition texts (b : OverrideBody) : list string := [ob_input b; ob_output b; ob_cacheRead b; ob_cacheWrite b].
Lemma overrideSchema_exact v body :
  overrideSchema v = Some body -> Forall (fun s => microUsdPerMtok s = Ok (Decimal s)) (texts body).
Proof.
  unfold overrideSchema, zobject. destruct v as [[]|]; try done.
  repeat match goal with |- context [mbind (M := option) _ ?x] => destruct x eqn:?; [|done]; cbn [mbind option_bind] end.
  intros [= <-]. unfold texts. cbn. repeat apply Forall_cons_2; try (by apply Forall_nil_2); first [by eapply zprice_exact | by eapply zprice_default_exact].
Qed.
Lemma createOverride_spec E rq ws w w' view :
  createOverride E rq ws w = (w', Ok view) ->
  exists body o, overrideSchema (rq_json rq) = Some body /\ o ∈ overrides (db w') /\ view = serializeOverride o /\
    prices o = map Decimal (texts body) /\ Forall price_ok (prices o).
Proof.
  apply (safe_ok (fun _ => True) (createOverride E rq ws) w w' view (fun view w' => exists body o,
    overrideSchema (rq_json rq) = Some body /\ o ∈ overrides (db w') /\ view = serializeOverride o /\
    prices o = map Decimal (texts body) /\ Forall price_ok (prices o))).
  unfold createOverride. run. do 4 (apply safe_numeric; [done|]; intros ?; run1). run.
  eexists _, _. split_and!; [eassumption|cbn; apply in_snoc; by right|reflexivity|reflexivity|].
  unfold prices. by rewrite !Forall_cons.
Qed.

(** What was sent, what is stored, what is shown. *)
Definition exact_price (t : string * Z * string) : Prop :=
  let '(sent, stored, shown) := t in
  0 <= stored < 10 ^ 12 /\ microUsdPerMtok sent = Ok stored /\ microUsdPerMtok shown = Ok stored /\
  forall n, 0 <= n -> tokenCostPico (NInt n) (numeric_text stored) = Ok (n * stored).
Lemma exact_price_of s :
  microUsdPerMtok s = Ok (Decimal s) -> price_ok (Decimal s) -> exact_price (s, Decimal s, decimal_text (Decimal s)).
Proof.
  intros Hs Hz. split; [exact Hz|]. split; [exact Hs|]. split; [by apply decimal_text_exact|]. intros n Hn.
  unfold tokenCostPico. rewrite (numeric_text_exact _ Hz). unfold num_is_zero, num_nonneg_int. cbn [num_mant].
  rewrite (proj2 (Z.leb_le 0 n) Hn). by destruct (Z.eqb_spec n 0) as [->|].
Qed.

(** C36: A price override is stored, shown and charged as the number that was
    sent: each of its four prices is the exact micro-dollar value of the text in
    the request, below the column's bound of a million dollars, the text in the
    answer spells the same value, and a request of n tokens is charged n times
    it. *)
Theorem override_price_is_exact E rq ws w w' view :
  createOverride E rq ws w = (w', Ok view) ->
  exists body o, overrideSchema (rq_json rq) = Some body /\ o ∈ overrides (db w') /\ o_id o = ov_id view /\
    Forall exact_price [(ob_input body, o_input o, ov_input view); (ob_output body, o_output o, ov_output view);
                        (ob_cacheRead body, o_cacheRead o, ov_cacheRead view);
                        (ob_cacheWrite body, o_cacheWrite o, ov_cacheWrite view)].
Proof.
  intros (body & o & Hb & Ho & -> & Hp & Hok)%createOverride_spec. exists body, o.
  pose proof (overrideSchema_exact _ _ Hb) as He. unfold prices, texts in Hp. cbn in Hp. injection Hp as Hi Hu Hr Hw.
  unfold prices, texts in *. rewrite !Forall_cons in Hok. rewrite !Forall_cons in He.
  destruct Hok as (? & ? & ? & ? & _), He as (? & ? & ? & ? & _).
  split_and!; [done..|]. cbn. rewrite Hi, Hu, Hr, Hw in *. repeat constructor; by apply exact_price_of.
Qed.

Definition ex_override (input : string) : ApiRequest :=
  ex_request "u1" (Some (JObj [("provider", JStr "OPENAI"); ("modelPattern", JStr "gpt-4o*");
                               ("inputPerMtok", JStr input); ("outputPerMtok", JStr "10")])).
Lemma override_price_is_exact_witness :
  match createOverride ex_env (ex_override "2.5") "one" ex_world with
  | (w', Ok view) => ov_input view = "2.5" /\ exists o, o ∈ overrides (db w') /\ o_input o = 2500000
  | _ => False
  end.
Proof.
  destruct (createOverride ex_env (ex_override "2.5") "one" ex_world) as [w' [view|e]] eqn:Hc;
    [|vm_compute in Hc; discriminate Hc].
  destruct (override_price_is_exact ex_env (ex_override "2.5") "one" ex_world w' view Hc)
    as (body & o & Hb & Ho & _ & Hall).
  split; [vm_compute in Hc; by injection Hc as <- <-|]. exists o. split; [exact Ho|].
  apply Forall_cons in Hall as [(_ & Hs & _) _]. vm_compute in Hb. injection Hb as <-.
  assert (microUsdPerMtok "2.5" = Ok 2500000) as He by (vm_compute; reflexivity).
  change (microUsdPerMtok "2.5" = Ok (o_input o)) in Hs. congruence.
Defined.
(** A price of a million dollars passes the schema and overflows the column: the
    answer is 500. *)
Lemma huge_price_is_500 :
  (serve ex_get ex_stat ex_env (ex_override "1000000") "POST" "/api/v1/workspaces/one/pricing/overrides" ex_world).2 = 500.
Proof. vm_compute. reflexivity. Qed.
