(* ===== verification/Seed.v ===== *)
(** * packages/db/src/seed/index.ts: the seeded price catalog

    The script that fills [model_price], and that a gateway reading the seeded
    table charges what a gateway with the bundled catalog charges. *)

From S2P Require Import Prelude JsString JsNum JsDate Shared Queue Pricing Zod ApiDb ApiPricing ApiMoney.
From Stdlib Require Import Ascii.

(** ** The script *)
(** [new Date("2026-01-01T00:00:00Z")] *)
Definition FROM : Z := 1767225600000.
(** A number in a DECIMAL(12,6) column, as text; a missing one is the column's
    default. *)
Definition seed_text (n : number) : string := numeric_text (Decimal (number_to_string n)).
Definition seed_row (s : PriceSeed) : PriceRow :=
  mkPriceRow "" (ps_provider s) (ps_pattern s) (seed_text (ps_input s)) (seed_text (ps_output s))
    (seed_text (ps_cacheRead s ?? NInt 0)) (seed_text (ps_cacheWrite s ?? NInt 0)) FROM None.
(** @@unique([provider, modelPattern, effectiveFrom]) *)
Definition price_key (r : PriceRow) : Provider * string * Z := (row_provider r, row_pattern r, row_effectiveFrom r).
(** [upsert] with an empty [update]. *)
Definition upsert_price (table : list PriceRow) (s : PriceSeed) : list PriceRow :=
  if bool_decide (price_key (seed_row s) ∈ map price_key table) then table else table ++ [seed_row s].
Definition seed_main (table : list PriceRow) : list PriceRow * nat :=
  fold_left (fun acc price => (upsert_price acc.1 price, S acc.2)) PRICING_SEED (table, O).

(** ** What it leaves *)
Section script.

Definition seed_keys (seeds : list PriceSeed) : list (Provider * string * Z) := map (fun s => price_key (seed_row s)) seeds.
Lemma upsert_price_spec table s :
  exists added, upsert_price table s = table ++ added /\ price_key (seed_row s) ∈ map price_key (table ++ added) /\
    (NoDup (map price_key table) -> NoDup (map price_key (table ++ added))) /\
    (price_key (seed_row s) ∈ map price_key table -> added = []).
Proof.
  unfold upsert_price. case_bool_decide as H.
  - exists []. rewrite app_nil_r. by split_and!.
  - exists [seed_row s]. rewrite map_app. split_and!; [done|set_solver| |done].
    intros Hnd. apply NoDup_app. split_and!; [done| |apply NoDup_singleton].
    intros x Hx ->%list_elem_of_singleton. done.
Qed.
Lemma seed_fold seeds table n :
  let r := fold_left (fun acc price => (upsert_price acc.1 price, S acc.2)) seeds (table, n) in
  exists added, r = (table ++ added, (n + length seeds)%nat) /\
    (forall k, k ∈ seed_keys seeds -> k ∈ map price_key (table ++ added)) /\
    (NoDup (map price_key table) -> NoDup (map price_key (table ++ added))) /\
    ((forall k, k ∈ seed_keys seeds -> k ∈ map price_key table) -> added = []).
Proof.
  cbn zeta. revert table n; induction seeds as [|s seeds IH]; intros table n; cbn [fold_left].
  - exists []. rewrite app_nil_r, Nat.add_0_r. split_and!; [done| |done..]. intros k Hk. by apply not_elem_of_nil in Hk.
  - destruct (upsert_price_spec table s) as (a & Ha & Hin & Hnd & Hno). cbn [fst snd]. rewrite Ha.
    destruct (IH (table ++ a) (S n)) as (b & -> & Hk & Hb & Hnob). exists (a ++ b).
    rewrite app_assoc. split_and!.
    + f_equal. cbn [length]. lia.
    + intros k [->|Hs]%elem_of_cons; [|by apply Hk]. rewrite map_app. apply elem_of_app. by left.
    + auto.
    + intros Hall. rewrite Hno by (apply Hall; left). rewrite Hno, app_nil_r in Hnob by (apply Hall; left).
      apply Hnob. intros k Hks. apply Hall. by right.
Qed.
(** Seeding adds rows for the entries the table lacks and changes no row: prices
    an operator has edited stay; seeding again adds nothing; keys stay unique. *)
Theorem seeding_keeps_prices table :
  exists added, seed_main table = (table ++ added, length PRICING_SEED) /\
    (NoDup (map price_key table) -> NoDup (map price_key (table ++ added))) /\
    seed_main (table ++ added) = (table ++ added, length PRICING_SEED).
Proof.
  destruct (seed_fold PRICING_SEED table 0) as (added & Hr & Hk & Hnd & _). exists added. split_and!; [exact Hr|exact Hnd|].
  destruct (seed_fold PRICING_SEED (table ++ added) 0) as (more & Hr' & _ & _ & Hno).
  rewrite (Hno Hk), app_nil_r in Hr'. exact Hr'.
Qed.
Lemma seeded_rows : seed_main [] = (map seed_row PRICING_SEED, length PRICING_SEED).
Proof. vm_compute. reflexivity. Qed.
End script.

(** ** Entries that charge alike *)
(** Same provider and pattern, and the same price for any tokens. *)
Definition alike (a b : PriceEntry) : Prop :=
  pe_provider a = pe_provider b /\ modelPattern a = modelPattern b /\
  forall tokens, calculateCostUsd tokens a = calculateCostUsd tokens b.
Section matching.
Context (provider : Provider) (model : string).

Lemma calculate_same a b :
  (forall f, f ∈ [inputPerMtok; outputPerMtok; cacheReadPerMtok; cacheWritePerMtok] ->
             microUsdPerMtok (f a) = microUsdPerMtok (f b)) ->
  forall tokens, calculateCostUsd tokens a = calculateCostUsd tokens b.
Proof.
  intros Hf tokens. unfold calculateCostUsd, calculatePico, tokenCostPico. by rewrite !Hf by set_solver.
Qed.
Lemma findIn_alike l l' : Forall2 alike l l' -> option_Forall2 alike (findIn l provider model) (findIn l' provider model).
Proof.
  unfold findIn. assert (option_Forall2 alike None None) as Hb by constructor. revert Hb.
  generalize (None : option PriceEntry) at 1 3 as best. generalize (None : option PriceEntry) as best'.
  generalize (-1) as len. intros len best' best Hb Hl. revert len best best' Hb.
  induction Hl as [|a b l l' Hab Hl IH]; intros len best best' Hb; [done|]. rewrite !findIn_step.
  pose proof Hab as (Hp & Hm & _). unfold exact_for. rewrite Hp, Hm.
  case_bool_decide; [by constructor|]. destruct (bool_decide _); [|by apply IH].
  destruct (patternPrefix (modelPattern b)) as [p|]; [|by apply IH].
  destruct (_ && _); apply IH; [by constructor|done].
Qed.

(** Where no pattern occurs twice, the order of the entries does not matter. *)
Definition entry_key (e : PriceEntry) : Provider * string := (pe_provider e, modelPattern e).
Lemma key_inj l a b : NoDup (map entry_key l) -> a ∈ l -> b ∈ l -> entry_key a = entry_key b -> a = b.
Proof. intros. by eapply (NoDup_map_inj entry_key). Qed.
Lemma rivals_same a b :
  applies provider model a -> applies provider model b -> ~ exact_for provider model a -> ~ exact_for provider model b ->
  specificity a = specificity b -> entry_key a = entry_key b.
Proof.
  unfold applies, exact_for, specificity, entry_key. intros [Pa Ha] [Pb Hb] Na Nb Hs.
  destruct Ha as [?|(p & Ep & Sp)]; [by destruct Na|]. destruct Hb as [?|(q & Eq & Sq)]; [by destruct Nb|].
  rewrite Ep, Eq, !length_string_app in Hs.
  assert (p = q) as ->; [|congruence].
  pose proof (prefix_comparable p q model Sp Sq ltac:(cbn in Hs; lia)) as H. apply starts_with_spec in H as [t ->].
  rewrite length_string_app in Hs. assert (String.length t = O) by (cbn in Hs; lia).
  destruct t; [by rewrite string_app_nil_r|done].
Qed.
Lemma best_in_anywhere l e :
  NoDup (map entry_key l) ->
  best_in l provider model e <->
  e ∈ l /\ (exact_for provider model e \/
            applies provider model e /\ (forall x, x ∈ l -> ~ exact_for provider model x) /\
            (forall x, x ∈ l -> applies provider model x -> (specificity x <= specificity e)%nat)).
Proof.
  intros Hnd. split.
  - intros (bf & af & -> & H). split; [set_solver|]. destruct H as [[? _]|(Ha & Hno & Hlt & Hle)]; [by left|right].
    rewrite Forall_forall in Hno, Hlt, Hle. split_and!; [done|done|].
    intros x [Hx|[->|Hx]%elem_of_cons]%elem_of_app Hap; [|done|by apply Hle]. apply Nat.lt_le_incl. by apply Hlt.
  - intros [(bf & af & ->)%list_elem_of_split H]. exists bf, af. split; [done|].
    assert (forall x, x ∈ bf -> entry_key x <> entry_key e) as Hne.
    { intros x Hx Hk. rewrite map_app in Hnd. apply NoDup_app in Hnd as (_ & Hd & _).
      apply (Hd (entry_key x)); [by apply list_elem_of_fmap_2|]. rewrite Hk. left. }
    destruct H as [Hex|(Ha & Hno & Hle)]; [left|right]; split_and!; try done; apply Forall_forall.
    + intros x Hx [Px Mx]. destruct Hex as [Pe Me]. apply (Hne x Hx). unfold entry_key. congruence.
    + done.
    + intros x Hx Hap. assert (specificity x <= specificity e)%nat as Hl by (apply Hle; set_solver).
      apply Nat.le_neq. split; [done|]. intros Heq. apply (Hne x Hx), rivals_same; try done; apply Hno; set_solver.
    + intros x Hx. apply Hle. set_solver.
Qed.
Lemma findIn_perm l l' : l ≡ₚ l' -> NoDup (map entry_key l) -> findIn l provider model = findIn l' provider model.
Proof.
  intros Hp Hnd. assert (NoDup (map entry_key l')) as Hnd' by (by rewrite <- Hp).
  destruct (findIn l provider model) as [e|] eqn:E.
  - symmetry. apply findIn_iff. apply findIn_iff, best_in_anywhere in E; [|done]. apply best_in_anywhere; [done|].
    by setoid_rewrite <- Hp.
  - symmetry. apply findIn_none. apply findIn_none in E. unfold none_in in *. by rewrite <- Hp.
Qed.
End matching.

(** ** The gateway on the seeded table *)
Section charging.

Lemma seed_alike s :
  s ∈ PRICING_SEED ->
  alike (toEntry SYNC (seed_row s))
    (mkPriceEntry (ps_provider s) (ps_pattern s) (number_to_string (ps_input s)) (number_to_string (ps_output s))
       (number_to_string (ps_cacheRead s ?? NInt 0)) (number_to_string (ps_cacheWrite s ?? NInt 0)) SEED).
Proof.
  assert (forallb (fun s => forallb (fun n => bool_decide (microUsdPerMtok (seed_text n) = microUsdPerMtok (number_to_string n)))
            [ps_input s; ps_output s; ps_cacheRead s ?? NInt 0; ps_cacheWrite s ?? NInt 0]) PRICING_SEED = true) as Hall
    by (vm_compute; reflexivity).
  rewrite forallb_forall in Hall. intros Hs. apply list_elem_of_In, Hall in Hs. clear Hall. rewrite forallb_forall in Hs.
  split_and!; [done|done|]. apply calculate_same. intros f Hf.
  repeat (apply elem_of_cons in Hf as [->|Hf]); [..|by apply not_elem_of_nil in Hf];
    cbn [toEntry seed_row inputPerMtok outputPerMtok cacheReadPerMtok cacheWritePerMtok row_input row_output row_cacheRead row_cacheWrite];
    apply (bool_decide_eq_true_1 _), Hs; cbn; tauto.
Qed.
Lemma seeded_alike : Forall2 alike (map (toEntry SYNC) (map seed_row PRICING_SEED)) seedCatalog.
Proof.
  unfold seedCatalog. pose proof seed_alike as H. induction PRICING_SEED as [|s l IH]; [constructor|].
  constructor; [apply H; left|]. apply IH. intros; apply H; by right.
Qed.

(** What a gateway records for a request on a matched price. *)
Definition charge_on (tokens : TokenCounts) (e : option PriceEntry) : option (Provider * string * js string) :=
  (fun e => (pe_provider e, modelPattern e, calculateCostUsd tokens e)) <$> e.
(** C20: A gateway that has read the seeded table prices every model as one with
    the bundled catalog does: by the same entry and at the same cost, whatever
    order the database answers the rows in. *)
Theorem seeded_table_charges_as_bundled now rows st provider model ws tokens :
  FROM <= now -> rows ≡ₚ (seed_main []).1 ->
  charge_on tokens (pg_match (refresh now (Ok (rows, [])) st) provider model ws)
  = charge_on tokens (price_match StaticPricing provider model ws).
Proof.
  intros Hnow Hp. rewrite seeded_rows in Hp. cbn [fst] in Hp.
  assert (List.filter (effective now) rows = rows) as Heff.
  { apply filter_all. intros r Hr. rewrite Hp in Hr. apply list_elem_of_fmap in Hr as (s & -> & _).
    unfold effective. cbn [seed_row row_effectiveFrom row_effectiveTo]. by rewrite (proj2 (Z.leb_le _ _) Hnow). }
  assert (refresh now (Ok (rows, [])) st = mkPgPricing (map (toEntry SYNC) rows) ∅) as ->.
  { unfold refresh. rewrite Heff. destruct rows; [|done]. symmetry in Hp. apply Permutation_nil_r in Hp. discriminate Hp. }
  unfold pg_match, matchPrice. cbn [catalogRows overridesByWorkspace price_match StaticPricing_source].
  assert ((match ws with Some ws => if String.eqb ws "" then [] else (∅ : gmap string (list PriceEntry)) !! ws ?? [] | None => [] end) = []) as ->.
  { destruct ws as [w|]; [|done]. destruct (String.eqb w ""); [done|]. by rewrite lookup_empty. }
  rewrite (findIn_perm provider model (map (toEntry SYNC) rows) (map (toEntry SYNC) (map seed_row PRICING_SEED))).
  - cbn [findIn findIn_loop or_else]. unfold matchPrice.
    destruct (findIn_alike provider model _ _ seeded_alike) as [a b (Ha & Hb & Hc)|]; [|done].
    cbn. by rewrite Ha, Hb, Hc.
  - by apply Permutation_map.
  - rewrite Hp. rewrite (NoDup_ListNoDup _). vm_compute. repeat constructor; cbn; intuition discriminate.
Qed.
Lemma seeded_table_charges_as_bundled_witness :
  let rows := rev (seed_main []).1 in
  let tokens := mkTokenCounts (NInt 1000) (NInt 200) None None in
  charge_on tokens (pg_match (refresh 1783900800000 (Ok (rows, [])) newPgPricing) ANTHROPIC "claude-sonnet-4-5" None)
  = charge_on tokens (price_match StaticPricing ANTHROPIC "claude-sonnet-4-5" None).
Proof.
  apply (seeded_table_charges_as_bundled 1783900800000 (rev (seed_main []).1) newPgPricing); [done|].
  symmetry. apply Permutation_rev.
Defined.
Lemma seeded_charge :
  charge_on (mkTokenCounts (NInt 1000) (NInt 200) None None)
    (pg_match (refresh 1783900800000 (Ok ((seed_main []).1, [])) newPgPricing) ANTHROPIC "claude-sonnet-4-5" None)
  = Some (ANTHROPIC, "claude-sonnet-4*", Ok "0.00600000").
Proof. vm_compute. reflexivity. Qed.
End charging.
