(* ===== verification/ApiSessions.v ===== *)
(** * Refresh tokens rotate

    modules/auth.ts: a refresh token is good for one refresh; presenting it
    again revokes every session descended from the same login. *)

From S2P Require Import Prelude JsString JsNum JsDate Json Shared Auth Providers Persist Zod ApiDb ApiAuth ApiKeys ApiMembers.
From S2P Require Import ApiOrg ApiPricing ApiReports ApiServer ApiRules ApiSteps ApiRefine ApiEffects ApiSafety ApiExample.

Lemma find_update_rows {R} (p q : R -> bool) f l :
  (forall x, p (f x) = p x) ->
  List.find p (update_rows q f l) = (fun x => if q x then f x else x) <$> List.find p l.
Proof.
  intros Hp. induction l as [|x l IH]; [done|]. cbn. fold (update_rows q f l).
  assert (p (if q x then f x else x) = p x) as -> by (destruct (q x); [apply Hp|done]).
  destruct (p x); [done|exact IH].
Qed.
Lemma find_app {R} (p : R -> bool) l k :
  List.find p (l ++ k) = match List.find p l with Some x => Some x | None => List.find p k end.
Proof. induction l as [|x l IH]; [done|]. cbn. destruct (p x); [done|exact IH]. Qed.
Lemma find_none_all {R} (p : R -> bool) l : (forall x, x ∈ l -> p x = false) -> List.find p l = None.
Proof.
  induction l as [|x l IH]; [done|]. intros Hl. cbn. rewrite (Hl x) by set_solver. apply IH. set_solver.
Qed.

Section sessions.
Context (E : ApiEnv) (rq : ApiRequest).

(** A presented token whose session is gone, expired or revoked gets 401. *)
Lemma refresh_dead w t :
  rq_refresh_cookie rq = Some t ->
  (forall s, List.find (by_token E t) (sessions (db w)) = Some s -> s_revokedAt s <> None) ->
  exists message, (ApiAuth.refresh E rq w).2 = Throw (TDomain (UnauthorizedError message)).
Proof.
  intros Ht Hdead. unfold ApiAuth.refresh. rewrite Ht.
  destruct t as [|c t]; [eexists; reflexivity|]. rewrite run_gets.
  destruct (List.find (by_token E (String c t)) (sessions (db w))) as [s|]; [|eexists; reflexivity].
  cbn [mbind option_bind]. destruct (List.find _ (users (db w))) as [u|]; [|eexists; reflexivity].
  cbn [mbind option_bind]. destruct (s_expiresAt s <? e_now E); [eexists; reflexivity|].
  destruct (s_revokedAt s) eqn:Er; [eexists; reflexivity|]. by destruct (Hdead s eq_refl).
Qed.
(** A rotated token, presented again in time, takes its family along. *)
Lemma refresh_reused w t s u at_ :
  rq_refresh_cookie rq = Some t -> t <> "" ->
  List.find (by_token E t) (sessions (db w)) = Some s ->
  List.find (fun u => String.eqb (u_id u) (s_userId s)) (users (db w)) = Some u ->
  e_now E <= s_expiresAt s -> s_revokedAt s = Some at_ ->
  ApiAuth.refresh E rq w =
    (mkWorld (set_sessions (update_rows (live_in_family (s_familyId s)) (revoke E) (sessions (db w))) (db w))
       (outbox w ++ [ClearRefreshCookie]), Throw (TDomain (UnauthorizedError "Session revoked"))).
Proof.
  intros Ht Hne Hs Hu Hexp Hrev. unfold ApiAuth.refresh. rewrite Ht. destruct t as [|c t]; [done|].
  rewrite run_gets. rewrite Hs. cbn [mbind option_bind]. rewrite Hu. cbn [mbind option_bind].
  rewrite (proj2 (Z.ltb_ge _ _) Hexp), Hrev. reflexivity.
Qed.
(** Presented after its time, it is only refused. *)
Lemma refresh_late_token w t s u :
  rq_refresh_cookie rq = Some t -> t <> "" ->
  List.find (by_token E t) (sessions (db w)) = Some s ->
  List.find (fun u => String.eqb (u_id u) (s_userId s)) (users (db w)) = Some u -> s_expiresAt s < e_now E ->
  ApiAuth.refresh E rq w =
    (mkWorld (db w) (outbox w ++ [ClearRefreshCookie]), Throw (TDomain (UnauthorizedError "Session expired"))).
Proof.
  intros Ht Hne Hs Hu Hexp. unfold ApiAuth.refresh. rewrite Ht. destruct t as [|c t]; [done|].
  rewrite run_gets. rewrite Hs. cbn [mbind option_bind]. rewrite Hu. cbn [mbind option_bind].
  rewrite (proj2 (Z.ltb_lt _ _) Hexp). reflexivity.
Qed.
(** A refresh with token [t]: its session is spent and a fresh one of the same
    family takes its place. *)
Definition rotated (w : World) (t : string) (reply : SessionReply) (w' : World) : Prop :=
  exists s u new,
    List.find (by_token E t) (sessions (db w)) = Some s /\ s_revokedAt s = None /\ e_now E <= s_expiresAt s /\
    List.find (fun u => String.eqb (u_id u) (s_userId s)) (users (db w)) = Some u /\ sr_user reply = publicUser u /\
    mintRefreshToken (e_P E) (e_blocks E) = Some new /\
    outbox w' = outbox w ++ [SetRefreshCookie (mt_token new)] /\
    let rest := update_rows (with_key (s_id s)) (revoke E) (sessions (db w)) in
    let fresh := mkSession (e_id E 3) (u_id u) (s_familyId s) (mt_hash new)
                   (e_now E + REFRESH_TOKEN_TTL_S * 1000) None (rq_ip rq) (rq_user_agent rq) in
    (forall x, x ∈ rest -> s_tokenHash x <> mt_hash new) /\
    db w' = set_sessions (rest ++ [fresh]) (db w).
Lemma refresh_spec w w' reply t :
  ApiAuth.refresh E rq w = (w', Ok reply) -> rq_refresh_cookie rq = Some t -> t <> "" /\ rotated w t reply w'.
Proof.
  intros Hok Ht. unfold ApiAuth.refresh in Hok. rewrite Ht in Hok. destruct t as [|c t]; [done|]. split; [done|].
  rewrite run_gets in Hok.
  destruct (List.find (by_token E (String c t)) (sessions (db w))) as [s|] eqn:Hs; [|done]. cbn [mbind option_bind] in Hok.
  destruct (List.find _ (users (db w))) as [u|] eqn:Hu; [|done]. cbn [mbind option_bind] in Hok.
  destruct (Z.ltb_spec (s_expiresAt s) (e_now E)) as [|Hexp]; [done|]. destruct (s_revokedAt s) eqn:Hrev; [done|].
  revert Hok. apply (safe_ok (fun _ => True) _ w w' reply (rotated w (String c t))).
  unfold issueSession. run. look.
  match goal with H : mintRefreshToken _ _ = Some ?m, H' : fits _ _ _ = Ok tt, H'' : s_id ?r = s_id s |- _ =>
    exists s, u, m; apply fits_inv in H' as (_ & Hc & _); rewrite H'' in Hc |- * end.
  cbv zeta. split_and!; try done. intros x Hx Hh. specialize (Hc x Hx). cbn in Hc. unfold same_text in Hc.
  apply String.eqb_neq in Hc. done.
Qed.
End sessions.


(** A digest that tells tokens apart. *)
Definition ex_digest : Primitives :=
  mkPrimitives (fun s => s) (fun _ _ p => (p, "")) (fun _ _ c _ => Ok c) (fun _ _ _ _ _ _ => Ok "").
Definition ex_sessions : World :=
  mkWorld (set_sessions [mkSession "s1" "u1" "f1" "old" 2000000 None "" None] ex_db) [].
Definition ex_cookie (token : string) : ApiRequest := mkApiRequest None (Some token) "" None None None.
