(* ===== verification/ApiFamilies.v ===== *)
(** * The sessions of one login

    A login starts a family of sessions; each refresh adds one and spends the
    last.  Requests that present none of its refresh tokens leave a family as it
    is, over any run of them. *)

From S2P Require Import Prelude JsString JsNum JsDate Json Shared Auth Providers Persist Zod ApiDb ApiAuth ApiKeys ApiMembers.
From S2P Require Import ApiOrg ApiPricing ApiReports ApiServer ApiRules ApiSteps ApiRefine ApiEffects ApiSafety ApiExample ApiSessions.

Definition in_family (f : string) (s : Session) : bool := String.eqb (s_familyId s) f.
Definition family (f : string) (d : ApiDb) : list Session := List.filter (in_family f) (sessions d).
Lemma in_family_rows f d s : s ∈ family f d <-> s ∈ sessions d /\ s_familyId s = f.
Proof. unfold family. by rewrite in_filter, <- String.eqb_eq. Qed.

Section strangers.
Context (f : string).

(** The request presents no token of the family and starts no login of its name. *)
Definition stranger (E : ApiEnv) (rq : ApiRequest) (d : ApiDb) : Prop :=
  e_id E 4 <> f /\ forall s, presents E rq d s -> s_familyId s <> f.
Lemma stranger_same E rq d d' : family f d' = family f d -> stranger E rq d -> stranger E rq d'.
Proof.
  intros Hf [Hid Hs]. split; [done|]. intros s (t & Ht & Hne & Hin & Hp) Hfam.
  assert (s ∈ family f d) as [Hin' _]%in_family_rows by (rewrite <- Hf; by apply in_family_rows).
  apply (Hs s); [|done]. by exists t.
Qed.
(** Whether a request is a stranger can be decided on the rows. *)
Definition strangerb (E : ApiEnv) (rq : ApiRequest) (d : ApiDb) : bool :=
  negb (String.eqb (e_id E 4) f) &&
  match rq_refresh_cookie rq with
  | None | Some "" => true
  | Some t => forallb (fun s => negb (by_token E t s && in_family f s)) (sessions d)
  end.
Lemma strangerb_stranger E rq d : strangerb E rq d = true -> stranger E rq d.
Proof.
  intros [Hid Hc]%andb_true_iff. split; [by apply String.eqb_neq, negb_true_iff|].
  intros s (t & Ht & Hne & Hin & Hp) Hf. rewrite Ht in Hc. destruct t as [|c t]; [done|].
  rewrite forallb_forall in Hc. apply list_elem_of_In in Hin. specialize (Hc _ Hin). rewrite Hp in Hc.
  unfold in_family in Hc. by rewrite Hf, String.eqb_refl in Hc.
Qed.

Section step.
Context (E : ApiEnv) (rq : ApiRequest) (tok : option string).
Lemma step_family d d' : api_step E rq tok d d' -> wf d -> stranger E rq d -> family f d' = family f d.
Proof.
  intros Hs Hwf [Hid Hst]. unfold family. destruct Hs; try reflexivity; cbn.
  - apply other_create. apply String.eqb_neq. congruence.
  - apply other_create. apply String.eqb_neq. intros Hf.
    match goal with H : succeeds _ ?s0 _, Hp : presents _ _ _ ?s0 |- _ => destruct H as (_ & _ & ?); apply (Hst s0 Hp) end.
    congruence.
  - apply other_update. intros x Hx Hp.
    enough (s_familyId x <> f) as Hne by (split; by apply String.eqb_neq).
    match goal with H : forall x, x ∈ sessions d -> _ |- _ => destruct (H x Hx Hp) as (s & Hs & [Hk|[_ ->]]) end;
      [|by apply Hst]. assert (x = s) as ->; [|by apply Hst].
    destruct Hs as (t & _ & _ & Hs & _). by apply (NoDup_map_inj s_id (sessions d)); [apply wf_keys|..].
Qed.
Lemma step_has_user d d' uid : api_step E rq tok d d' -> has u_id uid (users d) = true -> has u_id uid (users d') = true.
Proof. intros Hs Hu. destruct Hs; try exact Hu; by apply has_snoc. Qed.
End step.

Section requests.
Context (get : UpstreamRequest -> option Z) (stat : string -> bool).
(** A request of a stranger leaves the family, and the users it is of. *)
Lemma stranger_request r w uid :
  e_uuid (r_env r) "" = None -> wf (db w) -> stranger (r_env r) (r_rq r) (db w) ->
  let w' := serve_one get stat w r in
  wf (db w') /\ family f (db w') = family f (db w) /\
  (has u_id uid (users (db w)) = true -> has u_id uid (users (db w')) = true).
Proof.
  intros Hempty Hwf Hst w'.
  set (I d := family f d = family f (db w) /\ (has u_id uid (users (db w)) = true -> has u_id uid (users d) = true)).
  destruct (request_keeps get stat I r w Hempty) as (Hwf' & Hf & Hu); [|done|done|by split_and!].
  intros d d' Hs Hd [Hf Hu]. split; [|intros H; by eapply step_has_user, Hu].
  rewrite <- Hf. eapply step_family; [exact Hs|done|]. by eapply stranger_same.
Qed.
End requests.
End strangers.

(** A session ends by its own token only: over any run of requests that
    present no refresh token of a login (and start none of its name), the rows
    of its sessions stay exactly as they are - no other user, no other login of
    the same user and no administrator's request revokes, extends or adds one. *)
Theorem sessions_end_by_their_token get stat (w : World) (rs : list Request) f :
  no_empty_uuid rs -> wf (db w) -> Forall (fun r => stranger f (r_env r) (r_rq r) (db w)) rs ->
  family f (db (serves get stat w rs)) = family f (db w).
Proof.
  intros Hrs Hwf Hst.
  enough (forall v, wf (db v) -> family f (db v) = family f (db w) ->
            family f (db (serves get stat v rs)) = family f (db w)) as Hgen by by apply Hgen.
  clear Hwf. revert Hrs. induction Hst as [|r rs Hr Hst IH]; intros Hrs v Hv Hf; [done|].
  apply Forall_cons in Hrs as [Hr0 Hrs].
  destruct (stranger_request f get stat r v "" Hr0 Hv) as (Hv' & Hf' & _); [by eapply stranger_same|].
  apply IH; [done|done|congruence].
Qed.

(** A session of u1 while u2 asks, logs out and u1 logs out elsewhere. *)
Definition ex_sign_in : World :=
  mkWorld (set_sessions [mkSession "s1" "u1" "f1" "mine" 2000000 None "" None] ex_db) [].
Definition ex_others : list Request :=
  [ mkRequest (ex_env_with ex_digest) (mkApiRequest None (Some "theirs") "" None None None) "POST" "/api/v1/auth/logout";
    mkRequest (ex_env_with ex_digest) (mkApiRequest None (Some "theirs") "" None None None) "POST" "/api/v1/auth/refresh";
    ex_ask "u2" "DELETE" "/api/v1/workspaces/one/members/u1" None ].
Lemma ex_sign_in_wf : wf (db ex_sign_in).
Proof.
  destruct ex_wf as [[] ? ? ? ? ? ? ? ? ? ?]. constructor; try done.
  - constructor; try done. cbn. apply NoDup_singleton.
  - intros a b Ha Hb. cbn in Ha, Hb. one_row. done.
Qed.
Lemma sessions_end_by_their_token_witness :
  family "f1" (db (serves ex_get ex_stat ex_sign_in ex_others)) = family "f1" (db ex_sign_in).
Proof.
  apply (sessions_end_by_their_token ex_get ex_stat ex_sign_in ex_others "f1").
  - repeat constructor.
  - exact ex_sign_in_wf.
  - repeat (constructor; [apply strangerb_stranger; vm_compute; reflexivity|]). constructor.
Defined.
