(* ===== verification/ApiScope.v ===== *)
(** * A member sees their own usage

    What the analytics, export and key routes answer a MEMBER depends only on
    the rows of the workspace that are theirs: two databases that agree on those
    give the same answers. *)

From S2P Require Import Prelude JsString JsNum JsDate Json Shared Queue Auth Providers Gateway Rollups Persist Export Zod.
From S2P Require Import ApiDb ApiAuth ApiKeys ApiMembers ApiOrg ApiPricing ApiReports ApiServer ApiRules ApiSteps.
From S2P Require Import ApiRefine ApiEffects ApiSafety ApiExample.

Lemma filter_own {A} (own p : A -> bool) l l' :
  (forall x, p x = true -> own x = true) -> List.filter own l = List.filter own l' -> List.filter p l = List.filter p l'.
Proof.
  intros Hp Hl. assert (forall k, List.filter p k = List.filter p (List.filter own k)) as Hk; [|by rewrite (Hk l), (Hk l'), Hl].
  intros k. rewrite <- filter_and. apply List.filter_ext. intros x. destruct (p x) eqn:E; [by rewrite (Hp x E)|].
  by rewrite andb_false_r.
Qed.

Lemma find_own {A} (own p : A -> bool) l l' :
  (forall x, p x = true -> own x = true) -> List.filter own l = List.filter own l' -> List.find p l = List.find p l'.
Proof.
  intros Hp Hl. assert (forall k, List.find p k = List.find p (List.filter own k)) as Hk; [|by rewrite (Hk l), (Hk l'), Hl].
  induction k as [|x k IH]; [done|]. cbn. destruct (own x) eqn:Eo; cbn; [by rewrite IH|].
  destruct (p x) eqn:Ep; [by rewrite (Hp x Ep) in Eo|done].
Qed.

(** ** Databases a member cannot tell apart *)
Section scope.
Context (ws uid : string).
Definition own_rollup (r : RollupRow) : bool := String.eqb (rk_workspace (rr_key r)) ws && String.eqb (rk_user (rr_key r)) uid.
Definition own_event (e : UsageEventMessage) : bool := String.eqb (ev_workspaceId e) ws && String.eqb (ev_userId e) uid.
Definition own_job (j : ExportJobRow) : bool := String.eqb (xj_workspaceId (ej_job j)) ws && String.eqb (ej_requestedById j) uid.
Definition own_key_row (k : VirtualKey) : bool := String.eqb (k_workspaceId k) ws && String.eqb (k_userId k) uid.
Record alike (d d' : ApiDb) : Prop := {
  al_members : members d' = members d;
  al_workspaces : workspaces d' = workspaces d;
  al_users : users d' = users d;
  al_projects : projects d' = projects d;
  al_teams : teams d' = teams d;
  al_hourly : List.filter own_rollup (usage_rollup_hourly (usage d')) = List.filter own_rollup (usage_rollup_hourly (usage d));
  al_daily : List.filter own_rollup (usage_rollup_daily (usage d')) = List.filter own_rollup (usage_rollup_daily (usage d));
  al_events : List.filter own_event (usage_event (usage d')) = List.filter own_event (usage_event (usage d));
  al_jobs : List.filter own_job (export_jobs d') = List.filter own_job (export_jobs d);
  al_keys : List.filter own_key_row (virtual_keys d') = List.filter own_key_row (virtual_keys d);
}.

(** The WHERE clauses of the routes, under the member's scope. *)
Lemma where_own from to f r : buildWhere ws from to f (Some uid) r = true -> own_rollup r = true.
Proof. unfold buildWhere, own_rollup. intros [H Hu]%andb_true_iff. cbn in Hu. rewrite Hu, andb_true_r. look. by apply String.eqb_eq. Qed.
Lemma summary_own from r : summary_where ws from (Some uid) r = true -> own_rollup r = true.
Proof. unfold summary_where, own_rollup. cbn. rewrite !andb_true_iff. tauto. Qed.
Lemma events_own before e : events_where ws (Some uid) before e = true -> own_event e = true.
Proof. unfold events_where, own_event. cbn. rewrite !andb_true_iff. tauto. Qed.
Lemma job_own j : job_visible ws (Some uid) j = true -> own_job j = true.
Proof. by unfold job_visible, own_job. Qed.

Section queries.
Context (d d' : ApiDb) (Hal : alike d d').
Lemma labels_alike dim ids id : resolveLabels d' dim ids id = resolveLabels d dim ids id.
Proof. unfold resolveLabels. by rewrite (al_projects _ _ Hal), (al_teams _ _ Hal), (al_users _ _ Hal). Qed.
Lemma table_alike g p :
  (forall r, p r = true -> own_rollup r = true) -> List.filter p (tableFor g d') = List.filter p (tableFor g d).
Proof. intros Hp. destruct g; apply (filter_own own_rollup); try done; apply Hal. Qed.
Lemma timeseries_alike p m g dim :
  (forall r, p r = true -> own_rollup r = true) -> queryTimeseries d' p m g dim = queryTimeseries d p m g dim.
Proof.
  intros Hp. unfold queryTimeseries. rewrite (table_alike g p Hp). destruct dim as [dim|]; [|done].
  apply map_ext. intros id. by rewrite labels_alike.
Qed.
Lemma breakdown_alike p dim limit :
  (forall r, p r = true -> own_rollup r = true) -> queryBreakdown d' p dim limit = queryBreakdown d p dim limit.
Proof.
  intros Hp. unfold queryBreakdown.
  rewrite (filter_own own_rollup p (usage_rollup_daily (usage d')) (usage_rollup_daily (usage d)) Hp (al_daily _ _ Hal)).
  f_equal. apply map_ext. intros g. by rewrite labels_alike.
Qed.
End queries.
End scope.

(** A read that answers the same on two worlds. *)
Section agree.
Context (w v : World).
Definition agree {A} (m : H A) : Prop := exists r, m w = (w, r) /\ m v = (v, r).
Lemma agree_ret {A} (a : A) : agree (mret a). Proof. by eexists. Qed.
Lemma agree_fail {A} e : agree (A := A) (fail e). Proof. by eexists. Qed.
Lemma agree_parse {A} (z : schema A) body : agree (parse z body).
Proof. unfold parse. destruct (z body); by eexists. Qed.
Lemma agree_require b e : agree (require b e). Proof. destruct b; by eexists. Qed.
Lemma agree_uuid E s : agree (uuid E s). Proof. unfold uuid. destruct (e_uuid E s); by eexists. Qed.
Lemma agree_gets {A} (f : ApiDb -> A) : f (db v) = f (db w) -> agree (gets f).
Proof. intros Hf. exists (Ok (f (db w))). cbn. by rewrite Hf. Qed.
Lemma agree_bind {A B} (m : H A) (f : A -> H B) : agree m -> (forall a, agree (f a)) -> agree (m ≫= f).
Proof.
  intros ([a|e] & Hw & Hv) Hf; unfold agree; rewrite !run_bind, Hw, Hv; [apply Hf|by eexists].
Qed.
Lemma agree_known {A B} (m : H A) a (f : A -> H B) :
  (forall w, m w = (w, Ok a)) -> agree (f a) -> agree (m ≫= f).
Proof. intros Hm (r & Hw & Hv). exists r. by rewrite !run_bind, !Hm. Qed.
Lemma agree_bind_filters E f : agree (bind_filters E f).
Proof.
  unfold bind_filters, bind_uuid.
  repeat first [ apply agree_bind; [|intros] | apply agree_uuid | apply agree_ret | case_match ].
Qed.
Lemma agree_snd {A} (m : H A) : agree m -> (m v).2 = (m w).2.
Proof. intros (r & -> & ->). done. Qed.
End agree.

Section member.
Context (E : ApiEnv) (rq : ApiRequest) (ws : string) (user : AuthedUser) (uid : string) (m : Member) (x : Workspace).
Context (Hauth : authenticated E rq user) (Huid : e_uuid E (au_id user) = Some uid) (Hempty : e_uuid E "" = None).
Context (Hrole : m_role m = MEMBER).

(** The caller's membership in the workspace of the path. *)
Definition member_in (d : ApiDb) : Prop :=
  List.find (member_of E ws uid d) (members d) = Some m /\ find_workspace d (ws_named E ws) m = Some x.
Lemma member_in_alike d d' : alike (w_id x) uid d d' -> member_in d -> member_in d'.
Proof.
  intros Hal [Hm Hx]. unfold member_in, member_of, find_workspace in *.
  by rewrite (al_members _ _ _ _ Hal), (al_workspaces _ _ _ _ Hal).
Qed.
Let ctx := mkWsCtx (w_id x) (w_slug x) MEMBER.
Lemma route_run {A} min (handler : AuthedUser -> WorkspaceContext -> H A) w :
  member_in (db w) -> hasMinimumRole MEMBER min = true -> ws_route E rq min ws handler w = handler user ctx w.
Proof.
  intros [Hm Hx] Hmin. unfold ws_route, makeWorkspaceGuard, uuid. rewrite run_bind, (Hauth w), Huid. cbn.
  rewrite Hm. cbn. rewrite Hx. cbn. unfold require. by rewrite Hrole, Hmin.
Qed.
Lemma scope_run w : scope_uid E user ctx w = (w, Ok (Some uid)).
Proof.
  unfold scope_uid, scopeUserId, ctx. cbn [wc_role wide]. destruct (au_id user) as [|c s] eqn:Eu; [congruence|].
  assert (wide MEMBER = false) as -> by reflexivity. cbn [if_truthy String.eqb].
  unfold uuid. by rewrite Huid.
Qed.
End member.


(** u3 is a member of ws1; in the second world u1 has used it as well. *)
Definition ex_member : Member := mkMember "m3" "ws1" "u3" MEMBER 0.
Definition ex_workspace : Workspace := mkWorkspace "ws1" "One" "one" None 0.
Definition ex_before : ApiDb := set_workspaces [ex_workspace] (set_members [ex_member] ex_db).
Definition with_usage (u : Db) (d : ApiDb) : ApiDb :=
  mkApiDb (users d) (sessions d) (workspaces d) (members d) (teams d) (team_members d) (projects d) (invitations d)
    (credentials d) (virtual_keys d) (overrides d) (export_jobs d) (model_prices d) (pool_credentials d) u.
Definition ex_after : ApiDb :=
  with_usage (persist_all example_pg (empty_db ∅) [[example_event "e1" "2026-07-12T10:15:30.000Z" "0.00105000"]])
    ex_before.
