(* ===== verification/ApiLate.v ===== *)
(** * What a request may do when others run beside it

    Node interleaves requests at their [await]s, so the guards and look-ups a
    request relies on may be out of date when it writes.  [late_step]: the
    changes one operation may make, its conditions split into those read at
    earlier operations of the same request ([seen]) and those the database
    checks when the operation runs.  ApiTracks.v shows that every operation of
    every handler is one of them. *)

From S2P Require Import Prelude JsString JsNum JsDate Json Shared Queue Auth Gateway Persist Export Zod ApiDb ApiAuth.
From S2P Require Import ApiKeys ApiMembers ApiOrg ApiPricing ApiReports ApiRules ApiSteps.

Section late.
Context (E : ApiEnv) (rq : ApiRequest) (tok : option string).
(** The tables the request's operations ran on so far, the present one first. *)
Context (past : list ApiDb).

Definition seen (P : ApiDb -> Prop) : Prop := exists d0, d0 ∈ past /\ P d0.
Definition seen_role (ws : string) (min : WorkspaceRole) : Prop := seen (fun d0 => by_role E rq d0 ws min).
Definition late_manage (t : Team) : Prop :=
  exists user uid, acts E rq user uid /\ seen (fun d0 => has_role d0 uid (t_workspaceId t) VIEWER) /\
    (seen (fun d0 => has_role d0 uid (t_workspaceId t) ADMIN) \/
     exists l, seen (fun d0 => l ∈ team_members d0) /\ tm_teamId l = t_id t /\ tm_userId l = uid /\ tm_role l = LEAD).
Definition late_touch (k : VirtualKey) : Prop :=
  exists user uid, acts E rq user uid /\ seen (fun d0 => has_role d0 uid (k_workspaceId k) MEMBER) /\
    (k_userId k = au_id user \/ seen (fun d0 => has_role d0 uid (k_workspaceId k) ADMIN)).
Definition late_end (x : Session) : Prop :=
  exists s, seen (fun d0 => presents E rq d0 s) /\
    (s_id x = s_id s \/ s_revokedAt s <> None /\ s_familyId x = s_familyId s).
(** The member of a workspace a request looked up, and the owners it counted when
    that was one. *)
Definition late_target (ws uid : string) : Prop :=
  exists t, seen (fun d0 => t ∈ members d0) /\ m_workspaceId t = ws /\ m_userId t = uid /\
    (m_role t = OWNER -> seen (fun d0 => (2 <= owner_count ws d0)%nat)).
Notation others key r l := (List.filter (fun x => negb (with_key (key r) x)) l).

Inductive late_step (d : ApiDb) : ApiDb -> Prop :=
(** A read, a message or a refused write *)
| lt_stay : late_step d d
(** Accounts and sessions *)
| lt_register u w m :
    let d1 := set_users (users d ++ [u]) d in
    let d2 := set_workspaces (workspaces d ++ [w]) d1 in
    registers E rq u ->
    fits d u (users d) = Ok tt -> fits d1 w (workspaces d) = Ok tt -> fits d2 m (members d) = Ok tt ->
    m_userId m = u_id u -> m_workspaceId m = w_id w -> m_role m = OWNER -> w_deletedAt w = None ->
    late_step d (set_members (members d ++ [m]) d2)
| lt_account u i token :
    seen (fun d0 => i ∈ invitations d0) -> tok = Some token -> by_invite_token E token i = true ->
    i_acceptedAt i = None -> invited E rq i u ->
    fits d u (users d) = Ok tt -> late_step d (set_users (users d ++ [u]) d)
| lt_session u s :
    registers E rq u \/ seen (fun d0 => u ∈ users d0) /\ logs_in E rq u ->
    s_userId s = u_id u -> s_familyId s = e_id E 4 -> issued E s -> fits d s (sessions d) = Ok tt ->
    late_step d (set_sessions (sessions d ++ [s]) d)
| lt_rotate s0 s :
    seen (fun d0 => presents E rq d0 s0) -> s_revokedAt s0 = None -> succeeds E s0 s -> issued E s ->
    fits d s (sessions d) = Ok tt ->
    late_step d (set_sessions (sessions d ++ [s]) d)
| lt_revoke p :
    (forall x, x ∈ sessions d -> p x = true -> late_end x) ->
    late_step d (set_sessions (update_rows p (revoke E) (sessions d)) d)
| lt_accept i r token m u :
    seen (fun d0 => i ∈ invitations d0) -> tok = Some token -> by_invite_token E token i = true ->
    i_acceptedAt i = None -> e_now E <= i_expiresAt i ->
    seen (fun d0 => u ∈ users d0) /\ by_email (i_email i) u = true \/ invited E rq i u -> m_userId m = u_id u ->
    m_workspaceId m = i_workspaceId i -> m_role m = i_role i -> fits d m (members d) = Ok tt ->
    r ∈ invitations d -> i_id r = i_id i ->
    late_step d (set_invitations (update_rows (with_key (i_id r)) (accepted E) (invitations d))
                   (set_members (members d ++ [m]) d))
(** Members and invitations *)
| lt_role m role :
    seen_role (m_workspaceId m) ADMIN -> m ∈ members d -> role <> OWNER ->
    late_target (m_workspaceId m) (m_userId m) ->
    late_step d (set_members (update_rows (with_key (m_id m)) (with_role role) (members d)) d)
| lt_leave user uid m :
    acts E rq user uid -> m ∈ members d -> seen (fun d0 => has_role d0 uid (m_workspaceId m) VIEWER) ->
    m_userId m = uid \/ seen (fun d0 => has_role d0 uid (m_workspaceId m) ADMIN) ->
    late_target (m_workspaceId m) (m_userId m) ->
    late_step d (set_members (remove_rows (with_key (m_id m)) (members d)) d)
| lt_invite i :
    seen_role (i_workspaceId i) ADMIN -> i_role i <> OWNER -> i_acceptedAt i = None ->
    fits d i (invitations d) = Ok tt -> late_step d (set_invitations (invitations d ++ [i]) d)
| lt_relink i r hash :
    seen_role (i_workspaceId i) ADMIN -> seen (fun d0 => i ∈ invitations d0) -> i_acceptedAt i = None ->
    r ∈ invitations d -> i_id r = i_id i ->
    late_step d (set_invitations (update_rows (with_key (i_id r)) (with_token hash) (invitations d)) d)
| lt_withdraw ws p :
    seen_role ws ADMIN -> (forall i, p i = true -> i_workspaceId i = ws /\ i_acceptedAt i = None) ->
    late_step d (set_invitations (remove_rows p (invitations d)) d)
(** Teams *)
| lt_team t :
    seen_role (t_workspaceId t) ADMIN -> fits d t (teams d) = Ok tt -> late_step d (set_teams (teams d ++ [t]) d)
| lt_team_patch t r name description :
    seen (fun d0 => t ∈ teams d0) -> late_manage t -> r ∈ teams d -> t_id r = t_id t ->
    late_step d (set_teams (update_rows (with_key (t_id r)) (patch_team name description) (teams d)) d)
| lt_team_delete t r :
    seen (fun d0 => t ∈ teams d0) -> seen_role (t_workspaceId t) ADMIN -> r ∈ teams d -> t_id r = t_id t ->
    late_step d (cascade r (set_teams (remove_rows (with_key (t_id r)) (teams d)) d))
| lt_team_member t m :
    seen (fun d0 => t ∈ teams d0) -> late_manage t -> tm_teamId m = t_id t ->
    (exists x, seen (fun d0 => x ∈ members d0) /\ m_workspaceId x = t_workspaceId t /\ m_userId x = tm_userId m) ->
    fits d m (team_members d) = Ok tt -> late_step d (set_team_members (team_members d ++ [m]) d)
| lt_team_role t m role :
    seen (fun d0 => t ∈ teams d0) -> late_manage t -> m ∈ team_members d -> tm_teamId m = t_id t ->
    late_step d (set_team_members (update_rows (with_key (tm_id m)) (with_team_role role) (team_members d)) d)
| lt_team_remove t p :
    seen (fun d0 => t ∈ teams d0) -> late_manage t -> (forall m, p m = true -> tm_teamId m = t_id t) ->
    late_step d (set_team_members (remove_rows p (team_members d)) d)
(** Projects *)
| lt_project p :
    seen_role (p_workspaceId p) ADMIN ->
    (forall t, p_teamId p = Some t -> seen (fun d0 => team_of d0 (p_workspaceId p) t)) ->
    fits d p (projects d) = Ok tt -> late_step d (set_projects (projects d ++ [p]) d)
| lt_project_patch p r body teamId :
    seen (fun d0 => p ∈ projects d0) -> seen_role (p_workspaceId p) ADMIN ->
    (forall t, teamId = Some (Some t) -> seen (fun d0 => team_of d0 (p_workspaceId p) t)) ->
    r ∈ projects d -> p_id r = p_id p ->
    fits d (patch_project body teamId r) (others p_id r (projects d)) = Ok tt ->
    late_step d (set_projects (update_rows (with_key (p_id r)) (patch_project body teamId) (projects d)) d)
| lt_project_delete p r :
    seen (fun d0 => p ∈ projects d0) -> seen_role (p_workspaceId p) ADMIN -> r ∈ projects d -> p_id r = p_id p ->
    (forall e, e ∈ usage_event (usage d) -> ev_projectId e <> p_id r) ->
    (forall k, k ∈ virtual_keys d -> k_projectId k = p_id r -> restricted d k = false) ->
    late_step d (set_projects (remove_rows (with_key (p_id r)) (projects d))
                   (set_virtual_keys (remove_rows (fun k => String.eqb (k_projectId k) (p_id r)) (virtual_keys d)) d))
(** Credentials *)
| lt_credential b c :
    let l := undefaulted b (c_workspaceId c) (c_provider c) (credentials d) in
    seen_role (c_workspaceId c) ADMIN -> fits (set_credentials l d) c l = Ok tt ->
    late_step d (set_credentials (l ++ [c]) d)
| lt_credential_patch c r body sealed last4 :
    let l := undefaulted (cp_isDefault body) (c_workspaceId c) (c_provider c) (credentials d) in
    seen (fun d0 => c ∈ credentials d0) -> seen_role (c_workspaceId c) ADMIN -> r ∈ l -> c_id r = c_id c ->
    fits (set_credentials l d) (patch_credential body sealed last4 r) (others c_id r l) = Ok tt ->
    late_step d (set_credentials (update_rows (with_key (c_id r)) (patch_credential body sealed last4) l) d)
| lt_credential_delete c r :
    seen (fun d0 => c ∈ credentials d0) -> seen_role (c_workspaceId c) ADMIN -> r ∈ credentials d -> c_id r = c_id c ->
    restricted d r = false ->
    late_step d (set_credentials (remove_rows (with_key (c_id r)) (credentials d)) d)
(** Virtual keys *)
| lt_key user uid k p base :
    acts E rq user uid -> seen (fun d0 => has_role d0 uid (k_workspaceId k) MEMBER) ->
    k_userId k = uid \/ seen (fun d0 => has_role d0 uid (k_workspaceId k) ADMIN) ->
    seen (fun d0 => p ∈ projects d0) -> p_id p = k_projectId k -> p_workspaceId p = k_workspaceId k ->
    p_active p = true ->
    seen (fun d0 => pins d0 (k_workspaceId k) (k_credentialAllowlist k) base (k_providerAllowlist k)) ->
    k_status k = KEY_ACTIVE -> fits d k (virtual_keys d) = Ok tt ->
    late_step d (set_virtual_keys (virtual_keys d ++ [k]) d)
| lt_key_patch k r body creds providers :
    seen (fun d0 => k ∈ virtual_keys d0) -> late_touch k -> r ∈ virtual_keys d -> k_id r = k_id k ->
    (forall l, creds = Some l -> exists ps, providers = Some ps /\
       seen (fun d0 => pins d0 (k_workspaceId k) l (k_providerAllowlist k) ps)) ->
    (creds = None -> providers = None) ->
    late_step d (set_virtual_keys (update_rows (with_key (k_id r)) (patch_key body creds providers) (virtual_keys d)) d)
| lt_key_revoke k r :
    seen (fun d0 => k ∈ virtual_keys d0) -> late_touch k -> r ∈ virtual_keys d -> k_id r = k_id k ->
    late_step d (set_virtual_keys (update_rows (with_key (k_id r)) revoke_key (virtual_keys d)) d)
(** Price overrides *)
| lt_override o :
    seen_role (o_workspaceId o) ADMIN -> Forall price_ok (prices o) ->
    fits d o (overrides d) = Ok tt -> late_step d (set_overrides (overrides d ++ [o]) d)
| lt_override_patch o r body i out cr cw :
    seen (fun d0 => o ∈ overrides d0) -> seen_role (o_workspaceId o) ADMIN ->
    (patched (op_provider body) (o_provider o) = o_provider o /\
     patched (op_modelPattern body) (o_modelPattern o) = o_modelPattern o \/ seen_role (o_workspaceId o) OWNER) ->
    Forall new_price_ok [i; out; cr; cw] -> r ∈ overrides d -> o_id r = o_id o ->
    fits d (patch_override body i out cr cw r) (others o_id r (overrides d)) = Ok tt ->
    late_step d (set_overrides (update_rows (with_key (o_id r)) (patch_override body i out cr cw) (overrides d)) d)
| lt_override_delete ws p :
    seen_role ws ADMIN -> (forall o, p o = true -> o_workspaceId o = ws) ->
    late_step d (set_overrides (remove_rows p (overrides d)) d)
(** Export jobs *)
| lt_export user uid m j :
    acts E rq user uid -> seen (fun d0 => m ∈ members d0) -> m_userId m = uid ->
    m_workspaceId m = xj_workspaceId (ej_job j) ->
    ej_requestedById j = uid -> xj_status (ej_job j) = PENDING ->
    wide (m_role m) = true \/ xp_scopeUserId (xj_params (ej_job j)) = if_truthy (Some (au_id user)) ->
    fits d j (export_jobs d) = Ok tt -> late_step d (set_export_jobs (export_jobs d ++ [j]) d).

End late.

(** ** The rules

    [tracks past m K]: on whatever tables the operations of [m] run, each makes
    a [Step] from what the request saw so far, and a value [m] returns satisfies
    [K] with all it has seen by then. *)
Section tracks.
Context (Step : list ApiDb -> ApiDb -> ApiDb -> Prop) (Hstay : forall past d, Step past d d).

Fixpoint tracks {A} (past : list ApiDb) (m : H A) (K : list ApiDb -> A -> Prop) : Prop :=
  match m with
  | HRet (Ok a) => K past a
  | HRet (Throw _) => True
  | HOp step =>
      forall w, let '(w', rest) := step w in Step (db w :: past) (db w) (db w') /\ tracks (db w :: past) rest K
  end.

Lemma tracks_ret {A} (a : A) past (K : list ApiDb -> A -> Prop) : K past a -> tracks past (mret a) K.
Proof. done. Qed.
Lemma tracks_throw {A} e past (K : list ApiDb -> A -> Prop) : tracks past (throw e) K.
Proof. done. Qed.
Lemma tracks_fail {A} e past (K : list ApiDb -> A -> Prop) : tracks past (fail e) K.
Proof. done. Qed.
Lemma tracks_bind {A B} (m : H A) (f : A -> H B) past K :
  tracks past m (fun past' a => tracks past' (f a) K) -> tracks past (m ≫= f) K.
Proof.
  unfold mbind, H_bind. revert past. induction m as [[a|e]|step IH] using H_rect_ops; intros past; [done..|]. cbn.
  intros Hm w. specialize (Hm w). destruct (step w) as [w' rest] eqn:Es. destruct Hm as [Hs Hk].
  split; [done|by eapply IH].
Qed.
Lemma tracks_weaken {A} (m : H A) past (K K' : list ApiDb -> A -> Prop) :
  (forall past' a, K past' a -> K' past' a) -> tracks past m K -> tracks past m K'.
Proof.
  intros HK. revert past. induction m as [[a|e]|step IH] using H_rect_ops; intros past; cbn; [by apply HK|done|].
  intros Hm w. specialize (Hm w). destruct (step w) as [w' rest] eqn:Es. destruct Hm as [Hs Hk].
  split; [done|by eapply IH].
Qed.
Lemma tracks_op {A} (op : Op A) past (K : list ApiDb -> A -> Prop) :
  (forall w, match op w with
             | (w', Ok a) => Step (db w :: past) (db w) (db w') /\ K (db w :: past) a
             | (w', Throw _) => db w' = db w
             end) -> tracks past (perform_op op) K.
Proof.
  intros Hop w. specialize (Hop w). destruct (op w) as [w' [a|e]]; cbn; [done|]. rewrite Hop. auto.
Qed.
Lemma tracks_gets {A} (f : ApiDb -> A) past (K : list ApiDb -> A -> Prop) :
  (forall d, K (d :: past) (f d)) -> tracks past (gets f) K.
Proof. intros HK. apply tracks_op. intros w. by split. Qed.
Lemma tracks_say m past (K : list ApiDb -> unit -> Prop) : (forall d, K (d :: past) tt) -> tracks past (say m) K.
Proof. intros HK. apply tracks_op. intros w. by split. Qed.
Lemma tracks_require b e past (K : list ApiDb -> unit -> Prop) : (b = true -> K past tt) -> tracks past (require b e) K.
Proof. destruct b; [|done]. intros HK. by apply HK. Qed.
Lemma tracks_parse {A} (z : schema A) body past (K : list ApiDb -> A -> Prop) :
  (forall a, z body = Some a -> K past a) -> tracks past (parse z body) K.
Proof. unfold parse. intros HK. destruct (z body); [by apply HK|done]. Qed.
Lemma tracks_of_js {A} (r : js A) past (K : list ApiDb -> A -> Prop) :
  (forall a, r = Ok a -> K past a) -> tracks past (of_js r) K.
Proof. destruct r; [intros HK; by apply HK|done]. Qed.
Lemma tracks_of_random {A} (o : option A) past (K : list ApiDb -> A -> Prop) :
  (forall a, o = Some a -> K past a) -> tracks past (of_random o) K.
Proof. destruct o; [intros HK; by apply HK|done]. Qed.
Lemma tracks_uuid E s past (K : list ApiDb -> string -> Prop) :
  (forall u, e_uuid E s = Some u -> K past u) -> tracks past (uuid E s) K.
Proof. unfold uuid. intros HK. destruct (e_uuid E s); [by apply HK|done]. Qed.
Lemma tracks_uuids E l past (K : list ApiDb -> list string -> Prop) :
  (forall us, mapM (e_uuid E) l = Some us -> K past us) -> tracks past (uuids E l) K.
Proof.
  revert K; induction l as [|s l IH]; intros K HK; [by apply tracks_ret, HK|]. cbn [uuids].
  apply tracks_bind, tracks_uuid. intros u Hu. apply tracks_bind, IH. intros us Hus.
  apply tracks_ret, HK. cbn. by rewrite Hu, Hus.
Qed.
(** A transaction is one operation of its whole body. *)
Lemma tracks_transaction {A} (m : H A) past (K : list ApiDb -> A -> Prop) :
  (forall w, safe (fun _ => True) m w (fun a w' => Step (db w :: past) (db w) (db w') /\ K (db w :: past) a)) ->
  tracks past (transaction m) K.
Proof.
  intros Hm. apply tracks_op. intros w. specialize (Hm w). unfold safe in Hm.
  by destruct (run m w) as [w' [a|e]].
Qed.
Lemma tracks_recode {A} code e (m : H A) past (K : list ApiDb -> A -> Prop) :
  tracks past m K -> tracks past (recode code e m) K.
Proof.
  revert past. induction m as [[a|[]]|step IH] using H_rect_ops; intros past; cbn; [done..|].
  intros Hm w. specialize (Hm w). destruct (step w) as [w' rest] eqn:Es. destruct Hm as [Hs Hk].
  split; [done|by eapply IH].
Qed.

Section tables.
Context {R : Type} {TR : Table R}.
Lemma tracks_findFirst (p : R -> bool) past (K : list ApiDb -> option R -> Prop) :
  (forall d r, List.find p (rows_of d) = Some r -> r ∈ rows_of d -> p r = true -> K (d :: past) (Some r)) ->
  (forall d, List.find p (rows_of d) = None -> K (d :: past) None) -> tracks past (findFirst p) K.
Proof.
  intros Hs Hn. apply tracks_gets. intros d. destruct (List.find p (rows_of d)) as [r|] eqn:Ef; [|by apply Hn].
  destruct (find_some _ _ Ef) as [Hin Hp]. apply Hs; [done| |done]. by apply list_elem_of_In.
Qed.
Lemma tracks_findMany (p : R -> bool) past (K : list ApiDb -> list R -> Prop) :
  (forall d, K (d :: past) (List.filter p (rows_of d))) -> tracks past (findMany p) K.
Proof. apply tracks_gets. Qed.
Lemma tracks_count (p : R -> bool) past (K : list ApiDb -> nat -> Prop) :
  (forall d, K (d :: past) (length (List.filter p (rows_of d)))) -> tracks past (count p) K.
Proof. apply (tracks_gets (fun d => length (List.filter p (rows_of d)))). Qed.

(** A write, by the rule of ApiRules.v for the same operation. *)
Lemma tracks_write {A} (op : Op A) past (K : list ApiDb -> A -> Prop) :
  (forall w, safe (fun d => d = db w) (perform_op op) w
     (fun a w' => Step (db w :: past) (db w) (db w') /\ K (db w :: past) a)) ->
  tracks past (perform_op op) K.
Proof.
  intros Hop. apply tracks_op. intros w. specialize (Hop w). unfold safe in Hop. cbn in Hop.
  by destruct (op w) as [w' [a|e]].
Qed.
Lemma tracks_create (r : R) past (K : list ApiDb -> unit -> Prop) :
  (forall d, fits d r (rows_of d) = Ok tt -> Step (d :: past) d (set_rows (rows_of d ++ [r]) d) /\ K (d :: past) tt) ->
  tracks past (create r) K.
Proof. intros HK. apply tracks_write. intros w. apply safe_create; [done|]. apply HK. Qed.
Lemma tracks_updateMany (p : R -> bool) f past (K : list ApiDb -> unit -> Prop) :
  (forall d, Step (d :: past) d (set_rows (update_rows p f (rows_of d)) d) /\ K (d :: past) tt) ->
  tracks past (updateMany p f) K.
Proof. intros HK. apply tracks_write. intros w. apply safe_updateMany, HK. Qed.
Lemma tracks_update (p : R -> bool) f past (K : list ApiDb -> R -> Prop) :
  (forall d r, List.find p (rows_of d) = Some r -> r ∈ rows_of d -> p r = true ->
     fits d (f r) (List.filter (fun x => negb (with_key (row_key r) x)) (rows_of d)) = Ok tt ->
     Step (d :: past) d (set_rows (update_rows (with_key (row_key r)) f (rows_of d)) d) /\ K (d :: past) (f r)) ->
  tracks past (update p f) K.
Proof. intros HK. apply tracks_write. intros w. apply safe_update; [done|]. intros. by apply HK. Qed.
Lemma tracks_deleteMany (p : R -> bool) past (K : list ApiDb -> nat -> Prop) :
  (forall d, (forall r, r ∈ rows_of d -> p r = true -> restricted d r = false) ->
     Step (d :: past) d (set_rows (remove_rows p (rows_of d)) d) /\
     K (d :: past) (length (List.filter p (rows_of d)))) ->
  tracks past (deleteMany p) K.
Proof. intros HK. apply tracks_write. intros w. apply safe_deleteMany; [done|]. apply HK. Qed.
Lemma tracks_delete_one (p : R -> bool) past (K : list ApiDb -> unit -> Prop) :
  (forall d r, List.find p (rows_of d) = Some r -> r ∈ rows_of d -> p r = true -> restricted d r = false ->
     Step (d :: past) d (cascade r (set_rows (remove_rows (with_key (row_key r)) (rows_of d)) d)) /\ K (d :: past) tt) ->
  tracks past (delete_one p) K.
Proof. intros HK. apply tracks_write. intros w. apply safe_delete_one; [done|]. intros. by apply HK. Qed.
End tables.
End tracks.
