(* ===== verification/ApiTracks.v ===== *)
(** * Every operation of every handler is a permitted one

    By the rules of ApiLate.v, handler by handler: whatever other requests do
    between its operations, what a request writes is a [late_step] from what it
    has seen. *)

From S2P Require Import Prelude JsString JsNum JsDate Json Shared Queue Auth Providers Gateway Persist Export Zod ApiDb ApiAuth.
From S2P Require Import ApiKeys ApiMembers ApiOrg ApiPricing ApiReports ApiServer ApiRules ApiSteps ApiRefine ApiEffects ApiSafety ApiLate.

(** One rule; a write leaves its step to prove. *)
Ltac track1 :=
  lazymatch goal with
  | |- tracks _ _ (_ ≫= _) _ => apply tracks_bind
  | |- tracks _ _ (mret _) _ => apply tracks_ret
  | |- tracks _ _ (throw _) _ => apply tracks_throw
  | |- tracks _ _ (fail _) _ => apply tracks_fail
  | |- tracks _ _ (gets _) _ => apply tracks_gets; [apply lt_stay|intros ?]
  | |- tracks _ _ (say _) _ => apply tracks_say; [apply lt_stay|intros ?]
  | |- tracks _ _ (require _ _) _ => let F := fresh "F" in apply tracks_require; intros F; try discriminate F
  | |- tracks _ _ (parse _ _) _ => apply tracks_parse; intros ? ?
  | |- tracks _ _ (of_js _) _ => apply tracks_of_js; intros ? ?
  | |- tracks _ _ (of_random _) _ => apply tracks_of_random; intros ? ?
  | |- tracks _ _ (uuid _ _) _ => apply tracks_uuid; intros ? ?
  | |- tracks _ _ (uuids _ _) _ => apply tracks_uuids; intros ? ?
  | |- tracks _ _ (findFirst _) _ => apply tracks_findFirst; [apply lt_stay|intros ? ? ? ? ?|intros ? ?]
  | |- tracks _ _ (findMany _) _ => apply tracks_findMany; [apply lt_stay|intros ?]
  | |- tracks _ _ (count _) _ => apply tracks_count; [apply lt_stay|intros ?]
  | |- tracks _ _ (create _) _ => apply tracks_create; [apply lt_stay|]; intros ? ?; split
  | |- tracks _ _ (updateMany _ _) _ => apply tracks_updateMany; [apply lt_stay|]; intros ?; split
  | |- tracks _ _ (update _ _) _ => apply tracks_update; [apply lt_stay|]; intros ? ? ? ? ? ?; split
  | |- tracks _ _ (deleteMany _) _ => apply tracks_deleteMany; [apply lt_stay|]; intros ? ?; split
  | |- tracks _ _ (delete_one _) _ => apply tracks_delete_one; [apply lt_stay|]; intros ? ? ? ? ? ?; split
  | |- tracks _ _ (transaction _) _ => apply tracks_transaction; [apply lt_stay|]; intros ?
  | |- tracks _ _ (recode _ _ _) _ => apply tracks_recode
  | |- tracks _ _ (match ?x with _ => _ end) _ => let F := fresh "F" in destruct x eqn:F
  | |- tracks _ _ (if ?b then _ else _) _ => let F := fresh "F" in destruct b eqn:F
  | |- safe _ _ _ _ => run1
  | |- late_step _ _ _ _ _ _ /\ _ => split
  end; cbv beta zeta; cbn [is_Some rows_of set_rows].
Ltac track := repeat track1; try exact I; tidy.

(** A table the request saw, with a fact in scope about it. *)
Ltac back :=
  repeat first [ apply list_elem_of_here | apply list_elem_of_further
               | match goal with H : _ ⊆ ?p |- _ ∈ ?p => apply H end | eassumption ].
Ltac sees := eexists; split; [|first [eassumption | eapply role_of; eassumption | eapply by_role_of; eassumption]]; back.

Lemma seen_weaken past past' P : past ⊆ past' -> seen past P -> seen past' P.
Proof. intros Hsub (d & Hd & HP). exists d. split; [by apply Hsub|done]. Qed.

Section tracks.
Context (E : ApiEnv) (rq : ApiRequest) (tok : option string).
Notation tracks := (tracks (late_step E rq tok)).
Notation seen := ApiLate.seen.

Definition late {A} (m : H A) : Prop := tracks [] m (fun _ _ => True).

(** ** Guards the handlers share *)
Lemma tracks_authenticate past (K : list ApiDb -> AuthedUser -> Prop) :
  (forall user, authenticated E rq user -> K past user) -> tracks past (makeAuthenticate E rq) K.
Proof.
  unfold authenticated, makeAuthenticate. intros HK.
  destruct (rq_authorization rq) as [header|]; [|done]. destruct (starts_with _ _); [|done].
  destruct (verifyAccessToken _ _ _ _) as [claims|]; [|done]. by apply HK.
Qed.
Lemma tracks_route {A} min ws (handler : AuthedUser -> WorkspaceContext -> H A) past (K : list ApiDb -> A -> Prop) :
  (forall d user uid ctx m, acts E rq user uid -> e_uuid E (au_id user) = Some uid ->
     m ∈ members d -> m_userId m = uid -> m_workspaceId m = wc_workspaceId ctx ->
     m_role m = wc_role ctx -> hasMinimumRole (wc_role ctx) min = true ->
     tracks (d :: past) (handler user ctx) K) ->
  tracks past (ws_route E rq min ws handler) K.
Proof.
  intros HK. unfold ws_route. apply tracks_bind, tracks_authenticate. intros user Hu. apply tracks_bind.
  unfold makeWorkspaceGuard. track1. track1. track1. track1.
  destruct (List.find (member_of E ws u d) (members d)) as [m|] eqn:Em; cbn; [|done].
  destruct (find_workspace d (ws_named E ws) m) as [x|] eqn:Ex; cbn; [|done].
  apply tracks_bind, tracks_require. intros Hr. apply tracks_ret.
  apply find_some in Em as [Hin Hm]. apply andb_true_iff in Hm as [Hm _].
  apply find_some in Ex as [_ Hx]. apply andb_true_iff in Hx as [Hx _].
  apply String.eqb_eq in Hm, Hx. apply list_elem_of_In in Hin. by apply (HK d user u _ m).
Qed.
Ltac route :=
  lazymatch goal with
  | |- ApiLate.tracks _ _ (ws_route _ _ _ _ _) _ => apply tracks_route; intros d user uid ctx m Hacts Huid Hm Hmu Hmw Hrole Hmin;
      pose proof (proj1 Hacts : authenticated E rq user) as Hauth
  end.

(** ** Sessions *)
Lemma tracks_issue id user familyId past (K : list ApiDb -> string -> Prop) :
  (forall d s, s_userId s = u_id user -> s_familyId s = familyId -> issued E s -> fits d s (sessions d) = Ok tt ->
     late_step E rq tok (d :: past) d (set_sessions (sessions d ++ [s]) d)) ->
  (forall past' token, K past' token) -> tracks past (issueSession E rq id user familyId) K.
Proof. intros Hf HK. unfold issueSession. track; [|apply HK]. apply Hf; try done. split_and!; [done|done|by exists a]. Qed.
Lemma register_late : late (register E rq).
Proof.
  unfold late, register, uniqueSlug. track.
  all: assert (registers E rq (mkUser (e_id E 0) (rb_email a) (Some a0) (rb_name a) true)) as Hr by (by exists a, a0).
  all: lazymatch goal with
    | |- late_step _ _ _ _ ?d _ => eapply (lt_register E rq tok _ d); [exact Hr|eassumption..| | | |]; done
    | |- _ => apply tracks_issue; [intros d' s' Hu Hf Hi Hfit|intros; track]
    end.
  all: eapply lt_session; [by left|done..].
Qed.
Lemma login_late : late (login E rq).
Proof.
  unfold late, login. track. look. subst. apply tracks_issue; [intros d' s' Hu Hf Hi Hfit|intros; track].
  eapply (lt_session E rq tok _ _ r); try done. right. split; [sees|]. by exists s, s0, s1.
Qed.
Lemma refresh_late : late (ApiAuth.refresh E rq).
Proof.
  unfold late, ApiAuth.refresh. destruct (rq_refresh_cookie rq) as [[|c t]|] eqn:Ht; [done| |done]. track.
  all: assert (presents E rq d s) as Hs by (eapply presents_found; [exact Ht|done|exact F]).
  - apply lt_revoke. intros x _ [Hx _]%andb_true_iff. exists s. split; [sees|right].
    split; [congruence|by apply String.eqb_eq].
  - apply lt_revoke. intros x _ Hx%String.eqb_eq. exists s. split; [sees|left]. look. cbn in *. congruence.
  - apply session_user in F. match goal with G : (_ <? _) = false |- _ => apply Z.ltb_ge in G end.
    apply tracks_issue; [intros d' s' Hu Hf Hi Hfit|intros; track].
    apply (lt_rotate E rq tok _ _ s); try done; [sees|split_and!; [done|congruence|done]].
Qed.
Lemma logout_late : late (logout E rq).
Proof.
  unfold late, logout. destruct (rq_refresh_cookie rq) as [[|c t]|] eqn:Ht; track.
  apply lt_revoke. intros x Hx Hp. exists x. split; [|by left]. exists d. split; [back|].
  by exists (String c t).
Qed.

(** ** Virtual keys *)
Lemma tracks_pins ws creds base past0 d (K : list ApiDb -> list Provider -> Prop) :
  (forall past ids ps, mapM (e_uuid E) creds = Some ids -> d :: past0 ⊆ past ->
     seen past (fun d0 => pins d0 ws ids base ps) -> K past ps) ->
  tracks (d :: past0) (resolveProviderAllowlist E ws creds base) K.
Proof.
  intros HK. destruct creds as [|c creds].
  - apply tracks_ret, (HK _ []); [done..|]. exists d. split; [back|by left].
  - unfold resolveProviderAllowlist. track. match goal with F : (_ =? _)%nat = true |- _ => apply Nat.eqb_eq in F end.
    eapply HK; [eassumption|by right|]. eexists. split; [back|]. right. split; [|done].
    match goal with G : mapM _ _ = Some _, F : length _ = _ |- _ => rewrite <- (length_mapM _ _ _ G); exact F end.
Qed.
Lemma tracks_own_key user ctx keyId verb past (K : list ApiDb -> VirtualKey -> Prop) :
  (forall d k, k ∈ virtual_keys d -> k_workspaceId k = wc_workspaceId ctx ->
     k_userId k = au_id user \/ isAdmin ctx = true -> K (d :: past) k) ->
  tracks past (own_key E user ctx keyId verb) K.
Proof.
  intros HK. unfold own_key. track. look.
  match goal with F : _ || _ = true |- _ => apply orb_true_iff in F as [F|F] end; look; apply HK; auto.
Qed.
Lemma issueKey_late ws : e_uuid E "" = None -> late (issueKey E rq ws).
Proof.
  intros Hempty. unfold late, issueKey. route. track; try done.
  apply tracks_pins. intros past ids ps Hids Hpast Hpins. track. look.
  assert (us = ids) as -> by congruence.
  eapply (lt_key E rq tok _ _ user uid _ r (ib_providerAllowlist a)); try done; try sees; cbn.
  - destruct (ib_userId a) as [t|]; [|left; cbn in *; congruence].
    match goal with F : _ || _ || _ = true |- _ => apply orb_true_iff in F as [[F|F]%orb_true_iff|F] end; look;
      cbn in *; [congruence|left; congruence|right; sees].
  - eapply seen_weaken; [|exact Hpins]. by right.
Qed.
Lemma tracks_propagate hash message past (K : list ApiDb -> unit -> Prop) :
  (forall past', K past' tt) -> tracks past (propagate E hash message) K.
Proof. intros HK. unfold propagate. track; apply HK. Qed.
(** The key a caller found and may touch. *)
Lemma late_touch_of past d d0 user uid m (ctx : WorkspaceContext) k :
  acts E rq user uid -> m ∈ members d -> m_userId m = uid -> m_workspaceId m = wc_workspaceId ctx ->
  m_role m = wc_role ctx -> hasMinimumRole (wc_role ctx) MEMBER = true -> k_workspaceId k = wc_workspaceId ctx ->
  k_userId k = au_id user \/ isAdmin ctx = true -> d ∈ past -> d0 ∈ past -> late_touch E rq past k.
Proof.
  intros Ha Hm Hmu Hmw Hr Hmin Hk Hown Hd Hd0. exists user, uid. rewrite Hk. split_and!; [done|sees|].
  destruct Hown as [|Had]; [by left|right]. unfold isAdmin in Had. sees.
Qed.
Lemma revokeKey_late ws keyId : late (revokeKey E rq ws keyId).
Proof.
  unfold late, revokeKey. route. track. apply tracks_own_key. intros d0 k Hk Hkw Hown. track.
  - look. eapply (lt_key_revoke E rq tok _ _ k); [sees| |done|done]. by eapply late_touch_of; try back.
  - by apply tracks_propagate.
Qed.
Lemma patchKey_late ws keyId : late (patchKey E rq ws keyId).
Proof.
  unfold late, patchKey. route. track. apply tracks_own_key. intros d0 k Hk Hkw Hown.
  apply tracks_bind.
  assert (forall (K : list ApiDb -> option (list Provider) -> Prop),
    (forall past ids ps, mapM (e_uuid E) (kp_credentialAllowlist a ?? []) = Some ids -> [d0; d] ⊆ past ->
       (kp_credentialAllowlist a = None -> ps = None) ->
       (kp_credentialAllowlist a <> None ->
          exists l, ps = Some l /\ seen past (fun x => pins x (k_workspaceId k) ids (k_providerAllowlist k) l)) ->
       K past ps) ->
    tracks [d0; d]
      (match kp_credentialAllowlist a with
       | None => mret None
       | Some l => p ← resolveProviderAllowlist E (wc_workspaceId ctx) l (k_providerAllowlist k); mret (Some p)
       end) K) as Hpins.
  { intros K HK. destruct (kp_credentialAllowlist a) as [l|]; [|by apply tracks_ret, (HK _ [])].
    apply tracks_bind, tracks_pins. intros past ids ps Hids Hpast Hp. apply tracks_ret.
    apply (HK past ids); [done|done|done|]. intros _. exists ps. by rewrite Hkw. }
  apply Hpins. clear Hpins. intros past ids ps Hids Hpast Hnone Hsome. track; look;
    try by apply tracks_propagate.
  all: eapply (lt_key_patch E rq tok _ _ k); [sees|by eapply late_touch_of; try back|done|done| |]; try done.
  intros l' [= <-]. destruct Hsome as (lp & -> & Hl); [congruence|]. exists lp. split; [done|].
  cbn in Hids. assert (us = ids) as -> by congruence. eapply seen_weaken; [|exact Hl]. by right.
Qed.

(** ** Credentials *)
Lemma tracks_own_credential ctx id past (K : list ApiDb -> Credential -> Prop) :
  (forall d c, c ∈ credentials d -> c_workspaceId c = wc_workspaceId ctx -> K (d :: past) c) ->
  tracks past (own_credential E ctx id) K.
Proof. intros HK. unfold own_credential. track. look. by apply HK. Qed.
Lemma createCredential_late ws : late (createCredential E rq ws).
Proof.
  unfold late, createCredential. route. track.
  apply safe_undefault. intros w1 Hw1. run. apply safe_seal; [done|]. intros [sealed last4]. run.
  split; [|done]. rewrite Hw1 in *. cbn in *.
  eapply (lt_credential E rq tok _ (db w) (cb_isDefault a)
    (mkCredential _ (wc_workspaceId ctx) (cb_provider a) _ _ _ _ _ _ _ _)); [sees|done].
Qed.
Lemma patchCredential_late ws id : late (patchCredential E rq ws id).
Proof.
  unfold late, patchCredential. route. track. apply tracks_own_credential. intros d0 c Hc Hcw. track.
  apply safe_undefault. intros w1 Hw1. run. apply safe_seal; [done|]. intros [sealed last4]. run. look.
  split; [|done]. rewrite Hw1 in *. cbn in *. rewrite <- Hcw in *.
  eapply (lt_credential_patch E rq tok _ (db w) c r a sealed last4); try done; try sees.
  exists d. split; [back|]. rewrite Hcw in *. by eapply by_role_of.
Qed.
Lemma deleteCredential_late ws id : late (deleteCredential E rq ws id).
Proof.
  unfold late, deleteCredential. route. track. apply tracks_own_credential. intros d0 c Hc Hcw. track. look.
  apply (lt_credential_delete E rq tok _ _ c); try done; try sees. rewrite Hcw. sees.
Qed.

(** ** Members and invitations *)
Lemma invite_late ws : late (invite E rq ws).
Proof.
  unfold late, invite. route. track. 
  match goal with F : inviteSchema _ _ = Some _ |- _ => apply inviteSchema_role in F end.
  apply lt_invite; try done. sees.
Qed.
Lemma reissueLink_late ws id : late (reissueLink E rq ws id).
Proof.
  unfold late, reissueLink. route. track. look. unfold open_invitation in *. look.
  apply (lt_relink E rq tok _ _ r); try done; try sees; [|by destruct (i_acceptedAt _)].
  match goal with F : i_workspaceId _ = wc_workspaceId ctx |- _ => rewrite F end. sees.
Qed.
Lemma withdrawInvitation_late ws id : late (withdrawInvitation E rq ws id).
Proof.
  unfold late, withdrawInvitation. route. track.
  apply (lt_withdraw E rq tok _ _ (wc_workspaceId ctx)); [sees|]. intros i Hi. by look.
Qed.
Lemma tracks_find_member ws uid userId past (K : list ApiDb -> Member -> Prop) :
  (forall d m, m ∈ members d -> m_workspaceId m = ws -> m_userId m = uid -> K (d :: past) m) ->
  tracks past (find_member ws uid userId) K.
Proof. intros HK. unfold find_member. track. look. by apply HK. Qed.
Lemma tracks_keep_an_owner ws message target past (K : list ApiDb -> unit -> Prop) :
  (forall past', past ⊆ past' ->
     (m_role target = OWNER -> seen past' (fun d0 => (2 <= owner_count ws d0)%nat)) -> K past' tt) ->
  tracks past (keep_an_owner ws message target) K.
Proof.
  intros HK. unfold keep_an_owner. track.
  - apply HK; [by right|]. intros _. eexists. split; [back|].
    match goal with F : (1 <? _)%nat = true |- _ => apply Nat.ltb_lt in F; unfold owner_count end. lia.
  - apply HK; [done|]. match goal with F : bool_decide _ = false |- _ => apply bool_decide_eq_false in F end. done.
Qed.
Lemma updateMember_late ws userId : late (updateMember E rq ws userId).
Proof.
  unfold late, updateMember. route. track. apply tracks_find_member. intros d0 t Ht Htw Htu.
  match goal with F : updateMemberSchema _ = Some ?r |- _ => apply updateMemberSchema_role in F; rename r into role end.
  track; [by look|]. apply tracks_keep_an_owner. intros past Hpast Howners. track. look.
  apply lt_role; try done.
  - assert (m_workspaceId r = wc_workspaceId ctx) as -> by done. sees.
  - exists t. split_and!; [sees|congruence|congruence|]. intros Ho. 
    assert (m_workspaceId r = wc_workspaceId ctx) as -> by done.
    eapply seen_weaken; [|by apply Howners]. by right.
Qed.
Lemma removeMember_late ws userId : late (removeMember E rq ws userId).
Proof.
  unfold late, removeMember. route. track. apply tracks_find_member. intros d0 t Ht Htw Htu.
  apply tracks_bind, tracks_keep_an_owner. intros past Hpast Howners. track. look.
  assert (m_workspaceId r = wc_workspaceId ctx) as Hrw by done.
  apply (lt_leave E rq tok _ _ user uid); rewrite ?Hrw; try done; try sees.
  - match goal with F : _ || _ = true |- _ => apply orb_true_iff in F as [F|F] end; look.
    + left. congruence.
    + right. sees.
  - exists t. split_and!; [sees|congruence|congruence|]. intros Ho.
    eapply seen_weaken; [|by apply Howners]. by right.
Qed.
Lemma tracks_findValidInvitation token past (K : list ApiDb -> Invitation * Workspace -> Prop) :
  (forall d i x, i ∈ invitations d -> by_invite_token E token i = true -> i_acceptedAt i = None ->
     e_now E <= i_expiresAt i -> K (d :: past) (i, x)) ->
  tracks past (findValidInvitation E token) K.
Proof.
  intros HK. unfold findValidInvitation. track1. track1.
  destruct (List.find (by_invite_token E token) (invitations d)) as [i|] eqn:Ei; [|done].
  cbn [mbind option_bind]. destruct (List.find (with_key (i_workspaceId i)) (workspaces d)) as [x|]; [|done].
  cbn [mbind option_bind]. track. apply find_some in Ei as [Hin%list_elem_of_In Ht]. look.
  match goal with F : (_ <? _) = false |- _ => apply Z.ltb_ge in F end. by apply HK.
Qed.
Lemma acceptInvitation_late token : tok = Some token -> late (acceptInvitation E rq token).
Proof.
  intros Htok. unfold late, acceptInvitation. track1; track1. destruct a as [name password]. track1.
  apply tracks_findValidInvitation. intros d i x Hi Ht Ha Hx. unfold invited_user. track; look.
  1,3: lazymatch goal with
    | |- late_step _ _ _ _ ?d (set_invitations (update_rows (with_key (i_id ?r)) _ _) (set_members (_ ++ [?m]) _)) =>
        eapply (lt_accept E rq tok _ d i r token m); try reflexivity; try done; try sees
    end.
  - left. split; [sees|done].
  - right. by exists s, s0, a.
  - eapply (lt_account E rq tok _ _ _ i token); try done; [sees|]. by exists s, s0, a.
Qed.

(** ** Projects *)
Lemma tracks_check_team ws teamId past (K : list ApiDb -> option string -> Prop) :
  (forall past' t, past ⊆ past' -> (forall x, t = Some x -> seen past' (fun d0 => team_of d0 ws x)) -> K past' t) ->
  tracks past (check_team E ws teamId) K.
Proof.
  intros HK. unfold check_team. track; try (by apply HK). look.
  apply HK; [by right|]. intros x [= <-]. eexists. split; [back|]. by exists r.
Qed.
Lemma createProject_late ws : late (createProject E rq ws).
Proof.
  unfold late, createProject. route. track. apply tracks_check_team. intros past t Hpast Ht. track.
  apply lt_project; [sees| |done]. cbn. intros x Hx. eapply seen_weaken; [|by apply Ht]. by right; right.
Qed.
Lemma tracks_own_project ctx id past (K : list ApiDb -> Project -> Prop) :
  (forall d p, p ∈ projects d -> p_workspaceId p = wc_workspaceId ctx -> K (d :: past) p) ->
  tracks past (own_project E ctx id) K.
Proof. intros HK. unfold own_project. track. look. by apply HK. Qed.
Lemma updateProject_late ws id : late (updateProject E rq ws id).
Proof.
  unfold late, updateProject. route. track. apply tracks_own_project. intros d0 p Hp Hpw. track1.
  assert (forall past teamId b, [d0; d] ⊆ past ->
    (forall x, teamId = Some (Some x) -> seen past (fun d0 => team_of d0 (p_workspaceId p) x)) ->
    tracks past (update (with_key (p_id p)) (patch_project b teamId)) (fun _ _ => True)) as Hup.
  { intros past teamId b Hpast Ht. track. look.
    apply (lt_project_patch E rq tok _ _ p); try done; try sees.
    - exists d. split; [back|]. rewrite Hpw. by eapply by_role_of.
    - intros x Hx. eapply seen_weaken; [|by apply Ht]. by right. }
  track1.
  - track1. apply tracks_check_team. intros past t Hpast Ht. track1. apply Hup; [done|].
    intros x [= ->]. rewrite Hpw. by apply Ht.
  - track1. by apply Hup.
Qed.
Lemma deleteProject_late ws id : late (deleteProject E rq ws id).
Proof.
  unfold late, deleteProject. route. track. apply tracks_own_project. intros d0 p Hp Hpw. track.
  look. cbn in *.
  match goal with F : p_id ?x = p_id p, G : _ || has ev_projectId _ _ = false |- _ =>
    rewrite <- F in *; apply (lt_project_delete E rq tok _ (db w) p x); try done; try sees;
    apply orb_false_iff in G as [_ G]
  end.
  - rewrite Hpw. sees.
  - intros e He Hid. match goal with G : has _ _ _ = false |- _ => apply not_true_iff_false in G; apply G end.
    apply has_spec. by exists e.
  - intros k Hk Hkp. match goal with F : forall r, r ∈ virtual_keys _ -> _ |- _ => apply F end; [done|].
    by apply String.eqb_eq.
Qed.

(** ** Teams *)
Lemma tracks_loadTeam ws teamId past (K : list ApiDb -> Team -> Prop) :
  (forall d t, t ∈ teams d -> t_workspaceId t = ws -> K (d :: past) t) -> tracks past (loadTeam E ws teamId) K.
Proof. intros HK. unfold loadTeam. track. look. by apply HK. Qed.
Lemma tracks_assertCanManageTeam user uid m ctx team d past (K : list ApiDb -> unit -> Prop) :
  acts E rq user uid -> d ∈ past ->
  m ∈ members d -> m_userId m = uid -> m_workspaceId m = wc_workspaceId ctx -> m_role m = wc_role ctx ->
  hasMinimumRole (wc_role ctx) VIEWER = true -> t_workspaceId team = wc_workspaceId ctx ->
  (forall past', past ⊆ past' -> late_manage E rq past' team -> K past' tt) ->
  tracks past (assertCanManageTeam E user ctx team) K.
Proof.
  intros Ha Hd Hm Hmu Hmw Hr Hmin Ht HK. unfold assertCanManageTeam. track.
  - apply HK; [done|]. exists user, uid. rewrite Ht. split_and!; [done|sees|left; sees].
  - look. apply HK; [by right|]. exists user, uid. rewrite Ht. split_and!; [done|sees|right].
    exists r. split_and!; try done; [sees|]. destruct Ha. congruence.
Qed.
(** A route of a team its caller may manage. *)
Lemma tracks_team_route {A} ws teamId (handler : AuthedUser -> WorkspaceContext -> Team -> H A) past
    (K : list ApiDb -> A -> Prop) :
  (forall past' user uid ctx team, past ⊆ past' -> acts E rq user uid -> seen past' (fun d0 => team ∈ teams d0) ->
     t_workspaceId team = wc_workspaceId ctx -> late_manage E rq past' team ->
     tracks past' (handler user ctx team) K) ->
  tracks past
    (ws_route E rq VIEWER ws (fun user ctx =>
       team ← loadTeam E (wc_workspaceId ctx) teamId;
       _ ← assertCanManageTeam E user ctx team; handler user ctx team)) K.
Proof.
  intros HK. route. track1. apply tracks_loadTeam. intros d0 t Ht Htw. track1.
  eapply tracks_assertCanManageTeam; try eassumption; [back|]. intros past' Hsub Hcan.
  eapply HK; try eassumption; [|sees]. intros x Hx. apply Hsub. by right; right.
Qed.
Lemma late_manage_weaken past past' t : past ⊆ past' -> late_manage E rq past t -> late_manage E rq past' t.
Proof.
  intros Hsub (user & uid & Ha & Hv & Hl). exists user, uid. split_and!; [done|by eapply seen_weaken|].
  destruct Hl as [Hl|(l & Hl & ?)]; [left|right; exists l]; eauto using seen_weaken.
Qed.
Ltac kept := first [eapply seen_weaken; [|eassumption] | eapply late_manage_weaken; [|eassumption]]; intros ? ?; back.
Lemma createTeam_late ws : late (createTeam E rq ws).
Proof. unfold late, createTeam. route. track. apply lt_team; [sees|done]. Qed.
Lemma updateTeam_late ws teamId : late (updateTeam E rq ws teamId).
Proof.
  unfold late. apply tracks_team_route. intros past user uid ctx team _ Ha Ht Htw Hcan. track. look.
  apply (lt_team_patch E rq tok _ _ team); try done; kept.
Qed.
Lemma deleteTeam_late ws teamId : late (deleteTeam E rq ws teamId).
Proof.
  unfold late, deleteTeam. route. track. apply tracks_loadTeam. intros d0 t Ht Htw. track. look.
  apply (lt_team_delete E rq tok _ _ t); try done; [sees|rewrite Htw; sees].
Qed.
Lemma addTeamMember_late ws teamId : late (addTeamMember E rq ws teamId).
Proof.
  unfold late. apply tracks_team_route. intros past user uid ctx team _ Ha Ht Htw Hcan. track. look.
  apply (lt_team_member E rq tok _ _ team); try done; [kept|kept|].
  exists r. split_and!; [sees|congruence|done].
Qed.
Lemma updateTeamMember_late ws teamId userId : late (updateTeamMember E rq ws teamId userId).
Proof.
  unfold late. apply tracks_team_route. intros past user uid ctx team _ Ha Ht Htw Hcan. track. look.
  apply (lt_team_role E rq tok _ _ team); try done; kept.
Qed.
Lemma removeTeamMember_late ws teamId userId : late (removeTeamMember E rq ws teamId userId).
Proof.
  unfold late. apply tracks_team_route. intros past user uid ctx team _ Ha Ht Htw Hcan. track.
  apply (lt_team_remove E rq tok _ _ team); try done; [kept|kept|].
  intros x Hx. by look.
Qed.

(** ** Price overrides *)
Lemma tracks_price z past (K : list ApiDb -> Z -> Prop) :
  (price_ok (Decimal z) -> K past (Decimal z)) -> tracks past (numeric_12_6 (Decimal z)) K.
Proof.
  intros HK. unfold numeric_12_6. track. apply HK. split; [apply Decimal_nonneg|]. by apply Z.ltb_lt.
Qed.
Lemma tracks_price_patch v past (K : list ApiDb -> option Z -> Prop) :
  (forall z, new_price_ok z -> K past z) -> tracks past (price_patch v) K.
Proof.
  intros HK. destruct v; [|by apply tracks_ret, HK]. apply tracks_bind, tracks_price. intros Hz.
  apply tracks_ret, HK. by intros z [= <-].
Qed.
Lemma createOverride_late ws : late (createOverride E rq ws).
Proof.
  unfold late, createOverride. route. track. do 4 (apply tracks_price; intros ?; track1). track.
  apply lt_override; [sees| |done]. unfold prices. by rewrite !Forall_cons.
Qed.
Lemma updateOverride_late ws id : late (updateOverride E rq ws id).
Proof.
  unfold late, updateOverride. route. track.
  all: do 4 (apply tracks_price_patch; intros ? ?; track1); track; look.
  all: eapply (lt_override_patch E rq tok _ _ r); try done; try sees; try congruence; try by rewrite !Forall_cons.
  all: try match goal with G : o_workspaceId ?o = wc_workspaceId _ |- _ => rewrite G; sees end.
  all: match goal with G : _ || _ = false |- _ => apply same_target in G; by left | _ => right end.
  all: cbn in F; apply bool_decide_eq_true in F.
  all: match goal with G : o_workspaceId ?o = wc_workspaceId _ |- _ => rewrite G end; exists d; split; [back|].
  all: eapply by_role_of; [eassumption..| |eassumption|eassumption]; by rewrite F.
Qed.
Lemma deleteOverride_late ws id : late (deleteOverride E rq ws id).
Proof.
  unfold late, deleteOverride. route. track. apply (lt_override_delete E rq tok _ _ (wc_workspaceId ctx)); [sees|].
  intros o Ho. by look.
Qed.

(** ** Exports *)
Lemma createExport_late ws : late (createExport E rq ws).
Proof.
  unfold late, createExport. route. track.
  all: eapply (lt_export E rq tok); try done; try sees; try (cbn; congruence).
  all: unfold scopeUserId; rewrite Hrole; cbn; match goal with |- context [wide ?r] => destruct (wide r); auto end.
Qed.

(** ** Routes that only read *)
Ltac reads := intros; unfold late; try route; track.
Lemma me_late : late (me E rq).
Proof. unfold me. reads. apply tracks_authenticate. intros user Hu. track. Qed.
Lemma listWorkspaces_late : late (listWorkspaces E rq).
Proof. unfold listWorkspaces. reads. apply tracks_authenticate. intros user Hu. track. Qed.
Lemma getWorkspace_late ws : late (getWorkspace E rq ws).
Proof. unfold getWorkspace. reads. Qed.
Lemma listProjects_late ws : late (listProjects E rq ws).
Proof. unfold listProjects. reads. Qed.
Lemma listTeams_late ws : late (listTeams E rq ws).
Proof. unfold listTeams. reads. Qed.
Lemma getTeam_late ws id : late (getTeam E rq ws id).
Proof. unfold getTeam, loadTeam. reads. Qed.
Lemma admin_late {A} (handler : H A) :
  tracks [] handler (fun _ _ => True) -> late (admin_route E rq handler).
Proof.
  intros Hh. unfold late, admin_route, makeSuperAdminGuard. apply tracks_bind, tracks_authenticate. intros user Hu.
  by apply tracks_bind, tracks_require.
Qed.
Lemma adminStats_late : late (adminStats E rq).
Proof. apply admin_late. track. Qed.
Lemma adminTimeseries_late : late (adminTimeseries E rq).
Proof. apply admin_late. track. Qed.
Lemma adminWorkspaces_late : late (adminWorkspaces E rq).
Proof. apply admin_late. track. Qed.
Lemma listKeys_late ws : late (listKeys E rq ws).
Proof. unfold listKeys. reads. Qed.
Lemma listCredentials_late ws : late (listCredentials E rq ws).
Proof. unfold listCredentials. reads. Qed.
Lemma listMembers_late ws : late (listMembers E rq ws).
Proof. unfold listMembers. reads. Qed.
Lemma listInvitations_late ws : late (listInvitations E rq ws).
Proof. unfold listInvitations. reads. Qed.
Lemma listModels_late : late (listModels E rq).
Proof. unfold listModels. reads. apply tracks_authenticate. intros user Hu. track. Qed.
Lemma listOverrides_late ws : late (listOverrides E rq ws).
Proof. unfold listOverrides. reads. Qed.
Lemma listUnpriced_late ws : late (listUnpriced E rq ws).
Proof. unfold listUnpriced. reads. Qed.
Lemma listExports_late ws : late (listExports E rq ws).
Proof. unfold listExports, scope_uid. reads. Qed.
Lemma getExport_late ws id : late (getExport E rq ws id).
Proof. unfold getExport, findJob, scope_uid. reads. Qed.
Lemma analyticsSummary_late ws : late (analyticsSummary E rq ws).
Proof. unfold analyticsSummary, scope_uid. reads. Qed.
Lemma usageEvents_late ws : late (usageEvents E rq ws).
Proof. unfold usageEvents, scope_uid. reads. Qed.
Lemma analyticsTimeseries_late ws : late (analyticsTimeseries E rq ws).
Proof. unfold analyticsTimeseries, scope_uid, bind_filters, bind_uuid. reads. Qed.
Lemma analyticsBreakdown_late ws : late (analyticsBreakdown E rq ws).
Proof. unfold analyticsBreakdown, scope_uid, bind_filters, bind_uuid. reads. Qed.
Lemma testCredential_late get ws id : late (testCredential E rq get ws id).
Proof. unfold testCredential, own_credential. reads. Qed.
Lemma showInvitation_late token : late (showInvitation E token).
Proof. unfold showInvitation, findValidInvitation. reads. Qed.
Lemma downloadExport_late stat ws id : late (downloadExport E rq stat ws id).
Proof. unfold downloadExport, findJob, scope_uid. reads. Qed.

(** ** Every route *)
Lemma replies_late {A} st (m : H A) : late m -> late (replies st m).
Proof. intros Hm. apply tracks_bind. eapply tracks_weaken; [|exact Hm]. done. Qed.
End tracks.

Create HintDb late discriminated.
#[export] Hint Constants Opaque : late.
#[export] Hint Variables Opaque : late.
#[export] Hint Resolve
  acceptInvitation_late addTeamMember_late adminStats_late adminTimeseries_late adminWorkspaces_late
  analyticsBreakdown_late analyticsSummary_late analyticsTimeseries_late createCredential_late createExport_late
  createOverride_late createProject_late createTeam_late deleteCredential_late deleteOverride_late
  deleteProject_late deleteTeam_late downloadExport_late getExport_late getTeam_late getWorkspace_late invite_late
  issueKey_late listCredentials_late listExports_late listInvitations_late listKeys_late listMembers_late
  listModels_late listOverrides_late listProjects_late listTeams_late listUnpriced_late listWorkspaces_late
  login_late logout_late me_late patchCredential_late patchKey_late refresh_late register_late reissueLink_late
  removeMember_late removeTeamMember_late revokeKey_late showInvitation_late testCredential_late
  updateMember_late updateOverride_late updateProject_late updateTeamMember_late updateTeam_late usageEvents_late
  withdrawInvitation_late : late.

Lemma perform_late get stat E rq c : e_uuid E "" = None -> late E rq (call_token c) (perform get stat E rq c).
Proof. intros Hempty. destruct c; cbn [perform call_token]; apply replies_late; auto with late. Qed.
