(* ===== verification/ApiLater.v ===== *)
(** * What lasts

    [later d0 d]: rows of [d] under a key that [d0] had are still of the same
    workspace, owner or family, and what was over in [d0] (a session, a key, an
    invitation) is over in [d].  Every change of ApiEffects.v keeps it, so a
    request may rely on it for rows it read a while ago: [late_effect]. *)

From S2P Require Import Prelude JsString JsNum JsDate Json Shared Queue Auth Providers Gateway Persist Export Zod ApiDb ApiAuth.
From S2P Require Import ApiKeys ApiMembers ApiOrg ApiPricing ApiReports ApiServer ApiRules ApiSteps ApiRefine ApiEffects.
From S2P Require Import ApiSafety ApiLate.

(** What a row keeps for as long as it lives. *)
Class Kept (R : Type) := kept : R -> R -> Prop.
#[export] Instance User_kept : Kept User := eq.
#[export] Instance Workspace_kept : Kept Workspace := eq.
#[export] Instance Session_kept : Kept Session := fun a b =>
  s_userId b = s_userId a /\ s_familyId b = s_familyId a /\ s_tokenHash b = s_tokenHash a /\
  s_expiresAt b = s_expiresAt a /\ (s_revokedAt a <> None -> s_revokedAt b <> None).
#[export] Instance Member_kept : Kept Member := fun a b =>
  m_workspaceId b = m_workspaceId a /\ m_userId b = m_userId a /\ (m_role b = OWNER -> m_role a = OWNER).
#[export] Instance Team_kept : Kept Team := fun a b => t_workspaceId b = t_workspaceId a /\ t_slug b = t_slug a.
#[export] Instance TeamMember_kept : Kept TeamMember := fun a b => tm_teamId b = tm_teamId a /\ tm_userId b = tm_userId a.
#[export] Instance Project_kept : Kept Project := fun a b => p_workspaceId b = p_workspaceId a /\ p_slug b = p_slug a.
#[export] Instance Invitation_kept : Kept Invitation := fun a b =>
  i_workspaceId b = i_workspaceId a /\ i_email b = i_email a /\ i_role b = i_role a /\
  (i_acceptedAt a <> None -> i_acceptedAt b <> None).
#[export] Instance Credential_kept : Kept Credential := fun a b =>
  c_workspaceId b = c_workspaceId a /\ c_provider b = c_provider a.
#[export] Instance VirtualKey_kept : Kept VirtualKey := fun a b =>
  k_workspaceId b = k_workspaceId a /\ k_projectId b = k_projectId a /\ k_userId b = k_userId a /\
  k_keyHash b = k_keyHash a /\ (k_status a = KEY_REVOKED -> k_status b = KEY_REVOKED).
#[export] Instance Override_kept : Kept Override := fun a b => o_workspaceId b = o_workspaceId a.

(** [later] is a preorder on rows. *)
Class KeptOrder (R : Type) `{Kept R} := { kept_refl (r : R) : kept r r; kept_trans (a b c : R) : kept a b -> kept b c -> kept a c }.
Ltac keeps := constructor; unfold kept, User_kept, Workspace_kept, Session_kept, Member_kept, Team_kept, TeamMember_kept,
  Project_kept, Invitation_kept, Credential_kept, VirtualKey_kept, Override_kept; naive_solver congruence.
#[export] Instance User_order : KeptOrder User. Proof. keeps. Qed.
#[export] Instance Workspace_order : KeptOrder Workspace. Proof. keeps. Qed.
#[export] Instance Session_order : KeptOrder Session. Proof. keeps. Qed.
#[export] Instance Member_order : KeptOrder Member. Proof. keeps. Qed.
#[export] Instance Team_order : KeptOrder Team. Proof. keeps. Qed.
#[export] Instance TeamMember_order : KeptOrder TeamMember. Proof. keeps. Qed.
#[export] Instance Project_order : KeptOrder Project. Proof. keeps. Qed.
#[export] Instance Invitation_order : KeptOrder Invitation. Proof. keeps. Qed.
#[export] Instance Credential_order : KeptOrder Credential. Proof. keeps. Qed.
#[export] Instance VirtualKey_order : KeptOrder VirtualKey. Proof. keeps. Qed.
#[export] Instance Override_order : KeptOrder Override. Proof. keeps. Qed.

Section descends.
Context {R : Type} {TR : Table R} {KR : Kept R} {OR : KeptOrder R}.
Implicit Types (l : list R) (d : ApiDb).

(** The rows of [l'] under keys of [l]. *)
Definition descends (l l' : list R) : Prop :=
  forall r r', r ∈ l -> r' ∈ l' -> row_key r = row_key r' -> kept r r'.
Lemma descends_refl l : NoDup (map row_key l) -> descends l l.
Proof. intros Hl r r' Hr Hr' Hk. rewrite (NoDup_map_inj row_key l r r') by done. apply kept_refl. Qed.
Lemma descends_create d r l l' :
  descends l' l -> map row_key l' = map row_key l -> fits d r l = Ok tt -> descends l' (l ++ [r]).
Proof.
  intros Hd Hkeys [Hr _]%fits_inv a b Ha [Hb| ->]%in_snoc Hk; [by apply Hd|].
  assert (row_key a ∈ map row_key l) as (x & Hx & Hin)%list_elem_of_fmap
    by (rewrite <- Hkeys; by apply list_elem_of_fmap_2).
  destruct (Hr x Hin). congruence.
Qed.
Lemma descends_update p f l l' :
  (forall x, row_key (f x) = row_key x) -> (forall x, kept x (f x)) -> descends l' l -> descends l' (update_rows p f l).
Proof.
  intros Hf Hk Hl a b Ha (y & Hy & ->)%in_update_rows Hab.
  destruct (p y); [|by apply Hl]. eapply kept_trans; [apply Hl; [done|exact Hy|]|apply Hk].
  by rewrite Hab, Hf.
Qed.
Lemma descends_remove p l l' : descends l' l -> descends l' (remove_rows p l).
Proof. intros Hl a b Ha [Hb _]%in_remove_rows. by apply Hl. Qed.
(** A key that was in the tables before belongs to a row that is still there. *)
Definition fresh_in (past : list ApiDb) (d d' : ApiDb) : bool :=
  forallb (fun r => has row_key (row_key r) (rows_of d)
                    || negb (existsb (fun d0 => has row_key (row_key r) (rows_of d0)) past)) (rows_of d').
Lemma descends_next past d0 d d' :
  d0 ∈ past -> fresh_in past d d' = true -> descends (rows_of d0) (rows_of d) -> descends (rows_of d) (rows_of d') ->
  descends (rows_of d0) (rows_of d').
Proof.
  intros Hd0 Hf H0 H1 a b Ha Hb Hk. unfold fresh_in in Hf. rewrite forallb_forall in Hf.
  apply list_elem_of_In in Hb as Hin. apply Hf in Hin as [Hin|Hno%negb_true_iff]%orb_true_iff.
  - apply has_spec in Hin as (c & Hc & Hcb). eapply kept_trans; [apply H0; [done|exact Hc|congruence]|by apply H1].
  - exfalso. apply not_true_iff_false in Hno. apply Hno. apply existsb_exists. exists d0.
    split; [by apply list_elem_of_In|]. apply has_spec. by exists a.
Qed.
End descends.

Record later (d0 d : ApiDb) : Prop := {
  la_users : descends (users d0) (users d);
  la_sessions : descends (sessions d0) (sessions d);
  la_workspaces : descends (workspaces d0) (workspaces d);
  la_members : descends (members d0) (members d);
  la_teams : descends (teams d0) (teams d);
  la_team_members : descends (team_members d0) (team_members d);
  la_projects : descends (projects d0) (projects d);
  la_invitations : descends (invitations d0) (invitations d);
  la_credentials : descends (credentials d0) (credentials d);
  la_keys : descends (virtual_keys d0) (virtual_keys d);
  la_overrides : descends (overrides d0) (overrides d);
}.
(** Prisma's generated keys are never those of an earlier row. *)
Definition fresh (past : list ApiDb) (d d' : ApiDb) : bool :=
  fresh_in (R := User) past d d' && fresh_in (R := Session) past d d' && fresh_in (R := Workspace) past d d'
  && fresh_in (R := Member) past d d' && fresh_in (R := Team) past d d' && fresh_in (R := TeamMember) past d d'
  && fresh_in (R := Project) past d d' && fresh_in (R := Invitation) past d d'
  && fresh_in (R := Credential) past d d' && fresh_in (R := VirtualKey) past d d'
  && fresh_in (R := Override) past d d'.
Lemma descends_at_once d : keys_ok d -> later d d.
Proof. intros []. constructor; by apply descends_refl. Qed.
Lemma later_next past d0 d d' : d0 ∈ past -> fresh past d d' = true -> later d0 d -> later d d' -> later d0 d'.
Proof.
  unfold fresh. rewrite !andb_true_iff. intros Hd0 Hf [] []. destruct_and?. constructor.
  all: refine (descends_next past d0 d d' Hd0 _ _ _); assumption.
Qed.
Lemma effect_later E d lbl d' : effect E d lbl d' -> keys_ok d -> later d d'.
Proof.
  intros Hs Hk. pose proof (descends_at_once d Hk) as []. destruct Hk, Hs; constructor; cbn; try done;
    first [ by apply descends_remove
          | by apply descends_update
          | by eapply descends_create
          | idtac ].
  all: assert (forall b ws p, descends (credentials d) (undefaulted b ws p (credentials d))) as Hun
    by (intros; rewrite undefaulted_update; by apply descends_update).
  - eapply descends_create; [apply Hun| |eassumption]. symmetry. apply undefaulted_keys.
  - apply descends_update; [done|done|apply Hun].
Qed.

(** The tables [later] speaks of. *)
Class Lasting (R : Type) `{Table R, Kept R} :=
  lasting : forall d0 d, later d0 d -> descends (rows_of (R := R) d0) (rows_of d).
#[export] Instance Team_lasting : Lasting Team := la_teams.
#[export] Instance Project_lasting : Lasting Project := la_projects.
#[export] Instance Invitation_lasting : Lasting Invitation := la_invitations.
#[export] Instance Credential_lasting : Lasting Credential := la_credentials.
#[export] Instance VirtualKey_lasting : Lasting VirtualKey := la_keys.
#[export] Instance Override_lasting : Lasting Override := la_overrides.

(** ** Late steps are changes *)
Section late.
Context (E : ApiEnv) (rq : ApiRequest) (tok : option string) (past : list ApiDb) (d : ApiDb).
Context (Hk : keys_ok d) (Hpast : forall d0, d0 ∈ past -> later d0 d).

(** A row seen before and the present one under its key. *)
Lemma recall {R} `{Lasting R} (x r : R) :
  seen past (fun d0 => x ∈ rows_of d0) -> r ∈ rows_of d -> row_key r = row_key x -> kept x r.
Proof. intros (d0 & Hd0 & Hx) Hr Hid. by apply (lasting d0 d (Hpast d0 Hd0)). Qed.
Lemma recall_team ws t : seen past (fun d0 => team_of d0 ws t) -> team_at d ws t.
Proof.
  intros (d0 & Hd0 & x & Hx & <- & <-) y Hy Hid.
  assert (kept x y) as [Hw _] by (apply recall; [by exists d0|done|done]). done.
Qed.
Lemma seen_team_at t : seen past (fun d0 => t ∈ teams d0) -> team_at d (t_workspaceId t) (t_id t).
Proof. intros (d0 & Hd0 & Hx). apply recall_team. exists d0. split; [done|by exists t]. Qed.
Lemma team_at_of ws t : team_at d ws t -> has t_id t (teams d) = true -> team_of d ws t.
Proof. intros Hat (x & Hx & Hid)%has_spec. exists x. auto. Qed.
Lemma recall_project k p : seen past (fun d0 => p ∈ projects d0) -> p_id p = k_projectId k ->
  p_workspaceId p = k_workspaceId k -> fits d k (virtual_keys d) = Ok tt ->
  exists x, x ∈ projects d /\ p_id x = k_projectId k /\ p_workspaceId x = k_workspaceId k.
Proof.
  intros Hp Hid Hw (_ & _ & Hrefs)%fits_inv. cbn in Hrefs. look.
  match goal with H : has p_id _ _ = true |- _ => apply has_spec in H as (x & Hx & Hx') end.
  exists x. assert (kept p x) as [Hxw _] by (apply recall; [done|done|cbn; congruence]). split_and!; congruence.
Qed.
(** The present row of a credential, before the former default steps back. *)
Lemma recall_credential b c r :
  seen past (fun d0 => c ∈ credentials d0) -> r ∈ undefaulted b (c_workspaceId c) (c_provider c) (credentials d) ->
  c_id r = c_id c ->
  exists y, y ∈ credentials d /\ c_id y = c_id r /\ c_workspaceId y = c_workspaceId c /\ c_provider y = c_provider c.
Proof.
  intros Hc Hr Hid. rewrite undefaulted_update in Hr. apply in_update_rows in Hr as (y & Hy & ->).
  assert (c_id y = c_id c) as Hyc by (revert Hid; by case_match).
  assert (kept c y) as [Hw Hp] by by apply recall. exists y. split_and!; try done. by case_match.
Qed.

(** Guards seen before keep outsiders out. *)
Section outside.
Context (ws : string) (Hout : forall d0, d0 ∈ past -> outsider E rq tok ws d0).
Lemma seen_role_other w min : seen_role E rq past w min -> w <> ws.
Proof. intros (d0 & Hd0 & Hr). by eapply outsider_by_role; [apply Hout|]. Qed.
Lemma seen_has_role_other user uid w min : acts E rq user uid -> seen past (fun d0 => has_role d0 uid w min) -> w <> ws.
Proof. intros Ha (d0 & Hd0 & Hr). by eapply outsider_role; [apply Hout| |]. Qed.
Lemma late_manage_other t : late_manage E rq past t -> t_workspaceId t <> ws.
Proof. intros (user & uid & Ha & Hr & _). by eapply seen_has_role_other. Qed.
Lemma late_touch_other k : late_touch E rq past k -> k_workspaceId k <> ws.
Proof. intros (user & uid & Ha & Hr & _). by eapply seen_has_role_other. Qed.
Lemma seen_member_other user uid m :
  acts E rq user uid -> seen past (fun d0 => m ∈ members d0) -> m_userId m = uid -> m_workspaceId m <> ws.
Proof. intros Ha (d0 & Hd0 & Hm) Hu. by eapply outsider_member; [apply Hout|..]. Qed.
Lemma seen_invitation_other i token :
  seen past (fun d0 => i ∈ invitations d0) -> tok = Some token -> by_invite_token E token i = true ->
  i_workspaceId i <> ws.
Proof. intros (d0 & Hd0 & Hi) Ht Hb. by eapply (proj2 (Hout d0 Hd0)). Qed.
End outside.

(** Why the workspace changed is not that of an outsider. *)
Ltac outside :=
  intros ws0 Hws Hout; first [ discriminate | intros [= Heq] ];
  match goal with
  | H : seen_role _ _ _ _ _ |- _ => apply (seen_role_other ws0 Hout _ _) in H; congruence
  | H : late_manage _ _ _ _ |- _ => apply (late_manage_other ws0 Hout) in H; congruence
  | H : late_touch _ _ _ _ |- _ => apply (late_touch_other ws0 Hout) in H; congruence
  | H : acts _ _ _ ?uid, H' : seen _ (fun d0 => has_role d0 ?uid _ _) |- _ =>
      apply (seen_has_role_other ws0 Hout _ _ _ _ H) in H'; congruence
  | H : acts _ _ _ ?uid, H' : seen _ (fun d0 => ?m ∈ members d0), H'' : m_userId ?m = ?uid |- _ =>
      apply (seen_member_other ws0 Hout _ _ _ H H') in H''; congruence
  | H : seen _ (fun d0 => ?i ∈ invitations d0), H' : by_invite_token _ _ ?i = true, H'' : tok = Some _ |- _ =>
      apply (seen_invitation_other ws0 Hout _ _ H H'') in H'; congruence
  | H : fits _ ?w (workspaces _) = Ok tt |- _ => by apply (new_workspace_other _ _ _ _ H Hws)
  end.
(** The present row is of the workspace of the row seen. *)
Ltac recalled r :=
  match goal with
  | Hs : seen past _, Hr : r ∈ _, Hid : _ r = _ ?x |- _ =>
      let H := fresh "Hkept" in assert (kept x r) as H by (by apply recall); unfold kept in H; hnf in H
  end; repeat match goal with H : _ /\ _ |- _ => destruct H end.

Lemma late_effect d' :
  late_step E rq tok past d d' ->
  exists lbl, effect E d lbl d' /\
    forall ws, has w_id ws (workspaces d) = true -> (forall d0, d0 ∈ past -> outsider E rq tok ws d0) ->
      lbl <> Some ws.
Proof.
  intros Hs. destruct Hs; repeat match goal with x := _ |- _ => subst x end.
  all: try (eexists; split; [solve [econstructor; eauto]|outside]).
  all: try (recalled r; eexists; split; [once (econstructor; eauto; congruence)|outside]).
  - exists (Some ws). split; [|outside]. apply ef_withdraw. intros i Hi.
    match goal with H : forall i, _ -> _ |- _ => by destruct (H i Hi) end.
  - exists (Some (t_workspaceId t)). split; [|outside]. apply ef_team_member; [|done].
    match goal with H : tm_teamId _ = _ |- _ => rewrite H end. by apply seen_team_at.
  - exists (Some (t_workspaceId t)). split; [|outside]. apply ef_team_role; [|done].
    match goal with H : tm_teamId _ = _ |- _ => rewrite H end. by apply seen_team_at.
  - exists (Some (t_workspaceId t)). split; [|outside]. apply ef_team_remove. intros m Hm.
    match goal with H : forall m, _ -> _ |- _ => rewrite (H m Hm) end. by apply seen_team_at.
  - exists (Some (p_workspaceId p)). split; [|outside]. apply ef_project; [|done].
    intros t Ht. apply team_at_of; [by apply recall_team; auto|].
    match goal with H : fits _ _ _ = Ok tt |- _ => apply fits_inv in H as (_ & _ & H) end.
    cbn in *. rewrite Ht in *. by look.
  - recalled r. exists (Some (p_workspaceId r)). split; [|outside]. apply ef_project_patch; [done|].
    intros t ->. replace (p_workspaceId r) with (p_workspaceId p) by congruence.
    apply team_at_of; [by apply recall_team; auto|].
    match goal with H : fits _ _ _ = Ok tt |- _ => apply fits_inv in H as (_ & _ & H) end. cbn in *. by look.
  - destruct (recall_credential (cp_isDefault body) c r) as (y & Hy & Hid & Hw & Hp); [done..|].
    exists (Some (c_workspaceId y)). split; [|outside]. rewrite <- Hid, <- Hw, <- Hp. by apply ef_credential_patch.
  - destruct (recall_project k p) as (x & ? & ? & ?); [done..|].
    exists (Some (k_workspaceId k)). split; [|outside]. by apply (ef_key E d k x).
Qed.
End late.
