(* ===== verification/ApiConcurrent.v ===== *)
(** * Requests side by side

    The API's process: requests arrive at any time and Node resumes them in any
    order, one operation at a time.  Whatever the order, each operation is a
    [late_step] of its request; the tables stay well formed, nobody outside a
    workspace changes it, what is over stays over, and a sole owner stays. *)

From S2P Require Import Prelude JsString JsNum JsDate Json Shared Queue Auth Providers Gateway Persist Export Zod ApiDb ApiAuth.
From S2P Require Import ApiKeys ApiMembers ApiOrg ApiPricing ApiReports ApiServer ApiRules ApiSteps ApiRefine ApiEffects.
From S2P Require Import ApiSafety ApiExample ApiLate ApiTracks ApiLater.

(** ** The process *)
(** A request under way: what is left of its handler and, for the proofs, the
    tables its operations ran on. *)
Record Thread := mkThread {
  th_env : ApiEnv; th_rq : ApiRequest; th_token : option string; th_rest : H Z; th_seen : list ApiDb }.
(** [nd_past]: every state the tables were in before. *)
Record Node := mkNode { nd_world : World; nd_threads : list Thread; nd_past : list ApiDb }.
Inductive NodeEvent := Arrives (r : Request) | Resumes (i : nat).

Section node.
Context (get : UpstreamRequest -> option Z) (stat : string -> bool).

Definition start (r : Request) : Thread :=
  mkThread (r_env r) (r_rq r) (request_token r)
    match find_call (r_method r) (r_path r) with
    | Some c => perform get stat (r_env r) (r_rq r) c
    | None => HRet (Ok 404)
    end [].
(** The next operation of a handler: the tables and messages after it, and what
    is left. *)
Definition resume (w : World) (m : H Z) : World * H Z :=
  match m with HRet r => (w, HRet r) | HOp step => step w end.
Definition happens (n : Node) (e : NodeEvent) : Node :=
  match e with
  | Arrives r => mkNode (nd_world n) (nd_threads n ++ [start r]) (nd_past n)
  | Resumes i =>
      match nd_threads n !! i with
      | None => n
      | Some t =>
          let d := db (nd_world n) in
          let '(w, m) := resume (nd_world n) (th_rest t) in
          mkNode w (<[i := mkThread (th_env t) (th_rq t) (th_token t) m (d :: th_seen t)]> (nd_threads n))
            (d :: nd_past n)
      end
  end.
Definition idle (w : World) : Node := mkNode w [] [].
Definition runs (n : Node) (es : list NodeEvent) : Node := fold_left happens es n.
Definition tables (n : Node) : ApiDb := db (nd_world n).
(** The status a request was answered with. *)
Definition answer (t : Thread) : option Z :=
  match th_rest t with
  | HRet (Ok status) => Some status
  | HRet (Throw e) => Some (pb_status (errorHandler e))
  | HOp _ => None
  end.
Definition answers (n : Node) : list (option Z) := map answer (nd_threads n).

Lemma runs_cons n e es : runs n (e :: es) = runs (happens n e) es.
Proof. done. Qed.
Lemma runs_app n es1 es2 : runs n (es1 ++ es2) = runs (runs n es1) es2.
Proof. apply fold_left_app. Qed.
Lemma tables_resumes n i t :
  nd_threads n !! i = Some t -> tables (happens n (Resumes i)) = db (resume (nd_world n) (th_rest t)).1.
Proof. intros Ht. unfold tables. cbn. rewrite Ht. by destruct (resume _ _). Qed.

(** An operation leaves every thread its request. *)
Lemma resumes_same n i x :
  x ∈ nd_threads (happens n (Resumes i)) ->
  exists y, y ∈ nd_threads n /\ th_env x = th_env y /\ th_rq x = th_rq y /\ th_token x = th_token y.
Proof.
  cbn. destruct (nd_threads n !! i) as [t|] eqn:Ei; [|by exists x]. destruct (resume _ _) as [w m]. cbn.
  intros [j Hj]%list_elem_of_lookup_1. apply list_lookup_insert_Some in Hj as [(_ & <- & _)|[_ Hj]].
  - exists t. split; [by eapply list_elem_of_lookup_2|done].
  - exists x. split; [by eapply list_elem_of_lookup_2|done].
Qed.

(** Keys of new rows are new, all along a run. *)
Fixpoint fresh_run (n : Node) (es : list NodeEvent) : bool :=
  match es with
  | [] => true
  | e :: rest => let n' := happens n e in fresh (tables n :: nd_past n) (tables n) (tables n') && fresh_run n' rest
  end.
Definition arrivals (es : list NodeEvent) : list Request :=
  omap (fun e => match e with Arrives r => Some r | Resumes _ => None end) es.
End node.

(** ** Every operation is a late step *)
Section steps.
Context (get : UpstreamRequest -> option Z) (stat : string -> bool).
Notation happens := (happens get stat).
Notation runs := (runs get stat).

Definition thread_ok (past : list ApiDb) (t : Thread) : Prop :=
  th_seen t ⊆ past /\
  tracks (late_step (th_env t) (th_rq t) (th_token t)) (th_seen t) (th_rest t) (fun _ _ => True).
Record node_ok (n : Node) : Prop := {
  no_wf : wf (tables n);
  no_past : forall d0, d0 ∈ nd_past n -> later d0 (tables n);
  no_threads : forall t, t ∈ nd_threads n -> thread_ok (nd_past n) t;
}.
Lemma idle_ok w : wf (db w) -> node_ok (idle w).
Proof. intros Hw. constructor; cbn; [done|by intros d0 Hd0; inversion Hd0|by intros t Ht; inversion Ht]. Qed.
Lemma start_ok past r : e_uuid (r_env r) "" = None -> thread_ok past (start get stat r).
Proof.
  intros Hempty. split; [apply list_subseteq_nil|]. cbn. unfold request_token.
  destruct (find_call (r_method r) (r_path r)) as [c|]; [|done]. by apply perform_late.
Qed.
Lemma resume_late E rq tok w m past :
  tracks (late_step E rq tok) past m (fun _ _ => True) ->
  late_step E rq tok (db w :: past) (db w) (db (resume w m).1) /\
  tracks (late_step E rq tok) (db w :: past) (resume w m).2 (fun _ _ => True).
Proof.
  destruct m as [r|step]; cbn; [intros Hr; by repeat constructor|]. intros Hm. specialize (Hm w).
  by destruct (step w) as [w' rest].
Qed.

(** The threads after an operation of one of them. *)
Lemma threads_insert past d i t m (l : list Thread) :
  (forall x, x ∈ l -> thread_ok past x) -> th_seen t ⊆ past ->
  tracks (late_step (th_env t) (th_rq t) (th_token t)) (d :: th_seen t) m (fun _ _ => True) ->
  forall x, x ∈ <[i := mkThread (th_env t) (th_rq t) (th_token t) m (d :: th_seen t)]> l -> thread_ok (d :: past) x.
Proof.
  intros Hl Hseen Hm x [j Hj]%list_elem_of_lookup_1.
  apply list_lookup_insert_Some in Hj as [(_ & <- & _)|[_ Hj]].
  - split; cbn; [set_solver|done].
  - destruct (Hl x (list_elem_of_lookup_2 _ _ _ Hj)) as [Hx Htx]. split; [set_solver|done].
Qed.
(** What an event does: nothing to the tables, or an operation of a thread. *)
Definition moves (n n' : Node) (d' : ApiDb) : Prop :=
  exists t lbl, t ∈ nd_threads n /\ nd_past n' = tables n :: nd_past n /\ th_seen t ⊆ nd_past n /\
    late_step (th_env t) (th_rq t) (th_token t) (tables n :: th_seen t) (tables n) d' /\
    effect (th_env t) (tables n) lbl d' /\
    forall ws, has w_id ws (workspaces (tables n)) = true ->
      (forall d0, d0 ∈ tables n :: th_seen t -> outsider (th_env t) (th_rq t) (th_token t) ws d0) -> lbl <> Some ws.
Lemma happens_spec n e :
  node_ok n -> (forall r, e = Arrives r -> e_uuid (r_env r) "" = None) ->
  fresh (tables n :: nd_past n) (tables n) (tables (happens n e)) = true ->
  node_ok (happens n e) /\
  match e with
  | Arrives _ => True
  | Resumes _ => happens n e = n \/ moves n (happens n e) (tables (happens n e))
  end.
Proof.
  intros [Hwf Hpast Hth] Hempty Hfresh. destruct e as [r|i]; cbn.
  - split; [|done]. constructor; cbn; [done|done|]. intros t [Ht| ->]%in_snoc; [by apply Hth|]. by apply start_ok, Hempty.
  - cbn in Hfresh. destruct (nd_threads n !! i) as [t|] eqn:Ei; [|by split; [constructor|left]].
    pose proof (list_elem_of_lookup_2 _ _ _ Ei) as Ht. destruct (Hth t Ht) as [Hseen Htr].
    destruct (resume_late _ _ _ (nd_world n) _ _ Htr) as [Hs Hrest].
    destruct (resume (nd_world n) (th_rest t)) as [w m] eqn:Er. cbn in *. fold (tables n) in *.
    change (fresh (tables n :: nd_past n) (tables n) (db w) = true) in Hfresh. unfold tables at 3. cbn [nd_world].
    assert (forall d0, d0 ∈ tables n :: nd_past n -> later d0 (tables n)) as Hlater.
    { intros d0 [->|Hd0]%elem_of_cons; [apply descends_at_once, wf_keys, Hwf|by apply Hpast]. }
    assert (forall d0, d0 ∈ tables n :: th_seen t -> later d0 (tables n)) as Hmine.
    { intros d0 [->|Hd0]%elem_of_cons; apply Hlater; [by left|right; by apply Hseen]. }
    destruct (late_effect _ _ _ _ _ Hmine _ Hs) as (lbl & He & Hout).
    pose proof (effect_later _ _ _ _ He (wf_keys _ Hwf)) as Hnext. split.
    + constructor; cbn.
      * by eapply effect_wf.
      * intros d0 Hd0. eapply later_next; [exact Hd0|exact Hfresh|by apply Hlater|exact Hnext].
      * by eapply threads_insert.
    + right. exists t, lbl. by split_and!.
Qed.

(** What every operation keeps, a run keeps. *)
Definition no_empty_ids (es : list NodeEvent) : Prop := no_empty_uuid (arrivals es).
Lemma no_empty_cons e es :
  no_empty_ids (e :: es) -> (forall r, e = Arrives r -> e_uuid (r_env r) "" = None) /\ no_empty_ids es.
Proof.
  unfold no_empty_ids, no_empty_uuid. destruct e as [r|i]; cbn; [|done].
  intros [Hr Hes]%Forall_cons. split; [by intros r' [= <-]|done].
Qed.
Lemma runs_keep (I : Node -> Prop) n es :
  no_empty_ids es -> fresh_run get stat n es = true -> node_ok n -> I n ->
  (forall n r, r ∈ arrivals es -> node_ok n -> I n -> I (happens n (Arrives r))) ->
  (forall n i, node_ok n -> I n -> node_ok (happens n (Resumes i)) -> 
     moves n (happens n (Resumes i)) (tables (happens n (Resumes i))) -> I (happens n (Resumes i))) ->
  node_ok (runs n es) /\ I (runs n es).
Proof.
  revert n. induction es as [|e es IH]; intros n Hempty Hfresh Hok HI Harr Hmove; [done|].
  cbn in Hfresh. apply andb_true_iff in Hfresh as [Hf Hfresh].
  apply no_empty_cons in Hempty as [He Hempty]. destruct (happens_spec n e Hok He Hf) as [Hok' Hcase].
  apply IH; [done|done|done| |intros; apply Harr; [destruct e; set_solver|done..]|done].
  destruct e as [r|i]; [apply Harr; [set_solver|done..]|].
  destruct Hcase as [->|Hm]; [done|by apply Hmove].
Qed.

Lemma no_empty_app es1 es2 : no_empty_ids (es1 ++ es2) -> no_empty_ids es1 /\ no_empty_ids es2.
Proof. unfold no_empty_ids, no_empty_uuid, arrivals. by rewrite omap_app, Forall_app. Qed.
Lemma fresh_run_app n es1 es2 :
  fresh_run get stat n (es1 ++ es2) = true ->
  fresh_run get stat n es1 = true /\ fresh_run get stat (runs n es1) es2 = true.
Proof.
  revert n. induction es1 as [|e es1 IH]; intros n; [done|]. cbn [app fresh_run].
  intros [Hf Hr]%andb_true_iff. apply IH in Hr as [H1 H2]. by rewrite Hf, H1.
Qed.
(** Threads stay on their way whatever happens; no assumption on the tables. *)
Lemma runs_threads n es :
  no_empty_ids es -> (forall t, t ∈ nd_threads n -> thread_ok (nd_past n) t) ->
  forall t, t ∈ nd_threads (runs n es) -> thread_ok (nd_past (runs n es)) t.
Proof.
  revert n. induction es as [|e es IH]; intros n Hempty Hth; [done|].
  apply no_empty_cons in Hempty as [He Hes]. apply IH; [done|]. destruct e as [r|i]; cbn.
  - intros t [Ht| ->]%in_snoc; [by apply Hth|]. by apply start_ok, He.
  - destruct (nd_threads n !! i) as [t|] eqn:Ei; [|done].
    destruct (Hth t (list_elem_of_lookup_2 _ _ _ Ei)) as [Hseen Htr].
    destruct (resume_late _ _ _ (nd_world n) _ _ Htr) as [_ Hrest].
    destruct (resume (nd_world n) (th_rest t)) as [w m]. cbn in *. by eapply threads_insert.
Qed.
End steps.

(** ** One request at a time *)
Section turns.
Context (get : UpstreamRequest -> option Z) (stat : string -> bool).
Notation happens := (happens get stat).
Notation runs := (runs get stat).

(** A thread resumed until it is done has done what the handler does alone. *)
Lemma finish i m : forall n t,
  nd_threads n !! i = Some t -> th_rest t = m ->
  exists k t', let n' := runs n (repeat (Resumes i) k) in
    nd_world n' = (run m (nd_world n)).1 /\ th_rest t' = HRet (run m (nd_world n)).2 /\
    nd_threads n' = <[i := t']> (nd_threads n).
Proof.
  induction m as [r|step IH] using H_rect_ops; intros n t Ht Hm.
  - exists 0%nat, t. cbn. split_and!; [done|by rewrite Hm|by rewrite list_insert_id].
  - destruct (step (nd_world n)) as [w' rest] eqn:Es.
    set (t1 := mkThread (th_env t) (th_rq t) (th_token t) rest (tables n :: th_seen t)).
    assert (happens n (Resumes i) = mkNode w' (<[i := t1]> (nd_threads n)) (tables n :: nd_past n)) as Hn
      by (cbn; by rewrite Ht, Hm; cbn; rewrite Es).
    destruct (IH _ _ _ Es (happens n (Resumes i)) t1) as (k & t' & Hw & Hr & Hl).
    { rewrite Hn. cbn. apply list_lookup_insert_eq. by eapply lookup_lt_Some. }
    { done. }
    exists (S k), t'. cbn [repeat]. rewrite runs_cons, Hw, Hr, Hl, Hn. cbn. rewrite Es.
    split_and!; [done|done|]. by rewrite list_insert_insert_eq.
Qed.
(** The statuses of requests served one after another. *)
Fixpoint statuses (w : World) (rs : list Request) : list Z :=
  match rs with
  | [] => []
  | r :: rest => (serve get stat (r_env r) (r_rq r) (r_method r) (r_path r) w).2 :: statuses (serve_one get stat w r) rest
  end.
(** What a request does alone is what [serve] says. *)
Lemma start_serves r w :
  let '(w', x) := run (th_rest (start get stat r)) w in
  w' = serve_one get stat w r /\
  forall t, th_rest t = HRet x -> answer t = Some (serve get stat (r_env r) (r_rq r) (r_method r) (r_path r) w).2.
Proof.
  cbn. unfold serve_one, serve, answer. destruct (find_call (r_method r) (r_path r)) as [c|].
  - destruct (run (perform get stat (r_env r) (r_rq r) c) w) as [w' [s|e]]; (split; [done|]); by intros t ->.
  - split; [done|]. by intros t ->.
Qed.
(** The schedule that serves the requests one after another. *)
Lemma turns rs : forall n, exists es,
  let n' := runs n es in
  arrivals es = rs /\ nd_world n' = serves get stat (nd_world n) rs /\
  exists ts, nd_threads n' = nd_threads n ++ ts /\ map answer ts = map Some (statuses (nd_world n) rs).
Proof.
  induction rs as [|r rs IH]; intros n.
  - exists []. cbn. split_and!; [done|done|]. exists []. by rewrite app_nil_r.
  - set (n1 := happens n (Arrives r)). set (i := length (nd_threads n)).
    assert (nd_threads n1 !! i = Some (start get stat r)) as Hi by (cbn; by apply list_lookup_middle).
    destruct (finish i _ n1 _ Hi eq_refl) as (k & t & Hw & Hr & Hl).
    destruct (IH (runs n1 (repeat (Resumes i) k))) as (es & He & Hws & ts & Hts & Hans).
    pose proof (start_serves r (nd_world n)) as Hserve. change (nd_world n1) with (nd_world n) in *.
    destruct (run (th_rest (start get stat r)) (nd_world n)) as [w x]. cbn [fst snd] in Hw, Hr. destruct Hserve as [Hserve Hx].
    exists (Arrives r :: repeat (Resumes i) k ++ es).
    assert (runs n (Arrives r :: repeat (Resumes i) k ++ es) = runs (runs n1 (repeat (Resumes i) k)) es) as ->
      by (by rewrite runs_cons, runs_app).
    split_and!.
    + unfold arrivals in *. cbn. f_equal. rewrite omap_app, He. 
      assert (forall k, omap (fun e => match e with Arrives r => Some r | Resumes _ => None end) (repeat (Resumes i) k) = []) as ->
        by (intros j; by induction j). done.
    + by rewrite Hws, Hw, Hserve.
    + exists (t :: ts). rewrite Hts, Hl. cbn. split.
      * unfold i. rewrite insert_app_r_alt by done. by rewrite Nat.sub_diag, <- app_assoc.
      * rewrite (Hx t Hr), Hans. by rewrite Hw, Hserve.
Qed.
End turns.

(** ** A sole owner *)
Section sole.
Context (E : ApiEnv) (rq : ApiRequest) (tok : option string) (past : list ApiDb) (d : ApiDb) (ws : string) (o : Member).
Context (Hwf : wf d) (Hws : has w_id ws (workspaces d) = true).
Context (Hpast : forall d0, d0 ∈ d :: past -> wf d0 /\ List.filter (is_owner ws) (members d0) = [o]).

Lemma owner_is_sole m : m ∈ members d -> is_owner ws m = true -> m = o.
Proof.
  intros Hm Hmo. destruct (Hpast d) as [_ Ho]; [by left|]. apply list_elem_of_singleton. rewrite <- Ho.
  by apply in_filter.
Qed.
(** The guard on the last owner, read at any time, keeps the sole one. *)
Lemma not_the_target m : m ∈ members d -> late_target (d :: past) (m_workspaceId m) (m_userId m) -> is_owner ws m = false.
Proof.
  intros Hm (t & (d0 & Hd0 & Ht) & Htw & Htu & Hguard). destruct (is_owner ws m) eqn:Hmo; [|done]. exfalso.
  pose proof (owner_is_sole m Hm Hmo) as ->. apply andb_true_iff in Hmo as [Hw%String.eqb_eq Hr%bool_decide_eq_true].
  destruct (Hpast d0 Hd0) as [Hwf0 Ho0].
  assert (o ∈ members d0) as Hod by (apply (in_filter (is_owner ws)); rewrite Ho0; set_solver).
  assert (t = o) as ->.
  { apply (wf_members d0 Hwf0); [done..|]. cbn. rewrite Htw, Htu. unfold same_text. by rewrite !String.eqb_refl. }
  destruct (Hguard Hr) as (d1 & Hd1 & Hcount). destruct (Hpast d1 Hd1) as [_ Ho1].
  unfold owner_count in Hcount. rewrite Hw, Ho1 in Hcount. cbn in Hcount. lia.
Qed.
Lemma late_sole_owner d' :
  late_step E rq tok (d :: past) d d' -> List.filter (is_owner ws) (members d') = [o].
Proof.
  intros Hs. destruct (Hpast d) as [_ Ho]; [by left|]. destruct Hs; try exact Ho; cbn; rewrite <- Ho.
  - apply other_create. unfold is_owner. apply andb_false_iff. left. apply String.eqb_neq.
    match goal with H : m_workspaceId m = w_id w |- _ => rewrite H end. by eapply new_workspace_other.
  - apply other_create. unfold is_owner. apply andb_false_iff. right. apply bool_decide_eq_false.
    match goal with H : seen _ _, H' : m_role m = _ |- _ => destruct H as (d0 & Hd0 & Hi); rewrite H' end.
    by apply (wf_invitations d0), Hi; apply Hpast.
  - apply other_update. intros x Hx Hk.
    assert (x = m) as -> by (apply (with_key_self m_id (members d)); [done|apply wf_keys, Hwf|done..]).
    split; [by apply not_the_target|]. unfold is_owner. apply andb_false_iff. right. by apply bool_decide_eq_false.
  - apply other_remove. intros x Hx Hk.
    assert (x = m) as -> by (apply (with_key_self m_id (members d)); [done|apply wf_keys, Hwf|done..]).
    by apply not_the_target.
Qed.
End sole.

(** ** The theorems *)
Section concurrent.
Context (get : UpstreamRequest -> option Z) (stat : string -> bool).
Notation happens := (happens get stat).
Notation runs := (runs get stat).

(** C4: However the operations of running requests interleave, each one changes
    the tables only in a way its request may: the guards, look-ups and counts it
    rests on were read by earlier operations of the same request, and the keys
    and indexes are checked when it runs. *)
Theorem operations_are_permitted (w : World) (es : list NodeEvent) i t :
  no_empty_ids es -> nd_threads (runs (idle w) es) !! i = Some t ->
  let n := runs (idle w) es in
  late_step (th_env t) (th_rq t) (th_token t) (tables n :: th_seen t) (tables n) (tables (happens n (Resumes i))) /\
  th_seen t ⊆ nd_past n.
Proof.
  intros Hes Ht. pose proof (runs_threads get stat (idle w) es Hes) as Hth.
  destruct (Hth ltac:(by intros x Hx; inversion Hx) t (list_elem_of_lookup_2 _ _ _ Ht)) as [Hseen Htr].
  split; [|done]. destruct (resume_late _ _ _ (nd_world (runs (idle w) es)) _ _ Htr) as [Hs _].
  by rewrite (tables_resumes _ _ _ _ _ Ht).
Qed.

(** C5: However requests interleave, the tables stay well formed: unique keys
    and indexes, keys in projects and projects in teams of their own workspace,
    one default credential and one override per target, prices inside their
    column, no invitation that makes an owner; the keys Prisma generates are
    assumed new. *)
Theorem interleaved_requests_keep_wf (w : World) (es : list NodeEvent) :
  no_empty_ids es -> fresh_run get stat (idle w) es = true -> wf (db w) -> wf (tables (runs (idle w) es)).
Proof.
  intros Hes Hf Hwf. destruct (runs_keep get stat (fun _ => True) (idle w) es) as [Hok _]; try done.
  - by apply idle_ok.
  - by apply no_wf.
Qed.

(** C6: What is over stays over: between any two moments of a run, sessions
    stay revoked, keys revoked, invitations accepted and their roles as they
    were, no member becomes an OWNER, and no row moves to another workspace,
    project, user or session family. *)
Theorem what_is_over_stays_over (w : World) (es1 es2 : list NodeEvent) :
  no_empty_ids (es1 ++ es2) -> fresh_run get stat (idle w) (es1 ++ es2) = true -> wf (db w) ->
  later (tables (runs (idle w) es1)) (tables (runs (idle w) (es1 ++ es2))).
Proof.
  intros [Hes1 Hes2]%no_empty_app [Hf1 Hf2]%fresh_run_app Hwf. rewrite runs_app.
  destruct (runs_keep get stat (fun _ => True) (idle w) es1) as [Hok _]; try done; [by apply idle_ok|].
  set (n := runs (idle w) es1) in *.
  destruct (runs_keep get stat (fun n' => tables n' = tables n \/ tables n ∈ nd_past n') n es2) as [Hok' Hn]; try done.
  - by left.
  - intros n' i Hn' Hp Hok' (t & lbl & _ & Hpast & _). right. rewrite Hpast. destruct Hp as [->|Hp]; set_solver.
  - destruct Hn as [->|Hn]; [apply descends_at_once, wf_keys, Hok|by apply Hok'].
Qed.

(** C3: Interleaving opens no way into a workspace: while only callers who are
    not members of it and hold no token of an invitation to it are served, in
    whatever order their operations run and with no member's request beside
    theirs, no row of it is added, changed or removed. *)
Theorem interleaved_workspaces_are_isolated (w : World) (es : list NodeEvent) ws :
  no_empty_ids es -> fresh_run get stat (idle w) es = true -> wf (db w) -> has w_id ws (workspaces (db w)) = true ->
  Forall (fun r => outsider (r_env r) (r_rq r) (request_token r) ws (db w)) (arrivals es) ->
  workspace_rows ws (tables (runs (idle w) es)) = workspace_rows ws (db w).
Proof.
  intros Hes Hf Hwf Hws Hout. rewrite Forall_forall in Hout.
  set (same d := has w_id ws (workspaces d) = true /\ workspace_rows ws d = workspace_rows ws (db w)).
  set (I n := (forall d, d ∈ tables n :: nd_past n -> same d) /\
              forall t, t ∈ nd_threads n -> outsider (th_env t) (th_rq t) (th_token t) ws (db w)).
  destruct (runs_keep get stat I (idle w) es) as [_ [HI _]]; try done.
  - by apply idle_ok.
  - split; [by intros d ->%list_elem_of_singleton|]. by intros t Ht; inversion Ht.
  - intros n r Hr _ [Hd Ht]. split; [exact Hd|]. intros t [Hin| ->]%in_snoc; [by apply Ht|]. by apply Hout.
  - intros n i Hok [Hd Ht] Hok' (t & lbl & Hin & Hpast & Hseen & Hs & He & Hl).
    destruct (Hd (tables n)) as [Hw Hrows]; [by left|].
    assert (same (tables (happens n (Resumes i)))) as Hsame.
    { split; [by eapply effect_has_workspace|]. rewrite <- Hrows.
      eapply effect_isolated; [exact He|apply Hok|done|]. apply Hl; [done|]. intros d0 Hd0.
      assert (d0 ∈ tables n :: nd_past n) as Hin0 by set_solver.
      eapply outsider_rows; [apply (Hd d0 Hin0)|by apply Ht]. }
    split.
    + rewrite Hpast. intros d [->|Hd0]%elem_of_cons; [done|by apply Hd].
    + intros x (y & Hy & -> & -> & ->)%resumes_same. by apply Ht.
  - apply HI. by left.
Qed.

(** C34: A sole owner stays: however requests interleave, a workspace with one
    owner keeps that owner, with the very same membership row, and gets no
    other. *)
Theorem sole_owner_stays (w : World) (es : list NodeEvent) ws o :
  no_empty_ids es -> fresh_run get stat (idle w) es = true -> wf (db w) -> has w_id ws (workspaces (db w)) = true ->
  List.filter (is_owner ws) (members (db w)) = [o] ->
  List.filter (is_owner ws) (members (tables (runs (idle w) es))) = [o].
Proof.
  intros Hes Hf Hwf Hws Ho.
  set (owned d := wf d /\ has w_id ws (workspaces d) = true /\ List.filter (is_owner ws) (members d) = [o]).
  destruct (runs_keep get stat (fun n => forall d, d ∈ tables n :: nd_past n -> owned d) (idle w) es) as [_ HI]; try done.
  - by apply idle_ok.
  - by intros d ->%list_elem_of_singleton.
  - intros n i Hok HI Hok' (t & lbl & Hin & Hpast & Hseen & Hs & He & _).
    destruct (HI (tables n)) as (Hwf1 & Hws1 & Ho1); [by left|].
    rewrite Hpast. intros d [->|Hd]%elem_of_cons; [|by apply HI]. split_and!.
    + apply Hok'.
    + by eapply effect_has_workspace.
    + refine (late_sole_owner _ _ _ _ _ ws o Hwf1 Hws1 _ _ Hs). intros d0 Hd0.
      destruct (HI d0) as (? & _ & ?); [set_solver|done].
  - apply HI. by left.
Qed.

(** The interleavings include serving requests in turn: some order resumes
    each one until it is answered before the next arrives, and gives the tables,
    messages and statuses of one request after the other. *)
Theorem in_turn_is_one_order (w : World) (rs : list Request) :
  exists es, arrivals es = rs /\ nd_world (runs (idle w) es) = serves get stat w rs /\
    answers (runs (idle w) es) = map Some (statuses get stat w rs).
Proof.
  destruct (turns get stat rs (idle w)) as (es & He & Hw & ts & Hts & Hans). exists es.
  split_and!; [done|done|]. unfold answers. by rewrite Hts.
Qed.
End concurrent.
