(* ===== verification/ApiRaces.v ===== *)
(** * Interleavings tried

    The instance of ApiExample.v with requests running side by side: the inputs
    of the theorems of ApiConcurrent.v, and two orders in which the code's
    checks come too late: two owners who step down at once leave a workspace
    without one, and a refresh token presented twice at once is good twice. *)

From S2P Require Import Prelude JsString JsNum JsDate Json Shared Queue Auth Providers Gateway Persist Export Zod ApiDb ApiAuth.
From S2P Require Import ApiKeys ApiMembers ApiOrg ApiPricing ApiReports ApiServer ApiRules ApiSteps ApiRefine ApiEffects.
From S2P Require Import ApiSafety ApiExample ApiSessions ApiLate ApiTracks ApiLater ApiConcurrent.

(** Requests arrive together and are resumed in an order. *)
Definition together (rs : list Request) (order : list nat) : list NodeEvent := map Arrives rs ++ map Resumes order.
(** All of [n] threads in turn, [k] times. *)
Definition rounds (n k : nat) : list nat := concat (repeat (seq 0 n) k).
Lemma together_arrivals rs order : arrivals (together rs order) = rs.
Proof.
  unfold arrivals, together. rewrite omap_app.
  replace (omap _ (map Resumes order)) with (@nil Request) by (by induction order).
  rewrite app_nil_r. induction rs as [|r rs IH]; [done|]. cbn. by rewrite IH.
Qed.
Definition ex_node (w : World) (es : list NodeEvent) : Node := runs ex_get ex_stat (idle w) es.
(** An environment that makes its own ids and tokens. *)
Definition ex_env_at (k : Z) : ApiEnv :=
  let E := ex_env_with ex_digest in
  mkApiEnv (e_P E) (e_J E) (e_zod E) (e_uuid E) (jwtSecret E) (publicBaseUrl E) (superAdmins E) (ring E) (e_now E)
    (fun n => "r" +:+ dec k +:+ "-" +:+ dec (Z.of_nat n)) (replicate 8 (map (fun n => (Z.of_nat n + k) mod 256) (seq 0 64)))
    (e_salt E) (e_iv E) (e_suffix E) (e_redis_up E) (e_queue_up E).
Definition ex_at (k : Z) (user method path : string) (body : option json) : Request :=
  mkRequest (ex_env_at k) (ex_request user body) method path.

(** ** Two owners step down *)
Definition ex_two_owners : World :=
  mkWorld (set_members [ex_owner "m1" "w1" "u1"; ex_owner "m2" "w1" "u2"] ex_db) [].
Definition step_down (user : string) : Request :=
  ex_ask user "PATCH" ("/api/v1/workspaces/one/members/" +:+ user) (Some (JObj [("role", JStr "MEMBER")])).
(** Both requests count two owners before either writes. *)
Definition ex_both_step_down : list NodeEvent := together [step_down "u1"; step_down "u2"] (rounds 2 4).
Lemma ex_two_owners_wf : wf (db ex_two_owners).
Proof.
  pose proof ex_wf as Hwf. constructor; try apply Hwf.
  - constructor; apply (wf_keys _ Hwf).
  - intros a b Ha Hb; cbn in Ha, Hb; one_row; done.
  - intros m Hm; cbn in Hm; one_row; done.
Qed.
(** The check for the last owner can come too late: from well-formed tables
    and a workspace with two owners, two requests to step down whose operations
    alternate are both granted and leave it without an owner; one after the
    other, the second is refused. *)
Theorem last_owner_check_races :
  wf (db ex_two_owners) /\ owner_count "w1" (db ex_two_owners) = 2%nat /\
  (let n := ex_node ex_two_owners ex_both_step_down in
   answers n = [Some 200; Some 200] /\ owner_count "w1" (tables n) = 0%nat) /\
  (let rs := [step_down "u1"; step_down "u2"] in
   statuses ex_get ex_stat ex_two_owners rs = [200; 400] /\
   owner_count "w1" (db (serves ex_get ex_stat ex_two_owners rs)) = 1%nat).
Proof. split; [exact ex_two_owners_wf|]. vm_compute. by split_and!. Qed.

(** ** A refresh token presented twice *)
Definition refresh_at (k : Z) : Request := mkRequest (ex_env_at k) (ex_cookie "old") "POST" "/api/v1/auth/refresh".
Definition live_sessions (d : ApiDb) : nat :=
  length (List.filter (fun s => bool_decide (s_revokedAt s = None)) (sessions d)).
(** The check for a spent refresh token can come too late: presented by two
    requests whose operations alternate, one token is good for two sessions of
    its family and its reuse goes unnoticed; one after the other, the second
    request is refused and ends them all. *)
Theorem refresh_reuse_check_races :
  (let n := ex_node ex_sessions (together [refresh_at 1; refresh_at 2] (rounds 2 4)) in
   answers n = [Some 200; Some 200] /\ live_sessions (tables n) = 2%nat) /\
  (let rs := [refresh_at 1; refresh_at 2] in
   statuses ex_get ex_stat ex_sessions rs = [200; 401] /\
   live_sessions (db (serves ex_get ex_stat ex_sessions rs)) = 0%nat).
Proof. vm_compute. by split_and!. Qed.

(** ** The theorems' inputs *)
Lemma together_no_empty rs order : Forall (fun r => e_uuid (r_env r) "" = None) rs -> no_empty_ids (together rs order).
Proof. intros Hrs. unfold no_empty_ids. by rewrite together_arrivals. Qed.
(** u1 issues a key, edits one and revokes it, and gives up the ownership, all
    at once. *)
Definition ex_busy : list Request :=
  [ ex_at 1 "u1" "POST" "/api/v1/workspaces/one/keys" (Some (JObj [("projectId", JStr "p1"); ("name", JStr "new")]));
    ex_at 2 "u1" "PATCH" "/api/v1/workspaces/one/keys/k1" (Some (JObj [("name", JStr "renamed")]));
    ex_at 3 "u1" "POST" "/api/v1/workspaces/one/keys/k1/revoke" None ] ++ ex_abdication.
Lemma ex_busy_empty order : no_empty_ids (together ex_busy order).
Proof. apply together_no_empty. repeat constructor. Qed.
Example ex_busy_runs :
  let n := ex_node ex_world (together ex_busy (rounds 5 6)) in
  answers n = [Some 201; Some 200; Some 200; Some 400; Some 400] /\
  map (fun k => (k_name k, k_status k)) (virtual_keys (tables n)) = [("renamed", KEY_REVOKED); ("new", KEY_ACTIVE)].
Proof. vm_compute. by split. Qed.

Lemma operations_are_permitted_witness :
  let n := ex_node ex_world (together ex_busy (rounds 5 2 ++ [0; 1]%nat)) in
  exists t, nd_threads n !! 2%nat = Some t /\
    late_step (th_env t) (th_rq t) (th_token t) (tables n :: th_seen t) (tables n)
      (tables (happens ex_get ex_stat n (Resumes 2))) /\
    map k_status (virtual_keys (tables n)) = [KEY_ACTIVE; KEY_ACTIVE] /\
    map k_status (virtual_keys (tables (happens ex_get ex_stat n (Resumes 2)))) = [KEY_REVOKED; KEY_ACTIVE].
Proof.
  unfold ex_node. cbv zeta. set (order := rounds 5 2 ++ [0; 1]%nat).
  destruct (nd_threads (runs ex_get ex_stat (idle ex_world) (together ex_busy order)) !! 2%nat) as [t|] eqn:Ht; [|vm_compute in Ht; discriminate Ht].
  exists t. split_and!; [done| |vm_compute; reflexivity|vm_compute; reflexivity].
  exact (proj1 (operations_are_permitted ex_get ex_stat ex_world (together ex_busy order) 2 t (ex_busy_empty order) Ht)).
Defined.
Lemma interleaved_requests_keep_wf_witness : wf (tables (ex_node ex_world (together ex_busy (rounds 5 6)))).
Proof.
  unfold ex_node. apply (interleaved_requests_keep_wf ex_get ex_stat ex_world (together ex_busy (rounds 5 6)) (ex_busy_empty _));
    [vm_compute; reflexivity|exact ex_wf].
Defined.
Lemma what_is_over_stays_over_witness :
  let d1 := tables (ex_node ex_world (together ex_busy (rounds 5 3))) in
  let d2 := tables (ex_node ex_world (together ex_busy (rounds 5 3 ++ rounds 5 3))) in
  map k_status (virtual_keys d1) = [KEY_REVOKED; KEY_ACTIVE] /\ later d1 d2.
Proof.
  unfold ex_node. cbv zeta. split; [vm_compute; reflexivity|].
  assert (together ex_busy (rounds 5 3 ++ rounds 5 3) = together ex_busy (rounds 5 3) ++ map Resumes (rounds 5 3)) as Ho
    by reflexivity.
  rewrite Ho. apply (what_is_over_stays_over ex_get ex_stat ex_world (together ex_busy (rounds 5 3)) (map Resumes (rounds 5 3)));
    [rewrite <- Ho; apply ex_busy_empty|vm_compute; reflexivity|exact ex_wf].
Defined.
Lemma interleaved_workspaces_are_isolated_witness :
  let n := ex_node ex_world (together ex_attacks (rounds 4 4)) in
  answers n = [Some 404; Some 404; Some 404; Some 404] /\
  workspace_rows "w1" (tables n) = workspace_rows "w1" ex_db.
Proof.
  unfold ex_node. cbv zeta. split; [vm_compute; reflexivity|].
  apply (interleaved_workspaces_are_isolated ex_get ex_stat ex_world (together ex_attacks (rounds 4 4)) "w1").
  - apply together_no_empty. repeat constructor.
  - vm_compute. reflexivity.
  - exact ex_wf.
  - reflexivity.
  - rewrite together_arrivals. repeat (constructor; [by apply ex_outsider|]). constructor.
Defined.
Lemma sole_owner_stays_witness :
  let n := ex_node ex_world (together ex_busy (rounds 5 6)) in
  List.filter (is_owner "w1") (members (tables n)) = [ex_owner "m1" "w1" "u1"].
Proof.
  unfold ex_node. cbv zeta. apply (sole_owner_stays ex_get ex_stat ex_world (together ex_busy (rounds 5 6)) "w1" _ (ex_busy_empty _));
    [vm_compute; reflexivity|exact ex_wf|reflexivity|reflexivity].
Defined.
