(* ===== verification/ApiBudget.v ===== *)
(** * Every request is answered

    No handler loops or waits for another: it makes a bounded number of
    operations, whatever the tables hold when they run.  [budget n m K]: [m] is
    done within [n] operations, and the value it returns satisfies [K] with what
    is left. *)

From S2P Require Import Prelude JsString JsNum JsDate Json Shared Queue Auth Providers Gateway Persist Export Zod ApiDb ApiAuth.
From S2P Require Import ApiKeys ApiMembers ApiOrg ApiPricing ApiReports ApiServer ApiRules ApiSteps ApiRefine ApiEffects.
From S2P Require Import ApiSafety ApiExample ApiLate ApiTracks ApiLater ApiConcurrent ApiRaces.

Fixpoint budget {A} (n : nat) (m : H A) (K : nat -> A -> Prop) {struct m} : Prop :=
  match m with
  | HRet (Ok a) => K n a
  | HRet (Throw _) => True
  | HOp step => match n with
                | O => False
                | S n' => forall w, let '(_, rest) := step w in budget n' rest K
                end
  end.
Section rules.
Context {A : Type}.
Implicit Types (K : nat -> A -> Prop).
Lemma budget_ret (a : A) n K : K n a -> budget n (mret a) K.
Proof. done. Qed.
Lemma budget_throw e n K : budget n (throw e) K.
Proof. done. Qed.
Lemma budget_bind {B} (m : H B) (f : B -> H A) n K :
  budget n m (fun n' b => budget n' (f b) K) -> budget n (m ≫= f) K.
Proof.
  unfold mbind, H_bind. revert n. induction m as [[b|e]|step IH] using H_rect_ops; intros n; [done..|]. cbn.
  destruct n as [|n]; [done|]. intros Hm w. specialize (Hm w). destruct (step w) as [w' rest] eqn:Es. by eapply IH.
Qed.
Lemma budget_op (op : Op A) n K : (forall a, K n a) -> budget (S n) (perform_op op) K.
Proof. intros HK w. destruct (op w) as [w' [a|e]]; cbn; [apply HK|done]. Qed.
Lemma budget_recode code e (m : H A) n K : budget n m K -> budget n (recode code e m) K.
Proof.
  revert n. induction m as [[a|[]]|step IH] using H_rect_ops; intros n; cbn; [done..|].
  destruct n as [|n]; [done|]. intros Hm w. specialize (Hm w). destruct (step w) as [w' rest] eqn:Es. by eapply IH.
Qed.
Lemma budget_weaken (m : H A) n K K' : (forall n a, K n a -> K' n a) -> budget n m K -> budget n m K'.
Proof.
  intros HK. revert n. induction m as [[a|e]|step IH] using H_rect_ops; intros n; cbn; [apply HK|done|].
  destruct n as [|n]; [done|]. intros Hm w. specialize (Hm w). destruct (step w) as [w' rest] eqn:Es. by eapply IH.
Qed.
End rules.
Lemma budget_require b e n (K : nat -> unit -> Prop) : K n tt -> budget n (require b e) K.
Proof. by destruct b. Qed.
Lemma budget_parse {A} (z : schema A) body n (K : nat -> A -> Prop) : (forall a, K n a) -> budget n (parse z body) K.
Proof. unfold parse. intros HK. destruct (z body); [apply HK|done]. Qed.
Lemma budget_of_js {A} (r : js A) n (K : nat -> A -> Prop) : (forall a, K n a) -> budget n (of_js r) K.
Proof. destruct r; [intros HK; apply HK|done]. Qed.
Lemma budget_of_random {A} (o : option A) n (K : nat -> A -> Prop) : (forall a, K n a) -> budget n (of_random o) K.
Proof. destruct o; [intros HK; apply HK|done]. Qed.
Lemma budget_uuid E s n (K : nat -> string -> Prop) : (forall u, K n u) -> budget n (uuid E s) K.
Proof. unfold uuid. intros HK. destruct (e_uuid E s); [apply HK|done]. Qed.
Lemma budget_uuids E l n (K : nat -> list string -> Prop) : (forall us, K n us) -> budget n (uuids E l) K.
Proof.
  revert K; induction l as [|s l IH]; intros K HK; [apply budget_ret, HK|]. cbn [uuids].
  apply budget_bind, budget_uuid. intros u. apply budget_bind, IH. intros us. apply budget_ret, HK.
Qed.
Lemma budget_authenticate E rq n (K : nat -> AuthedUser -> Prop) :
  (forall user, K n user) -> budget n (makeAuthenticate E rq) K.
Proof.
  unfold makeAuthenticate. intros HK. destruct (rq_authorization rq); [|done]. destruct (starts_with _ _); [|done].
  destruct (verifyAccessToken _ _ _ _); [apply HK|done].
Qed.

Ltac spend1 :=
  lazymatch goal with
  | |- budget _ (_ ≫= _) _ => apply budget_bind
  | |- budget _ (mret _) _ => apply budget_ret
  | |- budget _ (throw _) _ => apply budget_throw
  | |- budget _ (fail _) _ => apply budget_throw
  | |- budget _ (require _ _) _ => apply budget_require
  | |- budget _ (parse _ _) _ => apply budget_parse; intros ?
  | |- budget _ (of_js _) _ => apply budget_of_js; intros ?
  | |- budget _ (of_random _) _ => apply budget_of_random; intros ?
  | |- budget _ (uuid _ _) _ => apply budget_uuid; intros ?
  | |- budget _ (uuids _ _) _ => apply budget_uuids; intros ?
  | |- budget _ (makeAuthenticate _ _) _ => apply budget_authenticate; intros ?
  | |- budget _ (recode _ _ _) _ => apply budget_recode
  | |- budget _ (match ?x with _ => _ end) _ => destruct x
  | |- budget _ (if ?b then _ else _) _ => destruct b
  | |- budget _ ((match ?x with _ => _ end) _) _ => destruct x
  | |- budget _ (scope_uid _ _ _) _ => unfold scope_uid
  | |- budget (S _) (gets _) _ => apply budget_op; intros ?
  | |- budget (S _) (say _) _ => apply budget_op; intros ?
  | |- budget (S _) (findFirst _) _ => apply budget_op; intros ?
  | |- budget (S _) (findMany _) _ => apply budget_op; intros ?
  | |- budget (S _) (count _) _ => apply budget_op; intros ?
  | |- budget (S _) (create _) _ => apply budget_op; intros ?
  | |- budget (S _) (updateMany _ _) _ => apply budget_op; intros ?
  | |- budget (S _) (update _ _) _ => apply budget_op; intros ?
  | |- budget (S _) (deleteMany _) _ => apply budget_op; intros ?
  | |- budget (S _) (delete_one _) _ => apply budget_op; intros ?
  | |- budget (S _) (transaction _) _ => apply budget_op; intros ?
  end; cbv beta zeta.
Ltac spend := repeat spend1; try exact I.

(** The most operations of any handler: adding a team member (workspace, team,
    lead, workspace member, team membership, the new row) and inviting
    (workspace, member, pending, the new row, workspace, inviter, the mail). *)
Definition MOST_OPERATIONS : nat := 7.
Lemma perform_budget get stat E rq c : budget MOST_OPERATIONS (perform get stat E rq c) (fun _ _ => True).
Proof.
  destruct c; cbn [perform]; unfold replies, MOST_OPERATIONS, register, login, ApiAuth.refresh, logout, me, adminStats,
    adminTimeseries, adminWorkspaces, admin_route, makeSuperAdminGuard, listWorkspaces, getWorkspace, listProjects,
    createProject, updateProject, deleteProject, own_project, check_team, listTeams, createTeam, getTeam, updateTeam,
    deleteTeam, addTeamMember, updateTeamMember, removeTeamMember, loadTeam, assertCanManageTeam, listCredentials,
    createCredential, testCredential, patchCredential, deleteCredential, own_credential, listKeys, issueKey, patchKey,
    revokeKey, own_key, propagate, resolveProviderAllowlist, analyticsSummary, usageEvents, analyticsTimeseries,
    analyticsBreakdown, bind_filters, bind_uuid, createExport, listExports, getExport, downloadExport, findJob,
    listMembers, listInvitations, invite, reissueLink, withdrawInvitation, updateMember, removeMember, find_member,
    keep_an_owner, showInvitation, acceptInvitation, findValidInvitation, invited_user, listModels, listOverrides,
    createOverride, updateOverride, deleteOverride, listUnpriced, price_patch, numeric_12_6, issueSession, ws_route,
    makeWorkspaceGuard; spend.
Qed.
Definition done_in {A} (n : nat) (m : H A) : Prop := budget n m (fun _ _ => True).
Lemma budget_mono {A} (m : H A) n n' : (n <= n')%nat -> done_in n m -> done_in n' m.
Proof.
  unfold done_in. revert n n'. induction m as [[a|e]|step IH] using H_rect_ops; intros n n' Hn; cbn; [done..|].
  destruct n as [|n]; [done|]. destruct n' as [|n']; [lia|]. intros Hm w. specialize (Hm w).
  destruct (step w) as [w' rest] eqn:Es. eapply IH; [exact Es|apply le_S_n, Hn|done].
Qed.
Lemma budget_resume n (m : H Z) w : done_in n m -> done_in (n - 1) (resume w m).2.
Proof.
  unfold done_in. destruct m as [[a|e]|step]; cbn; [done..|]. destruct n as [|n]; [done|]. intros Hm. specialize (Hm w).
  destruct (step w) as [w' rest]. cbn. by rewrite Nat.sub_0_r.
Qed.
Lemma budget_out (m : H Z) : done_in 0 m -> exists r, m = HRet r.
Proof. destruct m as [r|step]; [by exists r|done]. Qed.

Section answered.
Context (get : UpstreamRequest -> option Z) (stat : string -> bool).
Notation happens := (happens get stat).
Notation runs := (runs get stat).

(** Thread [i] is under way with at most [k] operations left. *)
Definition within (i k : nat) (n : Node) : Prop := exists t, nd_threads n !! i = Some t /\ done_in k (th_rest t).
Lemma start_budget r : done_in MOST_OPERATIONS (th_rest (start get stat r)).
Proof. cbn. destruct (find_call _ _); [apply perform_budget|done]. Qed.
Lemma happens_within i k n e :
  within i k n -> within i (match e with Resumes j => if bool_decide (i = j) then k - 1 else k | _ => k end) (happens n e).
Proof.
  intros (t & Ht & Hk). destruct e as [r|j]; cbn.
  - exists t. split; [by apply lookup_app_l_Some|done].
  - destruct (nd_threads n !! j) as [u|] eqn:Eu; [|case_bool_decide; [congruence|by exists t]].
    pose proof (budget_resume k (th_rest t) (nd_world n) Hk) as Hr.
    destruct (resume (nd_world n) (th_rest u)) as [w m] eqn:Er. case_bool_decide as Hij.
    + subst j. assert (u = t) as -> by congruence. rewrite Er in Hr.
      eexists. split; [apply list_lookup_insert_eq; by eapply lookup_lt_Some|done].
    + exists t. split; [|done]. cbn. by rewrite list_lookup_insert_ne.
Qed.
(** How often thread [i] is resumed. *)
Definition turns_of (i : nat) (es : list NodeEvent) : nat :=
  length (List.filter (fun e => match e with Resumes j => bool_decide (i = j) | Arrives _ => false end) es).
Lemma runs_within i k n es : within i k n -> within i (k - turns_of i es) (runs n es).
Proof.
  revert k n. induction es as [|e es IH]; intros k n Hn; [by rewrite Nat.sub_0_r|].
  rewrite runs_cons. apply happens_within with (e := e) in Hn. apply IH in Hn.
  replace (k - turns_of i (e :: es))%nat
    with ((match e with Resumes j => if bool_decide (i = j) then k - 1 else k | _ => k end) - turns_of i es)%nat; [done|].
  unfold turns_of. cbn. destruct e as [r|j]; [done|]. case_bool_decide; cbn; lia.
Qed.
Lemma all_within n es i :
  (forall j, j < length (nd_threads n) -> within j MOST_OPERATIONS n)%nat ->
  (i < length (nd_threads (runs n es)))%nat -> within i MOST_OPERATIONS (runs n es).
Proof.
  revert n. induction es as [|e es IH]; intros n Hn Hi; [by apply Hn|]. apply IH; [|done]. clear IH Hi i.
  intros j Hj. destruct (decide (j < length (nd_threads n)))%nat as [Hl|Hl].
  - apply Hn in Hl. apply happens_within with (e := e) in Hl as (t & Ht & Hb). exists t. split; [done|].
    eapply budget_mono; [|exact Hb]. destruct e; [done|]. case_bool_decide; lia.
  - destruct e as [r|j'].
    + cbn in *. rewrite length_app in Hj. cbn in Hj. exists (start get stat r). split; [|apply start_budget].
      cbn. rewrite lookup_app_r by lia. by replace (j - length (nd_threads n))%nat with 0%nat by lia.
    + exfalso. apply Hl. revert Hj. cbn. destruct (nd_threads n !! j') as [t|]; [|done]. destruct (resume _ _). cbn.
      by rewrite length_insert.
Qed.

(** Whatever else is served in between, and whatever the tables hold by then, a
    request that has arrived has its answer once seven operations of the model
    (a whole [$transaction] counts as one) have run. *)
Theorem every_request_is_answered (w : World) (es1 es2 : list NodeEvent) i :
  (i < length (nd_threads (runs (idle w) es1)))%nat -> (MOST_OPERATIONS <= turns_of i es2)%nat ->
  exists status, answers (runs (idle w) (es1 ++ es2)) !! i = Some (Some status).
Proof.
  intros Hi Hturns. rewrite runs_app. apply (all_within (idle w) es1 i) in Hi; [|by intros j Hj; inversion Hj].
  apply (runs_within i MOST_OPERATIONS _ es2) in Hi as (t & Ht & Hb).
  replace (MOST_OPERATIONS - turns_of i es2)%nat with 0%nat in Hb by lia. apply budget_out in Hb as [r Hr].
  unfold answers. rewrite list_lookup_fmap, Ht. unfold answer. cbn. rewrite Hr. destruct r; by eexists.
Qed.
End answered.
Lemma every_request_is_answered_witness :
  exists status, answers (ex_node ex_world (together ex_busy [0; 1]%nat ++ map Resumes (rounds 5 7))) !! 2%nat = Some (Some status).
Proof.
  apply (every_request_is_answered ex_get ex_stat ex_world (together ex_busy [0; 1]%nat) (map Resumes (rounds 5 7)) 2);
    vm_compute; lia.
Defined.
