(* ===== verification/WebClient.v ===== *)
(** * apps/web: the API client and the session of a tab

    api/client.ts (the fetch wrapper with its single-flight refresh) and
    providers/auth-context.tsx (who is signed in), as a machine whose events are
    what the browser's event loop may run next: a call starts, a fetch is
    answered or fails, a refresh ends, a call that waited for one goes on. *)

From S2P Require Import Prelude JsString JsNum JsDate Json Shared Queue Auth Providers Gateway Persist Export Zod ApiDb.
From S2P Require Import ApiAuth ApiKeys ApiMembers ApiOrg ApiPricing ApiReports ApiServer.

(** ** client.ts: errors *)
Record ApiError := mkApiError {
  ae_status : Z; ae_code : string; ae_message : string; ae_requestId : option string }.
(** A fetch response: [rs_body] is the body's JSON, absent where it is none. *)
Record Response := mkResponse { rs_status : Z; rs_body : option json }.
Definition res_ok (r : Response) : bool := (200 <=? rs_status r) && (rs_status r <=? 299).

Inductive CallOutcome :=
| Body (j : json)            (** [return (await res.json()) as T] *)
| Saved                      (** the download was handed to the browser *)
| Dropped                    (** a download ends quietly after the session is lost *)
| Failed (e : ApiError)
| Rejected.                  (** any other exception: no connection, no JSON *)

(** [problem.title] throws when the error body is [null]. *)
Definition api_error (r : Response) : CallOutcome :=
  match rs_body r with
  | Some JNull => Rejected
  | problem =>
      Failed (mkApiError (rs_status r) (str_field problem "title" ?? ("http_" +:+ dec (rs_status r)))
                (str_field problem "detail" ?? str_field problem "title"
                   ?? ("Request failed (" +:+ dec (rs_status r) +:+ ")"))
                (str_field problem "requestId"))
  end.

(** ** What a tab asks for

    [Page]: a caller of endpoints.ts with its path under /api/v1; the others are
    the calls of auth-context.tsx, [Me] by the bootstrap or by [loadMe]. *)
Inductive Kind := Page (path : string) | Download (url : string) | Me (boot : bool) | Login | Register | Logout.
Definition path_of (k : Kind) : string :=
  match k with
  | Page path => path
  | Download url => url
  | Me _ => "/auth/me"
  | Login => "/auth/login"
  | Register => "/auth/register"
  | Logout => "/auth/logout"
  end.
(** A 401 of this call leads to a refresh. *)
Definition refreshable (k : Kind) : bool :=
  match k with Download _ => true | _ => negb (starts_with "/auth/" (path_of k)) end.
(** A response that leads to no refresh. *)
Definition deliver (k : Kind) (r : Response) : CallOutcome :=
  match k with
  | Download _ =>
      if res_ok r then Saved
      else Failed (mkApiError (rs_status r) "download_failed" ("Download failed (" +:+ dec (rs_status r) +:+ ")") None)
  | _ => if res_ok r then match rs_body r with Some j => Body j | None => Rejected end else api_error r
  end.
(** What a call ends with when its refresh is refused. *)
Definition refused_outcome (k : Kind) (first : Response) : CallOutcome :=
  match k with Download _ => Dropped | _ => deliver k first end.

(** ** The state of a tab *)
Inductive RefreshOutcome := Renewed (token : string) | Refused | Broken.
(** A run of [tryRefresh]: by [refreshOnce], or by the bootstrap of AuthProvider. *)
Record Refresh := mkRefresh { rf_shared : bool; rf_result : option RefreshOutcome }.
Inductive CallState :=
| Fetching (isRetry : bool)
| Waiting (refresh : nat) (first : Response)
| Done (o : CallOutcome).
(** [cl_sent]: the access token of each fetch the call made. *)
Record Call := mkCall { cl_kind : Kind; cl_state : CallState; cl_sent : list (option string) }.

Inductive Status := Loading | Anonymous | Authenticated.
Record Membership := mkMembership { ms_slug : string; ms_role : string }.
Record View := mkView {
  v_status : Status; v_user : option json; v_isSuperAdmin : bool; v_memberships : list Membership }.

(** [lost]: how often [onSessionLost] ran. *)
Record Client := mkClient {
  accessToken : option string;
  refreshInFlight : option nat;
  refreshes : list Refresh;
  calls : list Call;
  view : View;
  lost : nat;
}.
Definition initial : Client := mkClient None None [] [] (mkView Loading None false []) 0.

(** ** auth-context.tsx *)
Definition becomeAnonymous (c : Client) : Client :=
  mkClient None (refreshInFlight c) (refreshes c) (calls c) (mkView Anonymous None false []) (lost c).
Definition setAccessToken (token : option string) (c : Client) : Client :=
  mkClient token (refreshInFlight c) (refreshes c) (calls c) (view c) (lost c).
Definition membership_of (j : json) : option Membership :=
  slug ← str_field (field j "workspace") "slug"; role ← str_field (Some j) "role"; Some (mkMembership slug role).
Definition memberships_of (j : option json) : list Membership :=
  match j with Some (JArr l) => omap membership_of l | _ => [] end.
Definition loaded (me : json) (c : Client) : Client :=
  mkClient (accessToken c) (refreshInFlight c) (refreshes c) (calls c)
    (mkView Authenticated (field me "user") (is_true (field me "isSuperAdmin")) (memberships_of (field me "memberships")))
    (lost c).
(** [setSessionLostHandler(becomeAnonymous)] *)
Definition onSessionLost (c : Client) : Client :=
  let c := becomeAnonymous c in
  mkClient (accessToken c) (refreshInFlight c) (refreshes c) (calls c) (view c) (lost c + 1).

(** ** client.ts: the calls *)
Definition set_calls (l : list Call) (c : Client) : Client :=
  mkClient (accessToken c) (refreshInFlight c) (refreshes c) l (view c) (lost c).
Definition sent_token (c : Client) : option string := if_truthy (accessToken c).
(** A call sends its first fetch. *)
Definition ask (k : Kind) (c : Client) : Client :=
  set_calls (calls c ++ [mkCall k (Fetching false) [sent_token c]]) c.
Definition set_state (i : nat) (s : CallState) (c : Client) : Client :=
  set_calls (alter (fun x => mkCall (cl_kind x) s (cl_sent x)) i (calls c)) c.
Definition refetch (i : nat) (c : Client) : Client :=
  set_calls (alter (fun x => mkCall (cl_kind x) (Fetching true) (cl_sent x ++ [sent_token c])) i (calls c)) c.
Definition start_refresh (shared : bool) (c : Client) : Client :=
  mkClient (accessToken c) (if shared then Some (length (refreshes c)) else refreshInFlight c)
    (refreshes c ++ [mkRefresh shared None]) (calls c) (view c) (lost c).
(** [refreshInFlight ??= tryRefresh()…; return refreshInFlight] *)
Definition refreshOnce (c : Client) : Client * nat :=
  match refreshInFlight c with
  | Some n => (c, n)
  | None => (start_refresh true c, length (refreshes c))
  end.

(** What the code that awaited the call does next. *)
Definition continue_with (k : Kind) (o : CallOutcome) (c : Client) : Client :=
  match k, o with
  | Me _, Body me => loaded me c
  | Me true, _ => becomeAnonymous c
  | (Login | Register), Body j => ask (Me false) (setAccessToken (str_field (Some j) "accessToken") c)
  | Logout, _ => becomeAnonymous c
  | _, _ => c
  end.
Definition settle (i : nat) (k : Kind) (o : CallOutcome) (c : Client) : Client :=
  continue_with k o (set_state i (Done o) c).

(** ** Events *)
Inductive Event :=
| Ask (k : Kind)
| Mount                                       (** the effect of AuthProvider *)
| Answer (i : nat) (r : Response)
| Offline (i : nat)
| Refreshed (n : nat) (o : RefreshOutcome)
| Resume (i : nat).

Definition answer (i : nat) (r : Response) (c : Client) : option Client :=
  call ← calls c !! i;
  match cl_state call with
  | Fetching isRetry =>
      if (rs_status r =? 401) && negb isRetry && refreshable (cl_kind call)
      then let '(c1, n) := refreshOnce c in Some (set_state i (Waiting n r) c1)
      else Some (settle i (cl_kind call) (deliver (cl_kind call) r) c)
  | _ => None
  end.
Definition offline (i : nat) (c : Client) : option Client :=
  call ← calls c !! i;
  match cl_state call with
  | Fetching _ => Some (settle i (cl_kind call) Rejected c)
  | _ => None
  end.
(** [tryRefresh] ends; its [then] and [finally] run before anything else does. *)
Definition refreshed (n : nat) (o : RefreshOutcome) (c : Client) : option Client :=
  r ← refreshes c !! n;
  match rf_result r with
  | Some _ => None
  | None =>
      let c1 := mkClient (match o with Renewed token => Some token | _ => accessToken c end)
                  (if rf_shared r then None else refreshInFlight c)
                  (<[n := mkRefresh (rf_shared r) (Some o)]> (refreshes c)) (calls c) (view c) (lost c) in
      Some (if rf_shared r then c1
            else match o with Renewed _ => ask (Me true) c1 | _ => becomeAnonymous c1 end)
  end.
Definition resume (i : nat) (c : Client) : option Client :=
  call ← calls c !! i;
  match cl_state call with
  | Waiting n first =>
      r ← refreshes c !! n;
      o ← rf_result r;
      Some match o with
           | Renewed _ => refetch i c
           | Refused =>
               let c1 := onSessionLost c in
               settle i (cl_kind call) (refused_outcome (cl_kind call) first) c1
           | Broken => settle i (cl_kind call) Rejected c
           end
  | _ => None
  end.
Definition step (ev : Event) (c : Client) : option Client :=
  match ev with
  | Ask k => Some (ask k c)
  | Mount => Some (start_refresh false c)
  | Answer i r => answer i r c
  | Offline i => offline i c
  | Refreshed n o => refreshed n o c
  | Resume i => resume i c
  end.
Fixpoint run (es : list Event) (c : Client) : option Client :=
  match es with [] => Some c | ev :: es => c' ← step ev c; run es c' end.

(** ** The invariant of a tab *)
(** How a call stands: its fetches, and the refresh it waits for. *)
Definition renewed_once (c : Client) : Prop :=
  exists n token, refreshes c !! n = Some (mkRefresh true (Some (Renewed token))).
Definition call_ok (c : Client) (x : Call) : Prop :=
  (length (cl_sent x) = 2%nat -> refreshable (cl_kind x) = true /\ renewed_once c) /\
  match cl_state x with
  | Fetching isRetry => length (cl_sent x) = if isRetry then 2%nat else 1%nat
  | Waiting n first =>
      length (cl_sent x) = 1%nat /\ refreshable (cl_kind x) = true /\ rs_status first = 401 /\
      exists o, refreshes c !! n = Some (mkRefresh true o)
  | Done o =>
      (length (cl_sent x) = 1%nat \/ length (cl_sent x) = 2%nat) /\
      forall e, o = Failed e -> ae_status e = 401 -> refreshable (cl_kind x) = true ->
        length (cl_sent x) = 2%nat \/ (0 < lost c)%nat
  end.
Record client_ok (c : Client) : Prop := {
  ok_flight : forall n, refreshInFlight c = Some n <-> refreshes c !! n = Some (mkRefresh true None);
  ok_calls : forall i x, calls c !! i = Some x -> call_ok c x;
}.

(** Refreshes settle and are never forgotten. *)
Record later (c c' : Client) : Prop := {
  later_refresh : forall n r, refreshes c !! n = Some r ->
    exists o, refreshes c' !! n = Some (mkRefresh (rf_shared r) o) /\ (is_Some (rf_result r) -> o = rf_result r);
  later_lost : (lost c <= lost c')%nat;
}.
Lemma later_refl c c' : refreshes c' = refreshes c -> (lost c <= lost c')%nat -> later c c'.
Proof. intros Hr Hl. constructor; [|done]. intros n [sh o] Hn. exists o. by rewrite Hr. Qed.
Lemma renewed_later c c' : later c c' -> renewed_once c -> renewed_once c'.
Proof.
  intros Hl (n & token & Hn). destruct (later_refresh _ _ Hl _ _ Hn) as (o & Ho & Hs). exists n, token.
  rewrite Ho. cbn in *. by rewrite Hs by done.
Qed.
Lemma call_later c c' x : later c c' -> call_ok c x -> call_ok c' x.
Proof.
  intros Hl [H2 Hx]. split; [intros Hlen; destruct (H2 Hlen); split; [done|by eapply renewed_later]|].
  destruct (cl_state x) as [b|n first|o]; [done| |].
  - destruct Hx as (? & ? & ? & o & Hn). split_and!; [done..|].
    destruct (later_refresh _ _ Hl _ _ Hn) as (o' & Ho & _). eauto.
  - destruct Hx as [Hlen He]. split; [done|]. intros e Ho Hs Hr. destruct (He e Ho Hs Hr); [by left|right].
    pose proof (later_lost _ _ Hl). lia.
Qed.

(** A change that touches no refresh and no call. *)
Lemma ok_same c c' :
  client_ok c -> refreshInFlight c' = refreshInFlight c -> refreshes c' = refreshes c -> calls c' = calls c ->
  (lost c <= lost c')%nat -> client_ok c'.
Proof.
  intros [Hf Hc] Hf' Hr' Hc' Hl. constructor; [intros n; by rewrite Hf', Hr'|].
  intros i x. rewrite Hc'. intros Hx. eapply call_later; [by apply later_refl|by eapply Hc].
Qed.
Lemma ok_ask k c : client_ok c -> client_ok (ask k c).
Proof.
  intros [Hf Hc]. constructor; [done|]. intros i x. cbn. rewrite lookup_snoc_Some.
  intros [[_ Hx]|[_ <-]]; [by eapply call_later, Hc; [by apply later_refl|]|]. by split.
Qed.
Lemma ok_alter i g c :
  client_ok c -> (forall x, calls c !! i = Some x -> call_ok c (g x)) -> client_ok (set_calls (alter g i (calls c)) c).
Proof.
  intros [Hf Hc] Hg. constructor; [done|]. intros j x. cbn. destruct (decide (j = i)) as [->|Hne].
  - rewrite list_lookup_alter_eq. destruct (calls c !! i) as [y|] eqn:Ey; [|done]. intros [= <-].
    eapply call_later; [by apply (later_refl c)|]. by apply Hg.
  - rewrite list_lookup_alter_ne by done. intros Hx. eapply call_later; [by apply (later_refl c)|by eapply Hc].
Qed.
Lemma ok_settle i k o c :
  client_ok c -> (forall x, calls c !! i = Some x -> call_ok c (mkCall (cl_kind x) (Done o) (cl_sent x))) ->
  client_ok (settle i k o c).
Proof.
  intros Hc Hi. assert (client_ok (set_state i (Done o) c)) as Hs by (by apply ok_alter). unfold settle.
  destruct k as [| |[]| | |], o; cbn [continue_with]; try exact Hs; try (by eapply ok_same; [exact Hs|..]).
  all: apply ok_ask; by eapply ok_same; [exact Hs|..].
Qed.
Lemma refresh_later c sh : later c (start_refresh sh c).
Proof.
  constructor; [|done]. intros n [s o] Hn. exists o. cbn. by rewrite lookup_app_l by by eapply lookup_lt_Some.
Qed.
Lemma ok_start sh c :
  client_ok c -> (sh = true -> refreshInFlight c = None) -> client_ok (start_refresh sh c).
Proof.
  intros [Hf Hc] Hsh. constructor.
  - intros n. cbn. rewrite lookup_snoc_Some. destruct sh.
    + pose proof (Hf n) as Hn. rewrite Hsh in Hn by done. split.
      * intros [= <-]. right. by split.
      * intros [[_ Hx]|[-> _]]; [by apply Hn in Hx|done].
    + rewrite Hf. split; [intros Hn; left; split; [by eapply lookup_lt_Some|done]|by intros [[_ Hn]|[_ [=]]]].
  - intros i x Hx. eapply call_later; [apply refresh_later|by eapply Hc].
Qed.
Lemma refreshOnce_ok c c1 n :
  client_ok c -> refreshOnce c = (c1, n) ->
  client_ok c1 /\ later c c1 /\ calls c1 = calls c /\ refreshes c1 !! n = Some (mkRefresh true None).
Proof.
  intros Hc. unfold refreshOnce. destruct (refreshInFlight c) as [m|] eqn:Em; intros [= <- <-].
  - split_and!; [done|by apply later_refl|done|by apply ok_flight].
  - split_and!; [by apply ok_start|apply refresh_later|done|]. cbn. by apply list_lookup_middle.
Qed.
(** An error a call delivers has the status of the response. *)
Lemma deliver_status k r e : deliver k r = Failed e -> ae_status e = rs_status r.
Proof.
  unfold deliver, api_error. destruct k; repeat case_match; intros; simplify_eq/=; done.
Qed.

Lemma answer_ok i r c c' : client_ok c -> answer i r c = Some c' -> client_ok c'.
Proof.
  intros Hc. unfold answer. destruct (calls c !! i) as [x|] eqn:Ei; [|done]. cbn [mbind option_bind].
  pose proof (ok_calls _ Hc _ _ Ei) as Hx. destruct (cl_state x) as [b|n first|o] eqn:Es; [|done|done].
  destruct Hx as [H2 Hlen]. rewrite Es in Hlen.
  destruct ((rs_status r =? 401) && negb b && refreshable (cl_kind x)) eqn:Eb.
  - apply andb_true_iff in Eb as [[H401%Z.eqb_eq ->%negb_true_iff]%andb_true_iff Hr].
    destruct (refreshOnce c) as [c1 n] eqn:Er. intros [= <-].
    destruct (refreshOnce_ok _ _ _ Hc Er) as (Hc1 & Hl & Hcalls & Hn). apply ok_alter; [done|].
    intros y. rewrite Hcalls, Ei. intros [= <-]. split; cbn; [lia|]. split_and!; eauto.
  - intros [= <-]. apply ok_settle; [done|]. intros y. rewrite Ei. intros [= <-]. split; cbn; [done|].
    split; [destruct b; auto|]. intros e He H401 Hr. apply deliver_status in He. left. rewrite Hlen.
    destruct b; [done|]. exfalso. rewrite Hr, andb_true_r, (proj2 (Z.eqb_eq _ _)) in Eb by congruence. done.
Qed.
Lemma offline_ok i c c' : client_ok c -> offline i c = Some c' -> client_ok c'.
Proof.
  intros Hc. unfold offline. destruct (calls c !! i) as [x|] eqn:Ei; [|done]. cbn [mbind option_bind].
  pose proof (ok_calls _ Hc _ _ Ei) as [H2 Hlen]. destruct (cl_state x) as [b|n first|o] eqn:Es; [|done|done].
  intros [= <-]. apply ok_settle; [done|]. intros y. rewrite Ei. intros [= <-]. split; cbn; [done|].
  split; [destruct b; auto|done].
Qed.
Lemma refreshed_later n o c r c1 :
  refreshes c !! n = Some r -> rf_result r = None -> refreshes c1 = <[n := mkRefresh (rf_shared r) (Some o)]> (refreshes c) ->
  lost c1 = lost c -> later c c1.
Proof.
  intros Hn Hr Hc1 Hl. constructor; [|lia]. intros m x Hm. rewrite Hc1. destruct (decide (m = n)) as [->|Hne].
  - rewrite list_lookup_insert_eq by by eapply lookup_lt_Some. assert (x = r) as -> by congruence.
    exists (Some o). split; [done|]. rewrite Hr. by intros [? [=]].
  - rewrite list_lookup_insert_ne by done. exists (rf_result x). by destruct x.
Qed.
Lemma refreshed_ok n o c c' : client_ok c -> refreshed n o c = Some c' -> client_ok c'.
Proof.
  intros Hc. unfold refreshed. destruct (refreshes c !! n) as [[sh res]|] eqn:En; [|done]. cbn [mbind option_bind].
  destruct res as [|]; [done|]. cbn [rf_shared rf_result]. set (c1 := mkClient _ _ _ _ _ _). intros [= <-].
  assert (client_ok c1) as H1.
  { assert (later c c1) as Hl by by eapply refreshed_later. constructor.
    - intros m. cbn. destruct (decide (m = n)) as [->|Hne].
      + rewrite list_lookup_insert_eq by by eapply lookup_lt_Some. destruct sh; [done|]. by rewrite (ok_flight _ Hc), En.
      + rewrite list_lookup_insert_ne by done. destruct sh; [|apply Hc]. split; [done|]. intros Hm.
        apply (ok_flight _ Hc) in En, Hm. congruence.
    - intros i x Hx. eapply call_later; [exact Hl|by eapply Hc]. }
  destruct sh; [done|]. destruct o; [by apply ok_ask|by eapply ok_same; [exact H1|..]..].
Qed.
Lemma resume_ok i c c' : client_ok c -> resume i c = Some c' -> client_ok c'.
Proof.
  intros Hc. unfold resume. destruct (calls c !! i) as [x|] eqn:Ei; [|done]. cbn [mbind option_bind].
  pose proof (ok_calls _ Hc _ _ Ei) as Hx. destruct (cl_state x) as [b|n first|o] eqn:Es; [done| |done].
  destruct Hx as [_ Hw]. rewrite Es in Hw. destruct Hw as (Hlen & Hr & H401 & o & Hn). rewrite Hn. cbn [mbind option_bind].
  destruct o as [o|]; [|done]. cbn [rf_result mbind option_bind]. intros [= <-]. destruct o as [token| |].
  - apply ok_alter; [done|]. intros y. rewrite Ei. intros [= <-]. split; cbn; rewrite length_app, Hlen; [|done].
    intros _. split; [done|]. by exists n, token.
  - apply ok_settle; [by eapply ok_same; [exact Hc|..]; cbn; [done..|lia]|]. intros y. cbn. rewrite Ei. intros [= <-].
    split; cbn; [lia|]. split; [by left|]. intros. right. lia.
  - apply ok_settle; [done|]. intros y. rewrite Ei. intros [= <-]. split; cbn; [lia|]. split; [by left|done].
Qed.
Lemma step_ok ev c c' : client_ok c -> step ev c = Some c' -> client_ok c'.
Proof.
  destruct ev as [k| |i r|i|n o|i]; cbn [step].
  - intros Hc [= <-]. by apply ok_ask.
  - intros Hc [= <-]. by apply ok_start.
  - apply answer_ok.
  - apply offline_ok.
  - apply refreshed_ok.
  - apply resume_ok.
Qed.
Lemma run_ok es c c' : client_ok c -> run es c = Some c' -> client_ok c'.
Proof.
  revert c. induction es as [|ev es IH]; intros c Hc; cbn [run]; [by intros [= <-]|].
  destruct (step ev c) as [c1|] eqn:E; [|done]. cbn. apply IH. by eapply step_ok.
Qed.
Lemma initial_ok : client_ok initial.
Proof. constructor; [intros [|n]; by split|by intros [|i] x]. Qed.

(** ** Termination

    What is left to do: every event but a new call or a mount takes some of it
    away. *)
Definition call_work (x : Call) : nat :=
  match cl_state x with
  | Fetching false =>
      match cl_kind x with Login | Register => 2 | k => if refreshable k then 4 else 1 end
  | Fetching true => 1
  | Waiting _ _ => 2
  | Done _ => 0
  end.
Definition refresh_work (r : Refresh) : nat :=
  match rf_result r with Some _ => 0 | None => if rf_shared r then 1 else 2 end.
Definition work (c : Client) : nat := sum_list_with call_work (calls c) + sum_list_with refresh_work (refreshes c).
Definition starts (ev : Event) : bool := match ev with Ask _ | Mount => true | _ => false end.

Lemma sum_alter {A} (f : A -> nat) g i (l : list A) x :
  l !! i = Some x -> (sum_list_with f (alter g i l) + f x = sum_list_with f l + f (g x))%nat.
Proof.
  revert i. induction l as [|y l IH]; intros [|i]; cbn; [done|done|intros [= ->]; lia|].
  intros Hx. specialize (IH _ Hx). change (alter g i l) with (list_alter g i l) in IH. unfold alter in *. lia.
Qed.
Lemma work_alter g i c x :
  calls c !! i = Some x ->
  (work (set_calls (alter g i (calls c)) c) + call_work x = work c + call_work (g x))%nat.
Proof. intros Hx. pose proof (sum_alter call_work g i _ _ Hx). unfold work. cbn. lia. Qed.
Lemma work_ask k c : work (ask k c) = (work c + call_work (mkCall k (Fetching false) []))%nat.
Proof. unfold work. cbn. rewrite sum_list_with_app. cbn. unfold call_work; cbn. lia. Qed.
Lemma work_continue k o c :
  (work (continue_with k o c) <= work c + match k with Login | Register => 1 | _ => 0 end)%nat.
Proof.
  destruct k as [| |[]| | |], o; cbn [continue_with]; rewrite ?work_ask; unfold work; cbn; try lia.
Qed.
Lemma done_work k o l : call_work (mkCall k (Done o) l) = 0%nat.
Proof. done. Qed.
Lemma waiting_work k n r l : call_work (mkCall k (Waiting n r) l) = 2%nat.
Proof. done. Qed.
Lemma retry_work k l : call_work (mkCall k (Fetching true) l) = 1%nat.
Proof. done. Qed.
Lemma work_settle i o c x :
  calls c !! i = Some x ->
  (work (settle i (cl_kind x) o c) + call_work x <=
   work c + match cl_kind x with Login | Register => 1 | _ => 0 end)%nat.
Proof.
  intros Hx. unfold settle. pose proof (work_continue (cl_kind x) o (set_state i (Done o) c)) as Hc.
  pose proof (work_alter (fun x => mkCall (cl_kind x) (Done o) (cl_sent x)) i c x Hx) as Ha. unfold set_state in *.
  cbn beta in Ha. rewrite done_work in Ha. lia.
Qed.
Lemma call_work_first x : cl_state x = Fetching false -> (match cl_kind x with Login | Register => 1 | _ => 0 end < call_work x)%nat.
Proof. unfold call_work. intros ->. destruct (cl_kind x); try (destruct (refreshable _)); lia. Qed.
Lemma call_work_refreshable x : cl_state x = Fetching false -> refreshable (cl_kind x) = true -> call_work x = 4%nat.
Proof. unfold call_work. intros ->. destruct (cl_kind x); intros Hr; first [discriminate Hr|by rewrite Hr]. Qed.
Lemma refreshOnce_work c c1 n : refreshOnce c = (c1, n) -> (work c1 <= work c + 1)%nat /\ calls c1 = calls c.
Proof.
  unfold refreshOnce. destruct (refreshInFlight c); intros [= <- <-]; [split; [lia|done]|]. split; [|done].
  unfold work. cbn. rewrite sum_list_with_app. cbn. lia.
Qed.
Lemma refreshed_work n o c c' : refreshed n o c = Some c' -> (work c' < work c)%nat.
Proof.
  unfold refreshed. destruct (refreshes c !! n) as [[sh [|]]|] eqn:En; [done| |done]. cbn [mbind option_bind rf_result rf_shared].
  set (c1 := mkClient _ _ _ _ _ _). intros [= <-].
  assert (work c1 + (if sh then 1 else 2) = work c)%nat as Hw.
  { unfold work. cbn. pose proof (sum_alter refresh_work (fun _ => mkRefresh sh (Some o)) n _ _ En) as Hs.
    replace (alter _ n (refreshes c)) with (<[n := mkRefresh sh (Some o)]> (refreshes c)) in Hs; [destruct sh; cbn in *; lia|].
    apply list_eq. intros m. destruct (decide (m = n)) as [->|Hne].
    - rewrite list_lookup_insert_eq by by eapply lookup_lt_Some. by rewrite list_lookup_alter_eq, En.
    - by rewrite list_lookup_insert_ne, list_lookup_alter_ne. }
  destruct sh; [lia|]. destruct o; rewrite ?work_ask; [change (call_work _) with 1%nat; lia|..];
    change (work (becomeAnonymous c1)) with (work c1); lia.
Qed.
Lemma step_work ev c c' : client_ok c -> step ev c = Some c' -> starts ev = false -> (work c' < work c)%nat.
Proof.
  intros Hc. destruct ev as [k| |i r|i|n o|i]; cbn [step starts]; try done; unfold answer, offline, resume.
  3: by intros H _; eapply refreshed_work.
  all: destruct (calls c !! i) as [x|] eqn:Ei; [|done]; cbn [mbind option_bind];
    pose proof (ok_calls _ Hc _ _ Ei) as [H2 Hx]; destruct (cl_state x) as [b|n first|o] eqn:Es; try done.
  - destruct (_ && _) eqn:Eb.
    + apply andb_true_iff in Eb as [[_ ->%negb_true_iff]%andb_true_iff Hr]. destruct (refreshOnce c) as [c1 n] eqn:Er.
      intros [= <-] _. destruct (refreshOnce_work _ _ _ Er) as [Hw Hcalls]. rewrite <- Hcalls in Ei.
      pose proof (work_alter (fun x => mkCall (cl_kind x) (Waiting n r) (cl_sent x)) i c1 x Ei) as Ha. unfold set_state.
      cbn beta in Ha. rewrite waiting_work in Ha.
      rewrite (call_work_refreshable x Es Hr) in Ha. lia.
    + intros [= <-] _. pose proof (work_settle i (deliver (cl_kind x) r) c x Ei) as Hs. destruct b.
      * destruct (H2 Hx) as [Hr _]. assert (call_work x = 1%nat) by (unfold call_work; by rewrite Es).
        destruct (cl_kind x); try discriminate Hr; lia.
      * pose proof (call_work_first x Es). lia.
  - intros [= <-] _. pose proof (work_settle i Rejected c x Ei) as Hs. destruct b.
    + destruct (H2 Hx) as [Hr _]. assert (call_work x = 1%nat) by (unfold call_work; by rewrite Es).
      destruct (cl_kind x); try discriminate Hr; lia.
    + pose proof (call_work_first x Es). lia.
  - destruct Hx as (_ & Hr & _ & o & Hn). rewrite Hn. cbn [mbind option_bind rf_result]. destruct o as [o|]; [|done].
    cbn [mbind option_bind]. intros [= <-] _.
    assert (call_work x = 2%nat) as Hw by (unfold call_work; by rewrite Es). destruct o.
    + pose proof (work_alter (fun x => mkCall (cl_kind x) (Fetching true) (cl_sent x ++ [sent_token c])) i c x Ei) as Ha.
      cbn beta in Ha. rewrite retry_work in Ha. unfold refetch. lia.
    + pose proof (work_settle i (refused_outcome (cl_kind x) first) (onSessionLost c) x Ei) as Hs.
      assert (work (onSessionLost c) = work c) as Hlost by done. destruct (cl_kind x); try discriminate Hr; lia.
    + pose proof (work_settle i Rejected c x Ei) as Hs. destruct (cl_kind x); try discriminate Hr; lia.
Qed.
Lemma start_work ev c c' : step ev c = Some c' -> starts ev = true -> (work c' <= work c + 4)%nat.
Proof.
  destruct ev as [k| | | | |]; cbn [step starts]; try done; intros [= <-] _.
  - rewrite work_ask. unfold call_work. cbn [cl_state cl_kind]. destruct k; try (destruct (refreshable _)); lia.
  - unfold work. cbn. rewrite sum_list_with_app. cbn. lia.
Qed.
Lemma run_work es c c' :
  client_ok c -> run es c = Some c' ->
  (length es + work c' <= work c + 5 * length (List.filter starts es))%nat.
Proof.
  revert c. induction es as [|ev es IH]; intros c Hc; cbn [run]; [intros [= <-]; cbn; lia|].
  destruct (step ev c) as [c1|] eqn:E; [|done]. cbn [mbind option_bind]. intros Hr.
  specialize (IH c1 (step_ok _ _ _ Hc E) Hr). cbn [List.filter length]. destruct (starts ev) eqn:Es; cbn [length].
  - pose proof (start_work _ _ _ E Es). lia.
  - pose proof (step_work _ _ _ Hc E Es). lia.
Qed.

(** ** Theorems *)
(** The machine can go on while anything is open. *)
Lemma open_goes_on c :
  client_ok c -> (forall ev, starts ev = false -> step ev c = None) ->
  (forall n r, refreshes c !! n = Some r -> is_Some (rf_result r)) /\
  (forall i x, calls c !! i = Some x -> exists o, cl_state x = Done o).
Proof.
  intros Hc Hstuck.
  assert (forall n r, refreshes c !! n = Some r -> is_Some (rf_result r)) as Hr.
  { intros n r Hn. destruct (rf_result r) eqn:Er; [done|]. specialize (Hstuck (Refreshed n Refused) eq_refl).
    cbn in Hstuck. unfold refreshed in Hstuck. rewrite Hn in Hstuck. cbn in Hstuck. by rewrite Er in Hstuck. }
  split; [done|]. intros i x Hx. pose proof (ok_calls _ Hc _ _ Hx) as [_ Hs].
  destruct (cl_state x) as [b|n first|o] eqn:Es; [|exfalso|by eexists].
  - specialize (Hstuck (Offline i) eq_refl). cbn in Hstuck. unfold offline in Hstuck. rewrite Hx in Hstuck.
    cbn in Hstuck. by rewrite Es in Hstuck.
  - destruct Hs as (_ & _ & _ & o & Hn). destruct (Hr _ _ Hn) as [o' Ho]. cbn in Ho. subst o.
    specialize (Hstuck (Resume i) eq_refl). cbn in Hstuck. unfold resume in Hstuck. rewrite Hx in Hstuck.
    cbn in Hstuck. rewrite Es, Hn in Hstuck. done.
Qed.

(** C38: Every call of the console comes to an end: whatever the order in which
    answers, failures, refreshes and waiting calls are run, a run has at most
    five events for each call started or page mounted, and once nothing but a
    new call can happen every call has its outcome and no refresh is open. *)
Theorem calls_settle (es : list Event) (c : Client) :
  run es initial = Some c ->
  (length es <= 5 * length (List.filter starts es))%nat /\
  ((forall ev, starts ev = false -> step ev c = None) ->
     refreshInFlight c = None /\
     (forall n r, refreshes c !! n = Some r -> is_Some (rf_result r)) /\
     forall i x, calls c !! i = Some x -> exists o, cl_state x = Done o).
Proof.
  intros Hrun. pose proof (run_work _ _ _ initial_ok Hrun) as Hw. pose proof (run_ok _ _ _ initial_ok Hrun) as Hc.
  change (work initial) with 0%nat in Hw. split; [lia|]. intros Hstuck. destruct (open_goes_on c Hc Hstuck) as [Hr Hd].
  split_and!; [|done..]. destruct (refreshInFlight c) as [n|] eqn:En; [|done].
  apply (ok_flight _ Hc), Hr in En as [? [=]].
Qed.

(** A 401 costs one refresh, shared by all calls that wait: in every
    interleaving at most one refresh of the calls is open, the calls waiting for
    an open refresh wait for that one, a call fetches at most twice and a second
    time only after a refresh that brought a token (never for a path under
    /auth/), and a call that may refresh reports 401 only when its retry got 401
    too or the session was lost. *)
Theorem refresh_is_single_flight (es : list Event) (c : Client) :
  run es initial = Some c ->
  (forall n m, refreshes c !! n = Some (mkRefresh true None) -> refreshes c !! m = Some (mkRefresh true None) -> n = m) /\
  forall i x, calls c !! i = Some x ->
    (length (cl_sent x) <= 2)%nat /\
    (length (cl_sent x) = 2%nat -> refreshable (cl_kind x) = true /\ renewed_once c) /\
    (forall n first, cl_state x = Waiting n first ->
       rs_status first = 401 /\ exists o, refreshes c !! n = Some (mkRefresh true o) /\
       (o = None -> refreshInFlight c = Some n)) /\
    (forall e, cl_state x = Done (Failed e) -> ae_status e = 401 -> refreshable (cl_kind x) = true ->
       length (cl_sent x) = 2%nat \/ (0 < lost c)%nat).
Proof.
  intros Hrun. pose proof (run_ok _ _ _ initial_ok Hrun) as Hc. split.
  - intros n m Hn Hm. apply (ok_flight _ Hc) in Hn, Hm. congruence.
  - intros i x Hx. destruct (ok_calls _ Hc _ _ Hx) as [H2 Hs]. split_and!; [|done| |].
    + destruct (cl_state x) as [[]|n first|o]; [| |destruct Hs|destruct Hs as [[] _]]; lia.
    + intros n first Es. rewrite Es in Hs. destruct Hs as (_ & _ & H401 & o & Hn). split; [done|]. exists o.
      split; [done|]. intros ->. by apply (ok_flight _ Hc).
    + intros e Es. rewrite Es in Hs. destruct Hs as [_ He]. by apply He.
Qed.

(** Two pages meet an expired token; one refresh serves both. *)
Definition ex_reply (status : Z) : Response := mkResponse status (Some (JObj [])).
Definition ex_two_pages : list Event :=
  [ Ask (Page "/workspaces"); Ask (Page "/pricing/models"); Answer 0 (ex_reply 401); Answer 1 (ex_reply 401);
    Refreshed 0 (Renewed "fresh"); Resume 1; Resume 0; Answer 0 (ex_reply 200); Answer 1 (ex_reply 403) ].
Definition ex_end : Client := from_option id initial (run ex_two_pages initial).
Lemma calls_settle_witness :
  (length ex_two_pages <= 5 * 2)%nat /\
  ((forall ev, starts ev = false -> step ev ex_end = None) -> refreshInFlight ex_end = None).
Proof.
  destruct (calls_settle ex_two_pages ex_end eq_refl) as [Hl Hd]. split; [exact Hl|]. intros Hs. by destruct (Hd Hs).
Defined.
Lemma refresh_is_single_flight_witness :
  length (refreshes ex_end) = 1%nat /\
  forall i x, calls ex_end !! i = Some x -> (length (cl_sent x) <= 2)%nat.
Proof.
  split; [reflexivity|]. intros i x Hx.
  destruct (refresh_is_single_flight ex_two_pages ex_end eq_refl) as [_ Hc]. by destruct (Hc i x Hx).
Defined.
Example two_pages_one_refresh :
  map cl_state (calls ex_end) =
    [ Done (Body (JObj [])); Done (Failed (mkApiError 403 "http_403" "Request failed (403)" None)) ] /\
  map cl_sent (calls ex_end) = [[None; Some "fresh"]; [None; Some "fresh"]].
Proof. vm_compute. done. Qed.
(** [loadMe] of a page open longer than a token's lifetime fails: its path is
    under /auth/, so the 401 leads to no refresh and not to a lost session. *)
Example stale_reload_fails :
  let c := from_option id initial (run [Ask (Me false); Answer 0 (ex_reply 401)] initial) in
  map cl_state (calls c) = [Done (Failed (mkApiError 401 "http_401" "Request failed (401)" None))] /\
  refreshes c = [] /\ lost c = 0%nat.
Proof. vm_compute. done. Qed.
