(* ===== verification/WebSession.v ===== *)
(** * A tab of the console against the API

    The refreshes of WebClient.v, served by modules/auth.ts over the tables,
    with the browser's cookie between them: single flight and rotation together
    never run into the detection of reused tokens. *)

From S2P Require Import Prelude JsString JsNum JsDate Json Shared Queue Auth Providers Gateway Persist Export Zod ApiDb.
From S2P Require Import ApiAuth ApiKeys ApiMembers ApiOrg ApiPricing ApiReports ApiServer ApiRules ApiSteps ApiRefine.
From S2P Require Import ApiEffects ApiSafety ApiExample ApiSessions ApiFamilies WebClient.

(** ** Which requests look at the refresh cookie *)
Definition uses_cookie (c : ApiCall) : bool := match c with CallRefresh | CallLogout => true | _ => false end.
Definition without_cookie (rq : ApiRequest) : ApiRequest :=
  mkApiRequest (rq_authorization rq) None (rq_ip rq) (rq_user_agent rq) (rq_json rq) (rq_query rq).
Lemma perform_without_cookie get stat E rq c w :
  uses_cookie c = false -> perform get stat E rq c w = perform get stat E (without_cookie rq) c w.
Proof. by destruct c. Qed.
(** The cookie as far as the route looks at it. *)
Definition cookie_seen (r : Request) : Request :=
  match find_call (r_method r) (r_path r) with
  | Some c => if uses_cookie c then r
              else mkRequest (r_env r) (without_cookie (r_rq r)) (r_method r) (r_path r)
  | None => r
  end.
Lemma cookie_seen_serves get stat w r : serve_one get stat w (cookie_seen r) = serve_one get stat w r.
Proof.
  unfold cookie_seen. destruct (find_call _ _) as [c|] eqn:Ec; [|done]. destruct (uses_cookie c) eqn:Eu; [done|].
  unfold serve_one, serve. cbn. by rewrite Ec, <- perform_without_cookie.
Qed.

(** ** The tab, the cookie jar and the server *)
Inductive Transit :=
| Idle
| Asked (n : nat) (cookie : option string)
| Answered (n : nat) (o : RefreshOutcome) (cookies : list Message).
Record Tab := mkTab {
  client : Client; jar : option string; transit : Transit; server : World;
  mishaps : nat;   (** a count the model keeps: see [tab_step] *)
}.
Definition store_cookie (jar : option string) (m : Message) : option string :=
  match m with SetRefreshCookie token => Some token | ClearRefreshCookie => None | _ => jar end.
(** [if (!res.ok) return null; … return body] *)
Definition refresh_outcome (r : result thrown SessionReply) : RefreshOutcome :=
  match r with Ok reply => Renewed (sr_accessToken reply) | Throw _ => Refused end.
(** The request [tryRefresh] sends when a step opened a refresh. *)
Definition sent_by (c c' : Client) (jar : option string) (t : Transit) : Transit :=
  match refreshInFlight c, refreshInFlight c' with None, Some n => Asked n jar | _, _ => t end.
(** What a page does between sign-in and sign-out. *)
Definition page_event (ev : Event) : bool :=
  match ev with
  | Ask (Page _) | Ask (Download _) | Ask (Me false) | Answer _ _ | Offline _ | Resume _ => true
  | _ => false
  end.

Section tab.
Context (get : UpstreamRequest -> option Z) (stat : string -> bool) (P : Primitives) (f : string).

(** A step: of the page; of anyone else's request (or the page's own calls) at
    the server; of a refresh, which the server answers in time and without
    failing itself, or which never reaches it; of its answer reaching the page.
    The rest are mishaps, and counted: another holder of this login's cookie (a
    second tab) has a request served, the server answers a refresh after the
    token's expiry or fails itself, or its answer is lost on the way back. *)
Inductive tab_step (t : Tab) : Tab -> Prop :=
| ts_page ev c :
    page_event ev = true -> step ev (client t) = Some c ->
    tab_step t (mkTab c (jar t) (sent_by (client t) c (jar t) (transit t)) (server t) (mishaps t))
| ts_other r :
    e_uuid (r_env r) "" = None -> stranger f (r_env r) (r_rq (cookie_seen r)) (db (server t)) ->
    tab_step t (mkTab (client t) (jar t) (transit t) (serve_one get stat (server t) r) (mishaps t))
| ts_served n cookie E rq w r :
    transit t = Asked n cookie -> rq_refresh_cookie rq = cookie -> e_P E = P -> e_uuid E "" = None ->
    (forall s token, cookie = Some token -> List.find (by_token E token) (sessions (db (server t))) = Some s ->
       e_now E <= s_expiresAt s) ->
    ApiAuth.refresh E rq (mkWorld (db (server t)) []) = (w, r) ->
    (forall e, r = Throw e -> error_status e < 500) ->
    tab_step t (mkTab (client t) (jar t) (Answered n (refresh_outcome r) (outbox w))
                  (mkWorld (db w) (outbox (server t))) (mishaps t))
| ts_vanished n cookie :
    transit t = Asked n cookie ->
    tab_step t (mkTab (client t) (jar t) (Answered n Broken []) (server t) (mishaps t))
| ts_delivered n o cookies c :
    transit t = Answered n o cookies -> step (Refreshed n o) (client t) = Some c ->
    tab_step t (mkTab c (fold_left store_cookie cookies (jar t)) Idle (server t) (mishaps t))
| ts_shared r :
    tab_step t (mkTab (client t) (jar t) (transit t) (serve_one get stat (server t) r) (S (mishaps t)))
| ts_troubled n cookie E rq w r :
    transit t = Asked n cookie -> rq_refresh_cookie rq = cookie ->
    ApiAuth.refresh E rq (mkWorld (db (server t)) []) = (w, r) ->
    tab_step t (mkTab (client t) (jar t) (Answered n (refresh_outcome r) (outbox w))
                  (mkWorld (db w) (outbox (server t))) (S (mishaps t)))
| ts_lost n cookie E rq w r :
    transit t = Asked n cookie -> rq_refresh_cookie rq = cookie ->
    ApiAuth.refresh E rq (mkWorld (db (server t)) []) = (w, r) ->
    tab_step t (mkTab (client t) (jar t) (Answered n Broken []) (mkWorld (db w) (outbox (server t))) (S (mishaps t))).

(** ** The token in the jar is good *)
Definition good (d : ApiDb) (token : option string) : Prop :=
  exists text s, token = Some text /\ text <> "" /\
    s ∈ sessions d /\ s_tokenHash s = sha256Hex P text /\ s_familyId s = f /\ s_revokedAt s = None /\
    has u_id (s_userId s) (users d) = true.
Definition transit_ok (t : Tab) : Prop :=
  match transit t with
  | Idle => refreshInFlight (client t) = None /\ good (db (server t)) (jar t)
  | Asked n cookie => refreshInFlight (client t) = Some n /\ cookie = jar t /\ good (db (server t)) (jar t)
  | Answered n o cookies =>
      refreshInFlight (client t) = Some n /\ o <> Refused /\
      good (db (server t)) (fold_left store_cookie cookies (jar t))
  end.
End tab.

(** ** A signed-in page *)
Definition page_kind (k : Kind) : bool := match k with Page _ | Download _ | Me false => true | _ => false end.
(** No bootstrap is open, no refresh was refused, and what is open is a page's. *)
Record page_ok (c : Client) : Prop := {
  po_client : client_ok c;
  po_boot : forall n, refreshes c !! n <> Some (mkRefresh false None);
  po_refused : forall n, refreshes c !! n <> Some (mkRefresh true (Some Refused));
  po_kinds : forall i x, calls c !! i = Some x -> (exists o, cl_state x = Done o) \/ page_kind (cl_kind x) = true;
}.
(** What a page's session keeps. *)
Record calm (c c' : Client) : Prop := {
  calm_ok : page_ok c';
  calm_lost : lost c' = lost c;
  calm_status : v_status (view c) = Authenticated -> v_status (view c') = Authenticated;
}.
Lemma kinds_alter (g : Call -> Call) i (l : list Call) x :
  l !! i = Some x -> page_kind (cl_kind x) = true -> (forall y, cl_kind (g y) = cl_kind y) ->
  (forall j y, l !! j = Some y -> (exists o, cl_state y = Done o) \/ page_kind (cl_kind y) = true) ->
  forall j y, alter g i l !! j = Some y -> (exists o, cl_state y = Done o) \/ page_kind (cl_kind y) = true.
Proof.
  intros Hx Hk Hg Hl j y. destruct (decide (j = i)) as [->|Hne].
  - rewrite list_lookup_alter_eq, Hx. intros [= <-]. right. by rewrite Hg.
  - rewrite list_lookup_alter_ne by done. apply Hl.
Qed.
Lemma settle_page i k o c :
  page_kind k = true ->
  settle i k o c = set_state i (Done o) c \/ exists me, settle i k o c = loaded me (set_state i (Done o) c).
Proof. unfold settle. destruct k as [| |[]| | |], o; intros [=]; cbn [continue_with]; eauto. Qed.
Lemma calm_settle i o c x :
  page_ok c -> calls c !! i = Some x -> page_kind (cl_kind x) = true -> client_ok (settle i (cl_kind x) o c) ->
  calm c (settle i (cl_kind x) o c) /\ refreshInFlight (settle i (cl_kind x) o c) = refreshInFlight c.
Proof.
  intros [_ Hb Hr Hk] Hx Hp Hc.
  assert (forall c', client_ok c' -> refreshes c' = refreshes c -> calls c' = calls (set_state i (Done o) c) -> page_ok c') as Hok.
  { intros c' Hc' Hr' Hk'. constructor; [done|by rewrite Hr'..|]. rewrite Hk'. by eapply kinds_alter. }
  destruct (settle_page i (cl_kind x) o c Hp) as [He|[me He]]; rewrite He in *; (split; [|done]); constructor; try done; by apply Hok.
Qed.

Lemma calm_page ev c c' :
  page_ok c -> page_event ev = true -> step ev c = Some c' ->
  calm c c' /\
  (refreshInFlight c' = refreshInFlight c \/ refreshInFlight c = None /\ exists n, refreshInFlight c' = Some n).
Proof.
  intros Hc Hev Hs. pose proof (step_ok _ _ _ (po_client _ Hc) Hs) as Hc'.
  destruct ev as [k| |i r|i|n o|i]; try discriminate Hev; cbn [step] in Hs.
  - injection Hs as <-. split; [|by left]. constructor; [|done..]. constructor; [done|apply Hc..|].
    intros i x. cbn. rewrite lookup_snoc_Some. intros [[_ Hx]|[_ <-]]; [by eapply po_kinds|]. right.
    by destruct k as [| |[]| | |].
  - unfold answer in Hs. destruct (calls c !! i) as [x|] eqn:Ei; [|done]. cbn [mbind option_bind] in Hs.
    destruct (po_kinds _ Hc _ _ Ei) as [[o Ho]|Hk]; [by rewrite Ho in Hs|]. destruct (cl_state x) as [b| |]; [|done..].
    destruct (_ && _).
    + unfold refreshOnce in Hs. destruct (refreshInFlight c) as [m|] eqn:Em; injection Hs as <-.
      * split; [|left; cbn; congruence]. constructor; [|done..]. constructor; [done|apply Hc..|].
        eapply kinds_alter; [done|done|done|apply Hc].
      * split; [|right; split; [done|by eexists]]. constructor; [|done..]. constructor; [done| | |].
        -- intros n. cbn. rewrite lookup_snoc_Some. intros [[_ Hn]|[_ [=]]]. by apply (po_boot _ Hc n).
        -- intros n. cbn. rewrite lookup_snoc_Some. intros [[_ Hn]|[_ [=]]]. by apply (po_refused _ Hc n).
        -- cbn. eapply kinds_alter; [done|done|done|apply Hc].
    + injection Hs as <-. destruct (calm_settle i (deliver (cl_kind x) r) c x) as [H1 H2]; auto.
  - unfold offline in Hs. destruct (calls c !! i) as [x|] eqn:Ei; [|done]. cbn [mbind option_bind] in Hs.
    destruct (po_kinds _ Hc _ _ Ei) as [[o Ho]|Hk]; [by rewrite Ho in Hs|]. destruct (cl_state x) as [b| |]; [|done..].
    injection Hs as <-. destruct (calm_settle i Rejected c x) as [H1 H2]; auto.
  - unfold resume in Hs. destruct (calls c !! i) as [x|] eqn:Ei; [|done]. cbn [mbind option_bind] in Hs.
    pose proof (ok_calls _ (po_client _ Hc) _ _ Ei) as [_ Hst].
    destruct (po_kinds _ Hc _ _ Ei) as [[o Ho]|Hk]; [by rewrite Ho in Hs|]. destruct (cl_state x) as [|n first|]; [done| |done].
    destruct Hst as (_ & _ & _ & [o|] & Hn); rewrite Hn in Hs; [|done]. cbn in Hs. injection Hs as <-. destruct o as [token| |].
    + split; [|by left]. constructor; [|done..]. constructor; [done|apply Hc..|]. eapply kinds_alter; [done|done|done|apply Hc].
    + by destruct (po_refused _ Hc n).
    + destruct (calm_settle i Rejected c x) as [H1 H2]; auto.
Qed.
Lemma calm_refreshed n o c c' :
  page_ok c -> refreshInFlight c = Some n -> o <> Refused -> step (Refreshed n o) c = Some c' ->
  calm c c' /\ refreshInFlight c' = None.
Proof.
  intros Hc Hn Ho Hs. pose proof (step_ok _ _ _ (po_client _ Hc) Hs) as Hc'.
  apply (ok_flight _ (po_client _ Hc)) in Hn as Hp. cbn [step] in Hs. unfold refreshed in Hs. rewrite Hp in Hs.
  cbn [mbind option_bind rf_result rf_shared] in Hs. injection Hs as <-. split; [|done]. constructor; [|done..].
  assert (forall m r, <[n := mkRefresh true (Some o)]> (refreshes c) !! m = Some r ->
            r = mkRefresh true (Some o) \/ refreshes c !! m = Some r) as Hm.
  { intros m r. destruct (decide (m = n)) as [->|Hne];
      [rewrite list_lookup_insert_eq by (by eapply lookup_lt_Some)|rewrite list_lookup_insert_ne by done; by right].
    intros [= <-]. by left. }
  constructor; [done| | |apply Hc]; intros m Hr; apply Hm in Hr as [[=]|Hr].
  - by apply (po_boot _ Hc m).
  - congruence.
  - by apply (po_refused _ Hc m).
Qed.

(** ** The server's side *)
Section good.
Context (P : Primitives) (f : string).

(** The row the presented token finds is the good one. *)
Lemma good_found E d token :
  e_P E = P -> wf d -> good P f d token ->
  exists text s u, token = Some text /\ text <> "" /\ List.find (by_token E text) (sessions d) = Some s /\
    s_familyId s = f /\ s_revokedAt s = None /\ List.find (fun u => String.eqb (u_id u) (s_userId s)) (users d) = Some u.
Proof.
  intros HP Hwf (text & s & -> & Hne & Hs & Hh & Hf & Hr & Hu).
  apply has_spec in Hu as (u & Hu & Hid).
  destruct (List.find (fun u => String.eqb (u_id u) (s_userId s)) (users d)) as [u'|] eqn:Eu;
    [|apply list_elem_of_In in Hu; by apply (find_none _ _ Eu) in Hu; rewrite Hid, String.eqb_refl in Hu].
  assert (by_token E text s = true) as Hb by (unfold by_token; by rewrite HP, Hh, String.eqb_refl).
  destruct (List.find (by_token E text) (sessions d)) as [s'|] eqn:Es;
    [|apply list_elem_of_In in Hs; by apply (find_none _ _ Es) in Hs; congruence].
  apply find_some in Es as Hs'. destruct Hs' as [Hs' Hb']. apply list_elem_of_In in Hs'.
  assert (s' = s) as ->.
  { apply (wf_tokens d Hwf); [done..|]. cbn. unfold by_token in *. apply String.eqb_eq in Hb, Hb'.
    unfold same_text. by rewrite Hb, Hb', String.eqb_refl. }
  by exists text, s, u'.
Qed.
(** Operations whose only failures are the server's own. *)
Definition server_fault {A} (m : H A) : Prop := forall w w' e, m w = (w', Throw e) -> error_status e = 500.
Lemma fault_bind {A B} (m : H A) (k : A -> H B) :
  server_fault m -> (forall a, server_fault (k a)) -> server_fault (m ≫= k).
Proof.
  intros Hm Hk w w' e. rewrite run_bind. destruct (m w) as [w1 [a|e1]] eqn:Em; [apply Hk|].
  intros [= <- <-]. by eapply Hm.
Qed.
Lemma fault_fits {R} `{Table R} d (r : R) l e : fits d r l = Throw e -> error_status e = 500.
Proof. unfold fits. repeat case_match; intros; by simplify_eq. Qed.
Lemma fault_update {R} `{Table R} p (g : R -> R) : server_fault (update p g).
Proof.
  intros w w' e. cbn. destruct (List.find _ _); [|by intros [= <- <-]].
  destruct (fits _ _ _) eqn:Ef; cbn; intros [= <- <-]. by eapply fault_fits.
Qed.
Lemma fault_create {R} `{Table R} (r : R) : server_fault (create r).
Proof. intros w w' e. cbn. destruct (fits _ _ _) eqn:Ef; cbn; intros [= <- <-]. by eapply fault_fits. Qed.
Lemma fault_issue E rq id user fam : server_fault (issueSession E rq id user fam).
Proof.
  unfold issueSession. repeat (apply fault_bind; [|intros ?]); try by intros w w' e [=].
  - unfold of_random. destruct (mintRefreshToken _ _); intros w w' e; [by intros [=]|by intros [= <- <-]].
  - apply fault_create.
Qed.
(** A refresh of a good token fails only where the server does. *)
Lemma refresh_good_ok E rq w w' r token :
  e_P E = P -> wf (db w) -> good P f (db w) token -> rq_refresh_cookie rq = token ->
  (forall s text, token = Some text -> List.find (by_token E text) (sessions (db w)) = Some s -> e_now E <= s_expiresAt s) ->
  ApiAuth.refresh E rq w = (w', r) -> (forall e, r = Throw e -> error_status e < 500) -> exists reply, r = Ok reply.
Proof.
  intros HP Hwf Hg Ht Htime Hr Herr. destruct (good_found E _ _ HP Hwf Hg) as (text & s & u & -> & Hne & Hs & Hf & Hrev & Hu).
  destruct r as [reply|e]; [by eexists|]. exfalso. specialize (Herr e eq_refl). revert Hr.
  unfold ApiAuth.refresh. rewrite Ht. destruct text as [|ch text]; [done|].
  rewrite run_gets. rewrite Hs. cbn [mbind option_bind]. rewrite Hu. cbn [mbind option_bind].
  rewrite (proj2 (Z.ltb_ge _ _)) by by apply Htime with (String ch text). rewrite Hrev.
  intros Hr. enough (error_status e = 500) by lia. revert Hr. eapply fault_bind; [apply fault_update|].
  intros _. apply fault_bind; [apply fault_issue|]. by intros ? ? ? ? [=].
Qed.
Lemma refresh_good E rq w w' r token :
  e_P E = P -> wf (db w) -> good P f (db w) token -> rq_refresh_cookie rq = token ->
  (forall s text, token = Some text -> List.find (by_token E text) (sessions (db w)) = Some s -> e_now E <= s_expiresAt s) ->
  outbox w = [] -> ApiAuth.refresh E rq w = (w', r) -> (forall e, r = Throw e -> error_status e < 500) ->
  wf (db w') /\ refresh_outcome r <> Refused /\ forall jar, good P f (db w') (fold_left store_cookie (outbox w') jar).
Proof.
  intros HP Hwf Hg Ht Htime Hout Hr Herr.
  destruct (refresh_good_ok E rq w w' r token HP Hwf Hg Ht Htime Hr Herr) as [reply ->].
  destruct (good_found E _ _ HP Hwf Hg) as (text & s & u & -> & Hne & Hs & Hf & Hrev & Hu).
  split; [|split; [done|]].
  - pose proof (refresh_refines E rq None w) as Hst. rewrite Hr in Hst. by eapply api_steps_wf.
  - destruct (refresh_spec E rq w w' reply text Hr Ht) as (_ & s' & u' & new & Hs' & _ & _ & Hu' & _ & Hnew & Ho & Hfresh & Hd).
    assert (s' = s) as -> by congruence. assert (u' = u) as -> by congruence. intros jar.
    rewrite Ho, Hout. cbn.
    assert (mt_hash new = sha256Hex P (mt_token new) /\ mt_token new <> "") as [Hh Hnn].
    { unfold mintRefreshToken, mint in Hnew. rewrite HP in Hnew. destruct (randomBase62 _ _); [|done].
      injection Hnew as <-. by split. }
    eexists _, _. split_and!; [done|exact Hnn| | | | |].
    + rewrite Hd. cbn. apply in_snoc. by right.
    + cbn. exact Hh.
    + done.
    + done.
    + rewrite Hd. cbn. apply has_spec. apply find_some in Hu as [Hu Hid]. exists u. by rewrite list_elem_of_In.
Qed.
(** A stranger's request leaves a good token good. *)
Lemma stranger_good get stat r w token :
  e_uuid (r_env r) "" = None -> wf (db w) -> stranger f (r_env r) (r_rq (cookie_seen r)) (db w) ->
  good P f (db w) token ->
  wf (db (serve_one get stat w r)) /\ good P f (db (serve_one get stat w r)) token.
Proof.
  intros Hempty Hwf Hst (text & s & -> & Hne & Hs & Hh & Hf & Hr & Hu).
  assert (r_env (cookie_seen r) = r_env r) as He by (unfold cookie_seen; repeat case_match; done).
  rewrite <- cookie_seen_serves.
  destruct (stranger_request f get stat (cookie_seen r) w (s_userId s)) as (Hwf' & Hfam & Hu'); [by rewrite He|done|by rewrite He|].
  split; [done|]. exists text, s. split_and!; try done; [|by apply Hu'].
  assert (s ∈ family f (db (serve_one get stat w (cookie_seen r)))) as [H _]%in_family_rows; [|exact H].
  rewrite Hfam. by apply in_family_rows.
Qed.
End good.

(** ** The tab keeps its session *)
Section keeps.
Context (get : UpstreamRequest -> option Z) (stat : string -> bool) (P : Primitives) (f : string).

(** Signed in and at rest, the jar's token good in the family [f]. *)
Record signed_in (t : Tab) : Prop := {
  si_wf : wf (db (server t));
  si_page : page_ok (client t);
  si_status : v_status (view (client t)) = Authenticated;
  si_idle : transit t = Idle;
  si_transit : transit_ok P f t;
}.
Definition tab_inv (l : nat) (t : Tab) : Prop :=
  wf (db (server t)) /\ page_ok (client t) /\ lost (client t) = l /\
  v_status (view (client t)) = Authenticated /\ transit_ok P f t.
Lemma calm_inv l t c tr j w k :
  tab_inv l t -> calm (client t) c -> wf (db w) -> transit_ok P f (mkTab c j tr w k) -> tab_inv l (mkTab c j tr w k).
Proof.
  intros (_ & _ & Hl & Hv & _) [Hok Hlost Hst] Hwf Ht. split_and!; [done|done|cbn; by rewrite Hlost|by apply Hst|done].
Qed.
Lemma mishaps_grow t t' : rtc (tab_step get stat P f) t t' -> (mishaps t <= mishaps t')%nat.
Proof. induction 1 as [|t1 t2 t3 H12 _ IH]; [lia|]. destruct H12; cbn in IH; lia. Qed.
Lemma tab_step_inv l t t' : tab_step get stat P f t t' -> mishaps t' = mishaps t -> tab_inv l t -> tab_inv l t'.
Proof.
  intros Hs Hm Hinv. pose proof Hinv as (Hwf & Hp & Hl & Hv & Ht). unfold transit_ok in Ht.
  destruct Hs as [ev c Hev Hstep|r Hempty Hst|n cookie E rq w r Hn Hck HP Hempty Htime Hr Herr|n cookie Hn|n o cookies c Hn Hstep| | |];
    [| | | | |cbn in Hm; lia..]; clear Hm.
  - destruct (calm_page ev _ c Hp Hev Hstep) as [Hc Hfl]. eapply calm_inv; [exact Hinv|exact Hc|done|].
    unfold transit_ok, sent_by. cbn. destruct Hfl as [Hfl|[Hnone [n Hfl]]].
    + rewrite Hfl. by destruct (refreshInFlight (client t)).
    + rewrite Hnone, Hfl. destruct (transit t); [|by destruct Ht as [Ht _]; congruence..]. by destruct Ht as [_ Ht].
  - destruct (transit t) as [|n cookie|n o cookies] eqn:Et; [destruct Ht as [Hfl Hg]|destruct Ht as (Hfl & Hck & Hg)|destruct Ht as (Hfl & Ho & Hg)];
      destruct (stranger_good P f get stat r _ _ Hempty Hwf Hst Hg) as [Hwf' Hg'];
      (split_and!; [done..|]); by split_and?.
  - rewrite Hn in Ht. destruct Ht as (Hfl & -> & Hg).
    destruct (refresh_good P f E rq (mkWorld (db (server t)) []) w r (jar t)) as (Hwf' & Ho & Hg');
      [done|done|done|done| |done|done|done|].
    { intros s text Hj. by apply Htime. }
    (split_and!; [done..|]); unfold transit_ok; cbn. by split_and!.
  - rewrite Hn in Ht. destruct Ht as (Hfl & -> & Hg). (split_and!; [done..|]); unfold transit_ok; cbn. by split_and!.
  - rewrite Hn in Ht. destruct Ht as (Hfl & Ho & Hg).
    destruct (calm_refreshed n o _ c Hp Hfl Ho Hstep) as [Hc Hnone].
    eapply calm_inv; [exact Hinv|exact Hc|done|]. by split.
Qed.

(** C13: One tab never trips over its own token rotation: from a signed-in page,
    however its concurrent calls, their 401s, its refreshes (answered, or never
    arriving) and requests that present none of this login's tokens interleave,
    no refresh is refused, the session is not lost, the page stays
    authenticated, and whenever no refresh is under way the cookie is the live
    token of the login - as long as no mishap happens: no second holder of the
    cookie, no refresh served after the token expired or failed by the server
    itself (5xx), no answer lost once the server rotated the token. *)
Theorem one_tab_keeps_its_session t t' :
  signed_in t -> rtc (tab_step get stat P f) t t' -> mishaps t' = mishaps t ->
  lost (client t') = lost (client t) /\ v_status (view (client t')) = Authenticated /\
  (forall n, refreshes (client t') !! n <> Some (mkRefresh true (Some Refused))) /\
  (transit t' = Idle -> good P f (db (server t')) (jar t')).
Proof.
  intros [Hwf Hp Hv Hi Ht] Hrun Hm. assert (tab_inv (lost (client t)) t) as Hinv by by split_and!.
  assert (tab_inv (lost (client t)) t') as (_ & Hp' & Hl' & Hv' & Ht').
  { clear Hwf Hp Hv Hi Ht. remember (lost (client t)) as l eqn:El. clear El.
    induction Hrun as [|t1 t2 t3 H12 H23 IH]; [done|]. pose proof (mishaps_grow _ _ H23).
    pose proof (mishaps_grow _ _ (rtc_once _ _ H12)). apply IH; [lia|]. eapply tab_step_inv; [exact H12|lia|done]. }
  split_and!; [done|done|apply Hp'|]. intros Hidle. unfold transit_ok in Ht'. rewrite Hidle in Ht'. apply Ht'.
Qed.
End keeps.

(** ** A page refreshes while another user signs out *)
Definition ex_page : Client :=
  mkClient (Some "stale") None [] [] (mkView Authenticated None false [mkMembership "one" "OWNER"]) 0.
Definition ex_tab : Tab := mkTab ex_page (Some "mine") Idle ex_sign_in 0.
Lemma ex_page_ok : page_ok ex_page.
Proof. constructor; [constructor; [intros [|n]; by split|by intros [|i] x]|by intros [|n]..|by intros [|i] x]. Qed.
Lemma ex_signed_in : signed_in ex_digest "f1" ex_tab.
Proof.
  constructor; [exact ex_sign_in_wf|exact ex_page_ok|done|done|]. split; [done|].
  exists "mine", (mkSession "s1" "u1" "f1" "mine" 2000000 None "" None). split_and!; try done. set_solver.
Qed.
(** A stale page, another user's sign-out and the refresh, step by step. *)
Definition ex_tab_end : Tab :=
  let c1 := from_option id ex_page (run [Ask (Page "/workspaces"); Answer 0 (ex_reply 401)] ex_page) in
  let w1 := serve_one ex_get ex_stat ex_sign_in (hd (ex_ask "u2" "GET" "" None) ex_others) in
  let '(w2, r) := ApiAuth.refresh (ex_env_with ex_digest) (ex_cookie "mine") (mkWorld (db w1) []) in
  let c2 := from_option id ex_page (run [Refreshed 0 (refresh_outcome r); Resume 0; Answer 0 (ex_reply 200)] c1) in
  mkTab c2 (fold_left store_cookie (outbox w2) (Some "mine")) Idle (mkWorld (db w2) (outbox w1)) 0.
Ltac value := match goal with |- rtc _ ?t _ =>
  let v := eval vm_compute in t in replace t with v by (vm_compute; reflexivity) end.
Ltac page_step ev := eapply rtc_l; [eapply (ts_page _ _ _ _ _ ev); [reflexivity|vm_compute; reflexivity]|value].
Lemma ex_tab_run : rtc (tab_step ex_get ex_stat ex_digest "f1") ex_tab ex_tab_end.
Proof.
  replace ex_tab_end with (ltac:(let v := eval vm_compute in ex_tab_end in exact v)) by (vm_compute; reflexivity).
  value. page_step (Ask (Page "/workspaces")). page_step (Answer 0 (ex_reply 401)).
  eapply rtc_l.
  { eapply (ts_other _ _ _ _ _ (hd (ex_ask "u2" "GET" "" None) ex_others)); [reflexivity|].
    apply strangerb_stranger. vm_compute. reflexivity. }
  value. eapply rtc_l.
  { eapply (ts_served _ _ _ _ _ 0%nat (Some "mine") (ex_env_with ex_digest) (ex_cookie "mine")); try reflexivity.
    - intros s token [= <-] Hs. vm_compute in Hs. injection Hs as <-. vm_compute. discriminate.
    - intros e [=]. }
  value. eapply rtc_l.
  { eapply (ts_delivered _ _ _ _ _ 0%nat); [reflexivity|vm_compute; reflexivity]. }
  value. page_step (Resume 0). page_step (Answer 0 (ex_reply 200)).
  apply rtc_refl.
Qed.
Lemma one_tab_keeps_its_session_witness :
  lost (client ex_tab_end) = 0%nat /\ map cl_state (calls (client ex_tab_end)) = [Done (Body (JObj []))] /\
  length (family "f1" (db (server ex_tab_end))) = 2%nat /\ good ex_digest "f1" (db (server ex_tab_end)) (jar ex_tab_end).
Proof.
  destruct (one_tab_keeps_its_session ex_get ex_stat ex_digest "f1" ex_tab ex_tab_end ex_signed_in ex_tab_run eq_refl)
    as (Hl & _ & _ & Hg).
  split; [exact Hl|]. split; [vm_compute; reflexivity|]. split; [vm_compute; reflexivity|]. apply Hg. reflexivity.
Defined.

(** Two tabs restored at once, or the effect of AuthProvider run twice as
    StrictMode does, present the same cookie: the second refresh is taken for a
    stolen token and ends the session of the first.  A page whose refresh the
    server answered in vain does the same when it asks again. *)
Example two_bootstraps_end_the_session :
  let env := ex_env_with ex_digest in
  let '(w1, r1) := ApiAuth.refresh env (ex_cookie "mine") ex_sign_in in
  let '(w2, r2) := ApiAuth.refresh env (ex_cookie "mine") w1 in
  refresh_outcome r1 = Renewed "jwt" /\ refresh_outcome r2 = Refused /\
  forallb (fun s => bool_decide (is_Some (s_revokedAt s))) (family "f1" (db w2)) = true.
Proof. vm_compute. done. Qed.
