(* ===== verification/WebEndpoints.v ===== *)
(** * apps/web/src/api/endpoints.ts: the callers of the API

    Each caller with the method, path, query and body of its request, the
    handler it means, and that the server's route table agrees. *)

From S2P Require Import Prelude JsString JsNum JsDate Json Shared Queue Auth Providers Gateway Persist Export Zod ApiDb.
From S2P Require Import ApiAuth ApiKeys ApiMembers ApiOrg ApiPricing ApiReports ApiServer.
From Stdlib Require Import Ascii.

Record Fetch := mkFetch { fe_method : string; fe_path : string; fe_query : option string; fe_body : option json }.
Definition fe_url (f : Fetch) : string :=
  match fe_query f with None => fe_path f | Some q => fe_path f +:+ "?" +:+ q end.
Definition getF (path : string) : Fetch := mkFetch "GET" path None None.
Definition getQ (path query : string) : Fetch := mkFetch "GET" path (Some query) None.
Definition sendF (method path : string) (body : option json) : Fetch := mkFetch method path None body.

(** A query's parameters; a value is absent, or text. *)
Definition Params : Type := list (string * option string).

Inductive AuthCaller :=
| authApi_register (body : json) | authApi_login (body : json) | authApi_logout | authApi_me.
Inductive AdminCaller :=
| adminApi_stats | adminApi_workspaces | adminApi_timeseries.
Inductive WsCaller :=
| wsApi_list
| wsApi_projects (ws : string)
| wsApi_timeseries (ws : string) (p : Params)
| wsApi_breakdown (ws : string) (p : Params)
| wsApi_createProject (ws : string) (body : json)
| wsApi_projectsByStatus (ws status : string)
| wsApi_updateProject (ws id : string) (body : json)
| wsApi_deleteProject (ws id : string)
| wsApi_teams (ws : string)
| wsApi_team (ws id : string)
| wsApi_createTeam (ws : string) (body : json)
| wsApi_deleteTeam (ws id : string)
| wsApi_addTeamMember (ws teamId : string) (body : json)
| wsApi_updateTeamMember (ws teamId userId role : string)
| wsApi_removeTeamMember (ws teamId userId : string)
| wsApi_credentials (ws : string)
| wsApi_createCredential (ws : string) (body : json)
| wsApi_testCredential (ws id : string)
| wsApi_updateCredential (ws id : string) (body : json)
| wsApi_deleteCredential (ws id : string)
| wsApi_keys (ws : string)
| wsApi_issueKey (ws : string) (body : json)
| wsApi_updateKey (ws id : string) (body : json)
| wsApi_revokeKey (ws id : string)
| wsApi_summary (ws : string) (days : Z)
| wsApi_events (ws : string) (cursor : option string)
| wsApi_createExport (ws : string) (body : json)
| wsApi_exports (ws : string)
| wsApi_exportDownloadUrl (ws id : string).
Inductive MembersCaller :=
| membersApi_list (ws : string)
| membersApi_invitations (ws : string)
| membersApi_invite (ws : string) (body : json)
| membersApi_inviteLink (ws id : string)
| membersApi_revokeInvite (ws id : string)
| membersApi_updateMember (ws userId : string) (body : json)
| membersApi_removeMember (ws userId : string).
Inductive InviteCaller :=
| inviteApi_inspect (token : string)
| inviteApi_accept (token : string) (body : json).
Inductive PricingCaller :=
| pricingApi_catalog (p : Params)
| pricingApi_overrides (ws : string)
| pricingApi_createOverride (ws : string) (body : json)
| pricingApi_updateOverride (ws id : string) (body : json)
| pricingApi_deleteOverride (ws id : string)
| pricingApi_unpriced (ws : string).
Inductive Caller :=
| CAuth (c : AuthCaller)
| CAdmin (c : AdminCaller)
| CWs (c : WsCaller)
| CMembers (c : MembersCaller)
| CInvite (c : InviteCaller)
| CPricing (c : PricingCaller).

Section callers.
(** The percent-encoding of URLSearchParams. *)
Context (encode : string -> string).

(** [if (v != null && v !== "") usp.set(k, String(v))] *)
Definition set_params (p : Params) : list (string * string) :=
  omap (fun kv => match kv.2 with Some "" | None => None | Some v => Some (kv.1, v) end) p.
Definition explorerQuery (p : Params) : string :=
  join "&" (map (fun kv => encode kv.1 +:+ "=" +:+ encode kv.2) (set_params p)).

Definition ws_path (ws rest : string) : string := "/workspaces/" +:+ ws +:+ rest.
Definition authApi (c : AuthCaller) : Fetch :=
  match c with
  | authApi_register body => sendF "POST" "/auth/register" (Some body)
  | authApi_login body => sendF "POST" "/auth/login" (Some body)
  | authApi_logout => sendF "POST" "/auth/logout" None
  | authApi_me => getF "/auth/me"
  end.
Definition adminApi (c : AdminCaller) : Fetch :=
  match c with
  | adminApi_stats => getF "/admin/stats"
  | adminApi_workspaces => getF "/admin/workspaces"
  | adminApi_timeseries => getF "/admin/timeseries"
  end.
Definition wsApi (c : WsCaller) : Fetch :=
  match c with
  | wsApi_list => getF "/workspaces"
  | wsApi_projects ws => getF (ws_path ws "/projects")
  | wsApi_timeseries ws p => getQ (ws_path ws "/analytics/timeseries") (explorerQuery p)
  | wsApi_breakdown ws p => getQ (ws_path ws "/analytics/breakdown") (explorerQuery p)
  | wsApi_createProject ws body => sendF "POST" (ws_path ws "/projects") (Some body)
  | wsApi_projectsByStatus ws status => getQ (ws_path ws "/projects") ("status=" +:+ status)
  | wsApi_updateProject ws id body => sendF "PATCH" (ws_path ws ("/projects/" +:+ id)) (Some body)
  | wsApi_deleteProject ws id => sendF "DELETE" (ws_path ws ("/projects/" +:+ id)) None
  | wsApi_teams ws => getF (ws_path ws "/teams")
  | wsApi_team ws id => getF (ws_path ws ("/teams/" +:+ id))
  | wsApi_createTeam ws body => sendF "POST" (ws_path ws "/teams") (Some body)
  | wsApi_deleteTeam ws id => sendF "DELETE" (ws_path ws ("/teams/" +:+ id)) None
  | wsApi_addTeamMember ws t body => sendF "POST" (ws_path ws ("/teams/" +:+ t +:+ "/members")) (Some body)
  | wsApi_updateTeamMember ws t u role =>
      sendF "PATCH" (ws_path ws ("/teams/" +:+ t +:+ "/members/" +:+ u)) (Some (JObj [("role", JStr role)]))
  | wsApi_removeTeamMember ws t u => sendF "DELETE" (ws_path ws ("/teams/" +:+ t +:+ "/members/" +:+ u)) None
  | wsApi_credentials ws => getF (ws_path ws "/credentials")
  | wsApi_createCredential ws body => sendF "POST" (ws_path ws "/credentials") (Some body)
  | wsApi_testCredential ws id => sendF "POST" (ws_path ws ("/credentials/" +:+ id +:+ "/test")) None
  | wsApi_updateCredential ws id body => sendF "PATCH" (ws_path ws ("/credentials/" +:+ id)) (Some body)
  | wsApi_deleteCredential ws id => sendF "DELETE" (ws_path ws ("/credentials/" +:+ id)) None
  | wsApi_keys ws => getF (ws_path ws "/keys")
  | wsApi_issueKey ws body => sendF "POST" (ws_path ws "/keys") (Some body)
  | wsApi_updateKey ws id body => sendF "PATCH" (ws_path ws ("/keys/" +:+ id)) (Some body)
  | wsApi_revokeKey ws id => sendF "POST" (ws_path ws ("/keys/" +:+ id +:+ "/revoke")) None
  | wsApi_summary ws days => getQ (ws_path ws "/analytics/summary") ("days=" +:+ dec days)
  | wsApi_events ws cursor =>
      getQ (ws_path ws "/usage/events")
        ("limit=50" +:+ match if_truthy cursor with Some c => "&cursor=" +:+ c | None => "" end)
  | wsApi_createExport ws body => sendF "POST" (ws_path ws "/exports") (Some body)
  | wsApi_exports ws => getF (ws_path ws "/exports")
  | wsApi_exportDownloadUrl ws id => getF (ws_path ws ("/exports/" +:+ id +:+ "/download"))
  end.
Definition membersApi (c : MembersCaller) : Fetch :=
  match c with
  | membersApi_list ws => getF (ws_path ws "/members")
  | membersApi_invitations ws => getF (ws_path ws "/invitations")
  | membersApi_invite ws body => sendF "POST" (ws_path ws "/invitations") (Some body)
  | membersApi_inviteLink ws id => sendF "POST" (ws_path ws ("/invitations/" +:+ id +:+ "/link")) None
  | membersApi_revokeInvite ws id => sendF "DELETE" (ws_path ws ("/invitations/" +:+ id)) None
  | membersApi_updateMember ws u body => sendF "PATCH" (ws_path ws ("/members/" +:+ u)) (Some body)
  | membersApi_removeMember ws u => sendF "DELETE" (ws_path ws ("/members/" +:+ u)) None
  end.
Definition inviteApi (c : InviteCaller) : Fetch :=
  match c with
  | inviteApi_inspect token => getF ("/auth/invitations/" +:+ token)
  | inviteApi_accept token body => sendF "POST" ("/auth/invitations/" +:+ token +:+ "/accept") (Some body)
  end.
Definition pricingApi (c : PricingCaller) : Fetch :=
  match c with
  | pricingApi_catalog p =>
      match explorerQuery p with "" => getF "/pricing/models" | qs => getQ "/pricing/models" qs end
  | pricingApi_overrides ws => getF (ws_path ws "/pricing/overrides")
  | pricingApi_createOverride ws body => sendF "POST" (ws_path ws "/pricing/overrides") (Some body)
  | pricingApi_updateOverride ws id body => sendF "PATCH" (ws_path ws ("/pricing/overrides/" +:+ id)) (Some body)
  | pricingApi_deleteOverride ws id => sendF "DELETE" (ws_path ws ("/pricing/overrides/" +:+ id)) None
  | pricingApi_unpriced ws => getF (ws_path ws "/pricing/unpriced")
  end.
Definition fetch_of (c : Caller) : Fetch :=
  match c with
  | CAuth c => authApi c
  | CAdmin c => adminApi c
  | CWs c => wsApi c
  | CMembers c => membersApi c
  | CInvite c => inviteApi c
  | CPricing c => pricingApi c
  end.
End callers.

(** ** The handler a caller means *)
Definition meant (c : Caller) : ApiCall :=
  match c with
  | CAuth (authApi_register _) => CallRegister
  | CAuth (authApi_login _) => CallLogin
  | CAuth authApi_logout => CallLogout
  | CAuth authApi_me => CallMe
  | CAdmin adminApi_stats => CallAdminStats
  | CAdmin adminApi_workspaces => CallAdminWorkspaces
  | CAdmin adminApi_timeseries => CallAdminTimeseries
  | CWs wsApi_list => CallListWorkspaces
  | CWs (wsApi_projects ws) | CWs (wsApi_projectsByStatus ws _) => CallListProjects ws
  | CWs (wsApi_timeseries ws _) => CallTimeseries ws
  | CWs (wsApi_breakdown ws _) => CallBreakdown ws
  | CWs (wsApi_createProject ws _) => CallCreateProject ws
  | CWs (wsApi_updateProject ws id _) => CallUpdateProject ws id
  | CWs (wsApi_deleteProject ws id) => CallDeleteProject ws id
  | CWs (wsApi_teams ws) => CallListTeams ws
  | CWs (wsApi_team ws id) => CallGetTeam ws id
  | CWs (wsApi_createTeam ws _) => CallCreateTeam ws
  | CWs (wsApi_deleteTeam ws id) => CallDeleteTeam ws id
  | CWs (wsApi_addTeamMember ws t _) => CallAddTeamMember ws t
  | CWs (wsApi_updateTeamMember ws t u _) => CallUpdateTeamMember ws t u
  | CWs (wsApi_removeTeamMember ws t u) => CallRemoveTeamMember ws t u
  | CWs (wsApi_credentials ws) => CallListCredentials ws
  | CWs (wsApi_createCredential ws _) => CallCreateCredential ws
  | CWs (wsApi_testCredential ws id) => CallTestCredential ws id
  | CWs (wsApi_updateCredential ws id _) => CallPatchCredential ws id
  | CWs (wsApi_deleteCredential ws id) => CallDeleteCredential ws id
  | CWs (wsApi_keys ws) => CallListKeys ws
  | CWs (wsApi_issueKey ws _) => CallIssueKey ws
  | CWs (wsApi_updateKey ws id _) => CallPatchKey ws id
  | CWs (wsApi_revokeKey ws id) => CallRevokeKey ws id
  | CWs (wsApi_summary ws _) => CallSummary ws
  | CWs (wsApi_events ws _) => CallEvents ws
  | CWs (wsApi_createExport ws _) => CallCreateExport ws
  | CWs (wsApi_exports ws) => CallListExports ws
  | CWs (wsApi_exportDownloadUrl ws id) => CallDownload ws id
  | CMembers (membersApi_list ws) => CallListMembers ws
  | CMembers (membersApi_invitations ws) => CallListInvitations ws
  | CMembers (membersApi_invite ws _) => CallInvite ws
  | CMembers (membersApi_inviteLink ws id) => CallReissueLink ws id
  | CMembers (membersApi_revokeInvite ws id) => CallWithdraw ws id
  | CMembers (membersApi_updateMember ws u _) => CallUpdateMember ws u
  | CMembers (membersApi_removeMember ws u) => CallRemoveMember ws u
  | CInvite (inviteApi_inspect token) => CallShowInvitation token
  | CInvite (inviteApi_accept token _) => CallAccept token
  | CPricing (pricingApi_catalog _) => CallModels
  | CPricing (pricingApi_overrides ws) => CallListOverrides ws
  | CPricing (pricingApi_createOverride ws _) => CallCreateOverride ws
  | CPricing (pricingApi_updateOverride ws id _) => CallUpdateOverride ws id
  | CPricing (pricingApi_deleteOverride ws id) => CallDeleteOverride ws id
  | CPricing (pricingApi_unpriced ws) => CallUnpriced ws
  end.
(** The texts a caller puts into its path. *)
Definition path_texts (c : Caller) : list string :=
  match c with
  | CWs (wsApi_updateTeamMember ws t u _) | CWs (wsApi_removeTeamMember ws t u) => [ws; t; u]
  | CWs (wsApi_updateProject ws x _) | CWs (wsApi_deleteProject ws x) | CWs (wsApi_team ws x) | CWs (wsApi_deleteTeam ws x)
  | CWs (wsApi_addTeamMember ws x _) | CWs (wsApi_testCredential ws x) | CWs (wsApi_updateCredential ws x _)
  | CWs (wsApi_deleteCredential ws x) | CWs (wsApi_updateKey ws x _) | CWs (wsApi_revokeKey ws x) | CWs (wsApi_exportDownloadUrl ws x)
  | CMembers (membersApi_inviteLink ws x) | CMembers (membersApi_revokeInvite ws x) | CMembers (membersApi_updateMember ws x _)
  | CMembers (membersApi_removeMember ws x) | CPricing (pricingApi_updateOverride ws x _) | CPricing (pricingApi_deleteOverride ws x) => [ws; x]
  | CWs (wsApi_projects ws) | CWs (wsApi_timeseries ws _) | CWs (wsApi_breakdown ws _) | CWs (wsApi_createProject ws _)
  | CWs (wsApi_projectsByStatus ws _) | CWs (wsApi_teams ws) | CWs (wsApi_createTeam ws _) | CWs (wsApi_credentials ws)
  | CWs (wsApi_createCredential ws _) | CWs (wsApi_keys ws) | CWs (wsApi_issueKey ws _) | CWs (wsApi_summary ws _) | CWs (wsApi_events ws _)
  | CWs (wsApi_createExport ws _) | CWs (wsApi_exports ws) | CMembers (membersApi_list ws) | CMembers (membersApi_invitations ws)
  | CMembers (membersApi_invite ws _) | CInvite (inviteApi_inspect ws) | CInvite (inviteApi_accept ws _) | CPricing (pricingApi_overrides ws)
  | CPricing (pricingApi_createOverride ws _) | CPricing (pricingApi_unpriced ws) => [ws]
  | _ => []
  end.
(** Ids, slugs and tokens: none of the characters a URL reads. *)
Definition plain_char (c : ascii) : bool := negb (existsb (Ascii.eqb c) ["/"; "?"; "#"; "%"]%char).
Definition plain (s : string) : bool := negb (String.eqb s "") && sforall plain_char s.
(** The router sees the path up to the query. *)
Definition route_of (method url : string) : option ApiCall :=
  find_call method (hd "" (split_on "?"%char url)).

(** ** Splitting the paths *)
Lemma plain_no c s : existsb (Ascii.eqb c) ["/"; "?"]%char = true -> plain s = true -> no_char c s = true.
Proof.
  intros Hc [_ Hs]%andb_true_iff. eapply sforall_impl; [|exact Hs]. intros a Ha%negb_true_iff. apply negb_true_iff.
  destruct (Ascii.eqb_spec a c) as [->|]; [|done]. cbn in Ha, Hc. destruct (Ascii.eqb c "/"), (Ascii.eqb c "?"); done.
Qed.
Lemma plain_eqb s : plain s = true -> String.eqb s "" = false.
Proof. by intros [Hs%negb_true_iff _]%andb_true_iff. Qed.
(** A url under the prefix, by its segments. *)
Definition segments_url (l : list string) (q : option string) : string :=
  API_PREFIX +:+ join "/" l +:+ match q with None => "" | Some q => "?" +:+ q end.
Lemma no_char_join c sep l :
  no_char c sep = true -> Forall (fun s => no_char c s = true) l -> no_char c (join sep l) = true.
Proof.
  intros Hsep. induction l as [|a [|b l] IH]; [done| |]; intros [Ha Hl]%Forall_cons; [done|].
  cbn [join]. rewrite !no_char_app, Ha, Hsep. cbn. by apply IH.
Qed.
Lemma route_segments method l q :
  l <> [] -> Forall (fun s => no_char "/" s = true /\ no_char "?" s = true) l ->
  route_of method (segments_url l q) = find_route api_routes method l.
Proof.
  intros Hl Hs. unfold route_of, segments_url.
  assert (no_char "?" (API_PREFIX +:+ join "/" l) = true) as Hq.
  { rewrite no_char_app. apply no_char_join; [done|]. eapply Forall_impl; [exact Hs|]. by intros ? []. }
  rewrite <- string_app_assoc.
  assert (hd "" (split_on "?" ((API_PREFIX +:+ join "/" l) +:+ match q with None => "" | Some q => "?" +:+ q end))
          = API_PREFIX +:+ join "/" l) as ->.
  { destruct q as [q|]; [change ("?" +:+ q) with (String "?" q); by rewrite split_on_app|]. by rewrite string_app_nil_r, split_on_no_char. }
  unfold find_call. change (starts_with API_PREFIX (API_PREFIX +:+ join "/" l)) with true.
  change (slice_from _ _) with (join "/" l). cbn [fst snd]. rewrite (split_join "/"%char); [done|done|].
  eapply Forall_impl; [exact Hs|]. by intros ? [].
Qed.

(** [match_segments] from left to right: a literal that differs decides. *)
Fixpoint match_ltr (pattern path : list string) : option (list (string * string)) :=
  match pattern, path with
  | [], [] => Some []
  | p :: ps, s :: ss =>
      if starts_with ":" p then if String.eqb s "" then None else cons (slice_from 1 p, s) <$> match_ltr ps ss
      else if String.eqb p s then match_ltr ps ss else None
  | _, _ => None
  end.
Lemma match_ltr_eq pattern path : match_segments pattern path = match_ltr pattern path.
Proof.
  revert path. induction pattern as [|p ps IH]; intros [|s ss]; [done..|]. cbn [match_segments match_ltr]. rewrite IH.
  by destruct (match_ltr ps ss), (starts_with ":" p), (String.eqb s ""), (String.eqb p s).
Qed.
Fixpoint find_ltr (rs : list (string * string * ((string -> string) -> ApiCall))) (method : string)
    (segments : list string) : option ApiCall :=
  match rs with
  | [] => None
  | (m, pattern, call) :: rest =>
      match match_ltr (split_on "/"%char pattern) segments with
      | Some l => if String.eqb m method then Some (call (param l)) else find_ltr rest method segments
      | None => find_ltr rest method segments
      end
  end.
Lemma find_ltr_eq rs method segments : find_route rs method segments = find_ltr rs method segments.
Proof. induction rs as [|[[m p] call] rs IH]; [done|]. cbn. by rewrite match_ltr_eq, IH. Qed.

(** A caller's path, by its segments. *)
Definition segments (c : Caller) : list string :=
  match c with
  | CAuth (authApi_register _) => [""; "auth"; "register"]
  | CAuth (authApi_login _) => [""; "auth"; "login"]
  | CAuth authApi_logout => [""; "auth"; "logout"]
  | CAuth authApi_me => [""; "auth"; "me"]
  | CAdmin adminApi_stats => [""; "admin"; "stats"]
  | CAdmin adminApi_workspaces => [""; "admin"; "workspaces"]
  | CAdmin adminApi_timeseries => [""; "admin"; "timeseries"]
  | CWs wsApi_list => [""; "workspaces"]
  | CInvite (inviteApi_inspect token) => [""; "auth"; "invitations"; token]
  | CInvite (inviteApi_accept token _) => [""; "auth"; "invitations"; token; "accept"]
  | CPricing (pricingApi_catalog _) => [""; "pricing"; "models"]
  | _ => "" :: "workspaces" :: hd "" (path_texts c) ::
      match c with
      | CWs (wsApi_projects _) | CWs (wsApi_projectsByStatus _ _) | CWs (wsApi_createProject _ _) => ["projects"]
      | CWs (wsApi_updateProject _ id _) | CWs (wsApi_deleteProject _ id) => ["projects"; id]
      | CWs (wsApi_timeseries _ _) => ["analytics"; "timeseries"]
      | CWs (wsApi_breakdown _ _) => ["analytics"; "breakdown"]
      | CWs (wsApi_summary _ _) => ["analytics"; "summary"]
      | CWs (wsApi_events _ _) => ["usage"; "events"]
      | CWs (wsApi_teams _) | CWs (wsApi_createTeam _ _) => ["teams"]
      | CWs (wsApi_team _ id) | CWs (wsApi_deleteTeam _ id) => ["teams"; id]
      | CWs (wsApi_addTeamMember _ t _) => ["teams"; t; "members"]
      | CWs (wsApi_updateTeamMember _ t u _) | CWs (wsApi_removeTeamMember _ t u) => ["teams"; t; "members"; u]
      | CWs (wsApi_credentials _) | CWs (wsApi_createCredential _ _) => ["credentials"]
      | CWs (wsApi_testCredential _ id) => ["credentials"; id; "test"]
      | CWs (wsApi_updateCredential _ id _) | CWs (wsApi_deleteCredential _ id) => ["credentials"; id]
      | CWs (wsApi_keys _) | CWs (wsApi_issueKey _ _) => ["keys"]
      | CWs (wsApi_updateKey _ id _) => ["keys"; id]
      | CWs (wsApi_revokeKey _ id) => ["keys"; id; "revoke"]
      | CWs (wsApi_createExport _ _) | CWs (wsApi_exports _) => ["exports"]
      | CWs (wsApi_exportDownloadUrl _ id) => ["exports"; id; "download"]
      | CMembers (membersApi_list _) => ["members"]
      | CMembers (membersApi_updateMember _ u _) | CMembers (membersApi_removeMember _ u) => ["members"; u]
      | CMembers (membersApi_invitations _) | CMembers (membersApi_invite _ _) => ["invitations"]
      | CMembers (membersApi_inviteLink _ id) => ["invitations"; id; "link"]
      | CMembers (membersApi_revokeInvite _ id) => ["invitations"; id]
      | CPricing (pricingApi_overrides _) | CPricing (pricingApi_createOverride _ _) => ["pricing"; "overrides"]
      | CPricing (pricingApi_updateOverride _ id _) | CPricing (pricingApi_deleteOverride _ id) => ["pricing"; "overrides"; id]
      | _ => ["pricing"; "unpriced"]
      end
  end.
Ltac each_caller c := destruct c as [c|c|c|c|c|c]; destruct c.
Lemma url_segments encode c :
  API_PREFIX +:+ fe_url (fetch_of encode c) = segments_url (segments c) (fe_query (fetch_of encode c)).
Proof.
  unfold segments_url, fe_url. each_caller c;
    cbn [fetch_of authApi adminApi wsApi membersApi inviteApi pricingApi segments path_texts hd];
    try (destruct (explorerQuery encode p)); cbn [fe_query fe_path getF getQ sendF];
    unfold ws_path; cbn [join]; f_equal; rewrite ?string_app_nil_r, ?string_app_assoc; try reflexivity.
Qed.
Lemma segments_plain c : Forall (fun s => plain s = true) (path_texts c) ->
  Forall (fun s => no_char "/" s = true /\ no_char "?" s = true) (segments c).
Proof.
  intros Hp.
  assert (Forall (fun s => no_char "/" s = true /\ no_char "?" s = true) (path_texts c)) as H.
  { eapply Forall_impl; [exact Hp|]. intros s Hs. by split; apply plain_no. }
  clear Hp. each_caller c; cbn in *; rewrite ?Forall_cons in H; destruct_and?; by repeat constructor.
Qed.

(** C40: The console and the API agree on every route: whatever a caller of
    endpoints.ts puts into its path (texts without the characters a URL reads)
    and its query, its method and URL reach the handler it means with exactly
    those texts as parameters. *)
Theorem callers_reach_their_handlers encode c :
  Forall (fun s => plain s = true) (path_texts c) ->
  route_of (fe_method (fetch_of encode c)) (API_PREFIX +:+ fe_url (fetch_of encode c)) = Some (meant c).
Proof.
  intros Hp. rewrite url_segments, route_segments, find_ltr_eq; [|by each_caller c|by apply segments_plain].
  each_caller c; cbn [path_texts] in Hp; rewrite ?Forall_cons in Hp;
    repeat match goal with H : _ /\ _ |- _ => destruct H | H : plain ?s = true |- _ => is_var s; destruct s; [discriminate H|] end;
    try (unfold fetch_of, pricingApi; destruct (explorerQuery encode p)); vm_compute; reflexivity.
Qed.
Lemma callers_reach_their_handlers_witness :
  route_of "PATCH" "/api/v1/workspaces/one/teams/t1/members/u2" = Some (CallUpdateTeamMember "one" "t1" "u2") /\
  route_of "GET" "/api/v1/workspaces/one/usage/events?limit=50&cursor=a" = Some (CallEvents "one").
Proof.
  split.
  - apply (callers_reach_their_handlers id (CWs (wsApi_updateTeamMember "one" "t1" "u2" "LEAD"))). by repeat constructor.
  - apply (callers_reach_their_handlers id (CWs (wsApi_events "one" (Some "a")))). by repeat constructor.
Defined.
