(* ===== verification/WebRouter.v ===== *)
(** * apps/web/src/App.tsx: which page a location shows

    The route table, the guards RequireAuth, RequireWorkspace and
    RequireSuperAdmin, the redirect of the home page, and that redirects end. *)

From S2P Require Import Prelude JsString JsNum JsDate Json Shared Auth Zod ApiDb ApiAuth Gateway WebClient.
From Stdlib Require Import Ascii.

(** ** The routes *)
Inductive Route :=
| RLogin | RRegister | RInvite (token : string) | RHome
| RAdmin (page : string)                          (** "" is the index page *)
| RWorkspace (ws page : string) (teamId : option string).
Definition admin_pages : list string := ["tenants"; "reports"].
Definition workspace_pages : list string :=
  ["setup"; "analytics"; "usage"; "keys"; "projects"; "teams"; "providers"; "members"; "pricing"].
(** Empty segments and the case of literal ones do not matter. *)
Definition path_segments (path : string) : list string :=
  List.filter (fun s => negb (String.eqb s "")) (split_on "/"%char path).
Definition literal_is (s word : string) : bool := String.eqb (to_lower s) word.
(** A literal segment is preferred to a parameter. *)
Definition match_route (path : string) : option Route :=
  match path_segments path with
  | [] => Some RHome
  | [s] =>
      if literal_is s "login" then Some RLogin
      else if literal_is s "register" then Some RRegister
      else if literal_is s "admin" then Some (RAdmin "")
      else Some (RWorkspace s "" None)
  | [s; page] =>
      if literal_is s "invite" then Some (RInvite page)
      else if literal_is s "admin" && existsb (literal_is page) admin_pages then Some (RAdmin (to_lower page))
      else if existsb (literal_is page) workspace_pages then Some (RWorkspace s (to_lower page) None)
      else None
  | [s; page; id] => if literal_is page "teams" then Some (RWorkspace s "teams" (Some id)) else None
  | _ => None
  end.

(** ** What is shown *)
Inductive Screen :=
| Spinner
| LoginPage | RegisterPage | AcceptInvitePage (token : string)
| Platform (page : string)
| WorkspacePage (ws page : string) (teamId : option string)
| NoMatch
| Navigate (path : string).

Definition RequireSuperAdmin (v : View) (outlet : Screen) : Screen :=
  match v_status v with
  | Loading => Spinner
  | Anonymous => Navigate "/login"
  | Authenticated => if v_isSuperAdmin v then outlet else Navigate "/"
  end.
Definition RequireAuth (v : View) (outlet : Screen) : Screen :=
  match v_status v with Loading => Spinner | Anonymous => Navigate "/login" | Authenticated => outlet end.
Definition RequireWorkspace (v : View) (ws : string) (outlet : Screen) : Screen :=
  match v_status v with
  | Loading => Spinner
  | _ => if existsb (fun m => String.eqb (ms_slug m) ws) (v_memberships v) then outlet else Navigate "/"
  end.
Definition HomeRedirect (v : View) : Screen :=
  match v_status v with
  | Loading => Spinner
  | Anonymous => Navigate "/login"
  | Authenticated =>
      match if_truthy (ms_slug <$> head (v_memberships v)) with
      | Some first => Navigate ("/" +:+ first)
      | None => Navigate "/register"
      end
  end.
Definition render (v : View) (path : string) : Screen :=
  match match_route path with
  | None => NoMatch
  | Some RLogin => LoginPage
  | Some RRegister => RegisterPage
  | Some (RInvite token) => AcceptInvitePage token
  | Some RHome => HomeRedirect v
  | Some (RAdmin page) => RequireSuperAdmin v (Platform page)
  | Some (RWorkspace ws page teamId) => RequireAuth v (RequireWorkspace v ws (WorkspacePage ws page teamId))
  end.
(** Redirects followed, at most [n] of them. *)
Fixpoint visit (n : nat) (v : View) (path : string) : option Screen :=
  match render v path with
  | Navigate to => match n with O => None | S n => visit n v to end
  | screen => Some screen
  end.

(** ** Redirects end *)
(** A slug no literal route takes. *)
Definition free_slug (s : string) : bool :=
  negb (String.eqb s "") && no_char "/" s && negb (existsb (literal_is s) ["login"; "register"; "admin"]).
Lemma free_slug_route s : free_slug s = true -> match_route ("/" +:+ s) = Some (RWorkspace s "" None).
Proof.
  intros [[Hne Hc]%andb_true_iff Hl%negb_true_iff]%andb_true_iff. unfold match_route.
  assert (path_segments ("/" +:+ s) = [s]) as ->.
  { unfold path_segments. change ("/" +:+ s) with ("" +:+ String "/" s).
    rewrite split_on_app, split_on_no_char by done. cbn. by rewrite Hne. }
  cbn [existsb] in Hl. apply orb_false_iff in Hl as [-> Hl]. apply orb_false_iff in Hl as [-> Hl].
  by apply orb_false_iff in Hl as [-> _].
Qed.
Definition homes_free (v : View) : Prop := forall m, head (v_memberships v) = Some m -> free_slug (ms_slug m) = true.
(** The page of a screen is one this user may see. *)
Definition permitted (v : View) (s : Screen) : Prop :=
  match s with
  | Navigate _ => False
  | Platform _ => v_status v = Authenticated /\ v_isSuperAdmin v = true
  | WorkspacePage ws _ _ => v_status v = Authenticated /\ ws ∈ map ms_slug (v_memberships v)
  | _ => True
  end.
Lemma visit_here n v path : (forall to, render v path <> Navigate to) -> visit n v path = Some (render v path).
Proof. intros Hn. destruct n; cbn; destruct (render v path) eqn:E; try done; by destruct (Hn path0). Qed.
Lemma visit_go n v path to : render v path = Navigate to -> visit (S n) v path = visit n v to.
Proof. intros Hn. cbn. by rewrite Hn. Qed.
Lemma visit_login n v : visit n v "/login" = Some LoginPage.
Proof. by apply visit_here. Qed.
Lemma workspace_screen v ws page t :
  RequireWorkspace v ws (WorkspacePage ws page t) = WorkspacePage ws page t -> v_status v = Authenticated ->
  permitted v (WorkspacePage ws page t).
Proof.
  unfold RequireWorkspace, permitted. intros H Hs. split; [done|]. rewrite Hs in H.
  destruct (existsb _ _) eqn:Ee; [|done]. apply existsb_exists in Ee as (m & Hm & <-%String.eqb_eq).
  apply list_elem_of_fmap_2, list_elem_of_In, Hm.
Qed.
(** The home page leads a signed-in user to their first workspace. *)
Lemma visit_home n v :
  homes_free v -> exists s, visit (S n) v "/" = Some s /\ permitted v s /\
  forall m, v_status v = Authenticated -> head (v_memberships v) = Some m -> s = WorkspacePage (ms_slug m) "" None.
Proof.
  intros Hfree. destruct (v_status v) eqn:Es.
  - exists Spinner. split; [|done]. by cbn; unfold HomeRedirect; rewrite Es.
  - exists LoginPage. split; [|done]. cbn. unfold HomeRedirect. rewrite Es. apply visit_login.
  - destruct (head (v_memberships v)) as [m|] eqn:Em.
    + exists (WorkspacePage (ms_slug m) "" None).
      assert (render v "/" = Navigate ("/" +:+ ms_slug m)) as Hgo.
      { cbn. unfold HomeRedirect. rewrite Es, Em. specialize (Hfree m Em). cbn.
        unfold if_truthy. destruct (ms_slug m) as [|c s]; [discriminate Hfree|done]. }
      rewrite (visit_go _ _ _ _ Hgo).
      assert (render v ("/" +:+ ms_slug m) = WorkspacePage (ms_slug m) "" None) as Hr.
      { unfold render. rewrite free_slug_route by by apply Hfree. unfold RequireAuth, RequireWorkspace. rewrite Es.
        destruct (v_memberships v) as [|m' l]; [done|]. injection Em as ->. cbn. by rewrite String.eqb_refl. }
      rewrite visit_here by by rewrite Hr. rewrite Hr. split_and!; [done| |by intros m' _ [= <-]].
      split; [exact Es|]. destruct (v_memberships v) as [|m' l]; [done|]. injection Em as ->. cbn. set_solver.
    + exists RegisterPage. split_and!; [|done|by intros m _]. cbn. unfold HomeRedirect. rewrite Es, Em. cbn.
      by apply visit_here.
Qed.

(** C35: From any location the console settles: when the first workspace's slug
    is none of the words of the route table, at most two redirects lead from
    any path to a page, that page is one the user may see - a workspace they
    are a member of, the platform console only for super-admins - an anonymous
    user sees none of them, and the home page shows a signed-in user their first
    workspace. *)
Theorem redirects_end v path :
  homes_free v ->
  exists s, visit 2 v path = Some s /\ permitted v s /\
    (v_status v = Anonymous -> s = LoginPage \/ s = RegisterPage \/ s = NoMatch \/ exists t, s = AcceptInvitePage t) /\
    (forall m, match_route path = Some RHome -> v_status v = Authenticated -> head (v_memberships v) = Some m ->
       s = WorkspacePage (ms_slug m) "" None).
Proof.
  intros Hfree. destruct (match_route path) as [[| |token| |page|ws page t]|] eqn:Er.
  - exists LoginPage. rewrite visit_here; unfold render; rewrite Er; naive_solver.
  - exists RegisterPage. rewrite visit_here; unfold render; rewrite Er; naive_solver.
  - exists (AcceptInvitePage token). rewrite visit_here; unfold render; rewrite Er; naive_solver.
  - destruct (visit_home 1 v Hfree) as (s & Hv & Hp & Hm). exists s.
    assert (visit 2 v path = visit 2 v "/") as -> by (cbn; unfold render; by rewrite Er).
    split_and!; [done|done| |naive_solver]. intros Hs. left. cbn in Hv. unfold HomeRedirect in Hv.
    rewrite Hs in Hv. cbn in Hv. naive_solver.
  - destruct (v_status v) eqn:Es.
    + exists Spinner. rewrite visit_here; unfold render, RequireSuperAdmin; rewrite Er, Es; naive_solver.
    + exists LoginPage. rewrite (visit_go 1 v path "/login"), visit_login by (unfold render, RequireSuperAdmin; by rewrite Er, Es).
      naive_solver.
    + destruct (v_isSuperAdmin v) eqn:Ea.
      * exists (Platform page). rewrite visit_here; unfold render, RequireSuperAdmin, permitted; rewrite Er, Es, Ea; naive_solver.
      * destruct (visit_home 0 v Hfree) as (s & Hv & Hp & Hm). exists s.
        rewrite (visit_go 1 v path "/") by (unfold render, RequireSuperAdmin; by rewrite Er, Es, Ea). naive_solver.
  - destruct (v_status v) eqn:Es.
    + exists Spinner. rewrite visit_here; unfold render, RequireAuth; rewrite Er, Es; naive_solver.
    + exists LoginPage. rewrite (visit_go 1 v path "/login"), visit_login by (unfold render, RequireAuth; by rewrite Er, Es).
      naive_solver.
    + assert (render v path = RequireWorkspace v ws (WorkspacePage ws page t)) as Hr
        by (unfold render, RequireAuth; by rewrite Er, Es).
      destruct (existsb (fun m => String.eqb (ms_slug m) ws) (v_memberships v)) eqn:Ee.
      * assert (RequireWorkspace v ws (WorkspacePage ws page t) = WorkspacePage ws page t) as Hw
          by (unfold RequireWorkspace; by rewrite Es, Ee).
        exists (WorkspacePage ws page t). rewrite visit_here; rewrite Hr, Hw; [|done].
        split_and!; [done|by apply workspace_screen|done|done].
      * destruct (visit_home 0 v Hfree) as (s & Hv & Hp & Hm). exists s.
        rewrite (visit_go 1 v path "/") by (rewrite Hr; unfold RequireWorkspace; by rewrite Es, Ee). naive_solver.
  - exists NoMatch. rewrite visit_here; unfold render; rewrite Er; naive_solver.
Qed.

Definition ex_view (super : bool) (slugs : list string) : View :=
  mkView Authenticated None super (map (fun s => mkMembership s "OWNER") slugs).
Lemma redirects_end_witness :
  exists s, visit 2 (ex_view false ["one"; "two"]) "/admin/tenants" = Some s /\ permitted (ex_view false ["one"; "two"]) s.
Proof.
  destruct (redirects_end (ex_view false ["one"; "two"]) "/admin/tenants") as (s & Hv & Hp & _);
    [by intros m [= <-]|by exists s].
Defined.
Example pages_shown :
  visit 2 (ex_view false ["one"; "two"]) "/" = Some (WorkspacePage "one" "" None) /\
  visit 2 (ex_view false ["one"]) "/two/keys" = Some (WorkspacePage "one" "" None) /\
  visit 2 (ex_view true ["one"]) "/admin" = Some (Platform "") /\
  visit 2 (mkView Anonymous None false []) "/one/keys" = Some LoginPage.
Proof. vm_compute. done. Qed.

(** A workspace named after a word of the route table: the home page and the
    guard of the platform console send its members to each other for ever. *)
Lemma admin_slug_loops v m :
  v_status v = Authenticated -> v_isSuperAdmin v = false -> head (v_memberships v) = Some m -> ms_slug m = "admin" ->
  forall n, visit n v "/" = None /\ visit n v "/admin" = None.
Proof.
  intros Hs Ha Hm Hslug.
  assert (render v "/" = Navigate "/admin") as H1 by (cbn; unfold HomeRedirect; rewrite Hs, Hm; cbn; by rewrite Hslug).
  assert (render v "/admin" = Navigate "/") as H2 by (change (RequireSuperAdmin v (Platform "") = Navigate "/"); unfold RequireSuperAdmin; by rewrite Hs, Ha).
  induction n as [|n [IH1 IH2]]; [by cbn [visit]; rewrite H1, H2|]. by rewrite (visit_go _ _ _ _ H1), (visit_go _ _ _ _ H2).
Qed.
(** Registering a workspace called Admin makes that slug, Login the one that
    ends every visit of the home page at the sign-in form. *)
Example reserved_slugs : slugify 40 "workspace" "Admin" = "admin" /\ slugify 40 "workspace" "Login" = "login".
Proof. vm_compute. done. Qed.
Example login_slug_locks_out : visit 9 (ex_view false ["login"]) "/" = Some LoginPage.
Proof. vm_compute. done. Qed.
