(* ===== verification/WebUi.v ===== *)
(** * apps/web: what the pages are made of

    A page is a function from its state and the answers of its queries to a tree
    of elements, and a reaction to the events the tree offers.  The elements are
    those of antd the pages use, without styles and icons; a form's values, rules
    and widgets are antd's, a mutation and a query TanStack's, as documented.

    [offers] says which events a user can raise from a rendered tree: buttons
    that are enabled and not loading, confirmed questions, options of a choice,
    forms submitted with values their widgets produce and their rules let pass. *)

From S2P Require Import Prelude JsString JsNum JsDate Json Shared Zod WebClient WebEndpoints.
From Stdlib Require Import Ascii.

(** ** Forms *)
(** What a field of a form holds; a date is a dayjs instant. *)
Inductive Value := VUndef | VNull | VStr (s : string) | VNum (n : number) | VList (l : list string) | VDate (t : Z).
(** The values a form hands to [onFinish]: its fields in the order rendered. *)
Definition Values : Type := list (string * Value).
Definition val (vs : Values) (name : string) : Value :=
  match List.find (fun p => String.eqb p.1 name) vs with Some p => p.2 | None => VUndef end.
(** A value in a JSON body; [undefined] is left out. *)
Definition value_json (v : Value) : option json :=
  match v with
  | VUndef => None
  | VNull => Some JNull
  | VStr s => Some (JStr s)
  | VNum n => Some (JNum n)
  | VList l => Some (JArr (map JStr l))
  | VDate t => Some (JStr (toISOString t))
  end.
(** [{ ...values }] as JSON. *)
Definition spread (vs : Values) : list (string * json) := omap (fun p => j ← value_json p.2; Some (p.1, j)) vs.
(** The text of a field, where it has one. *)
Definition text_of (v : Value) : option string := match v with VStr s => Some s | _ => None end.

Inductive Rule := Required | IsEmail | IsUrl | MinLength (n : nat).
Inductive Widget :=
| TextInput
| NumberInput (min : Z) (normalized : bool)   (** normalized: numbers become text *)
| Choice (options : list (string * string)) (clearable : bool)
| Choices (options : list (string * string))
| DateInput.
Record Field := mkField {
  f_name : string; f_label : string; f_rules : list Rule; f_widget : Widget; f_initial : Value; f_disabled : bool }.

(** Characters as async-validator counts them: a surrogate pair is one. *)
Fixpoint char_count (s : string) : nat :=
  match s with "" => O | String c r => ((if ((128 <=? code c) && (code c <? 192))%Z then 0 else 1) + char_count r)%nat end.

Section rules.
(** The patterns of antd's "email" and "url" types. *)
Context (email url : string -> bool).
Definition is_blank (v : Value) : bool :=
  match v with VUndef | VNull | VStr "" | VList [] => true | _ => false end.
Definition rule_ok (v : Value) (r : Rule) : bool :=
  match r with
  | Required => negb (is_blank v)
  | IsEmail => is_blank v || match v with VStr s => email s | _ => false end
  | IsUrl => is_blank v || match v with VStr s => url s | _ => false end
  | MinLength n => is_blank v || match v with VStr s => (n <=? char_count s)%nat | _ => false end
  end.
Definition at_least (min : Z) (n : number) : bool :=
  match n with NInt z => min <=? z | NDec m d => min * 10 ^ Z.pos d <=? m end.
(** What the widget itself can produce. *)
Definition entered (f : Field) (v : Value) : Prop :=
  match f_widget f, v with
  | TextInput, VStr _ => True
  | NumberInput _ _, VNull => True
  | NumberInput min false, VNum n => at_least min n = true
  | NumberInput min true, VStr s => exists n, at_least min n = true /\ s = number_to_string n
  | Choice options _, VStr s => s ∈ map fst options
  | Choice _ clearable, VUndef => clearable = true
  | Choices options, VList l =>
      NoDup l /\ forall x, x ∈ l -> x ∈ map fst options \/ exists l0, f_initial f = VList l0 /\ x ∈ l0
  | DateInput, (VDate _ | VNull) => True
  | _, _ => False
  end.
Definition field_ok (f : Field) (p : string * Value) : Prop :=
  p.1 = f_name f /\ (p.2 = f_initial f \/ f_disabled f = false /\ entered f p.2) /\
  forallb (rule_ok p.2) (f_rules f) = true.
(** Values [onFinish] may be called with. *)
Definition form_ok (fields : list Field) (vs : Values) : Prop := Forall2 field_ok fields vs.
End rules.

(** ** Elements *)
Inductive Node (Ev : Type) : Type :=
| Text (s : string)
| Tag (color s : string)
| Link (to label : string)
| Alert (kind : string) (message : string) (description : option string)
| Spin
| EmptyState (description : string)
| CopyField (value : string)
| Button (label : string) (disabled loading : bool) (onClick : Ev)
| Popconfirm (title : string) (description : option string) (label : string) (loading : bool) (onConfirm : Ev)
| Select (value : option string) (options : list (string * string)) (clearable disabled : bool)
    (onChange : option string -> Ev)
| Search (placeholder value : string) (onChange : string -> Ev)
| Checkbox (label : string) (checked : bool) (onChange : bool -> Ev)
| Form (fields : list Field) (submit : string) (loading : bool) (onFinish : Values -> Ev)
| Modal (title : string) (open : bool) (onCancel : option Ev) (children : list (Node Ev))
| DataTable (columns : list string) (loading : bool) (rows : list (list (Node Ev)))
| Box (title : string) (children : list (Node Ev)).
Arguments Text {Ev}. Arguments Tag {Ev}. Arguments Link {Ev}. Arguments Alert {Ev}. Arguments Spin {Ev}.
Arguments EmptyState {Ev}. Arguments CopyField {Ev}. Arguments Button {Ev}. Arguments Popconfirm {Ev}. Arguments Select {Ev}.
Arguments Search {Ev}. Arguments Checkbox {Ev}. Arguments Form {Ev}. Arguments Modal {Ev}. Arguments DataTable {Ev}.
Arguments Box {Ev}.
(** [cond && <…/>] *)
Definition when {A} (b : bool) (l : list A) : list A := if b then l else [].
(** [o && f(o)], [o ? f(o) : d] *)
Definition for_some {A B} (o : option A) (f : A -> B) (d : B) : B := match o with Some a => f a | None => d end.

(** [<PageHeader/>]: eyebrow, title and the slot on the right. *)
Definition PageHeader {Ev} (eyebrow title : string) (extra : list (Node Ev)) : Node Ev :=
  Box "" (when (negb (String.eqb eyebrow "")) [Text eyebrow] ++ [Text title] ++ extra).

(** A component's tree inside the page that renders it. *)
Fixpoint lift {A B} (f : A -> B) (n : Node A) : Node B :=
  match n with
  | Text s => Text s
  | Tag c s => Tag c s
  | Link to l => Link to l
  | Alert k m d => Alert k m d
  | Spin => Spin
  | EmptyState d => EmptyState d
  | CopyField v => CopyField v
  | Button l d p e => Button l d p (f e)
  | Popconfirm t d l p e => Popconfirm t d l p (f e)
  | Select v os c d g => Select v os c d (fun x => f (g x))
  | Search p v g => Search p v (fun x => f (g x))
  | Checkbox l c g => Checkbox l c (fun x => f (g x))
  | Form fs s p g => Form fs s p (fun x => f (g x))
  | Modal t o c l => Modal t o (f <$> c) (map (lift f) l)
  | DataTable c b rows => DataTable c b (map (map (lift f)) rows)
  | Box t l => Box t (map (lift f) l)
  end.
Section node_ind.
Context {Ev : Type} (P : Node Ev -> Prop).
Hypothesis leaf : forall n, match n with Modal _ _ _ _ | DataTable _ _ _ | Box _ _ => True | _ => P n end.
Hypothesis modal : forall t o c l, Forall P l -> P (Modal t o c l).
Hypothesis table : forall c b rows, Forall (Forall P) rows -> P (DataTable c b rows).
Hypothesis box : forall t l, Forall P l -> P (Box t l).
Fixpoint node_ind (n : Node Ev) : P n :=
  let all := fix all (l : list (Node Ev)) : Forall P l :=
    match l with [] => Forall_nil_2 P | x :: r => Forall_cons_2 P x r (node_ind x) (all r) end in
  match n with
  | Modal t o c l => modal t o c l (all l)
  | DataTable c b rows =>
      table c b rows ((fix rows_all (rows : list (list (Node Ev))) : Forall (Forall P) rows :=
        match rows with [] => Forall_nil_2 _ | r :: rest => Forall_cons_2 _ r rest (all r) (rows_all rest) end) rows)
  | Box t l => box t l (all l)
  | n => leaf n
  end.
End node_ind.

Section offers.
Context (email url : string -> bool).
Context {Ev : Type}.
Fixpoint offers (n : Node Ev) (e : Ev) : Prop :=
  let any := fix any (l : list (Node Ev)) : Prop := match l with [] => False | x :: r => offers x e \/ any r end in
  match n with
  | Button _ disabled loading ev => disabled = false /\ loading = false /\ e = ev
  | Popconfirm _ _ _ loading ev => loading = false /\ e = ev
  | Select value options clearable disabled f =>
      disabled = false /\ (clearable = true /\ e = f None \/ exists o, o ∈ map fst options /\ e = f (Some o))
  | Search _ _ f => exists s, e = f s
  | Checkbox _ checked f => e = f (negb checked)
  | Form fields _ loading f => loading = false /\ exists vs, form_ok email url fields vs /\ e = f vs
  | Modal _ open cancel children => open = true /\ (cancel = Some e \/ any children)
  | DataTable _ _ rows => (fix table (l : list (list (Node Ev))) : Prop :=
                         match l with [] => False | r :: rest => any r \/ table rest end) rows
  | Box _ children => any children
  | _ => False
  end.
Definition offered (l : list (Node Ev)) (e : Ev) : Prop := exists n, n ∈ l /\ offers n e.
Lemma offers_any e l :
  (fix any (l : list (Node Ev)) : Prop := match l with [] => False | x :: r => offers x e \/ any r end) l <-> offered l e.
Proof.
  unfold offered. induction l as [|x l IH]; [split; [done|]; by intros (n & []%elem_of_nil & _)|]. rewrite IH. split.
  - intros [H|(n & Hn & H)]; [exists x|exists n]; split; try done; set_solver.
  - intros (n & [->|Hn]%elem_of_cons & H); [by left|]. right. by exists n.
Qed.
Lemma offers_box t l e : offers (Box t l) e <-> offered l e.
Proof. apply (offers_any e l). Qed.
Lemma offers_modal t o c l e : offers (Modal t o c l) e <-> o = true /\ (c = Some e \/ offered l e).
Proof. cbn [offers]. by rewrite (offers_any e l). Qed.
Lemma offers_table c b rows e : offers (DataTable c b rows) e <-> exists r, r ∈ rows /\ offered r e.
Proof.
  cbn [offers]. induction rows as [|r rows IH]; [split; [done|]; by intros (n & []%elem_of_nil & _)|].
  rewrite (offers_any e r), IH. split.
  - intros [H|(n & Hn & H)]; [exists r|exists n]; split; try done; set_solver.
  - intros (n & [->|Hn]%elem_of_cons & H); [by left|]. right. by exists n.
Qed.
Lemma offered_nil e : offered [] e <-> False.
Proof. split; [|done]. by intros (n & []%elem_of_nil & _). Qed.
Lemma offered_cons n l e : offered (n :: l) e <-> offers n e \/ offered l e.
Proof.
  unfold offered. split.
  - intros (x & [->|Hx]%elem_of_cons & H); [by left|]. right. by exists x.
  - intros [H|(x & Hx & H)]; [exists n|exists x]; split; try done; set_solver.
Qed.
Lemma offered_app l l' e : offered (l ++ l') e <-> offered l e \/ offered l' e.
Proof. induction l as [|n l IH]; cbn; rewrite ?offered_nil, ?offered_cons, ?IH; tauto. Qed.
Lemma offered_when b l e : offered (when b l) e <-> b = true /\ offered l e.
Proof. destruct b; cbn; rewrite ?offered_nil; naive_solver. Qed.
End offers.
(** What a component offers inside a page. *)
Lemma offers_lift email url {A B} (f : A -> B) n e :
  offers email url (lift f n) e <-> exists e0, e = f e0 /\ offers email url n e0.
Proof.
  revert e. assert (forall l, Forall (fun n => forall e, offers email url (lift f n) e <->
      exists e0, e = f e0 /\ offers email url n e0) l ->
    forall e, offered email url (map (lift f) l) e <-> exists e0, e = f e0 /\ offered email url l e0) as Hl.
  { intros l Hl e. induction Hl as [|x l Hx _ IH]; cbn [map].
    - setoid_rewrite offered_nil. naive_solver.
    - setoid_rewrite offered_cons. rewrite Hx, IH. naive_solver. }
  pattern n. revert n. apply node_ind; [intros n|intros t o c l IH e|intros c b rows IH e|intros t l IH e].
  - destruct n; try done; intros e; cbn; naive_solver.
  - cbn [lift]. setoid_rewrite offers_modal. rewrite (Hl l IH). destruct c; cbn; naive_solver.
  - cbn [lift]. setoid_rewrite offers_table. split.
    + intros (r & (r0 & -> & Hr)%list_elem_of_fmap & H). rewrite Forall_forall in IH. apply (Hl _ (IH _ Hr)) in H. naive_solver.
    + intros (e0 & -> & r & Hr & H). exists (map (lift f) r). split; [by apply list_elem_of_fmap_2|].
      rewrite Forall_forall in IH. apply (Hl _ (IH _ Hr)). by exists e0.
  - cbn [lift]. setoid_rewrite offers_box. by rewrite (Hl l IH).
Qed.
Lemma offered_lift email url {A B} (f : A -> B) l e :
  offered email url (map (lift f) l) e <-> exists e0, e = f e0 /\ offered email url l e0.
Proof.
  induction l as [|x l IH]; cbn [map].
  - setoid_rewrite offered_nil. naive_solver.
  - setoid_rewrite offered_cons. rewrite offers_lift, IH. naive_solver.
Qed.

(** ** Queries and mutations *)
(** [useQuery]: the data of the last success, if any. *)
Record Query A := mkQuery { q_data : option A; q_isLoading : bool; q_isError : bool }.
Arguments mkQuery {A}. Arguments q_data {A}. Arguments q_isLoading {A}. Arguments q_isError {A}.
(** [query.data?.data ?? []] *)
Definition q_rows {A} (q : Query (list A)) : list A := q_data q ?? [].
(** [useMutation]: it shows the run started last. *)
Record Mutation V := mkMutation { mu_run : nat; isPending : bool; variables : option V }.
Arguments mkMutation {V}. Arguments mu_run {V}. Arguments isPending {V}. Arguments variables {V}.
Definition idle_mutation {V} : Mutation V := mkMutation 0 false None.
Definition mutate {V} (v : V) (m : Mutation V) : Mutation V := mkMutation (S (mu_run m)) true (Some v).
Definition settle_run {V} (run : nat) (m : Mutation V) : Mutation V :=
  if (run =? mu_run m)%nat then mkMutation (mu_run m) false (variables m) else m.
(** What a run ends with: the answer's body, or the exception. *)
Definition Answer (A : Type) : Type := result CallOutcome A.
(** [err instanceof ApiError ? err.message : fallback] *)
Definition error_text (fallback : string) (e : CallOutcome) : string :=
  match e with Failed x => ae_message x | _ => fallback end.

(** ** What a reaction asks for *)
Inductive Effect :=
| Ask (c : Caller)
| InvalidateQueries (key : list string)
| ShowMessage (kind text : string)
| Navigate (to : string)
| ReloadMemberships
| SignIn (email password : string)
| SignUp (body : json)
| ReloadPage
| WriteClipboard (s : string)
| ResetFields
| SaveFile (name content : string)
| DownloadAuthed (url name : string).

(** [{ k: v }] in a body: nothing when [v] is undefined. *)
Definition entry (k : string) (v : Value) : list (string * json) := spread [(k, v)].
(** [v ?? null], [v ?? []] *)
Definition or_null (v : Value) : Value := match v with VUndef => VNull | _ => v end.
Definition or_empty (v : Value) : Value := match v with VUndef | VNull => VList [] | _ => v end.
(** [rows.map((r) => ({ value, label }))] *)
Definition options_of {A} (value label : A -> string) (rows : list A) : list (string * string) :=
  map (fun r => (value r, label r)) rows.
(** The fields every form has the like of. *)
Definition text_field (name label : string) (rules : list Rule) (initial : Value) : Field :=
  mkField name label rules TextInput initial false.
Definition choice_field (name label : string) (rules : list Rule) (options : list (string * string)) (clearable : bool)
    (initial : Value) : Field := mkField name label rules (Choice options clearable) initial false.
