(* ===== verification/WebFormat.v ===== *)
(** * apps/web: figures as text

    formatUsd of api/endpoints.ts and the formatters of the pages: Intl's en-US
    currency and compact notations, [toFixed], CSV cells.  Numbers are exact
    decimals; a number is rounded half away from zero, as Intl does. *)

From S2P Require Import Prelude JsString JsNum JsDate Json Shared Zod.
From Stdlib Require Import Ascii.

(** The magnitude of [n] in units of [10^-d], rounded half away from zero. *)
Definition units_at (d : Z) (n : number) : Z :=
  let m := Z.abs (num_mant n) in
  if num_scale n <=? d then m * 10 ^ (d - num_scale n)
  else (m + 5 * 10 ^ (num_scale n - d - 1)) / 10 ^ (num_scale n - d).
Definition is_negative (n : number) : bool := num_mant n <? 0.
(** Units of [10^-d] with all [d] digits after the point. *)
Definition fixed_text (d : nat) (units : Z) : string :=
  dec (units / 10 ^ Z.of_nat d)
  +:+ (if (d =? 0)%nat then "" else "." +:+ pad_start (dec (units mod 10 ^ Z.of_nat d)) d "0").
(** [n.toFixed(d)] *)
Definition toFixed (d : nat) (n : number) : string :=
  (if is_negative n then "-" else "") +:+ fixed_text d (units_at (Z.of_nat d) n).

(** A comma before every third digit from the right. *)
Fixpoint group_rev (n : nat) (s : string) : string :=
  match s with
  | "" => ""
  | String c r => if (n =? 3)%nat then String "," (String c (group_rev 1 r)) else String c (group_rev (S n) r)
  end.
Definition group3 (digits : string) : string := srev (group_rev 0 (srev digits)).
(** The fraction with at least [min] and at most [max] digits. *)
Definition fraction_text (min max : nat) (units : Z) : string :=
  let f := pad_end (drop_while_end (Ascii.eqb "0") (pad_start (dec (units mod 10 ^ Z.of_nat max)) max "0")) min "0" in
  if String.eqb f "" then "" else "." +:+ f.
(** [style: "currency", currency: "USD"] *)
Definition currency_text (max : nat) (n : number) : string :=
  let u := units_at (Z.of_nat max) n in
  (if is_negative n then "-" else "") +:+ "$" +:+ group3 (dec (u / 10 ^ Z.of_nat max)) +:+ fraction_text 2 max u.

(** [notation: "compact", maximumFractionDigits: 1]: the first unit under which
    the rounded number has at most three digits before the point. *)
Definition scaled_down (e : Z) (n : number) : number :=
  match n with
  | NInt z => NDec z (Z.to_pos e)
  | NDec m k => NDec m (k + Z.to_pos e)
  end.
Definition tenths (e : Z) (n : number) : Z := if e =? 0 then units_at 1 n else units_at 1 (scaled_down e n).
Fixpoint compact_with (units : list (Z * string)) (n : number) : Z * string :=
  match units with
  | [] => (tenths 12 n, "T")
  | (e, suffix) :: rest => if tenths e n <? 10000 then (tenths e n, suffix) else compact_with rest n
  end.
Definition compact_text (n : number) : string :=
  let '(t, suffix) := compact_with [(0, ""); (3, "K"); (6, "M"); (9, "B")] n in
  dec (t / 10) +:+ fraction_text 0 1 t +:+ suffix.
Definition compact (n : number) : string := (if is_negative n then "-" else "") +:+ compact_text n.

(** [Number(value)] of a text or a number; [None] is NaN. *)
Definition Number (value : string + number) : option number :=
  match value with inl s => number_of_text s | inr n => Some n end.
Definition formatUsd (value : string + number) (compact : bool) : string :=
  match Number value with
  | None => "$0.00"
  | Some n =>
      if compact && negb (is_negative n) && (10000 * 10 ^ num_scale n <=? num_mant n) then "$" +:+ compact_text n
      else
        let digits := if negb (num_is_zero n) && (num_mant n * 100 <? 10 ^ num_scale n) then 6%nat else 2%nat in
        currency_text digits n
  end.
Definition usd (s : string) : string := formatUsd (inl s) false.

(** [s.charAt(0).toUpperCase() + s.slice(1)] *)
Definition cap (s : string) : string := to_upper (slice_to 1 s) +:+ slice_from 1 s.
(** The cell writer of the pages: quotes what holds a quote, a comma or a line
    feed, with its quotes doubled. *)
Definition csv (value : string) : string :=
  if sforall (fun c => negb (cell_break c)) value then value
  else String dquote (double_quotes value +:+ String dquote "").

Example usd_texts :
  map usd ["0"; "12.5"; "1234567.891"; "0.000012"; "0.0099"; "x"; "-3"] =
    ["$0.00"; "$12.50"; "$1,234,567.89"; "$0.000012"; "$0.0099"; "$0.00"; "-$3.00"] /\
  map (fun s => formatUsd (inl s) true) ["9999.99"; "12345"; "999949"; "999950"; "20000000"] =
    ["$9,999.99"; "$12.3K"; "$999.9K"; "$1M"; "$20M"] /\
  map compact [NInt 999; NInt 1000; NInt 1250; NInt 1000000] = ["999"; "1K"; "1.3K"; "1M"].
Proof. vm_compute. split_and!; reflexivity. Qed.
