(* ===== verification/WebKeys.v ===== *)
(** * apps/web/src/features/keys/KeysPage.tsx

    The list of virtual keys, the modal that issues one and shows its token
    once, and the modal that edits one. *)

From S2P Require Import Prelude JsString JsNum JsDate Json Shared Auth Gateway Zod WebClient WebEndpoints.
From S2P Require Import ApiDb ApiKeys ApiMembers WebUi.
From Stdlib Require Import Ascii.

Definition key_status_text (s : KeyStatus) : string :=
  match s with KEY_ACTIVE => "ACTIVE" | KEY_REVOKED => "REVOKED" | KEY_EXPIRED => "EXPIRED" end.
(** Active credentials, each by provider and name. *)
Definition credentialOptions (credentials : Query (list CredView)) : list (string * string) :=
  options_of cv_id (fun c => provider_text (cv_provider c) +:+ " · " +:+ cv_name c)
    (List.filter cv_active (q_rows credentials)).

(** ** IssueKeyModal *)
(** [open]: the page's [issueOpen]. *)
Record IssueState := mkIssueState {
  im_open : bool; issuedKey : option string; acknowledged : bool; im_issue : Mutation Values }.
Inductive IssueEvent :=
| IssueCancel
| IssueAcknowledge (checked : bool)
| IssueDone
| IssueFinish (values : Values)
| IssueSettled (run : nat) (answer : Answer (KeyView * string)).
Definition issue_fields (projects : Query (list Project)) (members : Query (list MemberView))
    (credentials : Query (list CredView)) : list Field :=
  [ choice_field "projectId" "Project" [Required] (options_of p_id p_name (q_rows projects)) false VUndef;
    choice_field "userId" "Assign to member" []
      (options_of mv_id (fun m => mv_name m +:+ " (" +:+ mv_email m +:+ ")") (q_rows members)) true VUndef;
    mkField "credentialAllowlist" "Restrict to credentials (optional)" [] (Choices (credentialOptions credentials)) VUndef false;
    text_field "name" "Key name" [Required] VUndef ].
Definition issueKey_caller (ws : string) (values : Values) : Caller := CWs (wsApi_issueKey ws (JObj (spread values))).
(** [if (!issuedKey || acknowledged)] *)
Definition may_close (s : IssueState) : bool := bool_decide (if_truthy (issuedKey s) = None) || acknowledged s.
Definition IssueKeyModal (projects : Query (list Project)) (members : Query (list MemberView))
    (credentials : Query (list CredView)) (s : IssueState) : Node IssueEvent :=
  Modal (if if_truthy (issuedKey s) then "Key issued" else "Issue a virtual key") (im_open s) (Some IssueCancel)
    match if_truthy (issuedKey s) with
    | Some token =>
        [ Alert "warning" "Copy this key now — it will not be shown again." None;
          CopyField token;
          Checkbox "I've stored this key somewhere safe" (acknowledged s) IssueAcknowledge;
          Button "Done" (negb (acknowledged s)) false IssueDone ]
    | None => [ Form (issue_fields projects members credentials) "Issue key" (isPending (im_issue s)) IssueFinish ]
    end.
Definition close_issue (s : IssueState) : IssueState * list Effect :=
  (mkIssueState false None false (im_issue s), [ResetFields]).
Definition IssueKeyModal_on (ws : string) (e : IssueEvent) (s : IssueState) : IssueState * list Effect :=
  match e with
  | IssueCancel => if may_close s then close_issue s else (s, [])
  | IssueAcknowledge checked => (mkIssueState (im_open s) (issuedKey s) checked (im_issue s), [])
  | IssueDone => close_issue s
  | IssueFinish values =>
      (mkIssueState (im_open s) (issuedKey s) (acknowledged s) (mutate values (im_issue s)), [Ask (issueKey_caller ws values)])
  | IssueSettled run answer =>
      let issue := settle_run run (im_issue s) in
      match answer with
      | Ok created => (mkIssueState (im_open s) (Some created.2) (acknowledged s) issue, [InvalidateQueries [ws; "keys"]])
      | Throw _ => (mkIssueState (im_open s) (issuedKey s) (acknowledged s) issue, [])
      end
  end.

(** ** EditKeyModal *)
(** [vkey]: the page's [editing]. *)
Record EditState := mkEditState { vkey : option KeyView; ek_error : option string; ek_update : Mutation Values }.
Inductive EditEvent :=
| EditClose
| EditFinish (values : Values)
| EditSettled (run : nat) (answer : Answer KeyView).
(** The form, seeded with the key that is edited. *)
Definition edit_fields (credentials : Query (list CredView)) (k : KeyView) : list Field :=
  [ text_field "name" "Key name" [Required] (VStr (kv_name k));
    mkField "credentialAllowlist" "Restrict to credentials (optional)" [] (Choices (credentialOptions credentials))
      (VList (kv_credentialAllowlist k)) false;
    mkField "rpmLimit" "Rate limit (requests/minute, optional)" [] (NumberInput 1 false)
      match kv_rpmLimit k with Some n => VNum (NInt n) | None => VNull end false;
    mkField "expiresAt" "Expires (optional)" [] DateInput
      match kv_expiresAt k with Some t => VDate t | None => VUndef end false ].
Definition updateKey_caller (ws : string) (k : KeyView) (values : Values) : Caller :=
  CWs (wsApi_updateKey ws (kv_id k) (JObj (
    entry "name" (val values "name")
    ++ entry "credentialAllowlist" (or_empty (val values "credentialAllowlist"))
    ++ entry "rpmLimit" (or_null (val values "rpmLimit"))
    ++ entry "expiresAt" (match val values "expiresAt" with VDate t => VDate t | _ => VNull end)))).
Definition EditKeyModal (credentials : Query (list CredView)) (s : EditState) : list (Node EditEvent) :=
  for_some (vkey s) (fun k =>
    [ Modal "Edit virtual key" true (Some EditClose)
        (for_some (if_truthy (ek_error s)) (fun m => [Alert "error" m None]) []
         ++ [ Form (edit_fields credentials k) "Save changes" (isPending (ek_update s)) EditFinish ]) ]) [].
(** [onSaved]: the page reloads the keys and closes the modal. *)
Definition EditKeyModal_on (ws : string) (e : EditEvent) (s : EditState) : EditState * list Effect :=
  match e with
  | EditClose => (mkEditState None (ek_error s) (ek_update s), [])
  | EditFinish values =>
      match vkey s with
      | Some k => (mkEditState (vkey s) (ek_error s) (mutate values (ek_update s)), [Ask (updateKey_caller ws k values)])
      | None => (s, [])
      end
  | EditSettled run answer =>
      let update := settle_run run (ek_update s) in
      match answer with
      | Ok _ => (mkEditState None None update, [InvalidateQueries [ws; "keys"]])
      | Throw err => (mkEditState (vkey s) (Some (error_text "Failed to save" err)) update, [])
      end
  end.

(** ** KeysPage *)
Record KeysState := mkKeysState { ks_issue : IssueState; ks_edit : EditState; ks_revoke : Mutation string }.
Definition KeysPage_initial : KeysState :=
  mkKeysState (mkIssueState false None false idle_mutation) (mkEditState None None idle_mutation) idle_mutation.
Inductive KeysEvent :=
| OpenIssue
| EditKey (k : KeyView)
| RevokeKey (id : string)
| RevokeSettled (run : nat) (answer : Answer unit)
| InIssue (e : IssueEvent)
| InEdit (e : EditEvent).
(** What the page's queries hold. *)
Record KeysData := mkKeysData {
  kd_keys : Query (list KeyView); kd_members : Query (list MemberView);
  kd_projects : Query (list Project); kd_credentials : Query (list CredView) }.

Section keys_page.
(** dayjs's [format], in the browser's time zone. *)
Context (format : Z -> string -> string).
(** [new Map(members.map((m) => [m.id, m.name])).get(id)] *)
Definition memberName (members : list MemberView) (id : string) : option string :=
  mv_name <$> List.find (fun m => String.eqb (mv_id m) id) (rev members).
Definition status_color (s : KeyStatus) : string :=
  match s with KEY_ACTIVE => "green" | KEY_REVOKED => "red" | KEY_EXPIRED => "orange" end.
Definition key_row (members : list MemberView) (k : KeyView) : list (Node KeysEvent) :=
  [ Text (kv_name k);
    Text (memberName members (kv_userId k) ?? "—");
    Text ("tt_live_…" +:+ kv_keyLast4 k);
    Tag (status_color (kv_status k)) (key_status_text (kv_status k));
    Text (match kv_lastUsedAt k with Some t => format t "MMM D, HH:mm" | None => "never" end);
    Text (format (kv_createdAt k) "MMM D, YYYY") ]
  ++ when (bool_decide (kv_status k = KEY_ACTIVE))
       [ Button "Edit" false false (EditKey k);
         Popconfirm "Revoke this key?" (Some "Requests using it will fail within 5 seconds.") "Revoke" false
           (RevokeKey (kv_id k)) ].
Definition KeysPage (d : KeysData) (s : KeysState) : list (Node KeysEvent) :=
  [ Box "Virtual keys"
      [ Button "Issue key" false false OpenIssue;
        DataTable ["Name"; "Assigned to"; "Key"; "Status"; "Last used"; "Created"; ""] (q_isLoading (kd_keys d))
          (map (key_row (q_rows (kd_members d))) (q_rows (kd_keys d))) ];
    lift InIssue (IssueKeyModal (kd_projects d) (kd_members d) (kd_credentials d) (ks_issue s)) ]
  ++ map (lift InEdit) (EditKeyModal (kd_credentials d) (ks_edit s)).
End keys_page.
Definition KeysPage_on (ws : string) (e : KeysEvent) (s : KeysState) : KeysState * list Effect :=
  match e with
  | OpenIssue =>
      let i := ks_issue s in
      (mkKeysState (mkIssueState true (issuedKey i) (acknowledged i) (im_issue i)) (ks_edit s) (ks_revoke s), [])
  | EditKey k => (mkKeysState (ks_issue s) (mkEditState (Some k) None (ek_update (ks_edit s))) (ks_revoke s), [])
  | RevokeKey id => (mkKeysState (ks_issue s) (ks_edit s) (mutate id (ks_revoke s)), [Ask (CWs (wsApi_revokeKey ws id))])
  | RevokeSettled run answer =>
      (mkKeysState (ks_issue s) (ks_edit s) (settle_run run (ks_revoke s)),
       match answer with Ok _ => [InvalidateQueries [ws; "keys"]] | Throw _ => [] end)
  | InIssue e => let '(i, fx) := IssueKeyModal_on ws e (ks_issue s) in (mkKeysState i (ks_edit s) (ks_revoke s), fx)
  | InEdit e => let '(x, fx) := EditKeyModal_on ws e (ks_edit s) in (mkKeysState (ks_issue s) x (ks_revoke s), fx)
  end.

(** ** The token of an issued key *)
Section issued.
Context (email url : string -> bool) (format : Z -> string -> string) (ws : string).
(** What may happen to the page: the user does what the rendered page offers, or
    a call that is under way is answered. *)
Definition may_happen (d : KeysData) (s : KeysState) (e : KeysEvent) : Prop :=
  match e with
  | InIssue (IssueSettled run answer) =>
      isPending (im_issue (ks_issue s)) = true /\ run = mu_run (im_issue (ks_issue s)) /\
      match answer with Ok created => created.2 <> "" | Throw _ => True end
  | InEdit (EditSettled _ _) | RevokeSettled _ _ => True
  | _ => offered email url (KeysPage format d s) e
  end.
Inductive happens : KeysState -> list KeysEvent -> KeysState -> Prop :=
| happens_nil s : happens s [] s
| happens_cons d s e es s' :
    may_happen d s e -> happens (KeysPage_on ws e s).1 es s' -> happens s (e :: es) s'.

Lemma page_offers_issue d s e :
  offered email url (KeysPage format d s) (InIssue e) ->
  offers email url (IssueKeyModal (kd_projects d) (kd_members d) (kd_credentials d) (ks_issue s)) e.
Proof.
  unfold KeysPage. rewrite offered_app, !offered_cons, offered_nil, offers_lift, offered_lift, offers_box, !offered_cons, offered_nil.
  rewrite offers_table. intros [[[(_ & _ & ?)|[(row & (k & -> & _)%list_elem_of_fmap & Hrow)|[]]]|[(e0 & [= <-] & H)|[]]]|(e0 & ? & _)];
    [done| |done|done].
  unfold key_row in Hrow. rewrite offered_app, offered_when, !offered_cons, offered_nil in Hrow. cbn in Hrow. naive_solver.
Qed.
(** Without a token the modal is its form, with one it is the token and the
    checkbox that enables "Done". *)
Lemma modal_offers d s e :
  offers email url (IssueKeyModal (kd_projects d) (kd_members d) (kd_credentials d) s) e ->
  e = IssueCancel \/
  match if_truthy (issuedKey s) with
  | Some _ => e = IssueAcknowledge (negb (acknowledged s)) \/ acknowledged s = true /\ e = IssueDone
  | None => isPending (im_issue s) = false /\ exists values, e = IssueFinish values
  end.
Proof.
  unfold IssueKeyModal. rewrite offers_modal. intros [_ [[= <-]|H]]; [by left|right].
  destruct (if_truthy (issuedKey s)); rewrite !offered_cons, offered_nil in H; cbn [offers] in H.
  - destruct H as [[]|[[]|[H|[(H & _ & ->)|[]]]]]; [by left|right]. by apply negb_false_iff in H.
  - destruct H as [(Hp & vs & _ & ->)|[]]. split; [done|by exists vs].
Qed.
(** A call is under way only while the form is shown. *)
Definition issue_ok (s : IssueState) : Prop :=
  (isPending (im_issue s) = true -> issuedKey s = None) /\ (issuedKey s = None -> acknowledged s = false) /\
  issuedKey s <> Some "".
Definition holds_key (token : string) (s : IssueState) : Prop :=
  issuedKey s = Some token /\ acknowledged s = false /\ isPending (im_issue s) = false.
Lemma if_truthy_ok s : issue_ok s -> if_truthy (issuedKey s) = issuedKey s.
Proof. intros (_ & _ & H). by destruct (issuedKey s) as [[|c t]|]. Qed.
(** Which events the modal can get, by what it shows. *)
Lemma issue_events d s e :
  issue_ok (ks_issue s) -> may_happen d s (InIssue e) ->
  match e with
  | IssueCancel => True
  | IssueAcknowledge b => issuedKey (ks_issue s) <> None /\ b = negb (acknowledged (ks_issue s))
  | IssueDone => issuedKey (ks_issue s) <> None /\ acknowledged (ks_issue s) = true
  | IssueFinish _ => issuedKey (ks_issue s) = None
  | IssueSettled run answer =>
      isPending (im_issue (ks_issue s)) = true /\ run = mu_run (im_issue (ks_issue s)) /\
      match answer with Ok created => created.2 <> "" | Throw _ => True end
  end.
Proof.
  intros Hok He. pose proof (if_truthy_ok _ Hok) as Ht. destruct e; try done;
    apply page_offers_issue, modal_offers in He as [?|He]; try done; rewrite Ht in He;
    destruct (issuedKey (ks_issue s)); naive_solver.
Qed.
Lemma issue_ok_step d s e : may_happen d s e -> issue_ok (ks_issue s) -> issue_ok (ks_issue (KeysPage_on ws e s).1).
Proof.
  intros He Hs. destruct e as [| | | |e|e]; try exact Hs; [|cbn; by destruct (EditKeyModal_on ws e (ks_edit s))].
  pose proof (issue_events _ _ _ Hs He) as Hev. clear He. destruct s as [[o k a m] x r], Hs as (Hp & Hk & Hne). cbn in *.
  destruct e as [|b| |vs|run [created|err]]; cbn -[may_close].
  - by destruct (may_close _).
  - by destruct Hev.
  - by split_and!.
  - subst k. split_and!; auto.
  - destruct Hev as (_ & -> & Hc). unfold settle_run. rewrite Nat.eqb_refl. split_and!; [done|done|]. cbn. congruence.
  - destruct Hev as (_ & -> & _). unfold settle_run. rewrite Nat.eqb_refl. by split_and!.
Qed.
Lemma holds_key_step token d s e :
  may_happen d s e -> issue_ok (ks_issue s) -> holds_key token (ks_issue s) -> e <> InIssue (IssueAcknowledge true) ->
  holds_key token (ks_issue (KeysPage_on ws e s).1).
Proof.
  intros He Hs Hh Hne. destruct e as [| | | |e|e]; try exact Hh; [|cbn; by destruct (EditKeyModal_on ws e (ks_edit s))].
  pose proof (issue_events _ _ _ Hs He) as Hev. pose proof (if_truthy_ok _ Hs) as Ht. clear He Hs.
  destruct s as [[o k a m] x r], Hh as (Hk & Ha & Hp). cbn -[if_truthy] in *. subst k a.
  destruct e as [|b| |vs|run answer]; cbn -[may_close if_truthy]; try naive_solver.
  - unfold may_close. cbn -[if_truthy]. by rewrite Ht.
  - destruct Hev as (? & _). congruence.
Qed.
Lemma issue_ok_happens s es s' : happens s es s' -> issue_ok (ks_issue s) -> issue_ok (ks_issue s').
Proof. intros Hh. induction Hh; eauto using issue_ok_step. Qed.
Lemma happens_app s es es' s' : happens s (es ++ es') s' -> exists s1, happens s es s1 /\ happens s1 es' s'.
Proof.
  revert s. induction es as [|e es IH]; intros s H; [exists s; split; [constructor|done]|].
  inversion H as [|d ? ? ? ? He Hr]; subst. apply IH in Hr as (s1 & H1 & H2). exists s1. split; [by econstructor|done].
Qed.
Lemma holds_key_happens token s es s' :
  happens s es s' -> issue_ok (ks_issue s) -> holds_key token (ks_issue s) -> InIssue (IssueAcknowledge true) ∉ es ->
  holds_key token (ks_issue s').
Proof.
  intros Hh. induction Hh as [|d s e es s' He _ IH]; [done|]. intros Hs Hk [Hne Hes]%not_elem_of_cons.
  apply IH; eauto using issue_ok_step. by eapply holds_key_step.
Qed.

(** The token of an issued key, which the API never shows again, stays until
    the user says it is stored: on the keys page, whatever is clicked and
    whichever calls are answered after the answer that carries it, as long as
    the checkbox has not been ticked the modal, now or when it is next opened,
    shows this token to copy and can be closed neither by Done nor by Cancel. *)
Theorem issued_key_stays_shown d es1 run view token es2 s e :
  happens KeysPage_initial (es1 ++ InIssue (IssueSettled run (Ok (view, token))) :: es2) s ->
  InIssue (IssueAcknowledge true) ∉ es2 ->
  issuedKey (ks_issue s) = Some token /\
  (exists title cancel children,
     IssueKeyModal (kd_projects d) (kd_members d) (kd_credentials d) (ks_issue s)
       = Modal title (im_open (ks_issue s)) cancel children /\ CopyField token ∈ children) /\
  (may_happen d s (InIssue e) -> e <> IssueAcknowledge true -> (KeysPage_on ws (InIssue e) s).1 = s).
Proof.
  intros (s1 & H1 & H2)%happens_app Hes. inversion H2 as [|d1 ? ? ? ? He Hr]; subst.
  assert (issue_ok (ks_issue KeysPage_initial)) as H0 by done.
  pose proof (issue_ok_happens _ _ _ H1 H0) as Hok1. pose proof (issue_ok_step _ _ _ He Hok1) as Hok2.
  assert (holds_key token (ks_issue (KeysPage_on ws (InIssue (IssueSettled run (Ok (view, token)))) s1).1)) as Hk.
  { destruct He as (Hp & -> & _). destruct Hok1 as (Hnone & Hack & _). destruct s1 as [i x r]. cbn in *.
    unfold settle_run. rewrite Nat.eqb_refl. split_and!; auto. }
  pose proof (issue_ok_happens _ _ _ Hr Hok2) as Hok. pose proof (if_truthy_ok _ Hok) as Ht.
  destruct (holds_key_happens token _ _ _ Hr Hok2 Hk Hes) as (Hkey & Hack & Hpend). split_and!; [done| |].
  - unfold IssueKeyModal. rewrite Ht, Hkey. do 3 eexists. split; [reflexivity|]. set_solver.
  - intros Hev Hne. pose proof (issue_events _ _ _ Hok Hev) as Hm. rewrite Hkey, Hack, Hpend in Hm.
    assert (e = IssueCancel) as -> by (destruct e; naive_solver).
    destruct s as [[o k a m] x r]. cbn -[if_truthy] in *. unfold may_close. cbn -[if_truthy]. rewrite Ht. by subst.
Qed.
End issued.

(** A key is issued, the modal is cancelled and opened again. *)
Definition demo_data : KeysData :=
  mkKeysData (mkQuery (Some []) false false) (mkQuery (Some []) false false)
    (mkQuery (Some [mkProject "p1" "w1" None "Project" "project" None [] true 0]) false false) (mkQuery (Some []) false false).
Definition demo_values : Values :=
  [("projectId", VStr "p1"); ("userId", VUndef); ("credentialAllowlist", VUndef); ("name", VStr "ci")].
Definition demo_view : KeyView :=
  keySelect (mkVirtualKey "k1" "w1" "p1" "u1" "ci" "hash" "aaaa" [] [] [] None None KEY_ACTIVE None 0).
Lemma issued_key_stays_shown_witness :
  exists s, issuedKey (ks_issue s) = Some "tl_live_x" /\
    happens (fun _ => true) (fun _ => true) (fun _ _ => "") "one" KeysPage_initial
      ([OpenIssue; InIssue (IssueFinish demo_values)] ++ InIssue (IssueSettled 1 (Ok (demo_view, "tl_live_x")))
        :: [InIssue IssueCancel; OpenIssue]) s.
Proof.
  match goal with |- exists s, _ /\ happens ?em ?ur ?f ?ws ?s0 ?es s =>
    set (fin := fold_left (fun s e => (KeysPage_on ws e s).1) es s0);
    assert (happens em ur f ws s0 es fin) as Hrun end.
  { apply (happens_cons _ _ _ _ demo_data).
    { eexists. split; [by left|]. cbn. by left. }
    apply (happens_cons _ _ _ _ demo_data).
    { eexists. split; [by right; left|]. cbn. split; [done|]. right. left. split; [done|]. exists demo_values. split; [|reflexivity].
      repeat (apply Forall2_cons; split; [split; [done|]; split; [|done]|]); [| | | |constructor].
      - right. split; [done|]. cbn. by left.
      - by left.
      - by left.
      - by right. }
    apply (happens_cons _ _ _ _ demo_data); [done|].
    apply (happens_cons _ _ _ _ demo_data).
    { eexists. split; [by right; left|]. cbn. split; [done|]. by left. }
    apply (happens_cons _ _ _ _ demo_data).
    { eexists. split; [by left|]. cbn. by left. }
    constructor. }
  exists fin. split; [|exact Hrun].
  refine (proj1 (issued_key_stays_shown _ _ _ _ demo_data _ _ _ _ _ _ IssueCancel Hrun _)).
  cbn. set_solver.
Defined.
