(* ===== verification/WebMembers.v ===== *)
(** * apps/web: members and invitations

    features/members/MembersPage.tsx (roles, removal, pending invitations, the
    modal that invites) and AcceptInvitePage.tsx. *)

From S2P Require Import Prelude JsString JsNum JsDate Json Shared Auth Gateway Zod WebClient WebEndpoints.
From S2P Require Import ApiDb ApiMembers WebUi.
From Stdlib Require Import Ascii.

Definition ROLE_COLORS (r : WorkspaceRole) : string :=
  match r with OWNER => "gold" | ADMIN => "geekblue" | MEMBER => "default" | VIEWER => "purple" end.
Definition mutationError (err : CallOutcome) (fallback : string) : string := error_text fallback err.
(** [auth.memberships.find((m) => m.workspace.slug === ws)?.role ?? "VIEWER"] *)
Definition viewerRole (memberships : list Membership) (ws : string) : string :=
  (ms_role <$> List.find (fun m => String.eqb (ms_slug m) ws) memberships) ?? "VIEWER".
Definition isViewerAdmin (role : string) : bool := String.eqb role "ADMIN" || String.eqb role "OWNER".

(** ** InviteModal *)
Record InviteState := mkInviteState {
  iw_open : bool; iw_error : option string; iw_link : option (string * string); iw_invite : Mutation Values }.
Inductive InviteEvent :=
| InviteClose
| InviteAnother
| InviteFinish (values : Values)
| InviteSettled (run : nat) (values : Values) (answer : Answer (InvitationView * string)).
Definition invite_fields : list Field :=
  [ text_field "email" "Email" [Required; IsEmail] VUndef;
    choice_field "role" "Role" [Required]
      [ ("ADMIN", "Admin — manage everything but billing"); ("MEMBER", "Member — issue keys, see own usage");
        ("VIEWER", "Viewer — read-only analytics") ] false (VStr "MEMBER") ].
Definition invite_caller (ws : string) (values : Values) : Caller := CMembers (membersApi_invite ws (JObj (spread values))).
Definition InviteModal (s : InviteState) : Node InviteEvent :=
  Modal "Invite a teammate" (iw_open s) (Some InviteClose)
    match iw_link s with
    | Some (email, url) =>
        [ Alert "success" ("Invitation created for " +:+ email)
            (Some "Share this link with them — it works even without email, and is valid for 7 days.");
          CopyField url;
          Button "Invite another" false false InviteAnother;
          Button "Done" false false InviteClose ]
    | None =>
        for_some (if_truthy (iw_error s)) (fun m => [Alert "error" m None]) []
        ++ [ Form invite_fields "Send invitation" (isPending (iw_invite s)) InviteFinish;
             Text "An email is sent if SMTP is configured; either way you'll get a copyable invite link next." ]
    end.
Definition InviteModal_on (ws : string) (e : InviteEvent) (s : InviteState) : InviteState * list Effect :=
  match e with
  | InviteClose => (mkInviteState false None None (iw_invite s), [])
  | InviteAnother => (mkInviteState (iw_open s) (iw_error s) None (iw_invite s), [])
  | InviteFinish values =>
      (mkInviteState (iw_open s) (iw_error s) (iw_link s) (mutate values (iw_invite s)), [Ask (invite_caller ws values)])
  | InviteSettled run values answer =>
      let invite := settle_run run (iw_invite s) in
      match answer with
      | Ok created =>
          (mkInviteState (iw_open s) None (Some (text_of (val values "email") ?? "", created.2)) invite,
           [ResetFields; InvalidateQueries [ws; "invitations"]])
      | Throw err => (mkInviteState (iw_open s) (Some (error_text "Failed to send invite" err)) (iw_link s) invite, [])
      end
  end.

(** ** MembersPage *)
(** The roles the page hands out. *)
Definition role_options : list (string * string) := [("ADMIN", "ADMIN"); ("MEMBER", "MEMBER"); ("VIEWER", "VIEWER")].
Record MembersState := mkMembersState {
  mp_invite : InviteState; mp_reissued : option (string * string); mp_revoke : Mutation string;
  mp_getLink : Mutation string; mp_updateRole : Mutation (string * string); mp_removeMember : Mutation string }.
Definition MembersPage_initial : MembersState :=
  mkMembersState (mkInviteState false None None idle_mutation) None idle_mutation idle_mutation idle_mutation idle_mutation.
Inductive MembersEvent :=
| OpenInvite
| ChangeRole (userId role : string)
| RoleSettled (run : nat) (answer : Answer unit)
| RemoveMember (userId : string)
| RemoveSettled (run : nat) (answer : Answer unit)
| GetLink (id : string)
| LinkSettled (run : nat) (answer : Answer (InvitationView * string))
| Copied (ok : bool) (email url : string)
| RevokeInvite (id : string)
| RevokeInviteSettled (run : nat) (answer : Answer unit)
| CloseReissued
| InInvite (e : InviteEvent).
(** Who looks at the page: the role of their membership and their id. *)
Record Viewer := mkViewer { vw_role : string; vw_id : option string }.
Record MembersData := mkMembersData { md_members : Query (list MemberView); md_invitations : Query (list InvitationView) }.
Definition is_viewer (v : Viewer) (row : MemberView) : bool := bool_decide (Some (mv_id row) = vw_id v).
Definition role_cell (v : Viewer) (s : MembersState) (row : MemberView) : Node MembersEvent :=
  if negb (isViewerAdmin (vw_role v)) || bool_decide (mv_role row = OWNER) || is_viewer v row
  then Tag (ROLE_COLORS (mv_role row)) (role_text (mv_role row))
  else
    let editing := isPending (mp_updateRole s) && bool_decide (fst <$> variables (mp_updateRole s) = Some (mv_id row)) in
    Select (Some (role_text (mv_role row))) role_options false editing (fun next => ChangeRole (mv_id row) (next ?? "")).
Definition actions_cell (v : Viewer) (s : MembersState) (row : MemberView) : list (Node MembersEvent) :=
  if negb (is_viewer v row) && negb (isViewerAdmin (vw_role v)) then []
  else if bool_decide (mv_role row = OWNER) then [ Button "Remove" true false (RemoveMember (mv_id row)) ]
  else
    [ Popconfirm
        (if is_viewer v row then "Leave this workspace?" else "Remove " +:+ mv_name row +:+ " from the workspace?")
        (Some (if is_viewer v row then "You'll need a fresh invite to rejoin."
               else "Their projects and keys remain; they just lose access."))
        (if is_viewer v row then "Leave workspace" else "Remove")
        (isPending (mp_removeMember s) && bool_decide (variables (mp_removeMember s) = Some (mv_id row)))
        (RemoveMember (mv_id row)) ].
Section members_page.
Context (format : Z -> string -> string).
Definition member_row (v : Viewer) (s : MembersState) (row : MemberView) : list (Node MembersEvent) :=
  [ Text (mv_name row); Text (mv_email row); role_cell v s row; Text (format (mv_joinedAt row) "MMM D, YYYY") ]
  ++ actions_cell v s row.
Definition invitation_row (s : MembersState) (i : InvitationView) : list (Node MembersEvent) :=
  [ Text (iv_email i); Tag "" (role_text (iv_role i)); Text (format (iv_expiresAt i) "MMM D, YYYY");
    Button "Copy invite link" false (isPending (mp_getLink s) && bool_decide (variables (mp_getLink s) = Some (iv_id i)))
      (GetLink (iv_id i));
    Popconfirm "Revoke this invitation?" None "Revoke" false (RevokeInvite (iv_id i)) ].
Definition MembersPage (v : Viewer) (d : MembersData) (s : MembersState) : list (Node MembersEvent) :=
  [ PageHeader "Workspace" "Members" [ Button "Invite" false false OpenInvite ];
    DataTable ["Name"; "Email"; "Role"; "Joined"; ""] (q_isLoading (md_members d))
      (map (member_row v s) (q_rows (md_members d))) ]
  ++ when (0 <? length (q_rows (md_invitations d)))%nat
       [ Box "Pending invitations"
           [ DataTable ["Email"; "Role"; "Expires"; ""] false (map (invitation_row s) (q_rows (md_invitations d))) ] ]
  ++ [ lift InInvite (InviteModal (mp_invite s));
       Modal "Invitation link" (bool_decide (is_Some (mp_reissued s))) (Some CloseReissued)
         (for_some (mp_reissued s) (fun r =>
            [ Alert "info" ("Fresh link for " +:+ r.1)
                (Some "A new link was generated — any previously shared link for this invite no longer works. Valid for the remainder of the 7-day window.");
              CopyField r.2 ]) []
          ++ [ Button "Done" false false CloseReissued ]) ].
End members_page.
Definition set_mp_invite i s := mkMembersState i (mp_reissued s) (mp_revoke s) (mp_getLink s) (mp_updateRole s) (mp_removeMember s).
Definition set_mp_reissued r s := mkMembersState (mp_invite s) r (mp_revoke s) (mp_getLink s) (mp_updateRole s) (mp_removeMember s).
Definition set_mp_revoke m s := mkMembersState (mp_invite s) (mp_reissued s) m (mp_getLink s) (mp_updateRole s) (mp_removeMember s).
Definition set_mp_getLink m s := mkMembersState (mp_invite s) (mp_reissued s) (mp_revoke s) m (mp_updateRole s) (mp_removeMember s).
Definition set_mp_updateRole m s := mkMembersState (mp_invite s) (mp_reissued s) (mp_revoke s) (mp_getLink s) m (mp_removeMember s).
Definition set_mp_removeMember m s := mkMembersState (mp_invite s) (mp_reissued s) (mp_revoke s) (mp_getLink s) (mp_updateRole s) m.
Definition updateMember_caller (ws userId role : string) : Caller :=
  CMembers (membersApi_updateMember ws userId (JObj [("role", JStr role)])).
Definition removeMember_caller (ws userId : string) : Caller := CMembers (membersApi_removeMember ws userId).
Definition MembersPage_on (ws : string) (e : MembersEvent) (s : MembersState) : MembersState * list Effect :=
  match e with
  | OpenInvite => (set_mp_invite (let i := mp_invite s in mkInviteState true (iw_error i) (iw_link i) (iw_invite i)) s, [])
  | ChangeRole userId role => (set_mp_updateRole (mutate (userId, role) (mp_updateRole s)) s, [Ask (updateMember_caller ws userId role)])
  | RoleSettled run answer =>
      (set_mp_updateRole (settle_run run (mp_updateRole s)) s,
       match answer with
       | Ok _ => [InvalidateQueries [ws; "members"]]
       | Throw err => [ShowMessage "error" (mutationError err "Couldn't update role")]
       end)
  | RemoveMember userId => (set_mp_removeMember (mutate userId (mp_removeMember s)) s, [Ask (removeMember_caller ws userId)])
  | RemoveSettled run answer =>
      (set_mp_removeMember (settle_run run (mp_removeMember s)) s,
       match answer with
       | Ok _ => [InvalidateQueries [ws; "members"]; ReloadMemberships]
       | Throw err => [ShowMessage "error" (mutationError err "Couldn't remove member")]
       end)
  | GetLink id => (set_mp_getLink (mutate id (mp_getLink s)) s, [Ask (CMembers (membersApi_inviteLink ws id))])
  | LinkSettled run answer =>
      (set_mp_getLink (settle_run run (mp_getLink s)) s,
       match answer with
       | Ok res => [WriteClipboard res.2]
       | Throw _ => [ShowMessage "error" "Couldn't generate invite link"]
       end)
  | Copied true email _ => (s, [ShowMessage "success" ("Invite link copied for " +:+ email)])
  | Copied false email url => (set_mp_reissued (Some (email, url)) s, [])
  | RevokeInvite id => (set_mp_revoke (mutate id (mp_revoke s)) s, [Ask (CMembers (membersApi_revokeInvite ws id))])
  | RevokeInviteSettled run answer =>
      (set_mp_revoke (settle_run run (mp_revoke s)) s,
       match answer with Ok _ => [InvalidateQueries [ws; "invitations"]] | Throw _ => [] end)
  | CloseReissued => (set_mp_reissued None s, [])
  | InInvite e => let '(i, fx) := InviteModal_on ws e (mp_invite s) in (set_mp_invite i s, fx)
  end.

(** ** AcceptInvitePage *)
Record AcceptState := mkAcceptState { ap_error : option string; ap_accept : Mutation Values }.
Inductive AcceptEvent :=
| AcceptFinish (values : Values)          (** [accept.mutate({})] where the account exists *)
| AcceptSettled (run : nat) (answer : Answer string).   (** the slug of the workspace joined *)
Definition accept_fields : list Field :=
  [ text_field "name" "Your name" [Required] VUndef; text_field "password" "Choose a password" [Required; MinLength 8] VUndef ].
Definition accept_caller (token : string) (values : Values) : Caller := CInvite (inviteApi_accept token (JObj (spread values))).
Definition AcceptInvitePage (invite : Query InvitationInfo) (s : AcceptState) : list (Node AcceptEvent) :=
  when (q_isLoading invite) [Spin]
  ++ when (q_isError invite)
       [ Alert "warning" "Invitation not valid" (Some "This invitation link is invalid, expired, or already used.") ]
  ++ for_some (q_data invite) (fun i =>
       [ Text ("Join " +:+ (ii_workspace i).1.2);
         Text ("You've been invited as " +:+ role_text (ii_role i) +:+ " (" +:+ ii_email i +:+ ").") ]
       ++ for_some (if_truthy (ap_error s)) (fun m => [Alert "error" m None]) []
       ++ [ if ii_accountExists i then Button "Accept invitation" false (isPending (ap_accept s)) (AcceptFinish [])
            else Form accept_fields "Create account & join" (isPending (ap_accept s)) AcceptFinish ]) [].
(** [status]: of the auth context. *)
Definition AcceptInvitePage_on (status : Status) (token : string) (e : AcceptEvent) (s : AcceptState)
  : AcceptState * list Effect :=
  match e with
  | AcceptFinish values => (mkAcceptState (ap_error s) (mutate values (ap_accept s)), [Ask (accept_caller token values)])
  | AcceptSettled run (Ok slug) =>
      (mkAcceptState (ap_error s) (settle_run run (ap_accept s)),
       match status with
       | Authenticated => [ReloadMemberships; Navigate ("/" +:+ slug)]
       | _ => [Navigate ("/login?next=/" +:+ slug)]
       end)
  | AcceptSettled run (Throw err) =>
      (mkAcceptState (Some (error_text "Could not accept invitation" err)) (settle_run run (ap_accept s)), [])
  end.
