(* ===== verification/WebProviders.v ===== *)
(** * apps/web/src/features/providers/ProvidersPage.tsx

    The provider credentials of a workspace: probe, enable and disable, delete,
    and the drawers that add and edit one. *)

From S2P Require Import Prelude JsString JsNum JsDate Json Shared Auth Providers Gateway Zod WebClient WebEndpoints.
From S2P Require Import ApiDb ApiKeys WebUi.
From Stdlib Require Import Ascii.

(** endpoints.ts: all seven have live adapters. *)
Definition ALL_PROVIDERS : list Provider := [ANTHROPIC; OPENAI; GEMINI; MINIMAX; OPENROUTER; DEEPSEEK; OLLAMA].
Definition ACTIVE_PROVIDERS : list Provider := ALL_PROVIDERS.
Definition is_active_provider (p : Provider) : bool := bool_decide (p ∈ ACTIVE_PROVIDERS).

(** ** AddCredentialDrawer *)
Record AddState := mkAddState { ad_open : bool; ad_provider : Provider; ad_error : option string; ad_create : Mutation Values }.
Inductive AddEvent :=
| AddClose
| AddProvider (p : option string)
| AddFinish (values : Values)
| AddSettled (run : nat) (answer : Answer CredView).
Definition add_fields (p : Provider) : list Field :=
  text_field "name" "Name" [Required] (VStr "Default")
  :: if provider_eqb p OLLAMA then [ text_field "baseUrl" "Base URL" [Required; IsUrl] VUndef ]
     else [ text_field "secret" "API key" [Required] VUndef;
            text_field "baseUrl" "Base URL override (optional)" [IsUrl] VUndef ].
(** [{ provider, ...values }] *)
Definition addCredential_caller (ws : string) (p : Provider) (values : Values) : Caller :=
  CWs (wsApi_createCredential ws (JObj (("provider", JStr (provider_text p)) :: spread values))).
Definition AddCredentialDrawer (s : AddState) : Node AddEvent :=
  Modal "Add provider credential" (ad_open s) (Some AddClose)
    (for_some (if_truthy (ad_error s)) (fun m => [Alert "error" m None]) []
     ++ [ Select (Some (provider_text (ad_provider s)))
            (options_of provider_text
               (fun p => if is_active_provider p then provider_text p else provider_text p +:+ " (Phase 2)") ALL_PROVIDERS)
            false false AddProvider;
          Form (add_fields (ad_provider s)) "Save" (isPending (ad_create s)) AddFinish ]).
(** [onSaved]: the page reloads the credentials and closes the drawer. *)
Definition AddCredentialDrawer_on (ws : string) (e : AddEvent) (s : AddState) : AddState * list Effect :=
  match e with
  | AddClose => (mkAddState false (ad_provider s) (ad_error s) (ad_create s), [])
  | AddProvider p =>
      (mkAddState (ad_open s) (match p ≫= provider_of_text with Some p => p | None => ad_provider s end) (ad_error s)
         (ad_create s), [])
  | AddFinish values =>
      (mkAddState (ad_open s) (ad_provider s) (ad_error s) (mutate values (ad_create s)),
       [Ask (addCredential_caller ws (ad_provider s) values)])
  | AddSettled run answer =>
      let create := settle_run run (ad_create s) in
      match answer with
      | Ok _ => (mkAddState false (ad_provider s) None create, [ResetFields; InvalidateQueries [ws; "credentials"]])
      | Throw err => (mkAddState (ad_open s) (ad_provider s) (Some (error_text "Failed to save" err)) create, [])
      end
  end.

(** ** EditCredentialDrawer *)
(** [credential]: the page's [editing]. *)
Record EditCredState := mkEditCredState { ec_credential : option CredView; ec_error : option string; ec_update : Mutation Values }.
Inductive EditCredEvent :=
| EditCredClose
| EditCredFinish (values : Values)
| EditCredSettled (run : nat) (answer : Answer CredView).
(** The form, seeded with the credential that is edited. *)
Definition edit_cred_fields (c : CredView) : list Field :=
  let url := match cv_baseUrl c with Some u => VStr u | None => VUndef end in
  text_field "name" "Name" [Required] (VStr (cv_name c))
  :: if provider_eqb (cv_provider c) OLLAMA then [ text_field "baseUrl" "Base URL" [Required; IsUrl] url ]
     else [ text_field "secret" "API key" [] VUndef; text_field "baseUrl" "Base URL override (optional)" [IsUrl] url ].
(** A text that is not empty. *)
Definition given (v : Value) : bool := bool_decide (is_Some (if_truthy (text_of v))).
Definition updateCredential_caller (ws : string) (c : CredView) (values : Values) : Caller :=
  let url := val values "baseUrl" in let secret := val values "secret" in
  CWs (wsApi_updateCredential ws (cv_id c) (JObj (
    entry "name" (val values "name")
    ++ (if given url then entry "baseUrl" url else if provider_eqb (cv_provider c) OLLAMA then [] else entry "baseUrl" VNull)
    ++ when (given secret) (entry "secret" secret)))).
Definition EditCredentialDrawer (s : EditCredState) : list (Node EditCredEvent) :=
  for_some (ec_credential s) (fun c =>
    [ Modal ("Edit " +:+ provider_text (cv_provider c) +:+ " credential") true (Some EditCredClose)
        (for_some (if_truthy (ec_error s)) (fun m => [Alert "error" m None]) []
         ++ [ Form (edit_cred_fields c) "Save changes" (isPending (ec_update s)) EditCredFinish ]) ]) [].
Definition EditCredentialDrawer_on (ws : string) (e : EditCredEvent) (s : EditCredState) : EditCredState * list Effect :=
  match e with
  | EditCredClose => (mkEditCredState None (ec_error s) (ec_update s), [])
  | EditCredFinish values =>
      match ec_credential s with
      | Some c => (mkEditCredState (ec_credential s) (ec_error s) (mutate values (ec_update s)),
                   [Ask (updateCredential_caller ws c values)])
      | None => (s, [])
      end
  | EditCredSettled run answer =>
      let update := settle_run run (ec_update s) in
      match answer with
      | Ok _ => (mkEditCredState None None update, [ResetFields; InvalidateQueries [ws; "credentials"]])
      | Throw err => (mkEditCredState (ec_credential s) (Some (error_text "Failed to save" err)) update, [])
      end
  end.

(** ** ProvidersPage *)
Record ProvidersState := mkProvidersState {
  pv_add : AddState; pv_edit : EditCredState; pv_test : Mutation string; pv_toggle : Mutation CredView; pv_remove : Mutation string }.
Definition ProvidersPage_initial : ProvidersState :=
  mkProvidersState (mkAddState false ANTHROPIC None idle_mutation) (mkEditCredState None None idle_mutation)
    idle_mutation idle_mutation idle_mutation.
Inductive ProvidersEvent :=
| OpenAdd
| TestCred (id : string)
| TestSettled (run : nat) (answer : Answer ProbeReply)
| EditCred (c : CredView)
| ToggleCred (c : CredView)
| ToggleSettled (run : nat) (answer : Answer CredView)
| RemoveCred (id : string)
| RemoveCredSettled (run : nat) (answer : Answer unit)
| InAdd (e : AddEvent)
| InEditCred (e : EditCredEvent).
Definition status_word (active : bool) : string := if active then "ACTIVE" else "DISABLED".
Definition credential_row (s : ProvidersState) (c : CredView) : list (Node ProvidersEvent) :=
  [ Tag "blue" (provider_text (cv_provider c)) ]
  ++ when (negb (is_active_provider (cv_provider c))) [ Tag "orange" "gateway support in Phase 2" ]
  ++ [ Text (cv_name c);
       Text (match if_truthy (cv_secretLast4 c) with Some v => "••••" +:+ v | None => "—" end);
       Text (cv_baseUrl c ?? "—");
       Tag (if cv_active c then "green" else "default") (status_word (cv_active c)) ]
  ++ when (cv_isDefault c) [ Tag "blue" "default" ]
  ++ [ Button "Test" false (isPending (pv_test s) && bool_decide (variables (pv_test s) = Some (cv_id c))) (TestCred (cv_id c));
       Button "Edit" false false (EditCred c);
       Button (if cv_active c then "Disable" else "Enable") false
         (isPending (pv_toggle s) && bool_decide (cv_id <$> variables (pv_toggle s) = Some (cv_id c))) (ToggleCred c);
       Popconfirm "Delete this credential?" (Some "Historical usage is kept. The provider key is removed from the vault.")
         "Delete" false (RemoveCred (cv_id c)) ].
Definition ProvidersPage (credentials : Query (list CredView)) (s : ProvidersState) : list (Node ProvidersEvent) :=
  [ Box "Provider credentials"
      [ Button "Add credential" false false OpenAdd;
        DataTable ["Provider"; "Name"; "Secret"; "Base URL"; "Status"; ""] (q_isLoading credentials)
          (map (credential_row s) (q_rows credentials)) ];
    lift InAdd (AddCredentialDrawer (pv_add s)) ]
  ++ map (lift InEditCred) (EditCredentialDrawer (pv_edit s)).
(** The probe's outcome as a message. *)
Definition test_message (r : ProbeReply) : Effect :=
  match pb_ok r with
  | Some true => ShowMessage "success" "Connection OK"
  | Some false =>
      ShowMessage "error" (pb_message r ?? ("Failed (" +:+ match pb_httpStatus r with Some n => dec n | None => "undefined" end +:+ ")"))
  | None => ShowMessage "info" (pb_message r ?? "No live probe for this provider yet")
  end.
Definition toggle_caller (ws : string) (c : CredView) : Caller :=
  CWs (wsApi_updateCredential ws (cv_id c) (JObj [("status", JStr (status_word (negb (cv_active c))))])).
Definition ProvidersPage_on (ws : string) (e : ProvidersEvent) (s : ProvidersState) : ProvidersState * list Effect :=
  let invalidate := InvalidateQueries [ws; "credentials"] in
  match e with
  | OpenAdd =>
      let a := pv_add s in
      (mkProvidersState (mkAddState true (ad_provider a) (ad_error a) (ad_create a)) (pv_edit s) (pv_test s) (pv_toggle s) (pv_remove s), [])
  | TestCred id =>
      (mkProvidersState (pv_add s) (pv_edit s) (mutate id (pv_test s)) (pv_toggle s) (pv_remove s), [Ask (CWs (wsApi_testCredential ws id))])
  | TestSettled run answer =>
      (mkProvidersState (pv_add s) (pv_edit s) (settle_run run (pv_test s)) (pv_toggle s) (pv_remove s),
       match answer with Ok r => [test_message r] | Throw _ => [] end)
  | EditCred c =>
      (mkProvidersState (pv_add s) (mkEditCredState (Some c) None (ec_update (pv_edit s))) (pv_test s) (pv_toggle s) (pv_remove s), [])
  | ToggleCred c =>
      (mkProvidersState (pv_add s) (pv_edit s) (pv_test s) (mutate c (pv_toggle s)) (pv_remove s), [Ask (toggle_caller ws c)])
  | ToggleSettled run answer =>
      (mkProvidersState (pv_add s) (pv_edit s) (pv_test s) (settle_run run (pv_toggle s)) (pv_remove s),
       match answer with Ok _ => [invalidate] | Throw _ => [] end)
  | RemoveCred id =>
      (mkProvidersState (pv_add s) (pv_edit s) (pv_test s) (pv_toggle s) (mutate id (pv_remove s)), [Ask (CWs (wsApi_deleteCredential ws id))])
  | RemoveCredSettled run answer =>
      (mkProvidersState (pv_add s) (pv_edit s) (pv_test s) (pv_toggle s) (settle_run run (pv_remove s)),
       match answer with
       | Ok _ => [ShowMessage "success" "Credential deleted"; invalidate]
       | Throw err => [ShowMessage "error" (error_text "Delete failed" err)]
       end)
  | InAdd e =>
      let '(a, fx) := AddCredentialDrawer_on ws e (pv_add s) in
      (mkProvidersState a (pv_edit s) (pv_test s) (pv_toggle s) (pv_remove s), fx)
  | InEditCred e =>
      let '(x, fx) := EditCredentialDrawer_on ws e (pv_edit s) in
      (mkProvidersState (pv_add s) x (pv_test s) (pv_toggle s) (pv_remove s), fx)
  end.
