(* ===== verification/WebPricing.v ===== *)
(** * apps/web/src/features/pricing/PricingPage.tsx

    The workspace's price overrides and their editor, the global catalog, and
    the traffic without a price. *)

From S2P Require Import Prelude JsString JsNum JsDate Json Shared Auth Pricing Gateway Zod WebClient WebEndpoints.
From S2P Require Import ApiDb ApiKeys ApiPricing WebUi WebFormat WebMembers WebProviders.
From Stdlib Require Import Ascii.

Definition PROVIDER_COLORS (p : Provider) : string :=
  match p with
  | ANTHROPIC => "magenta" | OPENAI => "green" | GEMINI => "blue" | MINIMAX => "orange" | OPENROUTER => "purple"
  | DEEPSEEK => "cyan" | OLLAMA => "default"
  end.

(** ** OverridesTab and OverrideEditor *)
(** [PriceOverride | "new" | null] *)
Inductive Editing := NotEditing | EditingNew | EditingRow (o : OverrideView).
Record OverridesState := mkOverridesState {
  editing : Editing; or_remove : Mutation string; or_create : Mutation Values; or_update : Mutation Values }.
Inductive OverridesEvent :=
| NewOverride
| EditOverride (o : OverrideView)
| DeleteOverride (id : string)
| DeleteSettled (run : nat) (answer : Answer unit)
| EditorClose
| EditorFinish (values : Values)
| CreateSettled (run : nat) (answer : Answer OverrideView)
| UpdateSettled (run : nat) (answer : Answer OverrideView).
(** [existing={editing === "new" ? null : editing}] *)
Definition existing (s : OverridesState) : option OverrideView :=
  match editing s with EditingRow o => Some o | _ => None end.
Definition price_field (name label : string) (rules : list Rule) (initial : Value) : Field :=
  mkField name label rules (NumberInput 0 true) initial false.
Definition override_fields (existing : option OverrideView) : list Field :=
  let from (f : OverrideView -> string) d := match existing with Some o => VStr (f o) | None => d end in
  let locked := bool_decide (is_Some existing) in
  [ mkField "provider" "Provider" [Required] (Choice (options_of provider_text provider_text ALL_PROVIDERS) false)
      (from (fun o => provider_text (ov_provider o)) (VStr "ANTHROPIC")) locked;
    mkField "modelPattern" "Model pattern" [Required] TextInput (from ov_modelPattern VUndef) locked;
    price_field "inputPerMtok" "Input USD per 1M tokens" [Required] (from ov_input (VStr "0"));
    price_field "outputPerMtok" "Output USD per 1M tokens" [Required] (from ov_output (VStr "0"));
    price_field "cacheReadPerMtok" "Cache-read USD per 1M tokens" [] (from ov_cacheRead VUndef);
    price_field "cacheWritePerMtok" "Cache-write USD per 1M tokens" [] (from ov_cacheWrite VUndef) ].
Definition createOverride_caller (ws : string) (values : Values) : Caller :=
  CPricing (pricingApi_createOverride ws (JObj (spread values))).
Definition updateOverride_caller (ws id : string) (values : Values) : Caller :=
  CPricing (pricingApi_updateOverride ws id (JObj (spread values))).
Definition OverrideEditor (s : OverridesState) : Node OverridesEvent :=
  Modal match existing s with
        | Some o => "Edit override — " +:+ provider_text (ov_provider o) +:+ "/" +:+ ov_modelPattern o
        | None => "New price override"
        end
    (bool_decide (is_Some (existing s))) (Some EditorClose)
    [ Form (override_fields (existing s)) (if existing s then "Save" else "Create override")
        (isPending (or_create s) || isPending (or_update s)) EditorFinish ].
Definition override_row (isAdmin : bool) (o : OverrideView) : list (Node OverridesEvent) :=
  [ Tag (PROVIDER_COLORS (ov_provider o)) (provider_text (ov_provider o)); Text (ov_modelPattern o);
    Text (usd (ov_input o)); Text (usd (ov_output o)) ]
  ++ when isAdmin
       [ Button "Edit" false false (EditOverride o);
         Popconfirm ("Delete override for " +:+ provider_text (ov_provider o) +:+ "/" +:+ ov_modelPattern o +:+ "?") None
           "Delete" false (DeleteOverride (ov_id o)) ].
Definition OverridesTab (isAdmin : bool) (overrides : Query (list OverrideView)) (s : OverridesState)
  : list (Node OverridesEvent) :=
  when isAdmin [ Button "New override" false false NewOverride ]
  ++ [ Text "Overrides beat the global catalog (matcher precedence: exact > longest prefix).";
       DataTable ["Provider"; "Pattern"; "Input / MTok"; "Output / MTok"; ""] (q_isLoading overrides)
         (map (override_row isAdmin) (q_rows overrides)) ]
  ++ when (length (q_rows overrides) =? 0)%nat [ EmptyState "No overrides yet — the global catalog applies." ]
  ++ [ OverrideEditor s ].
(** [onClose]: the tab stops editing. *)
Definition OverridesTab_on (ws : string) (e : OverridesEvent) (s : OverridesState) : OverridesState * list Effect :=
  let invalidate := InvalidateQueries [ws; "pricing"; "overrides"] in
  let set x := mkOverridesState x (or_remove s) (or_create s) (or_update s) in
  match e with
  | NewOverride => (set EditingNew, [])
  | EditOverride o => (set (EditingRow o), [])
  | DeleteOverride id =>
      (mkOverridesState (editing s) (mutate id (or_remove s)) (or_create s) (or_update s),
       [Ask (CPricing (pricingApi_deleteOverride ws id))])
  | DeleteSettled run answer =>
      (mkOverridesState (editing s) (settle_run run (or_remove s)) (or_create s) (or_update s),
       match answer with
       | Ok _ => [invalidate]
       | Throw err => [ShowMessage "error" (error_text "Couldn't delete override" err)]
       end)
  | EditorClose => (set NotEditing, [])
  | EditorFinish values =>
      match existing s with
      | Some o => (mkOverridesState (editing s) (or_remove s) (or_create s) (mutate values (or_update s)),
                   [Ask (updateOverride_caller ws (ov_id o) values)])
      | None => (mkOverridesState (editing s) (or_remove s) (mutate values (or_create s)) (or_update s),
                 [Ask (createOverride_caller ws values)])
      end
  | CreateSettled run answer =>
      let create := settle_run run (or_create s) in
      match answer with
      | Ok _ => (mkOverridesState NotEditing (or_remove s) create (or_update s),
                 [invalidate; ShowMessage "success" "Override created"])
      | Throw err => (mkOverridesState (editing s) (or_remove s) create (or_update s),
                      [ShowMessage "error" (error_text "Couldn't create override" err)])
      end
  | UpdateSettled run answer =>
      let update := settle_run run (or_update s) in
      match answer with
      | Ok _ => (mkOverridesState NotEditing (or_remove s) (or_create s) update,
                 [invalidate; ShowMessage "success" "Override updated"])
      | Throw err => (mkOverridesState (editing s) (or_remove s) (or_create s) update,
                      [ShowMessage "error" (error_text "Couldn't update override" err)])
      end
  end.

(** ** CatalogTab and UnpricedTab *)
(** A row of the catalog as the API serves it: a price text per column. *)
Record CatalogPrice := mkCatalogPrice {
  cp_provider : Provider; cp_modelPattern : string; cp_inputPerMtok : string; cp_outputPerMtok : string;
  cp_cacheReadPerMtok : string; cp_source : string }.
Definition catalog_rows (provider : option Provider) (catalog : Query (list CatalogPrice)) : list CatalogPrice :=
  List.filter (fun r => match provider with Some p => provider_eqb (cp_provider r) p | None => true end) (q_rows catalog).
(** Events: the provider to show, none for all. *)
Definition CatalogTab (catalog : Query (list CatalogPrice)) (provider : option Provider) : list (Node (option Provider)) :=
  [ Select (provider_text <$> provider) (options_of provider_text provider_text ALL_PROVIDERS) true false
      (fun v => v ≫= provider_of_text);
    Text "Catalog rows are managed by the seed/sync jobs. To change a price across all workspaces, edit packages/db/src/seed/pricing.ts and re-run db:seed.";
    DataTable ["Provider"; "Pattern"; "In / MTok"; "Out / MTok"; "CR / MTok"; "Source"] (q_isLoading catalog)
      (map (fun r => [ Tag (PROVIDER_COLORS (cp_provider r)) (provider_text (cp_provider r)); Text (cp_modelPattern r);
                       Text (usd (cp_inputPerMtok r)); Text (usd (cp_outputPerMtok r)); Text (usd (cp_cacheReadPerMtok r));
                       Tag "" (cp_source r) ]) (catalog_rows provider catalog)) ].
Record UnpricedModel := mkUnpricedModel { um_provider : Provider; um_model : string; um_requests : Z; um_costLostUsd : string }.
(** The query is enabled for admins only. *)
Definition UnpricedTab {Ev} (isAdmin : bool) (unpriced : Query (list UnpricedModel)) : list (Node Ev) :=
  if negb isAdmin
  then [ Alert "warning" "Only workspace admins can see unpriced traffic — it can leak cost-attribution gaps." None ]
  else
    [ Alert "info" "Models seen in the last 30 days with no matched price. Either add an override here or seed the global catalog." None;
      DataTable ["Provider"; "Model"; "Requests (30d)"; "Lost attribution"] (q_isLoading unpriced)
        (map (fun r => [ Tag (PROVIDER_COLORS (um_provider r)) (provider_text (um_provider r)); Text (um_model r);
                         Text (dec (um_requests r)); Text (usd (um_costLostUsd r)) ]) (q_rows unpriced)) ]
    ++ when (length (q_rows unpriced) =? 0)%nat [ EmptyState "All priced — no traffic is going unpriced." ].

(** ** PricingPage *)
Inductive PricingEvent := InOverrides (e : OverridesEvent) | ShowProvider (p : option Provider).
Record PricingState := mkPricingState { ps_overrides : OverridesState; ps_provider : option Provider }.
Definition PricingPage_initial : PricingState :=
  mkPricingState (mkOverridesState NotEditing idle_mutation idle_mutation idle_mutation) None.
Record PricingData := mkPricingData {
  pd_overrides : Query (list OverrideView); pd_catalog : Query (list CatalogPrice); pd_unpriced : Query (list UnpricedModel) }.
(** The tabs' panes stay mounted; any of them can be brought to the front. *)
Definition PricingPage (role : string) (d : PricingData) (s : PricingState) : list (Node PricingEvent) :=
  let isAdmin := isViewerAdmin role in
  [ PageHeader "Settings" "Pricing" [] ]
  ++ when (negb isAdmin) [ Alert "info" "You're a Viewer — overrides are read-only." None ]
  ++ [ Box "Workspace overrides" (map (lift InOverrides) (OverridesTab isAdmin (pd_overrides d) (ps_overrides s)));
       Box "Global catalog" (map (lift ShowProvider) (CatalogTab (pd_catalog d) (ps_provider s)));
       Box "Unpriced traffic" (UnpricedTab isAdmin (pd_unpriced d)) ].
Definition PricingPage_on (ws : string) (e : PricingEvent) (s : PricingState) : PricingState * list Effect :=
  match e with
  | InOverrides e => let '(o, fx) := OverridesTab_on ws e (ps_overrides s) in (mkPricingState o (ps_provider s), fx)
  | ShowProvider p => (mkPricingState (ps_overrides s) p, [])
  end.

(** ** The editor of a new override *)
(** Nothing the page offers creates an override: while a new one is edited the
    modal is closed, and while the modal is open it saves an existing one. *)
Lemma no_override_is_created email url ws isAdmin overrides s e s' fx :
  offered email url (OverridesTab isAdmin overrides s) e -> OverridesTab_on ws e s = (s', fx) ->
  forall body, Ask (CPricing (pricingApi_createOverride ws body)) ∉ fx.
Proof.
  intros Ho Hr body. destruct e; cbn in Hr; simplify_eq; try (match goal with a : Answer _ |- _ => destruct a end; simplify_eq); try set_solver.
  destruct (existing s) as [o|] eqn:Eo; simplify_eq; [set_solver|]. exfalso.
  unfold OverridesTab, OverrideEditor in Ho. rewrite !offered_app, !offered_when, !offered_cons, offers_modal in Ho.
  rewrite Eo in Ho. setoid_rewrite offers_table in Ho. rewrite !offered_nil in Ho. cbn in Ho.
  destruct Ho as [[_ [(_ & _ & ?)|[]]]|[[[]|[(r & (o & -> & _)%list_elem_of_fmap & Hr)|[]]]|[[_ [[]|[]]]|[[? _]|[]]]]]; try done.
  unfold override_row in Hr. rewrite offered_app, offered_when, !offered_cons, !offered_nil in Hr. cbn in Hr.
  naive_solver.
Qed.
