(* ===== verification/WebTeams.v ===== *)
(** * apps/web: projects and teams

    features/projects/ProjectsPage.tsx, features/teams/TeamsPage.tsx and
    TeamDetailPage.tsx. *)

From S2P Require Import Prelude JsString JsNum JsDate Json Shared Auth Gateway Zod WebClient WebEndpoints.
From S2P Require Import ApiDb ApiMembers ApiOrg WebUi.
From Stdlib Require Import Ascii.

(** A form with a name and a description. *)
Definition name_fields (description : string) : list Field :=
  [ text_field "name" "Name" [Required] VUndef; text_field "description" description [] VUndef ].

(** ** ProjectsPage *)
Definition project_status (active : bool) : string := if active then "ACTIVE" else "ARCHIVED".
Record ProjectsState := mkProjectsState {
  pj_status : string; pj_open : bool; pj_create : Mutation Values; pj_setStatus : Mutation (string * string); pj_remove : Mutation string }.
Definition ProjectsPage_initial : ProjectsState := mkProjectsState "ACTIVE" false idle_mutation idle_mutation idle_mutation.
Inductive ProjectsEvent :=
| ShowStatus (status : string)
| OpenProject | CloseProject
| CreateProjectFinish (values : Values)
| ProjectCreated (run : nat) (answer : Answer Project)
| SetProjectStatus (id status : string)
| ProjectStatusSettled (run : nat) (answer : Answer Project)
| DeleteProject (id : string)
| ProjectDeleted (run : nat) (answer : Answer unit).
Definition createProject_caller (ws : string) (values : Values) : Caller := CWs (wsApi_createProject ws (JObj (spread values))).
Definition projectStatus_caller (ws id status : string) : Caller :=
  CWs (wsApi_updateProject ws id (JObj [("status", JStr status)])).
Section projects_page.
Context (format : Z -> string -> string).
Definition project_row (p : Project) : list (Node ProjectsEvent) :=
  [ Text (p_name p); Tag "" (p_slug p); Text (p_description p ?? ""); Text (format (p_createdAt p) "MMM D, YYYY");
    (if p_active p
     then Popconfirm "Archive this project?"
            (Some "Its keys stop being usable and it's hidden from active views. History is kept.") "Archive" false
            (SetProjectStatus (p_id p) "ARCHIVED")
     else Button "Unarchive" false false (SetProjectStatus (p_id p) "ACTIVE"));
    Popconfirm "Delete this project?" (Some "Only possible if it has no recorded usage. Otherwise archive it.") "Delete"
      false (DeleteProject (p_id p)) ].
Definition ProjectsPage (projects : Query (list Project)) (s : ProjectsState) : list (Node ProjectsEvent) :=
  [ Box "Projects"
      [ Select (Some (pj_status s)) [("ACTIVE", "Active"); ("ARCHIVED", "Archived")] false false
          (fun v => ShowStatus (v ?? ""));
        Button "New project" false false OpenProject;
        DataTable ["Name"; "Slug"; "Description"; "Created"; ""] (q_isLoading projects) (map project_row (q_rows projects));
        Modal "New project" (pj_open s) (Some CloseProject)
          [ Form (name_fields "Description") "Create" (isPending (pj_create s)) CreateProjectFinish ] ] ].
End projects_page.
Definition ProjectsPage_on (ws : string) (e : ProjectsEvent) (s : ProjectsState) : ProjectsState * list Effect :=
  let invalidate := InvalidateQueries [ws; "projects"] in
  match e with
  | ShowStatus status => (mkProjectsState status (pj_open s) (pj_create s) (pj_setStatus s) (pj_remove s), [])
  | OpenProject => (mkProjectsState (pj_status s) true (pj_create s) (pj_setStatus s) (pj_remove s), [])
  | CloseProject => (mkProjectsState (pj_status s) false (pj_create s) (pj_setStatus s) (pj_remove s), [])
  | CreateProjectFinish values =>
      (mkProjectsState (pj_status s) (pj_open s) (mutate values (pj_create s)) (pj_setStatus s) (pj_remove s),
       [Ask (createProject_caller ws values)])
  | ProjectCreated run answer =>
      let create := settle_run run (pj_create s) in
      match answer with
      | Ok _ => (mkProjectsState (pj_status s) false create (pj_setStatus s) (pj_remove s), [invalidate; ResetFields])
      | Throw _ => (mkProjectsState (pj_status s) (pj_open s) create (pj_setStatus s) (pj_remove s), [])
      end
  | SetProjectStatus id status =>
      (mkProjectsState (pj_status s) (pj_open s) (pj_create s) (mutate (id, status) (pj_setStatus s)) (pj_remove s),
       [Ask (projectStatus_caller ws id status)])
  | ProjectStatusSettled run answer =>
      (mkProjectsState (pj_status s) (pj_open s) (pj_create s) (settle_run run (pj_setStatus s)) (pj_remove s),
       match answer with Ok _ => [ShowMessage "success" "Updated"; invalidate] | Throw _ => [] end)
  | DeleteProject id =>
      (mkProjectsState (pj_status s) (pj_open s) (pj_create s) (pj_setStatus s) (mutate id (pj_remove s)),
       [Ask (CWs (wsApi_deleteProject ws id))])
  | ProjectDeleted run answer =>
      (mkProjectsState (pj_status s) (pj_open s) (pj_create s) (pj_setStatus s) (settle_run run (pj_remove s)),
       match answer with
       | Ok _ => [ShowMessage "success" "Project deleted"; invalidate]
       | Throw err => [ShowMessage "error" (error_text "Delete failed" err)]
       end)
  end.

(** ** TeamsPage *)
Record TeamsState := mkTeamsState { tp_open : bool; tp_create : Mutation Values; tp_remove : Mutation string }.
Definition TeamsPage_initial : TeamsState := mkTeamsState false idle_mutation idle_mutation.
Inductive TeamsEvent :=
| OpenTeam | CloseTeam
| CreateTeamFinish (values : Values)
| TeamCreated (run : nat) (answer : Answer Team)
| DeleteTeam (id : string)
| TeamDeleted (run : nat) (answer : Answer unit).
Definition createTeam_caller (ws : string) (values : Values) : Caller := CWs (wsApi_createTeam ws (JObj (spread values))).
Section teams_page.
Context (format : Z -> string -> string).
Definition team_row (ws : string) (t : TeamSummary) : list (Node TeamsEvent) :=
  let team := ts_team t in
  [ Link ("/" +:+ ws +:+ "/teams/" +:+ t_id team) (t_name team); Text (t_description team ?? "");
    Tag "" (dec (Z.of_nat (ts_memberCount t))); Tag "" (dec (Z.of_nat (ts_projectCount t)));
    Text (format (t_createdAt team) "MMM D, YYYY");
    Popconfirm "Delete this team?" (Some "Projects keep their history but lose their team owner.") "Delete" false
      (DeleteTeam (t_id team)) ].
Definition TeamsPage (ws : string) (teams : Query (list TeamSummary)) (s : TeamsState) : list (Node TeamsEvent) :=
  [ Box "Teams"
      [ Button "New team" false false OpenTeam;
        Text "Teams group projects for cost attribution — see who consumes budget by team in Analytics.";
        DataTable ["Name"; "Description"; "Members"; "Projects"; "Created"; ""] (q_isLoading teams)
          (map (team_row ws) (q_rows teams));
        Modal "New team" (tp_open s) (Some CloseTeam)
          [ Form (name_fields "Description") "Create team" (isPending (tp_create s)) CreateTeamFinish ] ] ].
End teams_page.
Definition TeamsPage_on (ws : string) (e : TeamsEvent) (s : TeamsState) : TeamsState * list Effect :=
  let invalidate := InvalidateQueries [ws; "teams"] in
  match e with
  | OpenTeam => (mkTeamsState true (tp_create s) (tp_remove s), [])
  | CloseTeam => (mkTeamsState false (tp_create s) (tp_remove s), [])
  | CreateTeamFinish values =>
      (mkTeamsState (tp_open s) (mutate values (tp_create s)) (tp_remove s), [Ask (createTeam_caller ws values)])
  | TeamCreated run answer =>
      let create := settle_run run (tp_create s) in
      match answer with
      | Ok team => (mkTeamsState false create (tp_remove s),
                    [invalidate; ResetFields; Navigate ("/" +:+ ws +:+ "/teams/" +:+ t_id team)])
      | Throw _ => (mkTeamsState (tp_open s) create (tp_remove s), [])
      end
  | DeleteTeam id => (mkTeamsState (tp_open s) (tp_create s) (mutate id (tp_remove s)), [Ask (CWs (wsApi_deleteTeam ws id))])
  | TeamDeleted run answer =>
      (mkTeamsState (tp_open s) (tp_create s) (settle_run run (tp_remove s)),
       match answer with Ok _ => [invalidate] | Throw _ => [] end)
  end.

(** ** TeamDetailPage *)
Record TeamState := mkTeamState {
  td_addUserId : option string; td_assignId : option string; td_addMember : Mutation string;
  td_changeRole : Mutation (string * string); td_removeMember : Mutation string; td_assignProject : Mutation string;
  td_detachProject : Mutation string }.
Definition TeamDetailPage_initial : TeamState :=
  mkTeamState None None idle_mutation idle_mutation idle_mutation idle_mutation idle_mutation.
Inductive TeamEvent :=
| PickUser (id : option string)
| PickProject (id : option string)
| AddTeamMember (userId : string)
| AddMemberSettled (run : nat) (answer : Answer unit)
| ChangeTeamRole (userId role : string)
| TeamRoleSettled (run : nat) (answer : Answer unit)
| RemoveTeamMember (userId : string)
| RemoveTeamMemberSettled (run : nat) (answer : Answer unit)
| AssignProject (id : string)
| AssignSettled (run : nat) (answer : Answer Project)
| DetachProject (id : string)
| DetachSettled (run : nat) (answer : Answer Project).
Record TeamData := mkTeamData {
  dd_team : Query TeamDetail; dd_members : Query (list MemberView); dd_projects : Query (list Project) }.
Definition memberIds (d : TeamData) : list string := for_some (q_data (dd_team d)) (fun t => map (fun m => u_id m.1.1) (td_members t)) [].
(** Members of the workspace who are not in the team. *)
Definition addableUsers (d : TeamData) : list MemberView :=
  List.filter (fun m => negb (bool_decide (mv_id m ∈ memberIds d))) (q_rows (dd_members d)).
Definition ownedIds (d : TeamData) : list string := for_some (q_data (dd_team d)) (fun t => map p_id (td_projects t)) [].
(** Active projects the team does not own. *)
Definition assignableProjects (d : TeamData) : list Project :=
  List.filter (fun p => negb (bool_decide (p_id p ∈ ownedIds d)) && p_active p) (q_rows (dd_projects d)).
Definition team_role_text (r : TeamRole) : string := match r with LEAD => "LEAD" | TEAM_MEMBER => "MEMBER" end.
Definition team_member_row (m : User * TeamRole * Z) : list (Node TeamEvent) :=
  let '(u, role, _) := m in
  [ Text (u_name u); Text (u_email u);
    Select (Some (team_role_text role)) [("LEAD", "LEAD"); ("MEMBER", "MEMBER")] false false
      (fun r => ChangeTeamRole (u_id u) (r ?? ""));
    Popconfirm "Remove from team?" None "Remove" false (RemoveTeamMember (u_id u)) ].
(** A choice with its button: [disabled={!id}], [onClick={() => id && mutate(id)}]. *)
Definition picker {A} (pick : option string -> A) (go : string -> A) (options : list (string * string))
    (value : option string) (pending : bool) : list (Node A) :=
  [ Select value options false false pick;
    match if_truthy value with
    | Some id => Button "+" false pending (go id)
    | None => Button "+" true pending (go "")
    end ].
Definition TeamDetailPage (ws : string) (d : TeamData) (s : TeamState) : list (Node TeamEvent) :=
  if q_isLoading (dd_team d) then [ Spin ]
  else for_some (q_data (dd_team d)) (fun t =>
    [ Link ("/" +:+ ws +:+ "/teams") "Teams"; Text (t_name (td_team t)); Text (t_name (td_team t)) ]
    ++ for_some (if_truthy (t_description (td_team t))) (fun x => [Text x]) []
    ++ [ Box "Members"
           (picker PickUser AddTeamMember
              (options_of mv_id (fun m => mv_name m +:+ " (" +:+ mv_email m +:+ ")") (addableUsers d))
              (td_addUserId s) (isPending (td_addMember s))
            ++ [ DataTable ["Name"; "Email"; "Role"; ""] false (map team_member_row (td_members t)) ]);
         Box "Projects"
           (picker PickProject AssignProject (options_of p_id p_name (assignableProjects d)) (td_assignId s)
              (isPending (td_assignProject s))
            ++ [ if (length (td_projects t) =? 0)%nat then EmptyState "No projects owned by this team"
                 else DataTable ["Project"; ""] false
                        (map (fun p => [ Text (p_name p); Button "Detach" false false (DetachProject (p_id p)) ])
                           (td_projects t)) ]) ])
  [ EmptyState "Team not found" ].
Definition addTeamMember_caller (ws teamId userId : string) : Caller :=
  CWs (wsApi_addTeamMember ws teamId (JObj [("userId", JStr userId); ("role", JStr "MEMBER")])).
Definition assignProject_caller (ws id : string) (teamId : option string) : Caller :=
  CWs (wsApi_updateProject ws id (JObj [("teamId", match teamId with Some t => JStr t | None => JNull end)])).
Definition TeamDetailPage_on (ws teamId : string) (e : TeamEvent) (s : TeamState) : TeamState * list Effect :=
  let '(mkTeamState user assign add role remove assigning detach) := s in
  let invalidate := [InvalidateQueries [ws; "team"; teamId]; InvalidateQueries [ws; "teams"]] in
  let invalidate_projects := InvalidateQueries [ws; "projects"] :: invalidate in
  match e with
  | PickUser id => (mkTeamState id assign add role remove assigning detach, [])
  | PickProject id => (mkTeamState user id add role remove assigning detach, [])
  | AddTeamMember id =>
      (mkTeamState user assign (mutate id add) role remove assigning detach, [Ask (addTeamMember_caller ws teamId id)])
  | AddMemberSettled run (Ok _) => (mkTeamState None assign (settle_run run add) role remove assigning detach, invalidate)
  | AddMemberSettled run (Throw _) =>
      (mkTeamState user assign (settle_run run add) role remove assigning detach, [ShowMessage "error" "Could not add member"])
  | ChangeTeamRole id r =>
      (mkTeamState user assign add (mutate (id, r) role) remove assigning detach, [Ask (CWs (wsApi_updateTeamMember ws teamId id r))])
  | TeamRoleSettled run a =>
      (mkTeamState user assign add (settle_run run role) remove assigning detach, if is_ok a then invalidate else [])
  | RemoveTeamMember id =>
      (mkTeamState user assign add role (mutate id remove) assigning detach, [Ask (CWs (wsApi_removeTeamMember ws teamId id))])
  | RemoveTeamMemberSettled run a =>
      (mkTeamState user assign add role (settle_run run remove) assigning detach, if is_ok a then invalidate else [])
  | AssignProject id =>
      (mkTeamState user assign add role remove (mutate id assigning) detach, [Ask (assignProject_caller ws id (Some teamId))])
  | AssignSettled run (Ok _) =>
      (mkTeamState user None add role remove (settle_run run assigning) detach, invalidate_projects)
  | AssignSettled run (Throw _) => (mkTeamState user assign add role remove (settle_run run assigning) detach, [])
  | DetachProject id =>
      (mkTeamState user assign add role remove assigning (mutate id detach), [Ask (assignProject_caller ws id None)])
  | DetachSettled run a =>
      (mkTeamState user assign add role remove assigning (settle_run run detach), if is_ok a then invalidate_projects else [])
  end.
