(* ===== verification/WebOnboarding.v ===== *)
(** * apps/web: the dashboard, the first-run wizard and the connect guide

    features/dashboard/DashboardPage.tsx, features/onboarding/OnboardingWizard.tsx
    and features/setup/SetupPage.tsx. *)

From S2P Require Import Prelude JsString JsNum JsDate Json Shared Auth Gateway Zod WebClient WebEndpoints.
From S2P Require Import ApiDb ApiKeys WebUi WebFormat WebProviders.
From Stdlib Require Import Ascii.

(** ** OnboardingWizard *)
(** [useApiErrorText]: the message of the last failure. *)
Definition error_alert {Ev} (error : option string) : list (Node Ev) :=
  for_some (if_truthy error) (fun m => [Alert "error" m None]) [].

Record CredentialStep_state := mkCredentialStep { cs_error : option string; cs_provider : Provider; cs_create : Mutation Values }.
Record SimpleStep := mkSimpleStep { ss_error : option string; ss_mutation : Mutation Values }.
(** A step is mounted afresh when it becomes the current one. *)
Definition fresh_credential_step : CredentialStep_state := mkCredentialStep None ANTHROPIC idle_mutation.
Definition fresh_step : SimpleStep := mkSimpleStep None idle_mutation.
Record WizardState := mkWizardState {
  wz_step : Z; wz_issued : option (KeyView * string);
  wz_credential : CredentialStep_state; wz_project : SimpleStep; wz_key : SimpleStep }.
Definition OnboardingWizard_initial (initialStep : Z) : WizardState :=
  mkWizardState initialStep None fresh_credential_step fresh_step fresh_step.
Inductive WizardEvent :=
| PickProvider (p : option string)
| CredentialFinish (values : Values)
| CredentialSettled (run : nat) (answer : Answer CredView)
| ProjectFinish (values : Values)
| ProjectSettled (run : nat) (answer : Answer Project)
| KeyFinish (values : Values)
| KeySettled (run : nat) (answer : Answer (KeyView * string))
| OpenDashboard.

Definition credential_fields (p : Provider) : list Field :=
  [ text_field "name" "Credential name" [Required] (VStr "Default");
    if provider_eqb p OLLAMA then text_field "baseUrl" "Ollama base URL" [Required; IsUrl] VUndef
    else text_field "secret" "API key" [Required] VUndef ].
(** [{ provider, isDefault: true, ...values }] *)
Definition wizardCredential_caller (ws : string) (p : Provider) (values : Values) : Caller :=
  CWs (wsApi_createCredential ws (JObj ([("provider", JStr (provider_text p)); ("isDefault", JBool true)] ++ spread values))).
Definition CredentialStep (s : CredentialStep_state) : list (Node WizardEvent) :=
  error_alert (cs_error s)
  ++ [ Select (Some (provider_text (cs_provider s))) (options_of provider_text provider_text ACTIVE_PROVIDERS) false false
         PickProvider;
       Form (credential_fields (cs_provider s)) "Save credential" (isPending (cs_create s)) CredentialFinish ].
Definition project_fields : list Field := [ text_field "name" "Project name" [Required] VUndef ].
Definition wizardProject_caller (ws : string) (values : Values) : Caller := CWs (wsApi_createProject ws (JObj (spread values))).
Definition ProjectStep (s : SimpleStep) : list (Node WizardEvent) :=
  error_alert (ss_error s)
  ++ [ Text "Projects are the unit of cost attribution — one per app, service, or experiment.";
       Form project_fields "Create project" (isPending (ss_mutation s)) ProjectFinish ].
Definition key_fields (projects : list Project) : list Field :=
  [ choice_field "projectId" "Project" [Required] (options_of p_id p_name projects) false
      match projects with p :: _ => VStr (p_id p) | [] => VUndef end;
    text_field "name" "Key name" [Required] (VStr "dev key") ].
Definition wizardKey_caller (ws : string) (values : Values) : Caller := CWs (wsApi_issueKey ws (JObj (spread values))).
Definition KeyStep (projects : Query (list Project)) (s : SimpleStep) : list (Node WizardEvent) :=
  if q_isLoading projects then [ Spin ]
  else error_alert (ss_error s) ++ [ Form (key_fields (q_rows projects)) "Issue key" (isPending (ss_mutation s)) KeyFinish ].
(** The variables a shell is told to export. *)
Definition sdk_lines (origin : string) (issued : option string) : list string :=
  [ "# Anthropic SDK";
    "export ANTHROPIC_BASE_URL=" +:+ origin +:+ "/gw/anthropic";
    "export ANTHROPIC_API_KEY=" +:+ (issued ?? "tt_live_…");
    "";
    "# OpenAI SDK";
    "export OPENAI_BASE_URL=" +:+ origin +:+ "/gw/openai/v1";
    "export OPENAI_API_KEY=" +:+ (issued ?? "tt_live_…") ].
(** [events]: how many the poll has found; it stops at the first. *)
Definition poll_again (events : option nat) : bool := negb (0 <? events ?? 0)%nat.
Definition FirstRequestStep (origin : string) (events : option nat) (issued : option string) : list (Node WizardEvent) :=
  if (0 <? events ?? 0)%nat
  then [ Alert "success" "First request tracked!"
           (Some "Your dashboard is live. Every request through the gateway is now attributed and priced.");
         Button "Open dashboard" false false OpenDashboard ]
  else
    for_some issued (fun key => [ Alert "warning" "Copy your key now — it will not be shown again." None; CopyField key ]) []
    ++ [ Text "Point your SDK at the gateway:"; Text (join nl (sdk_lines origin issued));
         Spin; Text "Waiting for your first request…" ].
Definition OnboardingWizard (origin : string) (projects : Query (list Project)) (events : option nat) (s : WizardState)
  : list (Node WizardEvent) :=
  [ Text "Get your first request tracked"; Text "Connect a provider"; Text "Create a project"; Text "Issue a key";
    Text "First request" ]
  ++ when (wz_step s =? 0) (CredentialStep (wz_credential s))
  ++ when (wz_step s =? 1) (ProjectStep (wz_project s))
  ++ when (wz_step s =? 2) (KeyStep projects (wz_key s))
  ++ when (wz_step s =? 3) (FirstRequestStep origin events (snd <$> wz_issued s)).

Definition set_step (n : Z) (s : WizardState) : WizardState :=
  mkWizardState n (wz_issued s) fresh_credential_step fresh_step fresh_step.
Definition wrap_error (err : CallOutcome) : option string := Some (error_text "Something went wrong" err).
Definition OnboardingWizard_on (ws : string) (e : WizardEvent) (s : WizardState) : WizardState * list Effect :=
  let '(mkWizardState step issued c p k) := s in
  match e with
  | PickProvider v =>
      (mkWizardState step issued
         (mkCredentialStep (cs_error c) (match v ≫= provider_of_text with Some x => x | None => cs_provider c end) (cs_create c)) p k, [])
  | CredentialFinish values =>
      (mkWizardState step issued (mkCredentialStep None (cs_provider c) (mutate values (cs_create c))) p k,
       [Ask (wizardCredential_caller ws (cs_provider c) values)])
  | CredentialSettled run (Ok _) => (set_step 1 s, [])
  | CredentialSettled run (Throw err) =>
      (mkWizardState step issued (mkCredentialStep (wrap_error err) (cs_provider c) (settle_run run (cs_create c))) p k, [])
  | ProjectFinish values =>
      (mkWizardState step issued c (mkSimpleStep None (mutate values (ss_mutation p))) k, [Ask (wizardProject_caller ws values)])
  | ProjectSettled run (Ok _) => (set_step 2 s, [InvalidateQueries [ws; "projects"]])
  | ProjectSettled run (Throw err) =>
      (mkWizardState step issued c (mkSimpleStep (wrap_error err) (settle_run run (ss_mutation p))) k, [])
  | KeyFinish values =>
      (mkWizardState step issued c p (mkSimpleStep None (mutate values (ss_mutation k))), [Ask (wizardKey_caller ws values)])
  | KeySettled run (Ok key) => (mkWizardState 3 (Some key) fresh_credential_step fresh_step fresh_step, [])
  | KeySettled run (Throw err) =>
      (mkWizardState step issued c p (mkSimpleStep (wrap_error err) (settle_run run (ss_mutation k))), [])
  | OpenDashboard => (s, [ReloadPage])
  end.

(** ** DashboardPage *)
(** Figures as the summary answers them: costs are texts. *)
Record ProviderCost := mkProviderCost { pc_provider : Provider; pc_costUsd : string }.
Record ModelCost := mkModelCost { mc_provider : Provider; mc_model : string; mc_costUsd : string; mc_requests : Z }.
Record SummaryView := mkSummaryView {
  sv_rangeDays : Z; sv_costUsd : string; sv_requests : Z; sv_inputTokens : Z; sv_outputTokens : Z; sv_errorRate : number;
  sv_byProvider : list ProviderCost; sv_byModel : list ModelCost; sv_byDay : list (string * string) }.
(** Where the wizard starts in an empty workspace. *)
Definition initial_step (credentials : Query (list CredView)) (keys : Query (list KeyView)) : Z :=
  let hasCredential := (0 <? length (q_rows credentials))%nat in
  let hasKey := (0 <? length (q_rows keys))%nat in
  if hasKey then 3 else if hasCredential then 1 else 0.
Definition hasTraffic (summary : Query SummaryView) : bool := 0 <? for_some (q_data summary) sv_requests 0.
Definition providerData (s : SummaryView) : list (Provider * option number) :=
  map (fun p => (pc_provider p, Number (inl (pc_costUsd p)))) (sv_byProvider s).
Definition dayData (s : SummaryView) : list (string * option number) :=
  map (fun d => (slice_from 5 d.1, Number (inl d.2))) (sv_byDay s).
Inductive DashboardView :=
| DashboardSpin
| Wizard (initialStep : Z)
| Figures (title : string) (statistics : list (string * string)) (spend : list (string * option number))
    (byProvider : list (Provider * option number)) (topModels : list (list string)).
(** [(n * 100).toFixed(1)] *)
Definition percent (n : number) : string :=
  toFixed 1 (match n with NInt z => NInt (100 * z) | NDec m k => strip_zeros (100 * m) (Pos.to_nat k) end).
Definition DashboardPage (summary : Query SummaryView) (credentials : Query (list CredView)) (keys : Query (list KeyView))
  : option DashboardView :=
  if q_isLoading summary || q_isLoading keys then Some DashboardSpin
  else if negb (hasTraffic summary) then Some (Wizard (initial_step credentials keys))
  else
    s ← q_data summary;
    Some (Figures ("Last " +:+ dec (sv_rangeDays s) +:+ " days")
      [ ("Spend", formatUsd (inl (sv_costUsd s)) true); ("Requests", dec (sv_requests s));
        ("Tokens (in / out)", compact (NInt (sv_inputTokens s)) +:+ " / " +:+ compact (NInt (sv_outputTokens s)));
        ("Error rate", percent (sv_errorRate s) +:+ "%") ]
      (dayData s) (providerData s)
      (map (fun r => [mc_model r; provider_text (mc_provider r); dec (mc_requests r); usd (mc_costUsd r)]) (sv_byModel s))).
Definition pollSummary : Z := 60000.

(** ** SetupPage *)
Definition KEY : string := "tt_live_YOUR_KEY".
Record Snippet := mkSnippet { sn_code : list string; sn_note : option string }.
(** A request of the guide: curl with its headers and body. *)
Definition curl (url : string) (headers : list string) (body : list string) : list string :=
  ("curl " +:+ url +:+ " \") :: map (fun h => "  -H " +:+ quote h +:+ " \") headers ++ "  -d '{" :: body ++ ["  }'"].
Definition messages_line : string :=
  "    " +:+ quote "messages" +:+ ": [{" +:+ quote "role" +:+ ": " +:+ quote "user" +:+ ", " +:+ quote "content" +:+ ": "
  +:+ quote "Hello" +:+ "}]".
Definition model_line (model : string) : string := "    " +:+ quote "model" +:+ ": " +:+ quote model +:+ ",".
Definition snippets (origin : string) : list (string * Snippet) :=
  [ ("Anthropic", mkSnippet
      [ "# Set two env vars — no code changes to your app.";
        "export ANTHROPIC_BASE_URL=" +:+ origin +:+ "/gw/anthropic";
        "export ANTHROPIC_API_KEY=" +:+ KEY ] None);
    ("OpenAI", mkSnippet
      [ "export OPENAI_BASE_URL=" +:+ origin +:+ "/gw/openai/v1"; "export OPENAI_API_KEY=" +:+ KEY ] None);
    ("OpenAI-compatible", mkSnippet
      [ "# DeepSeek"; "export OPENAI_BASE_URL=" +:+ origin +:+ "/gw/deepseek/v1";
        "# OpenRouter"; "export OPENAI_BASE_URL=" +:+ origin +:+ "/gw/openrouter/api/v1";
        "# Ollama"; "export OPENAI_BASE_URL=" +:+ origin +:+ "/gw/ollama/v1"; "";
        "export OPENAI_API_KEY=" +:+ KEY ]
      (Some "DeepSeek, OpenRouter, Minimax and Ollama all speak the OpenAI API. Point the OpenAI SDK at their gateway route."));
    ("Unified", mkSnippet
      (curl (origin +:+ "/gw/v1/chat/completions")
         ["Authorization: Bearer " +:+ KEY; "Content-Type: application/json"]
         [model_line "anthropic/claude-sonnet-4-5"; messages_line])
      (Some "One endpoint for every provider — put the provider in the model name."));
    ("cURL", mkSnippet
      (curl (origin +:+ "/gw/anthropic/v1/messages")
         ["x-api-key: " +:+ KEY; "anthropic-version: 2023-06-01"; "content-type: application/json"]
         [model_line "claude-sonnet-4-5"; "    " +:+ quote "max_tokens" +:+ ": 128,"; messages_line]) None) ].
(** Events: the tab to show. *)
Definition SetupPage (origin ws tab : string) : list (Node string) :=
  [ Text "Connect your agent";
    Text "Point any AI SDK at TokenLedger instead of the provider. Change a base URL and use a virtual key — every request is then attributed, priced, and shown in your dashboard. Your real provider keys never leave the server.";
    Text "Step 1 — Your gateway URL"; CopyField (origin +:+ "/gw");
    Text "Step 2 — Get a virtual key"; Link ("/" +:+ ws +:+ "/keys") "Virtual Keys"; Text KEY;
    Text "Step 3 — Wire up your SDK";
    Select (Some tab) (map (fun p => (p.1, p.1)) (snippets origin)) false false (fun v => v ?? "") ]
  ++ for_some (List.find (fun p => String.eqb p.1 tab) (snippets origin)) (fun p =>
       for_some (if_truthy (sn_note p.2)) (fun n => [Alert "info" n None]) [] ++ [ Text (join nl (sn_code p.2)) ]) []
  ++ [ Tag "blue" "Native routes";
       Text "/gw/anthropic · /gw/openai · /gw/gemini · /gw/minimax · /gw/openrouter · /gw/deepseek · /gw/ollama";
       Tag "purple" "Unified"; Text ("POST /gw/v1/chat/completions with model " +:+ quote "<provider>/<model>") ].
