(* ===== verification/WebAnalytics.v ===== *)
(** * apps/web/src/features/analytics/AnalyticsPage.tsx

    The usage explorer: what it asks the API, the table its chart is drawn from,
    the breakdown, and the daily report it writes as CSV. *)

From S2P Require Import Prelude JsString JsNum JsDate Json Shared Gateway Zod WebClient WebEndpoints.
From S2P Require Import ApiReports WebUi WebFormat WebProviders.
From Stdlib Require Import Ascii.

(** ** What the API answers *)
Record Point := mkPoint { pt_t : string; pt_v : number }.
(** A series with the name of its key, if any. *)
Record Series := mkSeriesView { sr_name : option string; sr_points : list Point }.
Record BreakdownView := mkBreakdownView {
  bv_id : string; bv_name : string; bv_costUsd : string; bv_requests : Z; bv_inputTokens : Z; bv_outputTokens : Z;
  bv_errorRate : number; bv_sharePct : number }.

(** ** State *)
Definition metric_text (m : Metric) : string :=
  match m with metric_cost => "cost" | metric_requests => "requests" | metric_tokens => "tokens" | metric_errors => "errors" end.
Definition granularity_text (g : Granularity) : string :=
  match g with by_hour => "hour" | by_day => "day" | by_week => "week" | by_month => "month" end.
Definition dimension_text (d : Dimension) : string :=
  match d with dim_project => "project" | dim_team => "team" | dim_user => "user" | dim_provider => "provider" | dim_model => "model" end.
Record AnalyticsState := mkAnalyticsState {
  an_range : Z * Z; an_metric : Metric; an_granularity : Granularity; an_groupBy : Dimension;
  an_provider : option Provider; an_exporting : bool }.
Inductive AnalyticsEvent :=
| SetRange (from to : Z)
| SetMetric (m : string) | SetGranularity (g : string) | SetGroupBy (d : string)
| SetProvider (p : option string)
| Export
| ExportAnswered (g : Granularity) (d : Dimension) (responses : option (list (list Series))).
  (** [Promise.all] with what [handleExport] closed over: no responses when one of them fails *)

Section analytics.
(** dayjs: [format] in the browser's time zone, the bounds of a local day, and
    [subtract(n, "day")]; [localeCompare] and [toLocaleString] of the browser;
    the percent-encoding of URLSearchParams. *)
Context (format : Z -> string -> string) (startOfDay endOfDay : Z -> Z) (subtractDays : Z -> Z -> Z).
Context (localeCompare : string -> string -> Z) (toLocaleString : Z -> string).
(** [dayjs(iso).format(f)] *)
Definition format_iso (iso f : string) : string :=
  match date_parse iso with Some t => format t f | None => "Invalid Date" end.

Definition AnalyticsPage_initial (now : Z) : AnalyticsState :=
  mkAnalyticsState (subtractDays 30 now, now) metric_requests by_day dim_user None false.

(** ** Queries *)
Definition explorer_params (s : AnalyticsState) : Params :=
  [ ("from", Some (toISOString (startOfDay (an_range s).1))); ("to", Some (toISOString (endOfDay (an_range s).2))) ]
  ++ for_some (an_provider s) (fun p => [("provider", Some (provider_text p))]) [].
Definition timeseries_params (s : AnalyticsState) (m : Metric) : Params :=
  explorer_params s ++ [ ("metric", Some (metric_text m)); ("granularity", Some (granularity_text (an_granularity s)));
                         ("groupBy", Some (dimension_text (an_groupBy s))) ].
Definition timeseries_caller (ws : string) (s : AnalyticsState) (m : Metric) : Caller :=
  CWs (wsApi_timeseries ws (timeseries_params s m)).
Definition breakdown_caller (ws : string) (s : AnalyticsState) : Caller :=
  CWs (wsApi_breakdown ws (explorer_params s ++ [("groupBy", Some (dimension_text (an_groupBy s))); ("limit", Some "100")])).

(** ** The chart's table *)
Definition fmtBucket (iso : string) (g : Granularity) : string :=
  match g with
  | by_hour => format_iso iso "MMM D HH:00"
  | by_month => format_iso iso "MMM YYYY"
  | _ => format_iso iso "MMM D"
  end.
Definition series_name (s : Series) : string := sr_name s ?? "total".
(** A [Map] keeps its keys in the order of their first [set]. *)
Fixpoint map_get {V} (k : string) (m : list (string * V)) : option V :=
  match m with [] => None | (k', v) :: r => if String.eqb k' k then Some v else map_get k r end.
Fixpoint map_set {V} (k : string) (v : V) (m : list (string * V)) : list (string * V) :=
  match m with
  | [] => [(k, v)]
  | (k', v') :: r => if String.eqb k' k then (k', v) :: r else (k', v') :: map_set k v r
  end.
Definition chart_row (label : string) (byTime : list (string * fields)) : fields := map_get label byTime ?? [("t", JStr label)].
Definition add_series (g : Granularity) (byTime : list (string * fields)) (s : Series) : list (string * fields) :=
  fold_left (fun m p => let label := fmtBucket (pt_t p) g in
                        map_set label (obj_set (chart_row label m) (series_name s) (JNum (pt_v p))) m)
    (sr_points s) byTime.
Definition chartData (g : Granularity) (series : list Series) : list fields :=
  map snd (fold_left (add_series g) series []).
Definition seriesKeys (series : list Series) : list string := map series_name series.
Definition metricFmt (m : Metric) (v : number) : string :=
  match m with metric_cost => formatUsd (inr v) true | _ => compact v end.

(** ** The daily report *)
Definition fmtDateKey (iso : string) (g : Granularity) : string :=
  match g with
  | by_hour => format_iso iso "YYYY-MM-DD HH:00"
  | by_month => format_iso iso "YYYY-MM"
  | _ => format_iso iso "YYYY-MM-DD"
  end.
Definition report_metrics : list Metric := [metric_requests; metric_tokens; metric_cost; metric_errors].
Record ReportRow := mkReportRow {
  rp_date : string; rp_dim : string; rp_requests : number; rp_tokens : number; rp_cost : number; rp_errors : number }.
(** [row[m] = v] *)
Definition set_figure (m : Metric) (v : number) (r : ReportRow) : ReportRow :=
  let '(mkReportRow date dim q t c e) := r in
  match m with
  | metric_requests => mkReportRow date dim v t c e
  | metric_tokens => mkReportRow date dim q v c e
  | metric_cost => mkReportRow date dim q t v e
  | metric_errors => mkReportRow date dim q t c v
  end.
Definition figure (m : Metric) (r : ReportRow) : number :=
  match m with metric_requests => rp_requests r | metric_tokens => rp_tokens r | metric_cost => rp_cost r | metric_errors => rp_errors r end.
Definition report_key (date dim : string) : string := date +:+ "|" +:+ dim.
(** One point of a response. *)
Record Figure := mkFigure { fg_metric : Metric; fg_date : string; fg_dim : string; fg_v : number }.
Definition figures_of (g : Granularity) (m : Metric) (res : list Series) : list Figure :=
  s ← res; map (fun p => mkFigure m (fmtDateKey (pt_t p) g) (series_name s) (pt_v p)) (sr_points s).
Definition add_figure (rows : list (string * ReportRow)) (f : Figure) : list (string * ReportRow) :=
  let key := report_key (fg_date f) (fg_dim f) in
  let row := map_get key rows ?? mkReportRow (fg_date f) (fg_dim f) (NInt 0) (NInt 0) (NInt 0) (NInt 0) in
  map_set key (set_figure (fg_metric f) (fg_v f) row) rows.
Definition report_figures (g : Granularity) (responses : list (list Series)) : list Figure :=
  p ← combine report_metrics responses; figures_of g p.1 p.2.
Definition report_rows (g : Granularity) (responses : list (list Series)) : list ReportRow :=
  map snd (fold_left add_figure (report_figures g responses) []).
Definition report_order (a b : ReportRow) : bool :=
  let c := localeCompare (rp_date a) (rp_date b) in
  (if c =? 0 then localeCompare (rp_dim a) (rp_dim b) else c) <=? 0.
Definition report_line (r : ReportRow) : list string :=
  [ rp_date r; csv (rp_dim r); number_to_string (rp_requests r); number_to_string (rp_tokens r); toFixed 6 (rp_cost r);
    number_to_string (rp_errors r) ].
Definition report_header (d : Dimension) : list string := ["Date"; cap (dimension_text d); "Requests"; "Tokens"; "CostUSD"; "Errors"].
Definition report (g : Granularity) (d : Dimension) (responses : list (list Series)) : string :=
  join nl (join "," (report_header d)
           :: map (fun r => join "," (report_line r)) (order_by report_order (report_rows g responses))).
Definition report_name (now : Z) (ws : string) (d : Dimension) : string :=
  "tokenledger-" +:+ ws +:+ "-by-" +:+ dimension_text d +:+ "-daily-" +:+ format now "YYYY-MM-DD_HHmmss" +:+ ".csv".

(** ** The breakdown *)
Definition errorRate_text (v : number) : string :=
  toFixed 1 (num_op Z.mul v (NInt 100)) +:+ "%".
Definition breakdown_cells (r : BreakdownView) : list string :=
  [ bv_name r; toLocaleString (bv_requests r); compact (NInt (bv_inputTokens r)) +:+ " / " +:+ compact (NInt (bv_outputTokens r));
    errorRate_text (bv_errorRate r); usd (bv_costUsd r); toFixed 1 (bv_sharePct r) +:+ "%" ].
(** [rows.reduce((s, r) => s + Number(r.costUsd), 0)]; [None] is NaN. *)
Definition totalCost (rows : list BreakdownView) : option number :=
  fold_left (fun s r => a ← s; b ← Number (inl (bv_costUsd r)); Some (num_add a b)) rows (Some (NInt 0)).
Definition totalReq (rows : list BreakdownView) : Z := zsum bv_requests rows.
(** antd's page [n] of the rows in the default order, dearest first; the summary
    row is computed from the page that is shown. *)
Definition dearer (a b : BreakdownView) : bool :=
  match Number (inl (bv_costUsd a)), Number (inl (bv_costUsd b)) with
  | Some x, Some y => 0 <=? num_mant (num_sub x y)
  | _, _ => true
  end.
Definition pageSize : nat := 20.
Definition shown (n : nat) (rows : list BreakdownView) : list BreakdownView :=
  take pageSize (drop (n * pageSize) (order_by dearer rows)).
Definition breakdown_summary (rows : list BreakdownView) : list string :=
  [ "Total"; toLocaleString (totalReq rows); ""; "";
    match totalCost rows with Some n => formatUsd (inr n) false | None => "$0.00" end; "" ].

(** ** The page *)
Record AnalyticsData := mkAnalyticsData { ad_timeseries : Query (list Series); ad_breakdown : Query (list BreakdownView) }.
Definition range_presets (now : Z) : list (string * (Z * Z)) :=
  map (fun n => (dec n +:+ "d", (subtractDays n now, now))) [7; 30; 90].
Inductive Chart := ChartSpin | NoUsage | Lines (keys : list string) (rows : list fields) | AreaOf (key : string) (rows : list fields).
Definition chart (d : AnalyticsData) (s : AnalyticsState) : Chart :=
  let series := q_rows (ad_timeseries d) in
  let rows := chartData (an_granularity s) series in
  if q_isLoading (ad_timeseries d) then ChartSpin
  else if (length rows =? 0)%nat then NoUsage
  else if (1 <? length (seriesKeys series))%nat then Lines (seriesKeys series) rows
  else AreaOf (head (seriesKeys series) ?? "total") rows.
Definition AnalyticsPage (now : Z) (page : nat) (d : AnalyticsData) (s : AnalyticsState) : list (Node AnalyticsEvent) :=
  let rows := q_rows (ad_breakdown d) in
  [ PageHeader "Analytics" "Usage explorer" [] ]
  ++ map (fun p => Button p.1 false false (SetRange p.2.1 p.2.2)) (range_presets now)
  ++ [ Select (Some (granularity_text (an_granularity s))) (map (fun g => (g.1, g.1)) GRANULARITIES) false false
         (fun v => SetGranularity (v ?? ""));
       Select (provider_text <$> an_provider s) (options_of provider_text provider_text PROVIDERS) true false SetProvider;
       Button "Export CSV" (length rows =? 0)%nat (an_exporting s) Export;
       Select (Some (metric_text (an_metric s))) (map (fun m => (m.1, cap m.1)) METRICS) false false (fun v => SetMetric (v ?? ""));
       Select (Some (dimension_text (an_groupBy s))) (map (fun x => (x.1, cap x.1)) DIMENSIONS) false false
         (fun v => SetGroupBy (v ?? ""));
       Box ("Breakdown by " +:+ dimension_text (an_groupBy s))
         [ DataTable [cap (dimension_text (an_groupBy s)); "Requests"; "Tokens (in/out)"; "Error rate"; "Cost"; "Share"]
             (q_isLoading (ad_breakdown d))
             (map (fun r => map Text (breakdown_cells r)) (shown page rows)
              ++ [map Text (breakdown_summary (shown page rows))]) ] ].
(** The member an option's value names. *)
Definition named {A} (l : list (string * A)) (v : string) (d : A) : A := (snd <$> List.find (fun p => String.eqb p.1 v) l) ?? d.
Definition AnalyticsPage_on (now : Z) (ws : string) (e : AnalyticsEvent) (s : AnalyticsState) : AnalyticsState * list Effect :=
  let '(mkAnalyticsState range m g d p exporting) := s in
  match e with
  | SetRange from to => (mkAnalyticsState (from, to) m g d p exporting, [])
  | SetMetric v => (mkAnalyticsState range (named METRICS v m) g d p exporting, [])
  | SetGranularity v => (mkAnalyticsState range m (named GRANULARITIES v g) d p exporting, [])
  | SetGroupBy v => (mkAnalyticsState range m g (named DIMENSIONS v d) p exporting, [])
  | SetProvider v => (mkAnalyticsState range m g d (v ≫= provider_of_text) exporting, [])
  | Export => (mkAnalyticsState range m g d p true, map (fun x => Ask (timeseries_caller ws s x)) report_metrics)
  | ExportAnswered g0 d0 responses =>
      (mkAnalyticsState range m g d p false,
       for_some responses (fun rs => [SaveFile (report_name now ws d0) (report g0 d0 rs)]) [])
  end.
End analytics.
