(* ===== verification/WebUsage.v ===== *)
(** * apps/web: usage events and exports

    features/usage/UsagePage.tsx, whose infinite query follows the API's
    cursors, and ExportsDrawer.tsx. *)

From S2P Require Import Prelude JsString JsNum JsDate Json Shared Queue Gateway Persist Export Zod WebClient WebEndpoints.
From S2P Require Import ApiDb ApiReports WebUi WebFormat.
From Stdlib Require Import Ascii.

(** ** ExportsDrawer *)
Definition export_status_text (s : ExportStatus) : string :=
  match s with PENDING => "PENDING" | RUNNING => "RUNNING" | EXPORT_DONE => "DONE" | FAILED => "FAILED" end.
Definition STATUS_COLOR (s : ExportStatus) : string :=
  match s with PENDING => "default" | RUNNING => "processing" | EXPORT_DONE => "green" | FAILED => "red" end.
Definition unfinished (j : ExportView) : bool :=
  match xv_status j with PENDING | RUNNING => true | _ => false end.
(** [refetchInterval]: two seconds while a job is not finished, [None] otherwise. *)
Definition exports_interval (jobs : Query (list ExportView)) : option Z :=
  if existsb unfinished (q_rows jobs) then Some 2000 else None.
Inductive ExportsEvent :=
| CloseExports
| NewExport
| ExportStarted (run : nat) (answer : Answer unit)
| DownloadExport (j : ExportView)
| DownloadFailed.
Record ExportsState := mkExportsState { xd_open : bool; xd_create : Mutation unit }.
Definition createExport_caller (ws : string) : Caller := CWs (wsApi_createExport ws (JObj [("kind", JStr "usage_events")])).

Section usage.
Context (format : Z -> string -> string) (toLocaleString : Z -> string).
Definition export_row (j : ExportView) : list (Node ExportsEvent) :=
  [ Tag (STATUS_COLOR (xv_status j)) (export_status_text (xv_status j)) ]
  ++ for_some (xv_rowCount j) (fun n => [Text (toLocaleString (Z.of_nat n) +:+ " rows")]) []
  ++ [ Text (format (xv_createdAt j) "MMM D, HH:mm:ss") ]
  ++ match xv_status j with
     | FAILED => for_some (if_truthy (xv_error j)) (fun m => [Alert "error" m None]) []
     | EXPORT_DONE => [ Button "Download" false false (DownloadExport j) ]
     | _ => []
     end.
Definition ExportsDrawer (jobs : Query (list ExportView)) (s : ExportsState) : Node ExportsEvent :=
  Modal "Usage event exports" (xd_open s) (Some CloseExports)
    ([ Button "New export" false (isPending (xd_create s)) NewExport;
       Text "Exports run in the background and stream every matching usage event to a CSV file. Download links stay valid for 24 hours." ]
     ++ if (length (q_rows jobs) =? 0)%nat then [ EmptyState "No exports yet" ]
        else [ DataTable [] false (map export_row (q_rows jobs)) ]).
Definition download_name (ws : string) (j : ExportView) : string :=
  "tokenledger-" +:+ ws +:+ "-usage-" +:+ format (xv_createdAt j) "YYYY-MM-DD_HHmmss" +:+ ".csv".
Definition ExportsDrawer_on (ws : string) (e : ExportsEvent) (s : ExportsState) : ExportsState * list Effect :=
  match e with
  | CloseExports => (mkExportsState false (xd_create s), [])
  | NewExport => (mkExportsState (xd_open s) (mutate tt (xd_create s)), [Ask (createExport_caller ws)])
  | ExportStarted run answer =>
      (mkExportsState (xd_open s) (settle_run run (xd_create s)),
       match answer with
       | Ok _ => [ShowMessage "success" "Export started"; InvalidateQueries [ws; "exports"]]
       | Throw _ => [ShowMessage "error" "Could not start export"]
       end)
  | DownloadExport j =>
      (s, [DownloadAuthed ("/api/v1/workspaces/" +:+ ws +:+ "/exports/" +:+ xv_id j +:+ "/download") (download_name ws j)])
  | DownloadFailed => (s, [ShowMessage "error" "Download failed"])
  end.

(** ** UsagePage *)
Record UsageRow := mkUsageRow {
  us_occurredAt : Z; us_project : string; us_user : string; us_provider : string; us_model : string; us_streamed : bool;
  us_httpStatus : Z; us_ok : bool; us_inputTokens : Z; us_outputTokens : Z; us_latencyMs : Z; us_costUsd : string;
  us_costBasis : string }.
Definition usage_row {Ev} (e : UsageRow) : list (Node Ev) :=
  [ Text (format (us_occurredAt e) "MMM D, HH:mm:ss"); Text (us_project e); Text (us_user e);
    Tag "" (us_provider e); Text (us_model e) ]
  ++ when (us_streamed e) [ Tag "blue" "stream" ]
  ++ [ Tag (if us_ok e then "green" else "red") (dec (us_httpStatus e));
       Text (dec (us_inputTokens e) +:+ " / " +:+ dec (us_outputTokens e)); Text (dec (us_latencyMs e) +:+ " ms");
       Text (usd (us_costUsd e)) ]
  ++ when (negb (String.eqb (us_costBasis e) "ACTUAL")) [ Tag "orange" (to_lower (us_costBasis e)) ].

(** [useInfiniteQuery]: the pages loaded, each with the cursor after it. *)
Section pages.
Context {A : Type}.
Record InfiniteQuery := mkInfinite { iq_pages : list (list A * option string) }.
(** [events.data?.pages.flatMap((p) => p.data) ?? []] *)
Definition rows (q : InfiniteQuery) : list A := p ← iq_pages q; p.1.
(** [getNextPageParam: (last) => last.nextCursor ?? undefined] *)
Definition getNextPageParam (q : InfiniteQuery) : option string := last (iq_pages q) ≫= snd.
Definition hasNextPage (q : InfiniteQuery) : bool := bool_decide (is_Some (getNextPageParam q)).
(** The parameter the next fetch is called with: the first page's is undefined. *)
Definition next_param (q : InfiniteQuery) : option (option string) :=
  match iq_pages q with [] => Some None | _ => Some <$> getNextPageParam q end.
(** [fetch]: one call of [wsApi.events(ws, pageParam)]. *)
Definition fetchNextPage (fetch : option string -> list A * option string) (q : InfiniteQuery) : InfiniteQuery :=
  match next_param q with Some p => mkInfinite (iq_pages q ++ [fetch p]) | None => q end.
(** [refetchInterval]: the loaded pages again, one after another, each with the
    cursor of the page before it; it stops where a page has no cursor. *)
Fixpoint load (n : nat) (fetch : option string -> list A * option string) (q : InfiniteQuery) : InfiniteQuery :=
  match n with O => q | S n => load n fetch (fetchNextPage fetch q) end.
Definition refetch_pages (fetch : option string -> list A * option string) (q : InfiniteQuery) : InfiniteQuery :=
  load (length (iq_pages q)) fetch (mkInfinite []).
End pages.
Arguments InfiniteQuery : clear implicits.

Inductive UsageEvent := OpenExports | LoadMore | InExports (e : ExportsEvent).
Definition UsagePage (isLoading isFetchingNextPage : bool) (events : InfiniteQuery UsageRow) (jobs : Query (list ExportView))
    (s : ExportsState) : list (Node UsageEvent) :=
  [ Box "Usage events"
      ([ Text "last 90 days · auto-refreshes"; Button "Export" false false OpenExports;
         DataTable ["Time"; "Project"; "User"; "Model"; "Status"; "Tokens in/out"; "Latency"; "Cost"] isLoading
           (map usage_row (rows events)) ]
       ++ when (hasNextPage events) [ Button "Load more" false isFetchingNextPage LoadMore ]
       ++ [ lift InExports (ExportsDrawer jobs s) ]) ].
(** What a click on "Load more" asks for. *)
Definition UsagePage_on (ws : string) (events : InfiniteQuery UsageRow) (e : UsageEvent) (s : ExportsState)
  : ExportsState * list Effect :=
  match e with
  | OpenExports => (mkExportsState true (xd_create s), [])
  | LoadMore => (s, for_some (next_param events) (fun p => [Ask (CWs (wsApi_events ws p))]) [])
  | InExports e => ExportsDrawer_on ws e s
  end.
End usage.
Arguments InfiniteQuery : clear implicits.
