(* ===== verification/WebSignIn.v ===== *)
(** * apps/web: sign in, registration and the chrome of the console

    features/auth/AuthPages.tsx, app/AppShell.tsx and
    features/admin/PlatformShell.tsx. *)

From S2P Require Import Prelude JsString JsNum JsDate Json Shared Gateway Zod WebClient WebEndpoints WebUi.
From Stdlib Require Import Ascii.

(** ** LoginPage *)
Record FormState := mkFormState { fs_error : option string; fs_busy : bool }.
Definition login_fields : list Field :=
  [ text_field "email" "Email" [Required; IsEmail] VUndef; text_field "password" "Password" [Required] VUndef ].
Inductive LoginEvent := LoginFinish (values : Values) | LoginSettled (answer : Answer unit).
Definition LoginPage (s : FormState) : list (Node LoginEvent) :=
  [ Text "Sign in to your workspace" ]
  ++ for_some (if_truthy (fs_error s)) (fun m => [Alert "error" m None]) []
  ++ [ Form login_fields "Sign in" (fs_busy s) LoginFinish; Link "/register" "Create an account" ].
(** [login(values.email, values.password)] of the auth context. *)
Definition LoginPage_on (e : LoginEvent) (s : FormState) : FormState * list Effect :=
  match e with
  | LoginFinish values =>
      (mkFormState None true, [SignIn (text_of (val values "email") ?? "") (text_of (val values "password") ?? "")])
  | LoginSettled (Ok _) => (mkFormState (fs_error s) false, [Navigate "/"])
  | LoginSettled (Throw err) => (mkFormState (Some (error_text "Login failed" err)) false, [])
  end.
(** [authApi.login({ email, password })] *)
Definition login_caller (email password : string) : Caller :=
  CAuth (authApi_login (JObj [("email", JStr email); ("password", JStr password)])).

(** ** RegisterPage *)
Definition register_fields : list Field :=
  [ text_field "name" "Your name" [Required] VUndef; text_field "email" "Email" [Required; IsEmail] VUndef;
    text_field "password" "Password" [Required; MinLength 8] VUndef;
    text_field "workspaceName" "Workspace name (optional)" [] VUndef ].
Inductive RegisterEvent := RegisterFinish (values : Values) | RegisterSettled (answer : Answer string).
Definition RegisterPage (s : FormState) : list (Node RegisterEvent) :=
  [ Text "Create your account and workspace" ]
  ++ for_some (if_truthy (fs_error s)) (fun m => [Alert "error" m None]) []
  ++ [ Form register_fields "Create account" (fs_busy s) RegisterFinish; Link "/login" "Sign in" ].
Definition register_caller (values : Values) : Caller := CAuth (authApi_register (JObj (spread values))).
(** [register(values)] answers the slug of the new workspace. *)
Definition RegisterPage_on (e : RegisterEvent) (s : FormState) : FormState * list Effect :=
  match e with
  | RegisterFinish values => (mkFormState None true, [SignUp (JObj (spread values))])
  | RegisterSettled (Ok slug) => (mkFormState (fs_error s) false, [Navigate ("/" +:+ slug)])
  | RegisterSettled (Throw err) => (mkFormState (Some (error_text "Registration failed" err)) false, [])
  end.

(** ** AppShell and PlatformShell *)
Inductive ShellEvent := SignOut.
(** [location.pathname.split("/")[2] ?? d] *)
Definition section_of (d pathname : string) : string := (split_on "/"%char pathname !! 2%nat) ?? d.
Definition menu (ws : string) : list (string * string * string) :=
  let at_ page := "/" +:+ ws +:+ page in
  [ ("dashboard", at_ "", "Dashboard"); ("setup", at_ "/setup", "Connect"); ("analytics", at_ "/analytics", "Analytics");
    ("usage", at_ "/usage", "Usage"); ("keys", at_ "/keys", "Virtual Keys"); ("projects", at_ "/projects", "Projects");
    ("teams", at_ "/teams", "Teams"); ("providers", at_ "/providers", "Providers"); ("members", at_ "/members", "Members");
    ("pricing", at_ "/pricing", "Pricing") ].
(** The entries whose key is the section are highlighted. *)
Definition menu_links {Ev} (section : string) (items : list (string * string * string)) : list (Node Ev) :=
  b ← items; when (String.eqb b.1.1 section) [Tag "selected" b.1.1] ++ [Link b.1.2 b.2].
Definition find_membership (ws : string) (memberships : list Membership) : option Membership :=
  List.find (fun m => String.eqb (ms_slug m) ws) memberships.
(** [workspaceName]: the name the membership's workspace has. *)
Definition AppShell (ws pathname email : string) (workspaceName : Membership -> string) (isSuperAdmin : bool)
    (memberships : list Membership) : list (Node ShellEvent) :=
  let current := find_membership ws memberships in
  menu_links (section_of "dashboard" pathname) (menu ws)
  ++ [ Text ((workspaceName <$> current) ?? ws) ]
  ++ for_some current (fun m => [Tag "default" (ms_role m)]) []
  ++ when isSuperAdmin [ Link "/admin" "Platform" ]
  ++ [ Text email; Button "Sign out" false false SignOut ].
Definition platform_menu : list (string * string * string) :=
  [ ("overview", "/admin", "Overview"); ("tenants", "/admin/tenants", "Tenants"); ("reports", "/admin/reports", "Reports") ].
Definition PlatformShell (pathname email : string) (memberships : list Membership) : list (Node ShellEvent) :=
  menu_links (section_of "overview" pathname) platform_menu
  ++ for_some (if_truthy (ms_slug <$> head memberships)) (fun slug => [Link ("/" +:+ slug) "Back to workspace"]) []
  ++ [ Text "Platform admin"; Text email; Button "Sign out" false false SignOut ].
