(* ===== verification/WebAdmin.v ===== *)
(** * apps/web/src/features/admin: the operator's pages

    PlatformOverview.tsx, PlatformTenants.tsx and PlatformReports.tsx. *)

From S2P Require Import Prelude JsString JsNum JsDate Json Shared Gateway Zod WebClient WebEndpoints WebUi WebFormat.
From Stdlib Require Import Ascii.

(** endpoints.ts: what the operator's routes answer. *)
Record PlatformStats := mkPlatformStats {
  pl_workspaces : Z; pl_users : Z; pl_activeKeys : Z; pl_requests30d : Z; pl_costUsd30d : string }.
Record PlatformWorkspace := mkPlatformWorkspace {
  pw_id : string; pw_name : string; pw_slug : string; pw_createdAt : Z; pw_members : Z; pw_projects : Z;
  pw_requests30d : Z; pw_costUsd30d : string }.
Record PlatformDayPoint := mkPlatformDay { py_date : string; py_requests : Z; py_costUsd : string }.
Definition spend (w : PlatformWorkspace) : option number := Number (inl (pw_costUsd30d w)).
(** [(a, b) => Number(b.costUsd30d) - Number(a.costUsd30d)]; NaN counts as equal. *)
Definition biggest (a b : PlatformWorkspace) : bool :=
  match spend a, spend b with Some x, Some y => 0 <=? num_mant (num_sub x y) | _, _ => true end.
Definition by_spend (l : list PlatformWorkspace) : list PlatformWorkspace := order_by biggest l.
(** [s.slice(5)]: a date without its year. *)
Definition trend (series : Query (list PlatformDayPoint)) : list (string * option number * Z) :=
  map (fun d => (slice_from 5 (py_date d), Number (inl (py_costUsd d)), py_requests d)) (q_rows series).

Section admin.
Context (format : Z -> string -> string) (toLocaleString : Z -> string).

(** ** PlatformOverview *)
Definition topTenants (workspaces : Query (list PlatformWorkspace)) : list PlatformWorkspace :=
  take 5 (by_spend (q_rows workspaces)).
Definition PlatformOverview {Ev} (stats : Query PlatformStats) (workspaces : Query (list PlatformWorkspace)) : list (Node Ev) :=
  let stat f := dec (for_some (q_data stats) f 0) in
  [ PageHeader "Platform" "Overview" [];
    Box "Workspaces" [Text (stat pl_workspaces)]; Box "Users" [Text (stat pl_users)];
    Box "Active keys" [Text (stat pl_activeKeys)];
    Box "Spend (30d)" [Text (formatUsd (inl (for_some (q_data stats) pl_costUsd30d "0")) true)];
    Box "Top tenants by spend"
      [ DataTable ["Workspace"; "Spend"] (q_isLoading workspaces)
          (map (fun w => [Link ("/" +:+ pw_slug w) (pw_name w); Text (usd (pw_costUsd30d w))]) (topTenants workspaces)) ] ].

(** ** PlatformTenants *)
(** [s.toLowerCase().includes(needle)] *)
Definition matches (needle s : string) : bool := includes needle (to_lower s).
Definition tenant_rows (q : string) (all : list PlatformWorkspace) : list PlatformWorkspace :=
  let needle := to_lower (trim q) in
  if String.eqb needle "" then all else List.filter (fun w => matches needle (pw_name w) || matches needle (pw_slug w)) all.
(** Events: what is searched for.  The table's default order is by spend. *)
Definition PlatformTenants (workspaces : Query (list PlatformWorkspace)) (q : string) : list (Node string) :=
  [ PageHeader "Platform" "Tenants" [ Search "Search tenants" q id ];
    DataTable ["Workspace"; "Slug"; "Members"; "Projects"; "Requests (30d)"; "Spend (30d)"; "Created"]
      (q_isLoading workspaces)
      (map (fun w => [ Link ("/" +:+ pw_slug w) (pw_name w); Text (pw_slug w); Text (dec (pw_members w));
                       Text (dec (pw_projects w)); Text (toLocaleString (pw_requests30d w)); Text (usd (pw_costUsd30d w));
                       Text (format (pw_createdAt w) "MMM D, YYYY") ])
         (by_spend (tenant_rows q (q_rows workspaces)))) ].

(** ** PlatformReports *)
Definition report_cells (w : PlatformWorkspace) : list string :=
  [ pw_name w; pw_slug w; dec_signed (pw_members w); dec_signed (pw_projects w); dec_signed (pw_requests30d w);
    match spend w with Some n => toFixed 6 n | None => "NaN" end ].
Definition tenant_header : list string := ["Workspace"; "Slug"; "Members"; "Projects"; "Requests30d"; "SpendUSD30d"].
(** [rows.map((r) => r.map(csv).join(",")).join("\n")] *)
Definition csv_content (rows : list (list string)) : string := join nl (map (fun r => join "," (map csv r)) rows).
Inductive ReportEvent := ExportReport.
Definition exportReport (now : Z) (workspaces : Query (list PlatformWorkspace)) : Effect :=
  SaveFile ("tokenledger-tenants_" +:+ format now "YYYY-MM-DD_HHmm" +:+ ".csv")
    (csv_content (tenant_header :: map report_cells (by_spend (q_rows workspaces)))).
Definition PlatformReports (workspaces : Query (list PlatformWorkspace)) : list (Node ReportEvent) :=
  let tenants := by_spend (q_rows workspaces) in
  [ PageHeader "Platform" "Reports" [ Button "Export tenant CSV" (length tenants =? 0)%nat false ExportReport ];
    DataTable ["Workspace"; "Members"; "Projects"; "Requests"; "Spend"] (q_isLoading workspaces)
      (map (fun w => [ Text (pw_name w); Text (dec (pw_members w)); Text (dec (pw_projects w));
                       Text (toLocaleString (pw_requests30d w)); Text (usd (pw_costUsd30d w)) ]) tenants) ].
End admin.
