(* ===== verification/WebForms.v ===== *)
(** * What the console's forms submit is what the API reads

    Every form of the console with its fields and the call its values become,
    and that the schema of the handler reads exactly those values. *)

From S2P Require Import Prelude JsString JsNum JsDate Json Shared Auth Providers Gateway Zod WebClient WebEndpoints.
From S2P Require Import ApiDb ApiAuth ApiKeys ApiMembers ApiOrg ApiPricing.
From S2P Require Import WebUi WebKeys WebMembers WebProviders WebPricing WebTeams WebOnboarding WebSignIn ApiExample.
From Stdlib Require Import Ascii.

Inductive ConsoleForm :=
| LoginForm | RegisterForm
| AcceptForm | InviteForm
| WizardCredentialForm (p : Provider) | WizardProjectForm | WizardKeyForm (projects : list Project)
| AddCredentialForm (p : Provider) | EditCredentialForm (c : CredView)
| IssueKeyForm (projects : Query (list Project)) (members : Query (list MemberView)) (credentials : Query (list CredView))
| EditKeyForm (credentials : Query (list CredView)) (k : KeyView)
| ProjectForm | TeamForm
| NewOverrideForm | EditOverrideForm (o : OverrideView).
Definition fields_of (f : ConsoleForm) : list Field :=
  match f with
  | LoginForm => login_fields
  | RegisterForm => register_fields
  | AcceptForm => accept_fields
  | InviteForm => invite_fields
  | WizardCredentialForm p => credential_fields p
  | WizardProjectForm => project_fields
  | WizardKeyForm projects => key_fields projects
  | AddCredentialForm p => add_fields p
  | EditCredentialForm c => edit_cred_fields c
  | IssueKeyForm projects members credentials => issue_fields projects members credentials
  | EditKeyForm credentials k => edit_fields credentials k
  | ProjectForm | TeamForm => name_fields "Description"
  | NewOverrideForm => override_fields None
  | EditOverrideForm o => override_fields (Some o)
  end.
Definition caller_of (ws : string) (f : ConsoleForm) (vs : Values) : Caller :=
  match f with
  | LoginForm => login_caller (text_of (val vs "email") ?? "") (text_of (val vs "password") ?? "")
  | RegisterForm => register_caller vs
  | AcceptForm => accept_caller ws vs       (** [ws]: the token of the page *)
  | InviteForm => invite_caller ws vs
  | WizardCredentialForm p => wizardCredential_caller ws p vs
  | WizardProjectForm => wizardProject_caller ws vs
  | WizardKeyForm _ => wizardKey_caller ws vs
  | AddCredentialForm p => addCredential_caller ws p vs
  | EditCredentialForm c => updateCredential_caller ws c vs
  | IssueKeyForm _ _ _ => issueKey_caller ws vs
  | EditKeyForm _ k => updateKey_caller ws k vs
  | ProjectForm => createProject_caller ws vs
  | TeamForm => createTeam_caller ws vs
  | NewOverrideForm => createOverride_caller ws vs
  | EditOverrideForm o => updateOverride_caller ws (ov_id o) vs
  end.

Section forms.
Context (E : ApiEnv) (email url : string -> bool).

(** ** What the handler reads *)
Definition list_of (v : Value) : list string := match v with VList l => l | _ => [] end.
Definition reads (f : ConsoleForm) (vs : Values) (body : json) : Prop :=
  let ot k := text_of (val vs k) in
  let t k := text_of (val vs k) ?? "" in
  match f with
  | LoginForm => loginSchema E (Some body) = Some (to_lower (t "email"), t "password")
  | RegisterForm =>
      registerSchema E (Some body) = Some (mkRegister (to_lower (t "email")) (t "password") (t "name") (ot "workspaceName"))
  | AcceptForm => acceptSchema (Some body) = Some (ot "name", ot "password")
  | InviteForm => exists r, inviteSchema E (Some body) = Some (to_lower (t "email"), r) /\ role_text r = t "role"
  | WizardCredentialForm p =>
      credSchema E (Some body) = Some (mkCredBody p (t "name") (ot "secret") (ot "baseUrl") [] true)
  | AddCredentialForm p => credSchema E (Some body) = Some (mkCredBody p (t "name") (ot "secret") (ot "baseUrl") [] false)
  | EditCredentialForm c =>
      credPatchSchema E (Some body) = Some (mkCredPatch None false (Some (t "name")) (if_truthy (ot "secret"))
        match if_truthy (ot "baseUrl") with
        | Some u => Some (Some u)
        | None => if provider_eqb (cv_provider c) OLLAMA then None else Some None
        end)
  | WizardProjectForm | ProjectForm =>
      createProjectSchema E (Some body) = Some (mkProjectBody (t "name") None None (ot "description") [])
  | TeamForm => createTeamSchema (Some body) = Some (mkTeamBody (t "name") None (ot "description"))
  | WizardKeyForm _ => issueSchema E (Some body) = Some (mkIssue (t "projectId") (t "name") None [] [] [] None None)
  | IssueKeyForm _ _ _ =>
      issueSchema E (Some body) =
        Some (mkIssue (t "projectId") (t "name") (ot "userId") [] (list_of (val vs "credentialAllowlist")) [] None None)
  | EditKeyForm _ _ =>
      keyPatchSchema E (Some body) = Some (mkKeyPatch (Some (t "name")) (Some (list_of (val vs "credentialAllowlist"))) None
        (Some match val vs "rpmLimit" with VNum (NInt n) => Some n | _ => None end)
        (Some match val vs "expiresAt" with VDate d => Some d | _ => None end))
  | NewOverrideForm => exists p, provider_text p = t "provider" /\
      overrideSchema (Some body) = Some (mkOverrideBody p (t "modelPattern") (t "inputPerMtok") (t "outputPerMtok")
        (ot "cacheReadPerMtok" ?? "0") (ot "cacheWritePerMtok" ?? "0"))
  | EditOverrideForm o =>
      overridePatchSchema (Some body) = Some (mkOverridePatch (Some (ov_provider o)) (Some (ov_modelPattern o))
        (ot "inputPerMtok") (ot "outputPerMtok") (ot "cacheReadPerMtok") (ot "cacheWritePerMtok"))
  end.

(** ** What the rules of a form do not check

    Lengths the API bounds; the characters of a pattern; prices with more than
    six decimals or an exponent; fractional rate limits; and optional fields that
    were filled in and cleared again, which submit an empty text or a null. *)
(** The UTF-8 text of a JavaScript string does not begin inside a character. *)
Definition js_text (s : string) : bool :=
  match s with String c _ => negb ((128 <=? code c) && (code c <? 192)) | "" => true end.
Definition text_within (n : nat) (v : Value) : Prop :=
  match v with VStr s => js_text s = true /\ (js_length s <= n)%nat | _ => True end.
Definition not_cleared (v : Value) : Prop := match v with VStr s => s <> "" | VNull => False | _ => True end.
Definition uuid_like (v : Value) : Prop :=
  match v with VStr s => z_uuid (e_zod E) s = true | VList l => Forall (fun s => z_uuid (e_zod E) s = true) l | _ => True end.
Definition price_like (v : Value) : Prop := match v with VStr s => zprice (Some (JStr s)) = Some s | VUndef => True | _ => False end.
Definition pattern_like (v : Value) : Prop :=
  match v with VStr s => zpattern (Some (JStr s)) = Some s | _ => True end.
Definition fits_api (f : ConsoleForm) (vs : Values) : Prop :=
  let v := val vs in
  match f with
  | LoginForm => True
  | RegisterForm =>
      text_within 200 (v "password") /\ text_within 100 (v "name") /\ text_within 100 (v "workspaceName") /\
      not_cleared (v "workspaceName")
  | AcceptForm => text_within 100 (v "name") /\ text_within 200 (v "password")
  | InviteForm => True
  | WizardCredentialForm _ => text_within 100 (v "name") /\ text_within 500 (v "secret")
  | AddCredentialForm _ => text_within 100 (v "name") /\ text_within 500 (v "secret") /\ not_cleared (v "baseUrl")
  | EditCredentialForm _ => text_within 100 (v "name") /\ text_within 500 (v "secret")
  | WizardProjectForm => text_within 100 (v "name")
  | ProjectForm | TeamForm => text_within 100 (v "name") /\ text_within 500 (v "description")
  | WizardKeyForm _ => text_within 100 (v "name") /\ uuid_like (v "projectId")
  | IssueKeyForm _ _ _ =>
      text_within 100 (v "name") /\ uuid_like (v "projectId") /\ uuid_like (v "userId") /\
      uuid_like (v "credentialAllowlist") /\ (length (list_of (v "credentialAllowlist")) <= 50)%nat
  | EditKeyForm _ _ =>
      text_within 100 (v "name") /\ uuid_like (v "credentialAllowlist") /\
      (length (list_of (v "credentialAllowlist")) <= 50)%nat /\
      match v "rpmLimit" with VNum n => exists z, n = NInt z /\ 1 <= z | _ => True end /\
      match v "expiresAt" with VDate t => 0 <= t < 253402300800000 | _ => True end
  | NewOverrideForm =>
      pattern_like (v "modelPattern") /\ price_like (v "inputPerMtok") /\ price_like (v "outputPerMtok") /\
      price_like (v "cacheReadPerMtok") /\ price_like (v "cacheWritePerMtok")
  | EditOverrideForm o =>
      pattern_like (v "modelPattern") /\ price_like (v "inputPerMtok") /\ price_like (v "outputPerMtok") /\
      price_like (v "cacheReadPerMtok") /\ price_like (v "cacheWritePerMtok")
  end.

(** ** Reading a form *)
Lemma char_count_length s : (char_count s <= js_length s)%nat.
Proof.
  induction s as [|c s IH]; [done|]. cbn [char_count js_length].
  destruct (128 <=? code c) eqn:E1, (code c <? 192) eqn:E2, (code c <? 128) eqn:E3, (code c <? 240) eqn:E4; cbn; lia.
Qed.
Lemma js_text_length s : js_text s = true -> s <> "" -> (1 <= js_length s)%nat.
Proof.
  destruct s as [|c s]; [done|]. intros Ht _. eapply Nat.le_trans; [|apply char_count_length]. cbn in *.
  destruct (_ && _); cbn in *; [done|lia].
Qed.
Lemma zlen_ok a b s : (a <= js_length s <= b)%nat -> zlen a b (Some (JStr s)) = Some s.
Proof. intros [Ha Hb]. unfold zlen, zrefine. cbn. by rewrite (proj2 (Nat.leb_le _ _) Ha), (proj2 (Nat.leb_le _ _) Hb). Qed.
Lemma zname_ok n s : js_text s = true -> (js_length s <= n)%nat -> s <> "" -> zlen 1 n (Some (JStr s)) = Some s.
Proof. intros Ht Hl Hs. apply zlen_ok. split; [by apply js_text_length|done]. Qed.
Lemma zpassword_ok s :
  s <> "" -> s = "" \/ (8 <= char_count s)%nat -> (js_length s <= 200)%nat -> zlen 8 200 (Some (JStr s)) = Some s.
Proof. intros Hs [?|Hc] Hl; [done|]. apply zlen_ok. split; [|done]. pose proof (char_count_length s). lia. Qed.
Lemma ztext_ok n s : (js_length s <= n)%nat -> zlen 0 n (Some (JStr s)) = Some s.
Proof. intros Hl. apply zlen_ok. split; [apply Nat.le_0_l|done]. Qed.
Lemma zprovider_ok p : zprovider (Some (JStr (provider_text p))) = Some p.
Proof. by destruct p. Qed.
Lemma zuuid_ok s : z_uuid (e_zod E) s = true -> zuuid E (Some (JStr s)) = Some s.
Proof. intros Hs. unfold zuuid, zrefine. cbn. by rewrite Hs. Qed.
Lemma zuuids_ok l :
  Forall (fun s => z_uuid (e_zod E) s = true) l -> (length l <= 50)%nat -> zmax 50 (zarray (zuuid E)) (Some (JArr (map JStr l))) = Some l.
Proof.
  intros Hl Hn. assert (zarray (zuuid E) (Some (JArr (map JStr l))) = Some l) as Ha.
  { cbn. clear Hn. induction Hl as [|s l Hs _ IH]; [done|]. cbn. rewrite Hs. cbn. by rewrite IH. }
  unfold zmax, zrefine. rewrite Ha. cbn. by rewrite (proj2 (Nat.leb_le _ _) Hn).
Qed.
(** What the rules say of a text. *)
Definition rule_says (s : string) (r : Rule) : Prop :=
  match r with
  | Required => s <> ""
  | IsEmail => s = "" \/ email s = true
  | IsUrl => s = "" \/ url s = true
  | MinLength n => s = "" \/ (n <= char_count s)%nat
  end.
Lemma rules_say s rs : forallb (rule_ok email url (VStr s)) rs = true -> Forall (rule_says s) rs.
Proof.
  intros H. apply forallb_forall in H || rewrite forallb_forall in H. apply Forall_forall. intros r Hin.
  specialize (H r (proj1 (list_elem_of_In _ _) Hin)). destruct s as [|c s]; destruct r; cbn in *; auto.
  right. by apply Nat.leb_le.
Qed.

(** The fields of a form, one value after the other. *)
Lemma form_ok_cons f fs vs :
  form_ok email url (f :: fs) vs ->
  exists v rest, vs = (f_name f, v) :: rest /\ (v = f_initial f \/ f_disabled f = false /\ entered f v) /\
    forallb (rule_ok email url v) (f_rules f) = true /\ form_ok email url fs rest.
Proof.
  intros H. apply Forall2_cons_inv_l in H as ([k v] & rest & (Hk & Hv & Hr) & Hrest & ->). cbn in *. subst k.
  by exists v, rest.
Qed.
Lemma form_ok_nil vs : form_ok email url [] vs -> vs = [].
Proof. by intros ->%Forall2_nil_inv_l. Qed.
End forms.
Ltac value_cases v Hv Hr :=
  destruct v; cbn [f_initial f_disabled f_rules entered f_widget text_field choice_field price_field] in Hv, Hr;
  first [ (exfalso; discriminate Hr)
        | (exfalso; destruct Hv as [Hv|[? Hv]]; [discriminate Hv|first [contradiction Hv|discriminate]])
        | (apply rules_say in Hr; rewrite ?Forall_cons, ?Forall_nil in Hr; cbn [rule_says] in Hr)
        | idtac ].
Ltac one_field H :=
  let v := fresh "v" in let Hv := fresh "Hv" in let Hr := fresh "Hr" in
  apply form_ok_cons in H as (v & ? & -> & Hv & Hr & H); value_cases v Hv Hr;
  cbn [f_name text_field choice_field price_field] in *.
Ltac all_fields H := repeat one_field H; apply form_ok_nil in H as ->.

(** A text, an email, a choice among the forms' values, as their schema reads it. *)
Section pieces.
Context (E : ApiEnv) (email url : string -> bool).
Lemma zemail_ok s :
  (forall s, email s = true -> z_email (e_zod E) s = true) -> s <> "" -> s = "" \/ email s = true ->
  zemail E (Some (JStr s)) = Some (to_lower s).
Proof. intros H Hs [?|He]; [done|]. unfold zemail, zmap, zrefine. cbn. by rewrite (H _ He). Qed.
Lemma zurl_ok s :
  (forall s, url s = true -> z_url (e_zod E) s = true) -> s <> "" -> s = "" \/ url s = true ->
  zurl E (Some (JStr s)) = Some s.
Proof. intros H Hs [?|He]; [done|]. unfold zurl, zrefine. cbn. by rewrite (H _ He). Qed.
Lemma zoptional_ok {A} (z : schema A) j a : z (Some j) = Some a -> zoptional z (Some j) = Some (Some a).
Proof. intros H. unfold zoptional. by rewrite H. Qed.
Lemma zoptional_none {A} (z : schema A) : zoptional z None = Some None.
Proof. done. Qed.
Lemma zdefault_ok {A} (d : A) (z : schema A) j a : z (Some j) = Some a -> zdefault d z (Some j) = Some a.
Proof. done. Qed.
Lemma zdefault_none {A} (d : A) (z : schema A) : zdefault d z None = Some d.
Proof. done. Qed.
Lemma znullable_ok {A} (z : schema A) j a : j <> JNull -> z (Some j) = Some a -> znullable z (Some j) = Some (Some a).
Proof. intros Hj H. unfold znullable. destruct j; by rewrite ?H. Qed.
Lemma znullable_null {A} (z : schema A) : znullable z (Some JNull) = Some None.
Proof. done. Qed.
Lemma zbool_ok b : zbool (Some (JBool b)) = Some b.
Proof. done. Qed.
Lemma zrpm_ok n : 1 <= n -> zrpm (Some (JNum (NInt n))) = Some n.
Proof. intros H. unfold zrpm, zrefine. cbn. by rewrite (proj2 (Z.leb_le _ _) H). Qed.
Lemma zuuid_text_ok s : z_uuid (e_zod E) s = true -> zuuid_text E (Some (JStr s)) = Some s.
Proof. apply zuuid_ok. Qed.
Lemma role_choice (v : Value) s :
  v = VStr s -> v = VStr "MEMBER" \/ false = false /\ entered (hd (text_field "" "" [] VUndef) (tl invite_fields)) v ->
  exists r, zdefault MEMBER (zenum invitable) (Some (JStr s)) = Some r /\ role_text r = s.
Proof.
  intros -> [[= ->]|[_ Hin]]; [by exists MEMBER|]. cbn in Hin.
  repeat (apply elem_of_cons in Hin as [->|Hin]); [by exists ADMIN|by exists MEMBER|by exists VIEWER|by apply elem_of_nil in Hin].
Qed.
Lemma provider_choice s : VStr s = VStr "ANTHROPIC" \/ false = false /\ s ∈ map fst (options_of provider_text provider_text ALL_PROVIDERS) ->
  exists p, s = provider_text p.
Proof.
  intros [[= ->]|[_ Hin]]; [by exists ANTHROPIC|]. apply list_elem_of_fmap in Hin as (x & -> & (p & -> & _)%list_elem_of_fmap).
  by exists p.
Qed.
(** One field of a schema read, the next. *)
Lemma read_step {A B} (o : option A) (a : A) (k : A -> option B) r : o = Some a -> k a = r -> o ≫= k = r.
Proof. by intros ->. Qed.
Lemma if_truthy_text s : s <> "" -> if_truthy (Some s) = Some s.
Proof. by destruct s. Qed.
Lemma given_text s : s <> "" -> given (VStr s) = true.
Proof. by destruct s. Qed.
Lemma given_blank : given (VStr "") = false /\ given VUndef = false /\ given VNull = false.
Proof. done. Qed.
Lemma zexpires_ok t : 0 <= t < 253402300800000 -> zcoerce_date (Some (JStr (toISOString t))) = Some t.
Proof. apply date_roundtrip. Qed.
End pieces.
Create HintDb forms discriminated.
#[export] Hint Resolve zname_ok zpassword_ok ztext_ok zprovider_ok zuuid_ok zuuids_ok zemail_ok zurl_ok zoptional_ok
  zoptional_none zdefault_ok zdefault_none znullable_ok znullable_null zbool_ok zrpm_ok zuuid_text_ok zexpires_ok : forms.
Ltac fold_form :=
  cbn -[zlen zuuid zmax zarray zprovider zpattern zprice zemail zurl zoptional zdefault znullable zcoerce_date zrpm if_truthy
        given toISOString js_length js_text Z.le Nat.le].
(** Each text is empty or not. *)
Ltac split_texts := repeat match goal with
  | |- context [given (VStr ?s)] => is_var s; destruct (String.eqb_spec s "") as [->|?]; [try done|rewrite ?(given_text s) by done]
  | |- context [if_truthy (Some ?s)] =>
      is_var s; destruct (String.eqb_spec s "") as [->|?]; [try done|rewrite ?(if_truthy_text s) by done]
  | H : provider_eqb _ _ = _ |- _ => rewrite H; clear H
  end; rewrite ?(proj1 given_blank), ?(proj1 (proj2 given_blank)), ?(proj2 (proj2 given_blank)).
Ltac read_schema := repeat (eapply read_step; [solve [eauto 6 with forms]|cbv beta]); try reflexivity.
(** A form's values field by field, what the API needs of them, the body read. *)
Ltac read_the_form Hform Hfits :=
  unfold add_fields, credential_fields, edit_cred_fields, edit_fields, key_fields, override_fields in Hform;
  repeat break_match_in Hform; all_fields Hform;
  unfold fits_api, text_within, not_cleared, uuid_like, price_like, pattern_like in Hfits; cbn in Hfits;
  destruct_and?; try contradiction; repeat match goal with H : exists _, _ |- _ => destruct H as (? & -> & ?) end;
  fold_form; split_texts; fold_form;
  repeat match goal with
  | H : VStr _ = VStr "ANTHROPIC" \/ _ |- _ => apply provider_choice in H as [? ->]; eexists; (split; [reflexivity|])
  | H : VStr _ = VStr "MEMBER" \/ _ |- _ =>
      apply (role_choice _ _ eq_refl) in H as (? & ? & <-); eexists; (split; [|reflexivity])
  | H : VStr _ = _ \/ bool_decide (is_Some (Some _)) = false /\ _ |- _ => destruct H as [[= ->]|[? _]]; [|discriminate]
  end;
  read_schema.

(** C15: The API reads what the console's forms mean: whatever values a form may
    be submitted with under its own rules, within the bounds the rules do not
    check, the schema of the handler its call reaches accepts the body and reads
    exactly those values, with the defaults the API fills in. *)
Theorem forms_are_read E email url encode ws f vs :
  (forall s, email s = true -> z_email (e_zod E) s = true) -> (forall s, url s = true -> z_url (e_zod E) s = true) ->
  form_ok email url (fields_of f) vs -> fits_api E f vs ->
  exists body, fe_body (fetch_of encode (caller_of ws f vs)) = Some body /\ reads E f vs body.
Proof.
  intros Hemail Hurl Hform Hfits.
  destruct f; eexists; (split; [reflexivity|]); cbn [fields_of] in Hform; read_the_form Hform Hfits.
Qed.

(** Formats every text has, and a key to edit. *)
Definition ex_formats (_ : string) : bool := true.
Definition ex_view : KeyView := keySelect ex_key.
Definition ex_edit : Values :=
  [ ("name", VStr "ci"); ("credentialAllowlist", VList ["c1"]); ("rpmLimit", VNum (NInt 60)); ("expiresAt", VDate 86400000) ].
Definition ex_credentials : Query (list CredView) :=
  mkQuery (Some [mkCredView "c1" OPENAI "main" (Some "1234") None [] true true 0]) false false.
Lemma forms_are_read_witness :
  keyPatchSchema ex_env (fe_body (fetch_of id (caller_of "one" (EditKeyForm ex_credentials ex_view) ex_edit))) =
    Some (mkKeyPatch (Some "ci") (Some ["c1"]) None (Some (Some 60)) (Some (Some 86400000))).
Proof.
  destruct (forms_are_read ex_env ex_formats ex_formats id "one" (EditKeyForm ex_credentials ex_view) ex_edit) as (body & Hb & Hr).
  - done.
  - done.
  - repeat (apply Forall2_cons; split; [split; [done|]; split; [right; split; [done|]|done]|]); [done| |done|done|constructor].
    split; [apply NoDup_singleton|]. intros x ->%list_elem_of_singleton. left. cbn. by left.
  - cbn. split_and!; try done; try lia; try (by repeat constructor); by exists 60.
  - rewrite Hb. exact Hr.
Defined.

(** ** What the rules let through and the API refuses *)
Definition strict_zod : ZodFormats := mkZod (fun s => negb (String.eqb s "")) (fun s => negb (String.eqb s ""))
  (fun s => negb (String.eqb s "")) (fun s => negb (String.eqb s "")).
Definition ex_strict : ApiEnv := {|
  e_P := e_P ex_env; e_J := e_J ex_env; e_zod := strict_zod; e_uuid := e_uuid ex_env;
  jwtSecret := jwtSecret ex_env; publicBaseUrl := publicBaseUrl ex_env; superAdmins := superAdmins ex_env;
  ring := ring ex_env; e_now := e_now ex_env; e_id := e_id ex_env; e_blocks := e_blocks ex_env;
  e_salt := e_salt ex_env; e_iv := e_iv ex_env; e_suffix := e_suffix ex_env; e_redis_up := e_redis_up ex_env;
  e_queue_up := e_queue_up ex_env |}.
(** Values that are the initial ones or typed into a text field. *)
Ltac form_values :=
  repeat (apply Forall2_cons; split;
    [split; [reflexivity|split; [first [left; vm_compute; reflexivity|right; split; [reflexivity|first [exact I|vm_compute; reflexivity]]]|vm_compute; reflexivity]]|]);
  constructor.
(** An optional field that was filled in and cleared again is submitted as an
    empty text, or as a null from a number input; the API takes neither for
    absent.  The forms of a new credential and of registration allow it, and the
    editor of an override. *)
Definition cleared_url : Values := [("name", VStr "Default"); ("secret", VStr "sk-1"); ("baseUrl", VStr "")].
Definition cleared_workspace : Values :=
  [("name", VStr "Ann"); ("email", VStr "a@x.io"); ("password", VStr "12345678"); ("workspaceName", VStr "")].
Definition cleared_price : Values :=
  [("provider", VStr "OPENAI"); ("modelPattern", VStr "gpt-4"); ("inputPerMtok", VStr "2.5"); ("outputPerMtok", VStr "10");
   ("cacheReadPerMtok", VNull); ("cacheWritePerMtok", VStr "0")].
Lemma cleared_fields_are_refused :
  (form_ok ex_formats ex_formats (add_fields OPENAI) cleared_url /\
   credSchema ex_strict (fe_body (fetch_of id (addCredential_caller "one" OPENAI cleared_url))) = None) /\
  (form_ok ex_formats ex_formats register_fields cleared_workspace /\
   registerSchema ex_strict (fe_body (fetch_of id (register_caller cleared_workspace))) = None) /\
  (form_ok ex_formats ex_formats (override_fields (Some (serializeOverride ex_price))) cleared_price /\
   overridePatchSchema (fe_body (fetch_of id (updateOverride_caller "one" "o1" cleared_price))) = None).
Proof.
  split_and!; [|vm_compute; reflexivity| |vm_compute; reflexivity| |vm_compute; reflexivity]; form_values.
Qed.
(** A rate limit with a fraction passes the number input. *)
Lemma fractional_rate_is_refused :
  let vs : Values := [("name", VStr "ci"); ("credentialAllowlist", VList []); ("rpmLimit", VNum (NDec 15 1)); ("expiresAt", VNull)] in
  form_ok ex_formats ex_formats (edit_fields ex_credentials ex_view) vs /\
  keyPatchSchema ex_strict (fe_body (fetch_of id (updateKey_caller "one" ex_view vs))) = None.
Proof.
  split; [form_values|vm_compute; reflexivity].
Qed.
