(* ===== verification/WebJourney.v ===== *)
(** * From the console's wizard to the gateway

    The three forms of the first-run wizard, submitted one after the other and
    served by the API, leave tables from which the gateway admits the token the
    wizard shows and takes the provider key that was typed. *)

From S2P Require Import Prelude JsString JsNum JsDate Json Shared Providers FrameTap Gateway Proxy.
From S2P Require Import Auth Stores Zod WebClient WebEndpoints.
From S2P Require Import ApiDb ApiAuth ApiKeys ApiMembers ApiOrg ApiPricing ApiRules ApiSteps ApiRefine ApiEffects ApiSafety.
From S2P Require Import ApiGateway ApiExample WebUi WebProviders WebOnboarding WebForms.
From Stdlib Require Import Ascii.

(** ** What the wizard's three requests leave behind *)
Section requests.
Context (E : ApiEnv) (rq : ApiRequest) (ws : string) (user : AuthedUser).
Hypothesis signed_in : authenticated E rq user.
Lemma default_created w w' view body :
  createCredential E rq ws w = (w', Ok view) -> credSchema E (rq_json rq) = Some body -> cb_isDefault body = true ->
  exists c uid l, e_uuid E (au_id user) = Some uid /\ guarded E uid ws (db w) = Some (c_workspaceId c) /\
    view = credSelect c /\ db w' = set_credentials (l ++ [c]) (db w) /\
    c_provider c = cb_provider body /\ c_baseUrl c = cb_baseUrl body /\ c_active c = true /\ c_isDefault c = true /\
    sealed_by E (cb_secret body) (c_encryptedSecret c).
Proof.
  intros Hcreate Hbody Hdef. pattern view, w'. revert Hcreate. apply safe_ok with (S := fun _ => True).
  unfold createCredential. apply safe_route_of with (user := user); [done|]. intros uid ctx Huid Hctx. pose proof (guarded_ctx _ _ _ _ _ Hctx) as Hws. run.
  rewrite Hbody in *. simplify_eq.
  apply safe_undefault. intros w1 Hw1. run. apply safe_seal_sealed; [done|]. intros sealed last4 Hsealed. run.
  eexists (mkCredential _ _ _ _ _ _ _ _ _ _ _), uid, _. split_and!; try done; cbn; [by rewrite Hw1|by rewrite Hdef].
Qed.
Lemma project_created w w' view body :
  createProject E rq ws w = (w', Ok view) -> createProjectSchema E (rq_json rq) = Some body -> pb_teamId body = None ->
  p_id view = e_id E 0 /\ p_teamId view = None /\ db w' = set_projects (projects (db w) ++ [view]) (db w).
Proof.
  intros Hcreate Hbody Hteam. pattern view, w'. revert Hcreate. apply safe_ok with (S := fun _ => True).
  unfold createProject. apply safe_route_of with (user := user); [done|]. intros uid ctx Huid Hctx. pose proof (guarded_ctx _ _ _ _ _ Hctx) as Hws. run.
  rewrite Hbody in *. simplify_eq. rewrite Hteam. cbn [check_team]. run. done.
Qed.
Lemma key_issued w w' view token body :
  issueKey E rq ws w = (w', Ok (view, token)) -> issueSchema E (rq_json rq) = Some body ->
  ib_userId body = None -> ib_credentialAllowlist body = [] -> ib_providerAllowlist body = [] ->
  exists k uid pid, e_uuid E (au_id user) = Some uid /\ guarded E uid ws (db w) = Some (k_workspaceId k) /\
    view = keySelect k /\ db w' = set_virtual_keys (virtual_keys (db w) ++ [k]) (db w) /\
    e_uuid E (ib_projectId body) = Some pid /\
    k = mkVirtualKey (k_id k) (k_workspaceId k) pid uid (k_name k) (sha256Hex (e_P E) token) (k_keyLast4 k) [] []
          (ib_modelAllowlist body) (ib_rpmLimit body) (ib_expiresAt body) KEY_ACTIVE None (k_createdAt k) /\
    starts_with TOKEN_PREFIX_virtualKey token = true.
Proof.
  intros Hissue Hbody Huser Hcreds Hprov.
  apply (safe_ok (fun _ => True) (issueKey E rq ws) w w' (view, token) (fun r w' => exists k uid pid,
    e_uuid E (au_id user) = Some uid /\ guarded E uid ws (db w) = Some (k_workspaceId k) /\
    r.1 = keySelect k /\ db w' = set_virtual_keys (virtual_keys (db w) ++ [k]) (db w) /\
    e_uuid E (ib_projectId body) = Some pid /\
    k = mkVirtualKey (k_id k) (k_workspaceId k) pid uid (k_name k) (sha256Hex (e_P E) r.2) (k_keyLast4 k) [] []
          (ib_modelAllowlist body) (ib_rpmLimit body) (ib_expiresAt body) KEY_ACTIVE None (k_createdAt k) /\
    starts_with TOKEN_PREFIX_virtualKey r.2 = true)); [|done].
  unfold issueKey. apply safe_route_of with (user := user); [done|]. intros uid ctx Huid Hctx. pose proof (guarded_ctx _ _ _ _ _ Hctx) as Hws. run.
  rewrite Hbody in *. simplify_eq. rewrite Hcreds, Hprov, Huser in *. cbn [resolveProviderAllowlist]. run.
  match goal with H : mintVirtualKey _ _ = Some _ |- _ => apply minted in H as [Hh Ht] end.
  repeat match goal with H : mapM _ [] = Some _ |- _ => injection H as <- end. cbn [fst snd]. rewrite <- Hh.
  match goal with H : e_uuid _ (None ?? _) = _ |- _ => cbn in H end. simplify_eq.
  match goal with H : fits _ ?k (virtual_keys _) = Ok tt |- _ => exists k, uid, (k_projectId k) end.
  cbn. by split_and!.
Qed.
End requests.

(** ** What the API reads of the wizard's forms *)
Section wizard.
Context (E : ApiEnv) (email url : string -> bool) (encode : string -> string) (ws : string).
Hypothesis url_agrees : forall s, url s = true -> z_url (e_zod E) s = true.
Lemma wizard_credential_read p vs :
  form_ok email url (credential_fields p) vs -> fits_api E (WizardCredentialForm p) vs ->
  exists name, credSchema E (fe_body (fetch_of encode (wizardCredential_caller ws p vs))) =
    Some (mkCredBody p name (text_of (val vs "secret")) (text_of (val vs "baseUrl")) [] true) /\
    if_truthy (text_of (val vs "secret")) = text_of (val vs "secret") /\
    if_truthy (text_of (val vs "baseUrl")) = text_of (val vs "baseUrl").
Proof.
  intros Hform Hfits. exists (text_of (val vs "name") ?? ""). split; [read_the_form Hform Hfits|].
  clear Hfits. unfold credential_fields in Hform. destruct (provider_eqb p OLLAMA); all_fields Hform; cbn -[if_truthy];
    split; try done; apply if_truthy_text; destruct_and?; done.
Qed.
Lemma wizard_project_read vs :
  form_ok email url project_fields vs -> fits_api E WizardProjectForm vs ->
  exists name, createProjectSchema E (fe_body (fetch_of encode (wizardProject_caller ws vs))) =
    Some (mkProjectBody name None None None []).
Proof. intros Hform Hfits. exists (text_of (val vs "name") ?? ""). read_the_form Hform Hfits. Qed.
Lemma wizard_key_read projects vs :
  form_ok email url (key_fields projects) vs -> fits_api E (WizardKeyForm projects) vs ->
  exists name, issueSchema E (fe_body (fetch_of encode (wizardKey_caller ws vs))) =
    Some (mkIssue (text_of (val vs "projectId") ?? "") name None [] [] [] None None).
Proof. intros Hform Hfits. exists (text_of (val vs "name") ?? ""). read_the_form Hform Hfits. Qed.
End wizard.

(** ** A native request of a key without limits *)
Section native.
Context (d : GatewayDeps) (w : Env) (rq : Gateway.Request).
Lemma go_on {A B} (m : M A) a (f : A -> M B) : m = ([], inl a) -> (x ← m; f x) = f a.
Proof. intros ->. cbn. by destruct (f a). Qed.
Lemma effect_kept {A B} (m : M A) (f : A -> M B) e : e ∈ m.1 -> e ∈ (x ← m; f x).1.
Proof. destruct m as [es [a|o]]; cbn; [|done]. destruct (f a). set_solver. Qed.
Lemma call_made {B} em call (k : UpstreamResponse -> M B) : EUpstream call ∈ (res ← callUpstream w rq em call; k res).1.
Proof. apply effect_kept. unfold callUpstream. cbn. destruct (match _ with Ok _ => _ | Throw _ => _ end). set_solver. Qed.
Lemma body_prepared adapter :
  (forall stream, rq_body rq = Some stream -> exists raw, readAll stream MAX_REQUEST_BODY = Ok raw) ->
  exists body model, prepareBody adapter rq = ([], inl (body, model)).
Proof.
  intros Hread. unfold prepareBody. destruct (rq_body rq) as [stream|]; [|by do 2 eexists].
  destruct (Hread stream eq_refl) as [raw ->]. cbn. destruct (_ && _); [|by do 2 eexists].
  destruct (x ← json_parse _; _) as [[parsed m]|e]; [|by do 2 eexists].
  destruct (ensureUsageInStream _ _); by do 2 eexists.
Qed.
Lemma native_reaches_provider p ctx cred :
  find_provider (rq_provider rq) = Some p ->
  authorizeKey d (Proxy.sha256Hex w) (e_authNow w) (rq_headers rq) = Ok (inl ctx) ->
  providerAllowlist ctx = [] -> modelAllowlist ctx = [] -> rpmLimit ctx = None ->
  (forall stream, rq_body rq = Some stream -> exists raw, readAll stream MAX_REQUEST_BODY = Ok raw) ->
  credentialStore_getDefault d (ctx_workspaceId ctx) p (credentialAllowlist ctx) = Ok (Some cred) ->
  let up := buildUpstream (getAdapter p) (subPath rq) (adapter_credential cred) in
  exists call, EUpstream call ∈ (Proxy.run (makeGatewayHandler d w rq)).1 /\
    uc_method call = rq_method rq /\ uc_url call = up_url up /\ uc_headers call = native_headers rq up.
Proof.
  intros Hp Hauth Hprov Hmodel Hrpm Hread Hcred up. destruct (body_prepared (getAdapter p) Hread) as (body & model & Hbody).
  exists (Proxy.mkCall (rq_method rq) (up_url up) (native_headers rq up) body). split; [|done].
  unfold makeGatewayHandler. rewrite Hp. erewrite go_on; [|unfold authorize; rewrite Hauth; reflexivity].
  erewrite go_on; [|unfold providerAllowed; rewrite Hprov; reflexivity]. cbv zeta.
  erewrite go_on; [|exact Hbody]. cbv iota beta.
  erewrite go_on; [|unfold modelAllowed; rewrite Hmodel, orb_true_r; reflexivity].
  erewrite go_on; [|unfold checkRate; rewrite Hrpm; reflexivity].
  erewrite go_on; [|unfold findCredential; rewrite Hcred; reflexivity].
  match goal with |- context [callUpstream w rq ?em ?c ≫= ?k] => pose proof (call_made em c k) as Hmade end.
  unfold Proxy.run. destruct (_ ≫= _) as [es [r|o]]; exact Hmade.
Qed.
End native.

(** ** The wizard, the API and the gateway in one run *)
Definition wizard_run (ws : string) (events : list WizardEvent) (s : WizardState) : WizardState :=
  fold_left (fun s e => (OnboardingWizard_on ws e s).1) events s.
Section journey.
Context (email url : string -> bool) (encode : string -> string) (ws : string).
Context (E1 E2 E3 : ApiEnv) (rq1 rq2 rq3 : ApiRequest) (user : AuthedUser).
Context (p : Provider) (vs1 vs2 vs3 : Values) (offered : list Project).
Context (w w1 w2 w3 : World) (cred : CredView) (project : Project) (view : KeyView) (token : string).
(** One user submits the three forms of the wizard one after the other, each with
    values its rules let pass within the bounds of the API, and the API, over one
    database and with one set of primitives, answers each with a success. *)
Record wizard_served : Prop := {
  js_same : e_uuid E2 = e_uuid E1 /\ e_uuid E3 = e_uuid E1 /\ e_P E3 = e_P E1;
  js_uuid : e_uuid E1 "" = None /\ e_uuid E1 (e_id E2 0) = Some (e_id E2 0);
  js_url : forall s, url s = true -> z_url (e_zod E1) s = true;
  js_user : authenticated E1 rq1 user /\ authenticated E2 rq2 user /\ authenticated E3 rq3 user;
  js_forms : form_ok email url (credential_fields p) vs1 /\ form_ok email url project_fields vs2 /\
    form_ok email url (key_fields offered) vs3;
  js_fits : fits_api E1 (WizardCredentialForm p) vs1 /\ fits_api E2 WizardProjectForm vs2 /\
    fits_api E3 (WizardKeyForm offered) vs3;
  js_chosen : val vs3 "projectId" = VStr (p_id project);
  js_sent : rq_json rq1 = fe_body (fetch_of encode (wizardCredential_caller ws p vs1)) /\
    rq_json rq2 = fe_body (fetch_of encode (wizardProject_caller ws vs2)) /\
    rq_json rq3 = fe_body (fetch_of encode (wizardKey_caller ws vs3));
  js_credential : createCredential E1 rq1 ws w = (w1, Ok cred);
  js_project : createProject E2 rq2 ws w1 = (w2, Ok project);
  js_key : issueKey E3 rq3 ws w2 = (w3, Ok (view, token)) }.
Definition journey : list WizardEvent :=
  [ PickProvider (Some (provider_text p)); CredentialFinish vs1; CredentialSettled 1 (Ok cred);
    ProjectFinish vs2; ProjectSettled 1 (Ok project); KeyFinish vs3; KeySettled 1 (Ok (view, token)) ].

(** The tables the three requests leave. *)
Lemma journey_tables :
  wizard_served -> wf (db w) -> exists wsId uid c k,
    guarded E1 uid ws (db w) = Some wsId /\ e_uuid E1 (au_id user) = Some uid /\
    wf (db w3) /\ c ∈ credentials (db w3) /\ k ∈ virtual_keys (db w3) /\ project ∈ projects (db w3) /\
    p_teamId project = None /\ cred = credSelect c /\ view = keySelect k /\
    c_workspaceId c = wsId /\ c_provider c = p /\ c_baseUrl c = text_of (val vs1 "baseUrl") /\ c_active c = true /\
    c_isDefault c = true /\ sealed_by E1 (text_of (val vs1 "secret")) (c_encryptedSecret c) /\
    k = mkVirtualKey (k_id k) wsId (p_id project) uid (k_name k) (Auth.sha256Hex (e_P E1) token) (k_keyLast4 k) [] []
          [] None None KEY_ACTIVE None (k_createdAt k) /\
    starts_with TOKEN_PREFIX_virtualKey token = true.
Proof.
  intros [(Hu2 & Hu3 & HP) [Hempty Hid] Hurl (Ha1 & Ha2 & Ha3) (Hf1 & Hf2 & Hf3) (Hb1 & Hb2 & Hb3) Hchosen (Hs1 & Hs2 & Hs3) H1 H2 H3] Hwf.
  pose proof (createCredential_refines E1 rq1 None ws w) as R1. rewrite H1 in R1. cbn [fst] in R1.
  pose proof (createProject_refines E2 rq2 None ws w1) as R2. rewrite H2 in R2. cbn [fst] in R2.
  assert (e_uuid E3 "" = None) as Hempty3 by congruence.
  pose proof (issueKey_refines E3 rq3 None ws Hempty3 w2) as R3. rewrite H3 in R3. cbn [fst] in R3.
  assert (wf (db w3)) as Hwf3 by eauto using api_steps_wf.
  destruct (wizard_credential_read E1 email url encode ws Hurl p vs1 Hf1 Hb1) as (n1 & Hr1 & Ht1 & Ht2).
  destruct (wizard_project_read E2 email url encode ws vs2 Hf2 Hb2) as (n2 & Hr2).
  destruct (wizard_key_read E3 email url encode ws offered vs3 Hf3 Hb3) as (n3 & Hr3).
  rewrite <- Hs1 in Hr1. rewrite <- Hs2 in Hr2. rewrite <- Hs3, Hchosen in Hr3.
  change (text_of (VStr (p_id project)) ?? "") with (p_id project) in Hr3.
  destruct (default_created E1 rq1 ws user Ha1 w w1 cred _ H1 Hr1 eq_refl)
    as (c & uid & l & Huid & Hguard & -> & Hd1 & Hc1 & Hc2 & Hc3 & Hc4 & Hc5).
  destruct (project_created E2 rq2 ws user Ha2 w1 w2 project _ H2 Hr2 eq_refl) as (Hp1 & Hp2 & Hd2).
  destruct (key_issued E3 rq3 ws user Ha3 w2 w3 view token _ H3 Hr3 eq_refl eq_refl eq_refl)
    as (k & uid' & pid & Huid' & Hguard' & -> & Hd3 & Hpid & Hk & Htok).
  rewrite Hu3 in Huid', Hpid. cbn [ib_projectId] in Hpid. rewrite Hp1, Hid in Hpid. simplify_eq.
  rewrite (guarded_same E3 E1 uid ws (db w2) (db w)) in Hguard' by (done || by rewrite Hd2, Hd1). rewrite Hguard in Hguard'. injection Hguard' as Hws.
  rewrite HP in Hk. cbn [ib_modelAllowlist ib_rpmLimit ib_expiresAt] in Hk. rewrite <- Hws, <- Hp1 in Hk.
  exists (c_workspaceId c), uid, c, k. split_and!; try done.
  - rewrite Hd3, Hd2, Hd1. apply in_snoc. by right.
  - rewrite Hd3. apply in_snoc. by right.
  - rewrite Hd3, Hd2. apply in_snoc. by right.
Qed.
(** The key's context and the secret the gateway reads from them. *)
Lemma journey_context deps now wsId uid c k hs :
  wf (db w3) -> k ∈ virtual_keys (db w3) -> project ∈ projects (db w3) -> p_teamId project = None ->
  view = keySelect k ->
  k = mkVirtualKey (k_id k) wsId (p_id project) uid (k_name k) (Auth.sha256Hex (e_P E1) token) (k_keyLast4 k) [] []
        [] None None KEY_ACTIVE None (k_createdAt k) ->
  reads_tables deps (db w3) -> extractKey hs = Some token -> c_workspaceId c = wsId ->
  authorizeKey deps (Auth.sha256Hex (e_P E1)) now hs =
    Ok (inl (mkCtx (kv_id view) wsId (p_id project) None uid KEY_ACTIVE None [] [] [] None)).
Proof.
  intros Hwf Hk Hp Hteam -> Heq Hdeps Hextract _. unfold authorizeKey. rewrite Hextract, Hdeps.
  destruct (resolve_row (db w3) k Hwf Hk) as (q & Hq & Hid & Hrow). rewrite Heq in Hid, Hrow. cbn [k_projectId k_keyHash] in Hid, Hrow.
  assert (q = project) as -> by (apply (NoDup_map_inj p_id (projects (db w3))); [apply wf_keys, Hwf|done..]).
  rewrite Hrow. unfold key_ctx. rewrite Hteam. reflexivity.
Qed.

Lemma journey_secret `{!PrimitivesOk (e_P E1)} ring' sealed :
  wizard_served -> String.length (e_iv E1) = IV_LENGTH ->
  (forall r, ring E1 = Some r -> r ⊆ ring' /\ forall k, is_Some (r !! k) -> 0 <= k < 256) ->
  (forall s, val vs1 "secret" = VStr s -> utf8_decode s = s) ->
  sealed_by E1 (text_of (val vs1 "secret")) sealed ->
  if_truthy (text_of (val vs1 "baseUrl")) = text_of (val vs1 "baseUrl") /\
  match sealed with
  | None => text_of (val vs1 "secret") = None
  | Some envelope => exists s, text_of (val vs1 "secret") = Some s /\ decryptSecret (e_P E1) envelope ring' = Ok s
  end.
Proof.
  intros Hs Hiv Hring Htext Hseal.
  destruct (wizard_credential_read E1 email url encode ws (js_url Hs) p vs1 (proj1 (js_forms Hs)) (proj1 (js_fits Hs)))
    as (_ & _ & Ht & Hu).
  split; [done|]. unfold sealed_by in Hseal. rewrite Ht in Hseal.
  destruct (text_of (val vs1 "secret")) as [s|] eqn:Es; [|by subst].
  destruct Hseal as (r & envelope & Hr & -> & He). exists s. split; [done|].
  destruct (Hring r Hr) as [Hsub Hrange]. eapply sealed_opens; [done..|]. apply Htext.
  unfold text_of in Es. destruct (val vs1 "secret"); congruence.
Qed.

(** C14: What the first-run wizard sets up works: one user submits its three
    forms, each with values the form lets pass, and the API answers each with a
    success.  Then the wizard shows the token of the key and the lines to
    export; and a native request to the chosen provider that presents this token
    is admitted by the gateway, reading the same tables, as that key, in its
    project and for its user, and goes out to the provider with exactly the
    secret and base URL typed into the first form. *)
Theorem wizard_key_reaches_provider `{!PrimitivesOk (e_P E1)} ring' deps env rq origin projects :
  wizard_served -> wf (db w) -> String.length (e_iv E1) = IV_LENGTH ->
  (forall r, ring E1 = Some r -> r ⊆ ring' /\ forall k, is_Some (r !! k) -> 0 <= k < 256) ->
  (forall s, val vs1 "secret" = VStr s -> utf8_decode s = s) ->
  reads_tables deps (db w3) ->
  (forall wsId q ids, credentialStore_getDefault deps wsId q ids =
     PgCredentialStore_getDefault (e_P E1) (map cred_row (credentials (db w3))) (Some ring') wsId q ids) ->
  Proxy.sha256Hex env = Auth.sha256Hex (e_P E1) ->
  find_provider (rq_provider rq) = Some p -> extractKey (rq_headers rq) = Some token ->
  (forall stream, rq_body rq = Some stream -> exists raw, readAll stream MAX_REQUEST_BODY = Ok raw) ->
  let shown := OnboardingWizard origin projects None (wizard_run ws journey (OnboardingWizard_initial 0)) in
  let up := buildUpstream (getAdapter p) (subPath rq)
              (mkResolvedCredential (text_of (val vs1 "secret")) (text_of (val vs1 "baseUrl"))) in
  (CopyField token ∈ shown /\ Text (join nl (sdk_lines origin (Some token))) ∈ shown) /\
  (exists wsId uid, guarded E1 uid ws (db w) = Some wsId /\ e_uuid E1 (au_id user) = Some uid /\
     authorizeKey deps (Proxy.sha256Hex env) (e_authNow env) (rq_headers rq) =
       Ok (inl (mkCtx (kv_id view) wsId (p_id project) None uid KEY_ACTIVE None [] [] [] None))) /\
  exists call, EUpstream call ∈ (Proxy.run (makeGatewayHandler deps env rq)).1 /\
    uc_method call = rq_method rq /\ uc_url call = up_url up /\ uc_headers call = native_headers rq up.
Proof.
  intros Hserved Hwf Hiv Hring Htext Hkeys Hcreds Hsha Hp Hextract Hread shown up.
  split; [split; cbn -[elem_of]; set_solver|].
  destruct (journey_tables Hserved Hwf) as (wsId & uid & c & k & Hguard & Huid & Hwf3 & Hc & Hk & Hproj & Hteam & Hcred &
    Hview & Hcw & Hcp & Hcu & Hca & Hcd & Hseal & Heq & Htok).
  assert (authorizeKey deps (Proxy.sha256Hex env) (e_authNow env) (rq_headers rq) =
    Ok (inl (mkCtx (kv_id view) wsId (p_id project) None uid KEY_ACTIVE None [] [] [] None))) as Hauth.
  { rewrite Hsha. by eapply journey_context. }
  split; [by exists wsId, uid|].
  destruct (native_reaches_provider deps env rq p _ (mkSecret (c_id c) (text_of (val vs1 "secret")) (text_of (val vs1 "baseUrl")))
    Hp Hauth eq_refl eq_refl eq_refl Hread) as (call & Hcall); [|by exists call].
  cbn [ctx_workspaceId credentialAllowlist]. rewrite Hcreds, <- Hcw, <- Hcp.
  destruct (journey_secret ring' _ Hserved Hiv Hring Htext Hseal) as [Hu Hsec]. rewrite <- Hu, <- Hcu.
  apply getDefault_row; auto.
Qed.
End journey.

(** ** An owner goes through the wizard *)
Definition ex_secret : Values := [("name", VStr "Default"); ("secret", VStr "sk-ant-1")].
Definition ex_named : Values := [("name", VStr "checkout-bot")].
Definition ex_chosen : Values := [("projectId", VStr "id0"); ("name", VStr "dev key")].
Definition ex_submits (c : Caller) : ApiRequest := ex_request "u1" (fe_body (fetch_of id c)).
Definition ex_rq1 : ApiRequest := ex_submits (wizardCredential_caller "one" ANTHROPIC ex_secret).
Definition ex_rq2 : ApiRequest := ex_submits (wizardProject_caller "one" ex_named).
Definition ex_rq3 : ApiRequest := ex_submits (wizardKey_caller "one" ex_chosen).
Definition ex_gateway (d : ApiDb) : GatewayDeps :=
  mkDeps (fun h => Ok (PgKeyStore_resolve (key_tables d) h))
    (PgCredentialStore_getDefault toy_primitives (map cred_row (credentials d)) (Some {[ 0 := "master" ]}))
    (fun _ _ _ => None) (fun _ _ => mkDecision true 0).
Definition ex_proxy : Env := Proxy.mkEnv (Auth.sha256Hex toy_primitives) (fun _ => Throw "unreachable") 0 0 0 0 0 "e1".
Definition ex_message (token : string) : Gateway.Request :=
  Gateway.mkRequest "r1" "anthropic" (Some "v1/messages") (Some "/gw/anthropic/v1/messages") "POST" (bearer token) None.
Lemma ex_session_in c : authenticated ex_env (ex_submits c) (mkAuthedUser "u1" "u1@x.io").
Proof. done. Qed.
Lemma wizard_key_reaches_provider_witness :
  match createCredential ex_env ex_rq1 "one" ex_world with
  | (w1, Ok cred) =>
      match createProject ex_env ex_rq2 "one" w1 with
      | (w2, Ok project) =>
          match issueKey ex_env ex_rq3 "one" w2 with
          | (w3, Ok (view, token)) =>
              exists call, EUpstream call ∈ (Proxy.run (makeGatewayHandler (ex_gateway (db w3)) ex_proxy (ex_message token))).1 /\
                uc_url call = "https://api.anthropic.com/v1/messages" /\ uc_headers call !! "x-api-key" = Some "sk-ant-1"
          | _ => False
          end
      | _ => False
      end
  | _ => False
  end.
Proof.
  destruct (createCredential ex_env ex_rq1 "one" ex_world) as [w1 [cred|e]] eqn:H1; [|vm_compute in H1; discriminate H1].
  destruct (createProject ex_env ex_rq2 "one" w1) as [w2 [project|e]] eqn:H2;
    [|vm_compute in H1; injection H1 as <- <-; vm_compute in H2; discriminate H2].
  destruct (issueKey ex_env ex_rq3 "one" w2) as [w3 [[view token]|e]] eqn:H3;
    [|vm_compute in H1; injection H1 as <- <-; vm_compute in H2; injection H2 as <- <-; vm_compute in H3; discriminate H3].
  destruct (wizard_key_reaches_provider ex_formats ex_formats id "one" ex_env ex_env ex_env ex_rq1 ex_rq2 ex_rq3
    (mkAuthedUser "u1" "u1@x.io") ANTHROPIC ex_secret ex_named ex_chosen [project] ex_world w1 w2 w3 cred project view token
    (PrimitivesOk0 := toy_ok) {[ 0 := "master" ]} (ex_gateway (db w3)) ex_proxy (ex_message token) "https://tl.io"
    (mkQuery (Some [project]) false false)) as (_ & _ & call & Hcall & _ & Hurl & Hhs).
  - assert (p_id project = "id0") as Hid by (vm_compute in H1; injection H1 as <- <-; vm_compute in H2; by injection H2 as <- <-).
    constructor; try done.
    + split_and!; [form_values|form_values|].
      repeat (apply Forall2_cons; split; [split; [done|]; split; [|done]|]); [|by left|constructor].
      left. cbn. by rewrite Hid.
    + cbn. split_and!; try done; by apply Nat.leb_le; vm_compute.
    + by rewrite Hid.
  - exact ex_wf.
  - done.
  - intros r [= <-]. split; [done|]. intros k [v [<- _]%lookup_singleton_Some]. lia.
  - by intros s [= <-].
  - intros h. reflexivity.
  - done.
  - done.
  - done.
  - apply extract_bearer. vm_compute in H1. injection H1 as <- <-. vm_compute in H2. injection H2 as <- <-.
    vm_compute in H3. injection H3 as <- <- <-. reflexivity.
  - done.
  - exists call. rewrite Hurl, Hhs. split; [exact Hcall|]. split; [vm_compute; reflexivity|].
    vm_compute. reflexivity.
Defined.
