(* ===== verification/WebPaging.v ===== *)
(** * The usage page's pages are the API's events

    The infinite query of features/usage/UsagePage.tsx over the handler of
    GET /usage/events: the cursor survives its encoding, a page goes on where the
    one before it ended, and loading to the end shows every event once. *)

From stdpp Require Import sorting.
From S2P Require Import Prelude JsString JsNum JsDate Json Shared Queue Auth Gateway Rollups Persist Zod.
From S2P Require Import ApiDb ApiAuth ApiReports ApiRules ApiRefine ApiExample WebUi WebUsage.
From Stdlib Require Import Ascii.

(** ** The cursor *)
(** What [drop_while_end] drops passes the test. *)
Lemma drop_while_split f s : exists t, s = t +:+ drop_while f s /\ sforall f t = true.
Proof.
  induction s as [|c s (t & Hs & Ht)]; [by exists ""|]. cbn. destruct (f c) eqn:E; [|by exists ""].
  exists (String c t). cbn. by rewrite E, <- Hs.
Qed.
Lemma drop_while_end_split f s : exists t, s = drop_while_end f s +:+ t /\ sforall f t = true.
Proof.
  destruct (drop_while_split f (srev s)) as (t & Hs & Ht). exists (srev t). split; [|by rewrite sforall_srev].
  unfold drop_while_end. by rewrite <- srev_concat, <- Hs, srev_involutive.
Qed.
(** Padding and the url alphabet change nothing a decoder sees. *)
Lemma url_sextet c :
  Ascii.eqb (std_char (url_char c)) "=" = Ascii.eqb c "=" /\ b64_val (std_char (url_char c)) = b64_val c.
Proof. destruct c as [[] [] [] [] [] [] [] []]; split; reflexivity. Qed.
Lemma sextets_url s : sextets (smap std_char (smap url_char s)) = sextets s.
Proof. induction s as [|c s IH]; [done|]. cbn [smap sextets]. destruct (url_sextet c) as [-> ->]. by rewrite IH. Qed.
Lemma sextets_padding a t : sforall (Ascii.eqb "=") t = true -> sextets (a +:+ t) = sextets a.
Proof.
  intros Ht. induction a as [|c a IH].
  - destruct t as [|c t]; [done|]. cbn [sforall] in Ht. apply andb_true_iff in Ht as [Hc%Ascii.eqb_eq _]. by subst c.
  - change (String c a +:+ t) with (String c (a +:+ t)). cbn [sextets]. by rewrite IH.
Qed.
Lemma base64url_roundtrip s :
  base64_decode (smap std_char (smap url_char (drop_while_end (Ascii.eqb "=") (base64_encode s)))) = s.
Proof.
  unfold base64_decode. rewrite sextets_url. destruct (drop_while_end_split (Ascii.eqb "=") (base64_encode s)) as (t & Hs & Ht).
  rewrite <- (sextets_padding _ t Ht), <- Hs. apply base64_roundtrip.
Qed.
Definition is_ascii (c : ascii) : bool := code c <? 128.
Lemma digits_ascii s : all_digits s = true -> sforall is_ascii s = true.
Proof.
  apply sforall_impl. intros c. unfold is_digit, in_range, is_ascii. rewrite andb_true_iff, !Z.leb_le, Z.ltb_lt. lia.
Qed.
Lemma iso_ascii t : sforall is_ascii (toISOString t) = true.
Proof.
  assert (forall n k, sforall is_ascii (pad_start (dec n) k "0") = true) as Hp.
  { intros n k. apply digits_ascii, pad_start_digits, dec_all_digits. }
  unfold toISOString. destruct (civil_from_days _) as [[y m] d]. by rewrite !sforall_app, !Hp.
Qed.
(** The cursor of an instant up to the end of 9999 is read as that instant. *)
Lemma cursor_roundtrip E t : 0 <= t < 253402300800000 -> decodeCursor E (encodeCursor t) = t.
Proof.
  intros Ht. unfold decodeCursor, encodeCursor. rewrite base64url_roundtrip, utf8_decode_ascii by apply iso_ascii.
  by rewrite date_roundtrip.
Qed.
Lemma cursor_given t : 0 <= t < 253402300800000 -> if_truthy (Some (encodeCursor t)) = Some (encodeCursor t).
Proof.
  intros Ht. destruct (encodeCursor t) eqn:E; [|done]. exfalso.
  pose proof (cursor_roundtrip ex_env t Ht) as H. rewrite E in H. vm_compute in H. subst t. vm_compute in E. discriminate E.
Qed.

(** ** One page after the other *)
Section pages.
Context (E : ApiEnv) (table : list UsageEventMessage) (wsId : string) (scope : option string) (limit : nat).
Hypothesis limit_pos : (0 < limit)%nat.
Definition all_events : list UsageEventMessage :=
  order_by (newest event_time) (List.filter (events_where wsId scope None) table).
Definition page_at (cursor : option string) : list UsageEventMessage * option string :=
  events_page table (events_where wsId scope (decodeCursor E <$> if_truthy cursor)) limit.
(** No two events of the list share a millisecond. *)
Hypothesis distinct : NoDup (map event_time all_events).
Hypothesis dated : forall e, e ∈ all_events -> 0 <= event_time e < 253402300800000.

Lemma newest_sorted (l : list UsageEventMessage) :
  StronglySorted (fun x y => newest event_time x y = true) (order_by (newest event_time) l).
Proof.
  apply order_by_sorted; unfold newest.
  - intros a b. rewrite !Z.leb_le. lia.
  - intros a b c. rewrite !Z.leb_le. lia.
Qed.
(** The events before the last one of a page are those after it in the list. *)
Lemma page_from pre c post :
  all_events = pre ++ c :: post ->
  order_by (newest event_time) (List.filter (events_where wsId scope (Some (event_time c))) table) = post.
Proof.
  intros Hs. pose proof (newest_sorted (List.filter (events_where wsId scope None) table)) as Hst.
  fold all_events in Hst. pose proof distinct as Hnd. rewrite Hs in Hst, Hnd.
  apply StronglySorted_app in Hst as (Hpre & _ & Hst). apply StronglySorted_inv in Hst as [Hpost Hc].
  rewrite map_app in Hnd. apply NoDup_app in Hnd as (_ & Hdis & Hnd). cbn [map] in Hnd. apply NoDup_cons in Hnd as [Hcn Hnd].
  rewrite Forall_forall in Hc.
  assert (List.filter (events_where wsId scope (Some (event_time c))) table
    = List.filter (fun e => events_where wsId scope None e && (event_time e <? event_time c)) table) as ->.
  { apply List.filter_ext. intros e. unfold events_where. by rewrite andb_true_r. }
  apply (StronglySorted_unique_strong (fun x y => newest event_time x y = true)); [|apply newest_sorted|done|].
  - intros x y Hx Hy Hxy Hyx. unfold newest in Hxy, Hyx. rewrite Z.leb_le in Hxy, Hyx.
    apply (NoDup_map_inj event_time all_events); [done| | |lia].
    + apply in_order_by, in_filter. apply in_order_by, in_filter in Hx as [Hx [Hw _]%andb_true_iff]. done.
    + rewrite Hs. set_solver.
  - rewrite order_by_perm. rewrite filter_and, (List_filter_filter (fun e => event_time e <? event_time c)).
    rewrite <- (order_by_perm (newest event_time) (List.filter (events_where wsId scope None) table)).
    fold all_events. rewrite Hs, filter_app, <- !List_filter_filter. cbn [List.filter]. rewrite Z.ltb_irrefl.
    rewrite (filter_none _ pre), filter_all; [done| |].
    + intros x Hx. apply Z.ltb_lt. specialize (Hc x Hx). unfold newest in Hc. rewrite Z.leb_le in Hc.
      assert (event_time x <> event_time c); [|lia]. intros Heq. apply Hcn. rewrite <- Heq. by apply list_elem_of_fmap_2.
    + intros x Hx. apply Z.ltb_ge. specialize (Hpre x c Hx). unfold newest in Hpre. rewrite Z.leb_le in Hpre.
      apply Hpre. by left.
Qed.
(** What a page is: the next [limit] events, with a cursor exactly when more follow. *)
Lemma page_at_spec cursor rest :
  order_by (newest event_time) (List.filter (events_where wsId scope (decodeCursor E <$> if_truthy cursor)) table) = rest ->
  page_at cursor =
    (take limit rest,
     if (limit <? length rest)%nat then encodeCursor <$> (event_time <$> last (take limit rest)) else None).
Proof.
  intros Hr. unfold page_at, events_page. rewrite Hr. cbv zeta. rewrite take_take, Nat.min_l by lia. rewrite length_take.
  replace (limit <? (limit + 1) `min` length rest)%nat with (limit <? length rest)%nat.
  - destruct (last (take limit rest)); [reflexivity|]. by case_match.
  - apply eq_true_iff_eq. rewrite !Nat.ltb_lt. lia.
Qed.
(** After [n] loads: the first [n * limit] events, a next page exactly when more
    follow, and the last cursor is that of the last event shown. *)
Definition loaded (n : nat) (q : InfiniteQuery UsageEventMessage) : Prop :=
  rows q = take (n * limit) all_events /\
  match n with
  | O => iq_pages q = []
  | S _ =>
      getNextPageParam q =
        (if (n * limit <? length all_events)%nat
         then encodeCursor <$> (event_time <$> last (take (n * limit) all_events)) else None) /\ iq_pages q <> []
  end.
(** A page that continues the list after [n] pages. *)
Lemma loaded_page n q cursor :
  loaded n q ->
  order_by (newest event_time) (List.filter (events_where wsId scope (decodeCursor E <$> if_truthy cursor)) table)
    = drop (n * limit) all_events ->
  (n = O \/ (n * limit < length all_events)%nat) ->
  loaded (S n) (mkInfinite (iq_pages q ++ [page_at cursor])).
Proof.
  intros [Hrows _] Hrest Hn. rewrite (page_at_spec cursor _ Hrest). set (k := (n * limit)%nat) in *.
  assert (S n * limit = k + limit)%nat as Hk by (unfold k; lia).
  assert (take (S n * limit) all_events = take k all_events ++ take limit (drop k all_events)) as Htake.
  { rewrite Hk. by rewrite take_take_drop. }
  split; [|split; [|by destruct (iq_pages q)]].
  - unfold rows in *. cbn [iq_pages]. rewrite bind_app, Hrows, Htake. f_equal. apply app_nil_r.
  - unfold getNextPageParam. cbn [iq_pages]. rewrite last_snoc. cbn [mbind option_bind snd].
    rewrite length_drop, Htake, last_app.
    replace (limit <? length all_events - k)%nat with (S n * limit <? length all_events)%nat
      by (apply eq_true_iff_eq; rewrite !Nat.ltb_lt; lia).
    destruct (S n * limit <? length all_events)%nat eqn:El; [|done]. apply Nat.ltb_lt in El.
    destruct (last (take limit (drop k all_events))) eqn:E2; [done|]. exfalso.
    apply last_None in E2. apply (f_equal length) in E2. rewrite length_take, length_drop in E2. cbn in E2. lia.
Qed.
Lemma loaded_next n q : loaded n q -> loaded (S n) (fetchNextPage page_at q).
Proof.
  intros Hl. pose proof Hl as [Hrows Hn]. unfold fetchNextPage, next_param. destruct n as [|n].
  - rewrite Hn. apply (loaded_page 0 q None) in Hl; [by rewrite Hn in Hl|done|by left].
  - destruct Hn as [Hnext Hne]. destruct (iq_pages q) as [|pg pgs] eqn:Ep; [done|]. rewrite <- Ep, Hnext. clear Hne.
    destruct (S n * limit <? length all_events)%nat eqn:El.
    + apply Nat.ltb_lt in El. destruct (last (take (S n * limit) all_events)) as [c|] eqn:Ec.
      2:{ apply last_None, (f_equal length) in Ec. rewrite length_take in Ec. cbn in Ec. lia. }
      apply last_Some in Ec as [pre Ec].
      assert (all_events = pre ++ c :: drop (S n * limit) all_events) as Hsplit.
      { rewrite <- (take_drop (S n * limit) all_events) at 1. by rewrite Ec, <- app_assoc. }
      apply loaded_page; [done| |by right].
      assert (0 <= event_time c < 253402300800000) as Hc by (apply dated; rewrite Hsplit; set_solver).
      cbn [fmap option_fmap option_map]. rewrite (cursor_given _ Hc). cbn [fmap option_fmap option_map].
      rewrite (cursor_roundtrip E _ Hc). by eapply page_from.
    + apply Nat.ltb_ge in El. cbn [fmap option_fmap option_map]. split; [|split; [|by rewrite Ep]].
      * rewrite Hrows, !take_ge by lia. done.
      * rewrite Hnext, !(proj2 (Nat.ltb_ge _ _)) by lia. done.
Qed.
Lemma loaded_all n q : loaded 0 q -> loaded n (load n page_at q).
Proof.
  assert (forall n k q, loaded k q -> loaded (k + n) (load n page_at q)) as H; [|by apply (H n 0%nat)].
  clear n q. induction n as [|n IH]; intros k q Hl; cbn [load]; [by rewrite Nat.add_0_r|].
  rewrite <- Nat.add_succ_comm. by apply IH, loaded_next.
Qed.
End pages.

(** ** The page against the handler *)
(** The query of [/usage/events?limit=50&cursor=…] as the server's parser hands it over. *)
Definition events_query (cursor : option string) : json :=
  JObj (("limit", JStr "50") :: match cursor with Some c => [("cursor", JStr c)] | None => [] end).
Definition viewer_scope (uid : string) (ctx : WorkspaceContext) : option string :=
  if wide (wc_role ctx) then None else Some uid.
Lemma events_answer E rq ws user w w' r cursor :
  authenticated E rq user -> e_uuid E "" = None -> rq_query rq = Some (events_query cursor) ->
  usageEvents E rq ws w = (w', Ok r) ->
  exists uid ctx, e_uuid E (au_id user) = Some uid /\ guard_ctx E uid ws (db w) = Some ctx /\
    r = page_at E (usage_event (usage (db w))) (wc_workspaceId ctx) (viewer_scope uid ctx) 50 cursor.
Proof.
  intros Hu Hempty Hq. apply (safe_ok (fun _ => True) (usageEvents E rq ws) w w' r (fun r _ => exists uid ctx,
    e_uuid E (au_id user) = Some uid /\ guard_ctx E uid ws (db w) = Some ctx /\
    r = page_at E (usage_event (usage (db w))) (wc_workspaceId ctx) (viewer_scope uid ctx) 50 cursor)).
  unfold usageEvents. apply safe_route_of with (user := user); [done|]. intros uid ctx Huid Hctx.
  assert (eventsQuery (query_of rq) = Some (50, cursor)) as Hparse by (unfold query_of; rewrite Hq; by destruct cursor).
  apply safe_bind, safe_parse; [done|]. intros a Ha. rewrite Hparse in Ha. injection Ha as <-.
  apply safe_bind. unfold scope_uid, scopeUserId. destruct (wide (wc_role ctx)) eqn:Ew.
  - apply safe_ret, safe_gets. exists uid, ctx. unfold viewer_scope. by rewrite Ew.
  - assert (if_truthy (Some (au_id user)) = Some (au_id user)) as ->.
    { destruct (au_id user) eqn:Eu; [|done]. rewrite Hempty in Huid. done. }
    apply safe_bind, safe_uuid; [done|]. intros u Hu'. simplify_eq. apply safe_ret, safe_gets.
    exists uid, ctx. unfold viewer_scope. by rewrite Ew.
Qed.
Section loads.
Context {A : Type} (fetch : option string -> list A * option string).
Lemma load_ext fetch' n q : (forall c, fetch c = fetch' c) -> load n fetch q = load n fetch' q.
Proof.
  intros Hf. revert q. induction n as [|n IH]; intros q; [done|]. cbn [load]. rewrite IH. f_equal.
  unfold fetchNextPage. destruct (next_param q); by rewrite ?Hf.
Qed.
(** Loading stops at the page without a cursor. *)
Lemma load_pages n q :
  exists k, load n fetch q = load k fetch q /\ length (iq_pages (load n fetch q)) = (length (iq_pages q) + k)%nat.
Proof.
  revert q. induction n as [|n IH]; intros q; [exists 0%nat; cbn; by rewrite Nat.add_0_r|]. cbn [load].
  destruct (next_param q) as [p|] eqn:Ep.
  - destruct (IH (fetchNextPage fetch q)) as (k & Hk & Hlen). exists (S k). split; [exact Hk|]. rewrite Hlen.
    unfold fetchNextPage. rewrite Ep. cbn [iq_pages]. rewrite length_app. cbn. lia.
  - assert (fetchNextPage fetch q = q) as Hq by (unfold fetchNextPage; by rewrite Ep). rewrite Hq. exists 0%nat.
    assert (load n fetch q = q) as ->; [|by rewrite Nat.add_0_r]. clear IH.
    induction n as [|n IHn]; [done|]. cbn [load]. by rewrite Hq.
Qed.
Lemma refetch_same n : refetch_pages fetch (load n fetch (mkInfinite [])) = load n fetch (mkInfinite []).
Proof. unfold refetch_pages. destruct (load_pages n (mkInfinite [])) as (k & Hk & ->). by rewrite Hk. Qed.
End loads.

(** C16: The usage page shows what the API stores: every call of its infinite
    query is answered by the events handler on the same tables.  If no two of the
    events the user may see share a millisecond, then after [n] loads the table
    holds the first 50 * n of them, newest first, each once; "Load more" is
    offered exactly while events are left, so enough clicks show all of them;
    and the automatic refresh of the loaded pages shows the same again. *)
Theorem usage_page_shows_every_event E ws user w fetch n :
  e_uuid E "" = None ->
  (forall cursor, exists rq w', authenticated E rq user /\ rq_query rq = Some (events_query cursor) /\
     usageEvents E rq ws w = (w', Ok (fetch cursor))) ->
  exists uid ctx, e_uuid E (au_id user) = Some uid /\ guard_ctx E uid ws (db w) = Some ctx /\
    let all := all_events (usage_event (usage (db w))) (wc_workspaceId ctx) (viewer_scope uid ctx) in
    NoDup (map event_time all) -> (forall e, e ∈ all -> 0 <= event_time e < 253402300800000) ->
    let q := load n fetch (mkInfinite []) in
    rows q = take (n * 50) all /\
    ((0 < n)%nat -> hasNextPage q = bool_decide (n * 50 < length all)%nat) /\
    ((length all <= n * 50)%nat -> rows q = all) /\
    refetch_pages fetch q = q.
Proof.
  intros Hempty Hfetch. destruct (Hfetch None) as (rq0 & w0 & Hu0 & Hq0 & H0).
  destruct (events_answer _ _ _ _ _ _ _ _ Hu0 Hempty Hq0 H0) as (uid & ctx & Huid & Hctx & _).
  exists uid, ctx. split_and!; [done..|]. intros all Hnd Hdated q.
  assert (forall c, fetch c = page_at E (usage_event (usage (db w))) (wc_workspaceId ctx) (viewer_scope uid ctx) 50 c) as Hpage.
  { intros c. destruct (Hfetch c) as (rq & w' & Hu & Hq & H).
    destruct (events_answer _ _ _ _ _ _ _ _ Hu Hempty Hq H) as (uid' & ctx' & Huid' & Hctx' & ->). by simplify_eq. }
  assert (loaded (usage_event (usage (db w))) (wc_workspaceId ctx) (viewer_scope uid ctx) 50 n q) as [Hrows Hn].
  { unfold q. rewrite (load_ext _ _ _ _ Hpage). apply loaded_all; [lia|done|done|by split]. }
  fold all in Hrows, Hn. clearbody all. split_and!; [done| | |apply refetch_same].
  - intros Hpos. destruct n as [|n]; [lia|]. destruct Hn as [Hnext _]. unfold hasNextPage. rewrite Hnext.
    destruct (S n * 50 <? length all)%nat eqn:El.
    + apply Nat.ltb_lt in El. destruct (last (take (S n * 50) all)) eqn:Ec.
      * rewrite !bool_decide_eq_true_2; [done|done|by eexists].
      * apply last_None, (f_equal length) in Ec. rewrite length_take in Ec. cbn [length] in Ec. lia.
    + apply Nat.ltb_ge in El. rewrite !bool_decide_eq_false_2; [done|lia|by intros [? ?]].
  - intros Hlen. by rewrite Hrows, take_ge by lia.
Qed.

(** Sixty events of one workspace, a millisecond apart. *)
Definition sixty_events : list UsageEventMessage :=
  map (fun n => example_event ("e" +:+ dec (Z.of_nat n)) (toISOString (Z.of_nat n)) "0.00000040") (seq 0 60).
Definition sixty_world : World := mkWorld {|
  users := users ex_db; sessions := []; workspaces := [mkWorkspace "ws1" "One" "one" None 0]; members := [ex_owner "m1" "ws1" "u1"];
  teams := []; team_members := []; projects := []; invitations := []; credentials := []; virtual_keys := [];
  overrides := []; export_jobs := []; model_prices := []; pool_credentials := []; usage := mkDb sixty_events [] [] ∅ |} [].
Definition events_request (cursor : option string) : ApiRequest :=
  mkApiRequest (Some "Bearer u1") None "10.0.0.1" None None (Some (events_query cursor)).
Definition sixty_fetch : option string -> list UsageEventMessage * option string := page_at ex_env sixty_events "ws1" None 50.
Lemma usage_page_shows_every_event_witness :
  let q := load 2 sixty_fetch (mkInfinite []) in
  map ev_id (rows q) = map (fun n => "e" +:+ dec (Z.of_nat n)) (rev (seq 0 60)) /\ hasNextPage q = false /\
  hasNextPage (load 1 sixty_fetch (mkInfinite [])) = true.
Proof.
  assert (forall n, let all := all_events sixty_events "ws1" None in
    let q := load n sixty_fetch (mkInfinite []) in
    rows q = take (n * 50) all /\ ((0 < n)%nat -> hasNextPage q = bool_decide (n * 50 < length all)%nat)) as H.
  { intros n.
    destruct (usage_page_shows_every_event ex_env "one" (mkAuthedUser "u1" "u1@x.io") sixty_world sixty_fetch n)
      as (uid & ctx & Huid & Hctx & Hall).
    - done.
    - intros cursor. exists (events_request cursor), sixty_world. by destruct cursor.
    - vm_compute in Huid. injection Huid as <-. vm_compute in Hctx. injection Hctx as <-.
      destruct Hall as (Hrows & Hnext & _); [| |by split].
      + apply (bool_decide_eq_true_1 _). vm_compute. reflexivity.
      + intros e He. assert (Forall (fun e => 0 <= event_time e < 253402300800000) (all_events sixty_events "ws1" None)) as Hf.
        { apply (bool_decide_eq_true_1 _). vm_compute. reflexivity. }
        rewrite Forall_forall in Hf. by apply Hf. }
  destruct (H 2%nat) as [Hrows Hnext]. destruct (H 1%nat) as [_ Hfirst]. cbv zeta.
  rewrite Hrows, Hnext, Hfirst by lia. vm_compute. split_and!; reflexivity.
Defined.
(** Events that share their millisecond with the last one of a page are never shown. *)
Lemma same_instant_is_skipped :
  let table := map (fun n => example_event ("e" +:+ dec (Z.of_nat n)) (toISOString 5) "0.1") (seq 0 60) in
  let q := load 2 (page_at ex_env table "ws1" None 50) (mkInfinite []) in
  length (rows q) = 50%nat /\ hasNextPage q = false /\ length (iq_pages q) = 2%nat.
Proof. vm_compute. split_and!; reflexivity. Qed.
