(* ===== verification/WebReports.v ===== *)
(** * The console's CSV downloads read back

    The daily report of the analytics page and the tenant report of the
    operator: what an RFC 4180 reader gets from the files the pages write. *)

From S2P Require Import Prelude JsString JsNum JsDate Json Shared Gateway Zod.
From S2P Require Import ApiReports WebUi WebFormat WebAnalytics WebAdmin.
From Stdlib Require Import Ascii.

(** ** Texts a reader takes for one cell *)
Definition reads_as (text cell : string) : Prop :=
  forall row, exists m, csv_run (CsvReader CellStart "" row) text = Some (CsvReader m cell row, []) /\ m <> Quoted.
Definition plain (s : string) : bool := sforall (fun c => negb (cell_break c)) s.
Lemma plain_reads s : plain s = true -> reads_as s s.
Proof. intros Hs row. eexists. split; [apply csv_run_plain; [exact Hs|by left]|by destruct (String.eqb s "")]. Qed.
Lemma csv_reads s : reads_as (csv s) s.
Proof.
  unfold csv. destruct (sforall _ s) eqn:E; [by apply plain_reads|]. intros row. exists QuoteSeen. split; [|done].
  cbn. rewrite csv_run_app, csv_run_quoted. done.
Qed.
Lemma line_reads texts cells row :
  texts <> [] -> Forall2 reads_as texts cells ->
  csv_run (CsvReader CellStart "" row) (join "," texts +:+ nl) = Some (csv_start, [row ++ cells]).
Proof.
  intros Hne H. revert row. induction H as [|t c texts cells Ht Hr IH]; intros row; [done|].
  destruct (Ht row) as (m & Hm & Hq). destruct Hr as [|t' c' texts cells Ht' Hr].
  - cbn [join]. rewrite csv_run_app, Hm; cbn. by destruct m.
  - change (join "," (t :: t' :: texts)) with (t +:+ "," +:+ join "," (t' :: texts)).
    rewrite !string_app_assoc, csv_run_app, Hm; cbn [mbind option_bind].
    rewrite string_app_cons, string_app_nil_l, csv_run_comma, IH by done. by rewrite <- app_assoc.
Qed.
Lemma lines_read lines cells :
  lines <> [] -> Forall (fun l => l <> []) lines -> Forall2 (Forall2 reads_as) lines cells ->
  csv_read (join nl (map (join ",") lines) +:+ nl) = Some cells.
Proof.
  intros Hl Hne H. unfold csv_read. enough (csv_run csv_start (join nl (map (join ",") lines) +:+ nl) = Some (csv_start, cells)) as ->
    by done.
  induction H as [|l c lines cells Hc Hr IH]; [done|]. apply Forall_cons in Hne as [Hl1 Hne].
  pose proof (line_reads l c [] Hl1 Hc) as H1. destruct Hr as [|l' c' lines cells Hc' Hr]; [exact H1|].
  change (join nl (map (join ",") (l :: l' :: lines))) with (join "," l +:+ nl +:+ join nl (map (join ",") (l' :: lines))).
  rewrite <- (string_app_assoc (join "," l)), string_app_assoc, csv_run_app. unfold csv_start at 1. rewrite H1. cbn [mbind option_bind].
  by rewrite IH.
Qed.

(** ** Figures are plain *)
Lemma plain_app a b : plain (a +:+ b) = plain a && plain b.
Proof. apply sforall_app. Qed.
Lemma plain_digits s : all_digits s = true -> plain s = true.
Proof.
  apply sforall_impl. intros c Hc. unfold cell_break. apply negb_true_iff. unfold is_digit, in_range in Hc.
  apply andb_true_iff in Hc as [H1%Z.leb_le H2%Z.leb_le].
  assert (forall x, code x < 48 -> Ascii.eqb c x = false) as Hx by (intros x Hx; apply Ascii.eqb_neq; intros ->; lia).
  rewrite !Hx; [done|..]; vm_compute; reflexivity.
Qed.
Lemma plain_slices n s : plain s = true -> plain (slice_to n s) = true /\ plain (slice_from n s) = true.
Proof. intros H. rewrite <- (slice_to_from n s), plain_app in H. by apply andb_true_iff in H. Qed.
Lemma plain_dec n : plain (dec n) = true.
Proof. apply plain_digits, dec_all_digits. Qed.
Lemma plain_number n : plain (number_to_string n) = true.
Proof.
  unfold number_to_string. destruct (match n with NInt z => _ | NDec m k => _ end) as [m e]. rewrite plain_app.
  assert (plain (if num_mant n <? 0 then "-" else "") = true) as -> by by destruct (num_mant n <? 0).
  cbn [andb]. generalize (Z.of_nat (String.length (dec m)) + e). intros k. unfold format_number.
  pose proof (plain_dec m) as Hd.
  destruct (_ && _); [rewrite plain_app, Hd; apply plain_digits, repeat_char_digits|].
  destruct (_ && _).
  { destruct (plain_slices (Z.to_nat k) _ Hd) as [H1 H2]. by rewrite !plain_app, H1, H2. }
  destruct (_ && _).
  { rewrite !plain_app, Hd, (plain_digits (repeat_char _ _)) by apply repeat_char_digits. done. }
  destruct (plain_slices 1 _ Hd) as [H1 H2]. rewrite !plain_app, H1, plain_dec.
  destruct (_ =? 1); [|rewrite plain_app, H2]; by destruct (k - 1 <? 0).
Qed.
Lemma plain_fixed d n : plain (toFixed d n) = true.
Proof.
  unfold toFixed, fixed_text. rewrite !plain_app, plain_dec.
  assert (plain (if is_negative n then "-" else "") = true) as -> by by destruct (is_negative n). cbn [andb].
  destruct (d =? 0)%nat; [done|]. rewrite plain_app. apply plain_digits, pad_start_digits, dec_all_digits.
Qed.

(** ** The rows of the daily report *)
Section maps.
Context {V : Type}.
Implicit Types m : list (string * V).
Lemma map_get_set k k' v m : map_get k (map_set k' v m) = if String.eqb k' k then Some v else map_get k m.
Proof.
  induction m as [|[k1 v1] m IH]; cbn; [done|]. destruct (String.eqb_spec k1 k') as [->|Hne]; cbn.
  - by destruct (String.eqb k' k).
  - destruct (String.eqb_spec k1 k) as [->|]; [|exact IH]. destruct (String.eqb_spec k' k) as [->|]; [done|done].
Qed.
Lemma map_set_keys k v m : map fst (map_set k v m) = if bool_decide (k ∈ map fst m) then map fst m else map fst m ++ [k].
Proof.
  induction m as [|[k1 v1] m IH]; [done|]. cbn [map_set map]. destruct (String.eqb_spec k1 k) as [->|Hne].
  - rewrite bool_decide_eq_true_2; [done|]. set_solver.
  - cbn [map]. rewrite IH. destruct (bool_decide_reflect (k ∈ map fst m)).
    + rewrite bool_decide_eq_true_2; [done|]. set_solver.
    + rewrite bool_decide_eq_false_2; [done|]. set_solver.
Qed.
Lemma map_get_in k v m : NoDup (map fst m) -> map_get k m = Some v <-> (k, v) ∈ m.
Proof.
  induction m as [|[k1 v1] m IH]; [split; [done|by intros ?%elem_of_nil]|]. cbn [map fst]. intros [Hk Hnd]%NoDup_cons.
  cbn [map_get]. destruct (String.eqb_spec k1 k) as [->|Hne].
  - split; [intros [= ->]; by left|]. intros [[= ->]|H]%elem_of_cons; [done|]. exfalso. apply Hk.
    by apply (list_elem_of_fmap_2 fst) in H.
  - rewrite IH by done. set_solver.
Qed.
End maps.
(** The figures of a metric at a key, and the value the last of them leaves. *)
Definition metric_eqb (a b : Metric) : bool := bool_decide (metric_text a = metric_text b).
Definition key_of (f : Figure) : string := report_key (fg_date f) (fg_dim f).
Definition value_at (fs : list Figure) (m : Metric) (key : string) : number :=
  fold_left (fun v f => if metric_eqb (fg_metric f) m && String.eqb (key_of f) key then fg_v f else v) fs (NInt 0).
Lemma figure_set m m' v r : figure m (set_figure m' v r) = if metric_eqb m' m then v else figure m r.
Proof. by destruct r, m, m'. Qed.
Lemma set_figure_row m v r : rp_date (set_figure m v r) = rp_date r /\ rp_dim (set_figure m v r) = rp_dim r.
Proof. by destruct r, m. Qed.
Lemma value_at_snoc fs f m key :
  value_at (fs ++ [f]) m key =
    if metric_eqb (fg_metric f) m && String.eqb (key_of f) key then fg_v f else value_at fs m key.
Proof. unfold value_at. by rewrite fold_left_app. Qed.
Lemma value_at_none fs m key :
  (forall f, f ∈ fs -> metric_eqb (fg_metric f) m && String.eqb (key_of f) key = false) -> value_at fs m key = NInt 0.
Proof.
  induction fs as [|f fs IH] using rev_ind; intros H; [done|]. rewrite value_at_snoc, H by set_solver. apply IH. set_solver.
Qed.
Definition rows_ok (fs : list Figure) (rows : list (string * ReportRow)) : Prop :=
  NoDup (map fst rows) /\
  forall key, match map_get key rows with
    | Some r => key = report_key (rp_date r) (rp_dim r) /\
        (exists f, f ∈ fs /\ fg_date f = rp_date r /\ fg_dim f = rp_dim r) /\ forall m, figure m r = value_at fs m key
    | None => forall f, f ∈ fs -> key_of f <> key
    end.
Lemma add_figure_ok fs f rows : rows_ok fs rows -> rows_ok (fs ++ [f]) (add_figure rows f).
Proof.
  intros [Hnd Hrows]. unfold add_figure. fold (key_of f). split.
  - rewrite map_set_keys. destruct (bool_decide_reflect (key_of f ∈ map fst rows)); [done|].
    apply NoDup_app. split_and!; [done| |apply NoDup_singleton]. intros x Hx ->%list_elem_of_singleton. done.
  - intros key. rewrite map_get_set. specialize (Hrows key). destruct (String.eqb_spec (key_of f) key) as [<-|Hne].
    + destruct (map_get (key_of f) rows) as [r|].
      * destruct Hrows as (Hk & (f0 & Hf0 & Hd & Hx) & Hv).
        match goal with |- context [set_figure _ _ ?x] => change x with r end.
        destruct (set_figure_row (fg_metric f) (fg_v f) r) as [-> ->].
        split; [done|]. split; [exists f0; set_solver|]. intros m. rewrite figure_set, value_at_snoc, String.eqb_refl, andb_true_r.
        destruct (metric_eqb _ _); [done|apply Hv].
      * match goal with |- context [set_figure _ _ ?x] => set (r := x) end.
        destruct (set_figure_row (fg_metric f) (fg_v f) r) as [-> ->]. split; [done|].
        split; [exists f; set_solver|]. intros m. rewrite figure_set, value_at_snoc, String.eqb_refl, andb_true_r.
        destruct (metric_eqb _ _); [done|]. rewrite value_at_none; [by destruct m|]. intros f0 Hf0. apply andb_false_iff. right.
        by apply String.eqb_neq, Hrows.
    + destruct (map_get key rows) as [r|].
      * destruct Hrows as (Hk & (f0 & Hf0 & Hd & Hx) & Hv). split; [done|]. split; [exists f0; set_solver|].
        intros m. rewrite value_at_snoc, (proj2 (String.eqb_neq (key_of f) key)), andb_false_r by done. apply Hv.
      * intros f0 [Hf0| ->%list_elem_of_singleton]%elem_of_app; [by apply Hrows|done].
Qed.
Lemma report_rows_ok fs : rows_ok fs (fold_left add_figure fs []).
Proof.
  induction fs as [|f fs IH] using rev_ind; [split; [constructor|]; by intros key f ?%elem_of_nil|].
  rewrite fold_left_app. by apply add_figure_ok.
Qed.
(** A date without a bar: a row's key tells its date and name apart. *)
Lemma report_key_inj d d' x x' :
  sforall (fun c => negb (Ascii.eqb c "|")) d = true -> sforall (fun c => negb (Ascii.eqb c "|")) d' = true ->
  report_key d x = report_key d' x' -> d = d' /\ x = x'.
Proof.
  unfold report_key. revert d'. induction d as [|c d IH]; intros [|c' d']; cbn.
  - by intros _ _ [= ->].
  - intros _ Hc [= <- _]. discriminate Hc.
  - intros Hc _ [= -> _]. discriminate Hc.
  - intros [_ Hd]%andb_true_iff [_ Hd']%andb_true_iff [= -> Heq]. destruct (IH d' Hd Hd' Heq) as [-> ->]. done.
Qed.

Lemma metric_eqb_spec a b : metric_eqb a b = true <-> a = b.
Proof. unfold metric_eqb. rewrite bool_decide_eq_true. by destruct a, b. Qed.
Definition triple (f : Figure) : string * string * string := (metric_text (fg_metric f), fg_date f, fg_dim f).
Lemma value_at_only fs f :
  (forall f, f ∈ fs -> sforall (fun c => negb (Ascii.eqb c "|")) (fg_date f) = true) -> NoDup (map triple fs) -> f ∈ fs ->
  value_at fs (fg_metric f) (key_of f) = fg_v f.
Proof.
  intros Hd Hnd Hf. induction fs as [|g fs IH] using rev_ind; [by apply elem_of_nil in Hf|].
  rewrite value_at_snoc. rewrite map_app in Hnd. apply NoDup_app in Hnd as (Hnd & Hdis & _).
  assert (forall f, f ∈ fs -> sforall (fun c => negb (Ascii.eqb c "|")) (fg_date f) = true) as Hd' by (intros; apply Hd; set_solver).
  apply elem_of_app in Hf as [Hf| ->%list_elem_of_singleton].
  - destruct (metric_eqb _ _ && _) eqn:E; [|by apply IH]. exfalso.
    apply andb_true_iff in E as [Em%metric_eqb_spec Ek%String.eqb_eq].
    apply report_key_inj in Ek as [E1 E2]; [|apply Hd; set_solver..].
    apply (Hdis (triple f)); [by apply list_elem_of_fmap_2|]. apply list_elem_of_singleton. unfold triple. cbn. congruence.
  - by rewrite (proj2 (metric_eqb_spec _ _) eq_refl), String.eqb_refl.
Qed.
(** What the fold over the figures leaves. *)
Lemma report_rows_spec fs :
  let rows := map snd (fold_left add_figure fs []) in
  (forall f, f ∈ fs -> sforall (fun c => negb (Ascii.eqb c "|")) (fg_date f) = true) -> NoDup (map triple fs) ->
  NoDup (map (fun r => (rp_date r, rp_dim r)) rows) /\
  (forall f, f ∈ fs -> exists r, r ∈ rows /\ rp_date r = fg_date f /\ rp_dim r = fg_dim f /\ figure (fg_metric f) r = fg_v f) /\
  (forall r, r ∈ rows -> exists f, f ∈ fs /\ rp_date r = fg_date f /\ rp_dim r = fg_dim f) /\
  (forall r m, r ∈ rows ->
     (forall f, f ∈ fs -> ~ (fg_metric f = m /\ fg_date f = rp_date r /\ fg_dim f = rp_dim r)) -> figure m r = NInt 0).
Proof.
  intros rows Hd Hnd. pose proof (report_rows_ok fs) as [Hkeys Hrows].
  assert (forall r, r ∈ rows -> map_get (report_key (rp_date r) (rp_dim r)) (fold_left add_figure fs []) = Some r) as Hin.
  { intros r ([key r'] & -> & Hr)%list_elem_of_fmap. cbn [snd]. apply map_get_in in Hr; [|done].
    specialize (Hrows key). rewrite Hr in Hrows. by destruct Hrows as (<- & _). }
  assert (forall r, r ∈ rows -> exists f, f ∈ fs /\ rp_date r = fg_date f /\ rp_dim r = fg_dim f) as Hfrom.
  { intros r Hr. specialize (Hrows (report_key (rp_date r) (rp_dim r))). rewrite (Hin r Hr) in Hrows.
    destruct Hrows as (_ & (f & Hf & ? & ?) & _). by exists f. }
  split_and!; [|intros f Hf|done|].
  - apply (NoDup_fmap_1 (fun p => report_key p.1 p.2)). rewrite <- list_fmap_compose.
    replace (((fun p : string * string => report_key p.1 p.2) ∘ (fun r => (rp_date r, rp_dim r))) <$> rows)
      with (map fst (fold_left add_figure fs [])); [done|].
    unfold rows. rewrite <- list_fmap_compose. apply list_fmap_ext. intros i [key r] Hi. cbn.
    apply list_elem_of_lookup_2, map_get_in in Hi; [|done]. specialize (Hrows key). rewrite Hi in Hrows. by destruct Hrows.
  - specialize (Hrows (key_of f)). destruct (map_get (key_of f) _) as [r|] eqn:Er; [|by destruct (Hrows f Hf)].
    destruct Hrows as (Hk & (f0 & Hf0 & E1 & E2) & Hv). exists r.
    apply report_key_inj in Hk as [Ed Ex]; [|by apply Hd|rewrite <- E1; by apply Hd].
    split_and!; [|done|done|by rewrite Hv, value_at_only]. apply map_get_in in Er; [|done].
    by apply (list_elem_of_fmap_2 snd) in Er.
  - intros r m Hr Hno. specialize (Hrows (report_key (rp_date r) (rp_dim r))). rewrite (Hin r Hr) in Hrows.
    destruct Hrows as (_ & _ & ->). apply value_at_none. intros f Hf.
    destruct (metric_eqb _ _ && _) eqn:E; [|done]. exfalso.
    apply andb_true_iff in E as [Em%metric_eqb_spec Ek%String.eqb_eq].
    destruct (Hfrom r Hr) as (f0 & Hf0 & E1 & E2).
    apply report_key_inj in Ek as [E3 E4]; [|by apply Hd|rewrite E1; by apply Hd]. by apply (Hno f Hf).
Qed.

(** ** The daily report *)
Section report.
Context (format : Z -> string -> string) (localeCompare : string -> string -> Z).
(** The cells of a row, as they read back. *)
Definition record_of (r : ReportRow) : list string :=
  [ rp_date r; rp_dim r; number_to_string (rp_requests r); number_to_string (rp_tokens r); toFixed 6 (rp_cost r);
    number_to_string (rp_errors r) ].
(** A date as the report's patterns give it. *)
Definition date_like (d : string) : bool := sforall (fun c => negb (cell_break c) && negb (Ascii.eqb c "|")) d.
Lemma date_like_plain d : date_like d = true -> plain d = true.
Proof. apply sforall_impl. by intros c [H _]%andb_true_iff. Qed.
Lemma date_like_key d : date_like d = true -> sforall (fun c => negb (Ascii.eqb c "|")) d = true.
Proof. apply sforall_impl. by intros c [_ H]%andb_true_iff. Qed.
Lemma report_line_reads r : plain (rp_date r) = true -> Forall2 reads_as (report_line r) (record_of r).
Proof.
  intros Hd. unfold report_line, record_of.
  repeat (apply Forall2_cons; split; [first [apply csv_reads | apply plain_reads; first [exact Hd|apply plain_number|apply plain_fixed]]|]).
  constructor.
Qed.
Lemma header_reads d : Forall2 reads_as (report_header d) (report_header d).
Proof. by destruct d; repeat (apply Forall2_cons; split; [by apply plain_reads|]). Qed.

End report.

(** Two users over two days; one of them has no errors on the second. *)
Definition demo_format (t : Z) (_ : string) : string := slice_to 10 (toISOString t).
Definition demo_compare (a b : string) : Z := match String.compare a b with Lt => -1 | Eq => 0 | Gt => 1 end.
Definition demo_responses : list (list Series) :=
  let day n := toISOString (n * 86400000) in
  [ [mkSeriesView (Some "Ann, Inc") [mkPoint (day 0) (NInt 3); mkPoint (day 1) (NInt 4)];
     mkSeriesView (Some "Bob") [mkPoint (day 1) (NInt 1)]];
    [mkSeriesView (Some "Bob") [mkPoint (day 1) (NInt 50)]];
    [mkSeriesView (Some "Ann, Inc") [mkPoint (day 0) (NDec 15 1)]];
    [mkSeriesView (Some "Ann, Inc") [mkPoint (day 0) (NInt 1)]] ].
(** Two series of one name write over each other: the report has one row and the
    requests of the second user only. *)
Lemma namesakes_lose_figures :
  let day := toISOString 0 in
  let two := [mkSeriesView (Some "Sam") [mkPoint day (NInt 3)]; mkSeriesView (Some "Sam") [mkPoint day (NInt 4)]] in
  csv_read (report demo_format demo_compare by_day dim_user [two] +:+ nl) =
    Some [["Date"; "User"; "Requests"; "Tokens"; "CostUSD"; "Errors"]; ["1970-01-01"; "Sam"; "4"; "0"; "0.000000"; "0"]] /\
  chartData demo_format by_day two = [[("t", JStr "1970-01-01"); ("Sam", JNum (NInt 4))]].
Proof. vm_compute. split; reflexivity. Qed.
(** The operator's report reads back as its header and one record per tenant. *)
Lemma tenant_report_reads_back rows :
  Forall (fun r => r <> []) rows -> rows <> [] -> csv_read (csv_content rows +:+ nl) = Some rows.
Proof.
  intros Hne Hr. unfold csv_content.
  replace (map (fun r => join "," (map csv r)) rows) with (map (join ",") (map (map csv) rows)) by by rewrite map_map.
  apply lines_read; [by destruct rows| |].
  - apply Forall_forall. intros l (r & -> & Hin)%list_elem_of_fmap. rewrite Forall_forall in Hne. specialize (Hne r Hin). by destruct r.
  - apply Forall2_fmap_l, Forall_Forall2_diag, Forall_forall. intros r _. apply Forall2_fmap_l, Forall_Forall2_diag, Forall_forall.
    intros s _. apply csv_reads.
Qed.
