(* ===== verification/WebGrants.v ===== *)
(** * What the members page offers, the API grants

    A page that shows the members the API answered offers changes of role and
    removals.  Each of them, sent to the API while the tables are the same,
    succeeds. *)

From S2P Require Import Prelude JsString JsNum JsDate Json Shared Auth Gateway Zod WebClient WebEndpoints.
From S2P Require Import ApiDb ApiAuth ApiKeys ApiMembers ApiOrg ApiRules ApiSteps ApiEffects ApiExample.
From S2P Require Import WebUi WebMembers.
From Stdlib Require Import Ascii.

(** ** Handlers that go through *)
Section writes.
Context {R : Type} {TR : Table R}.
Lemma run_update (p : R -> bool) f r w :
  List.find p (rows_of (db w)) = Some r ->
  fits (db w) (f r) (List.filter (fun x => negb (with_key (row_key r) x)) (rows_of (db w))) = Ok tt ->
  run (update p f) w = (mkWorld (set_rows (update_rows (with_key (row_key r)) f (rows_of (db w))) (db w)) (outbox w), Ok (f r)).
Proof. intros Hr Hf. unfold update. cbn [run perform_op]. by rewrite Hr, Hf. Qed.
Lemma run_delete_one (p : R -> bool) r w :
  List.find p (rows_of (db w)) = Some r -> restricted (db w) r = false ->
  run (delete_one p) w = (mkWorld (cascade r (set_rows (remove_rows (with_key (row_key r)) (rows_of (db w))) (db w))) (outbox w), Ok tt).
Proof. intros Hr Hf. unfold delete_one. cbn [run perform_op]. by rewrite Hr, Hf. Qed.
End writes.
Section granted.
Context (E : ApiEnv).

Lemma run_guard min user ws uid ctx w :
  e_uuid E (au_id user) = Some uid -> guard_ctx E uid ws (db w) = Some ctx -> hasMinimumRole (wc_role ctx) min = true ->
  run (makeWorkspaceGuard E min user ws) w = (w, Ok ctx).
Proof.
  intros Hu Hc Hr. unfold makeWorkspaceGuard, uuid. rewrite Hu, run_bind. cbn [run mret H_ret]. rewrite run_gets.
  unfold guard_ctx in Hc. destruct (List.find _ _) as [m|]; cbn in Hc |- *; [|done].
  destruct (find_workspace _ _ _) as [x|]; cbn in Hc |- *; [|done]. injection Hc as <-. cbn in Hr. by rewrite Hr.
Qed.
Lemma run_route {A} rq min ws (h : AuthedUser -> WorkspaceContext -> H A) user uid ctx w :
  authenticated E rq user -> e_uuid E (au_id user) = Some uid -> guard_ctx E uid ws (db w) = Some ctx ->
  hasMinimumRole (wc_role ctx) min = true ->
  run (ws_route E rq min ws h) w = run (h user ctx) w.
Proof.
  intros Ha Hu Hc Hr. unfold ws_route. rewrite run_bind. rewrite Ha. cbn iota. rewrite run_bind.
  by rewrite (run_guard min user ws uid ctx).
Qed.

(** A row put back next to the others still fits. *)
Lemma fits_same (d : ApiDb) (m : Member) role :
  keys_ok d -> unique_rows (members d) -> m ∈ members d -> refs_ok d m = true ->
  fits d (with_role role m) (List.filter (fun x => negb (with_key (row_key m) x)) (members d)) = Ok tt.
Proof.
  intros Hk Hu Hm Hr. unfold fits.
  assert (has row_key (row_key (with_role role m)) (List.filter (fun x => negb (with_key (row_key m) x)) (members d)) = false) as ->.
  { apply not_true_iff_false. unfold has. rewrite existsb_exists. intros (x & Hx & Heq). apply list_elem_of_In, in_filter in Hx as [_ Hx].
    unfold with_key in Hx. cbn in Heq, Hx. by rewrite Heq in Hx. }
  assert (existsb (clash (with_role role m)) (List.filter (fun x => negb (with_key (row_key m) x)) (members d)) = false) as ->.
  { apply not_true_iff_false. rewrite existsb_exists. intros (x & Hx & Hc). apply list_elem_of_In, in_filter in Hx as [Hin Hx].
    change (clash m x = true) in Hc. apply negb_true_iff in Hx. unfold with_key in Hx. cbn in Hx.
    apply String.eqb_neq in Hx. apply Hx. f_equal. symmetry. by apply Hu. }
  cbn [orb]. change (refs_ok d (with_role role m)) with (refs_ok d m). by rewrite Hr.
Qed.

Context (user : AuthedUser) (uid ws : string) (ctx : WorkspaceContext) (w : World).
Hypothesis caller : e_uuid E (au_id user) = Some uid.
Hypothesis here : guard_ctx E uid ws (db w) = Some ctx.
Hypothesis tables : wf (db w).
#[local] Notation at_home := (wc_workspaceId ctx).

(** The rows of the list are members with their accounts. *)
Lemma listed rq w' rows row :
  authenticated E rq user -> run (listMembers E rq ws) w = (w', Ok rows) -> row ∈ rows ->
  exists m u, m ∈ members (db w) /\ m_workspaceId m = at_home /\ u ∈ users (db w) /\ u_id u = m_userId m /\
    mv_id row = u_id u /\ mv_role row = m_role m.
Proof.
  intros Ha. unfold listMembers.
  assert (hasMinimumRole (wc_role ctx) VIEWER = true) as Hr by (by destruct (wc_role ctx)).
  rewrite (run_route rq VIEWER ws _ user uid ctx) by done. rewrite run_bind. cbn [run findMany gets perform_op].
  intros [= <- <-]. intros (m & Hm & Hrow)%list_elem_of_omap. rewrite in_order_by in Hm. apply in_filter in Hm as [Hm Hw%String.eqb_eq].
  destruct (List.find (with_key (m_userId m)) (users (db w))) as [u|] eqn:Eu; [|discriminate Hrow]. injection Hrow as <-.
  apply find_some in Eu as [Hu Hk]. apply String.eqb_eq in Hk. exists m, u. cbn. split_and!; try done. by apply list_elem_of_In.
Qed.
(** The membership of a user is found by workspace and user. *)
Lemma found_member m :
  m ∈ members (db w) -> m_workspaceId m = at_home -> List.find (membership at_home (m_userId m)) (members (db w)) = Some m.
Proof.
  intros Hm Hw. destruct (List.find _ _) as [x|] eqn:Ex.
  - apply find_some in Ex as [Hx Hp]. apply andb_true_iff in Hp as [Hp1%String.eqb_eq Hp2%String.eqb_eq].
    apply list_elem_of_In in Hx. f_equal. apply (wf_members _ tables); [done..|]. cbn. unfold same_text.
    by rewrite Hp1, Hp2, Hw, !String.eqb_refl.
  - exfalso. apply list_elem_of_In in Hm. apply (find_none _ _ Ex) in Hm. unfold membership in Hm.
    by rewrite Hw, !String.eqb_refl in Hm.
Qed.
Lemma member_refs m u :
  m ∈ members (db w) -> u ∈ users (db w) -> u_id u = m_userId m -> refs_ok (db w) m = true.
Proof.
  intros Hm Hu Hk. cbn. rewrite (wf_member_workspace _ tables m Hm). cbn [andb]. unfold has. apply existsb_exists.
  exists u. split; [by apply list_elem_of_In|]. by rewrite Hk, String.eqb_refl.
Qed.

Lemma run_find_member m shown :
  m ∈ members (db w) -> m_workspaceId m = at_home -> run (find_member at_home (m_userId m) shown) w = (w, Ok m).
Proof. intros Hm Hw. unfold find_member, findFirst. rewrite run_gets. cbn [rows_of Member_table]. by rewrite (found_member m). Qed.

(** The two writes, on somebody who is no owner. *)
Lemma role_change_granted rq m u role :
  authenticated E rq user -> hasMinimumRole (wc_role ctx) ADMIN = true ->
  m ∈ members (db w) -> m_workspaceId m = at_home -> u ∈ users (db w) -> u_id u = m_userId m ->
  e_uuid E (u_id u) = Some (u_id u) -> m_role m <> OWNER -> role ∈ [ADMIN; MEMBER; VIEWER] ->
  rq_json rq = Some (JObj [("role", JStr (role_text role))]) ->
  exists w', run (updateMember E rq ws (u_id u)) w = (w', Ok (with_role role m)) /\ with_role role m ∈ members (db w').
Proof.
  intros Ha Hadmin Hm Hw Hu Hk Hid Hno Hrole Hbody. unfold updateMember.
  rewrite (run_route rq ADMIN ws _ user uid ctx) by done.
  assert (updateMemberSchema (rq_json rq) = Some role) as Hparse.
  { rewrite Hbody. repeat (apply elem_of_cons in Hrole as [->|Hrole]); [reflexivity..|by apply not_elem_of_nil in Hrole]. }
  unfold parse, uuid. rewrite Hparse, Hid. rewrite run_bind. cbn [run mret H_ret]. rewrite run_bind. cbn [run mret H_ret].
  rewrite Hk, run_bind, (run_find_member m) by done. rewrite run_bind.
  assert (run (if bool_decide (role = OWNER) then mret tt
    else keep_an_owner (wc_workspaceId ctx) "Cannot demote the last OWNER — promote another member to OWNER first" m) w = (w, Ok tt)) as ->.
  { unfold keep_an_owner. rewrite (bool_decide_eq_false_2 (m_role m = OWNER)) by done. by destruct (bool_decide _). }
  cbn iota. rewrite (run_update _ _ m);
    [|by apply found_member|by apply fits_same; [apply (wf_keys _ tables)|apply (wf_members _ tables)|done|eapply member_refs]].
  eexists. split; [done|]. cbn. apply in_update_rows. exists m.
  split; [done|]. unfold with_key. by rewrite String.eqb_refl.
Qed.
Lemma removal_granted rq m u :
  authenticated E rq user -> u_id u = au_id user \/ hasMinimumRole (wc_role ctx) ADMIN = true ->
  m ∈ members (db w) -> m_workspaceId m = at_home -> u ∈ users (db w) -> u_id u = m_userId m ->
  e_uuid E (u_id u) = Some (u_id u) -> m_role m <> OWNER ->
  exists w', run (removeMember E rq ws (u_id u)) w = (w', Ok tt) /\
    forall x, x ∈ members (db w') -> membership at_home (u_id u) x = false.
Proof.
  intros Ha Hmay Hm Hw Hu Hk Hid Hno. unfold removeMember.
  assert (hasMinimumRole (wc_role ctx) VIEWER = true) as Hr by (by destruct (wc_role ctx)).
  rewrite (run_route rq VIEWER ws _ user uid ctx) by done.
  assert (String.eqb (u_id u) (au_id user) || hasMinimumRole (wc_role ctx) ADMIN = true) as ->.
  { apply orb_true_iff. rewrite String.eqb_eq. exact Hmay. }
  unfold uuid. rewrite Hid, run_bind. cbn [run mret H_ret require]. rewrite run_bind. cbn [run mret H_ret].
  rewrite Hk, run_bind, (run_find_member m) by done. rewrite run_bind. unfold keep_an_owner. rewrite (bool_decide_eq_false_2 (m_role m = OWNER)) by done.
  cbn [run mret H_ret]. rewrite (run_delete_one _ m); [|by apply found_member|done].
  eexists. split; [reflexivity|]. cbn. intros x [Hx Hkx]%in_filter. apply not_true_iff_false. intros Hp.
  apply andb_true_iff in Hp as [Hp1%String.eqb_eq Hp2%String.eqb_eq].
  assert (x = m) as ->; [|unfold with_key in Hkx; by rewrite String.eqb_refl in Hkx].
  apply (wf_members _ tables); [done..|]. cbn. unfold same_text. by rewrite Hp1, Hp2, Hw, !String.eqb_refl.
Qed.

(** ** The page *)
Context (email url : string -> bool) (format : Z -> string -> string) (v : Viewer) (d : MembersData) (s : MembersState).

Lemma offered_one (n : Node MembersEvent) ev : offered email url [n] ev <-> offers email url n ev.
Proof. rewrite offered_cons, offered_nil. tauto. Qed.
(** Changes of role and removals come from a row of the table. *)
Lemma offered_on_row ev :
  offered email url (MembersPage format v d s) ev -> (exists id role, ev = ChangeRole id role) \/ (exists id, ev = RemoveMember id) ->
  exists row, row ∈ q_rows (md_members d) /\
    (offers email url (role_cell v s row) ev \/ offered email url (actions_cell v s row) ev).
Proof.
  intros Ho Hev. unfold MembersPage in Ho.
  rewrite !offered_app, !offered_cons, offered_nil, offered_when, offered_one, offers_box, offered_one in Ho.
  destruct Ho as [[Ho|[Ho|[]]]|[[_ Ho]|[Ho|[Ho|[]]]]].
  - exfalso. cbn in Ho. destruct Hev as [(? & ? & ->)|(? & ->)]; naive_solver.
  - apply offers_table in Ho as (cells & (row & -> & Hrow)%list_elem_of_fmap & Ho). exists row. split; [done|].
    unfold member_row in Ho. rewrite offered_app, !offered_cons, offered_nil in Ho. cbn in Ho. tauto.
  - exfalso. apply offers_table in Ho as (cells & (i & -> & Hi)%list_elem_of_fmap & Ho).
    unfold invitation_row in Ho. rewrite !offered_cons, offered_nil in Ho. cbn in Ho.
    destruct Hev as [(? & ? & ->)|(? & ->)]; naive_solver.
  - exfalso. apply offers_lift in Ho as (e0 & -> & _). destruct Hev as [(? & ? & ?)|(? & ?)]; done.
  - exfalso. apply offers_modal in Ho as (_ & Ho). rewrite offered_app, offered_one in Ho.
    destruct Hev as [(? & ? & ->)|(? & ->)]; destruct (mp_reissued s); cbn in Ho; rewrite ?offered_cons, ?offered_nil in Ho; cbn in Ho; naive_solver.
Qed.

Lemma viewer_admin r : isViewerAdmin (role_text r) = true -> hasMinimumRole r ADMIN = true.
Proof. by destruct r. Qed.
(** What a row offers, and what it takes for that. *)
Lemma role_cell_offers row ev :
  offers email url (role_cell v s row) ev ->
  isViewerAdmin (vw_role v) = true /\ mv_role row <> OWNER /\
  exists role, role ∈ [ADMIN; MEMBER; VIEWER] /\ ev = ChangeRole (mv_id row) (role_text role).
Proof.
  unfold role_cell. destruct (isViewerAdmin (vw_role v)); [|done]. case_bool_decide as Ho; [done|].
  destruct (is_viewer v row); [done|]. cbn. intros (_ & [[[=]]|(o & Hin & ->)]). split_and!; [done..|].
  repeat (apply elem_of_cons in Hin as [->|Hin]); [exists ADMIN|exists MEMBER|exists VIEWER|by apply not_elem_of_nil in Hin];
    (split; [set_solver|done]).
Qed.
Lemma actions_cell_offers row ev :
  offered email url (actions_cell v s row) ev ->
  (is_viewer v row = true \/ isViewerAdmin (vw_role v) = true) /\ mv_role row <> OWNER /\ ev = RemoveMember (mv_id row).
Proof.
  unfold actions_cell. destruct (is_viewer v row), (isViewerAdmin (vw_role v)); cbn [negb andb]; rewrite ?offered_nil;
    try done; case_bool_decide as Ho; rewrite offered_one; cbn; naive_solver.
Qed.

(** C39: The members page, shown to a member of the workspace with the rows the
    API listed, offers only what the API grants: a change of role it offers,
    sent by the same user on the same tables, answers the member with the role
    asked for and writes it; a removal it offers (leaving included) succeeds and
    takes the membership away. *)
Theorem members_page_offers_what_is_granted rq0 w0 rows ev :
  authenticated E rq0 user -> run (listMembers E rq0 ws) w = (w0, Ok rows) ->
  (forall u, u ∈ users (db w) -> e_uuid E (u_id u) = Some (u_id u)) ->
  q_rows (md_members d) = rows -> vw_role v = role_text (wc_role ctx) -> vw_id v = Some (au_id user) ->
  offered email url (MembersPage format v d s) ev ->
  forall rq, authenticated E rq user ->
  match ev with
  | ChangeRole id role =>
      rq_json rq = Some (JObj [("role", JStr role)]) ->
      exists m w', run (updateMember E rq ws id) w = (w', Ok m) /\ m ∈ members (db w') /\
        membership at_home id m = true /\ role_text (m_role m) = role
  | RemoveMember id =>
      exists w', run (removeMember E rq ws id) w = (w', Ok tt) /\
        forall m, m ∈ members (db w') -> membership at_home id m = false
  | _ => True
  end.
Proof.
  intros Ha0 Hl Hids Hq Hrole Hid Ho rq Ha.
  assert (forall row, row ∈ q_rows (md_members d) -> exists m u, m ∈ members (db w) /\ m_workspaceId m = at_home /\
    u ∈ users (db w) /\ u_id u = m_userId m /\ mv_id row = u_id u /\ mv_role row = m_role m) as Hrows.
  { rewrite Hq. intros row Hin. by apply (listed rq0 w0 rows row). }
  destruct ev as [|id role| |id| | | | | | | |]; try done.
  - intros Hbody. apply offered_on_row in Ho as (row & (m & u & Hm & Hw & Hu & Hk & Hi & Hr)%Hrows & Ho); [|by eauto].
    destruct Ho as [(Hadmin & Hno & r & Hin & [= -> ->])%role_cell_offers|(_ & _ & [=])%actions_cell_offers].
    rewrite Hrole in Hadmin. rewrite Hr in Hno. rewrite Hi.
    destruct (role_change_granted rq m u r) as (w' & Hrun & Hin'); [eauto using viewer_admin..|].
    exists (with_role r m), w'. split_and!; [done..| |done]. unfold membership. cbn. by rewrite Hw, Hk, !String.eqb_refl.
  - apply offered_on_row in Ho as (row & (m & u & Hm & Hw & Hu & Hk & Hi & Hr)%Hrows & Ho); [|by eauto].
    destruct Ho as [(_ & _ & r & _ & [=])%role_cell_offers|(Hmay & Hno & [= ->])%actions_cell_offers].
    rewrite Hr in Hno. rewrite Hi. eapply removal_granted; [done| |done..|by apply Hids|done].
    destruct Hmay as [Hself|Hadmin]; [left|right; apply viewer_admin; by rewrite <- Hrole].
    apply bool_decide_eq_true in Hself. rewrite Hid in Hself. injection Hself as <-. done.
Qed.
End granted.

(** ** The page on the example tables: u1 owns w1, u2 is a plain member of it *)
Definition gr_member : Member := mkMember "m3" "w1" "u2" MEMBER 5.
Definition gr_db : ApiDb := set_members (members ex_db ++ [gr_member]) ex_db.
Definition gr_world : World := mkWorld gr_db [].
Lemma gr_wf : wf gr_db.
Proof.
  constructor; cbn; [| |one_row; done|intros a b Ha; one_row| | | | |one_row| |one_row].
  - constructor; cbn; repeat (constructor; [set_solver|]); constructor.
  - one_row. exists ex_project. split; [set_solver|done].
  - intros a b Ha Hb; one_row; cbn; done.
  - intros a b Ha Hb; one_row; cbn; done.
  - intros a b Ha Hb; one_row.
  - intros a b Ha Hb; one_row; cbn; done.
  - unfold prices, price_ok. cbn. rewrite !Forall_cons. split_and!; done || lia.
  - one_row; done.
Qed.
Definition gr_rows : list MemberView :=
  [ mkMemberView "u1" "u1" "u1@x.io" true OWNER 0; mkMemberView "u2" "u2" "u2@x.io" true MEMBER 5 ].
Definition gr_data : MembersData := mkMembersData (mkQuery (Some gr_rows) false false) (mkQuery (Some []) false false).
Lemma members_page_offers_what_is_granted_witness :
  exists m w', run (updateMember ex_env (ex_request "u1" (Some (JObj [("role", JStr "VIEWER")]))) "one" "u2") gr_world = (w', Ok m) /\
    m ∈ members (db w') /\ membership "w1" "u2" m = true /\ role_text (m_role m) = "VIEWER".
Proof.
  apply (members_page_offers_what_is_granted ex_env (mkAuthedUser "u1" "u1@x.io") "u1" "one" (mkWsCtx "w1" "one" OWNER) gr_world
    eq_refl eq_refl gr_wf (fun _ => true) (fun _ => true) (fun _ _ => "") (mkViewer "OWNER" (Some "u1")) gr_data MembersPage_initial
    (ex_request "u1" None) gr_world gr_rows (ChangeRole "u2" "VIEWER")); try (reflexivity || (intros w; reflexivity)).
  - intros u Hu. cbn in Hu. one_row; reflexivity.
  - eexists. split; [right; left|].
    apply offers_table. eexists. split; [right; left|]. eexists. split; [right; right; left|].
    cbn. split; [reflexivity|]. right. exists "VIEWER". split; [right; right; left|reflexivity].
Defined.
(** The button that invites is there for everybody; the API invites for its
    ADMINs and owners only. *)
Lemma invite_is_offered_to_all email url format v d s : offered email url (MembersPage format v d s) OpenInvite.
Proof. eexists. split; [left|]. unfold PageHeader. apply offers_box. rewrite ?offered_cons, ?offered_app, ?offered_cons. cbn. tauto. Qed.
Lemma invite_is_refused E rq user uid ws ctx w :
  authenticated E rq user -> e_uuid E (au_id user) = Some uid -> guard_ctx E uid ws (db w) = Some ctx ->
  hasMinimumRole (wc_role ctx) ADMIN = false ->
  run (invite E rq ws) w = (w, Throw (TDomain (ForbiddenError "This action requires the ADMIN role"))).
Proof.
  intros Ha Hu Hc Hr. unfold invite, ws_route. rewrite run_bind. rewrite Ha. cbn iota. rewrite run_bind.
  unfold makeWorkspaceGuard, uuid. rewrite Hu, run_bind. cbn [run mret H_ret]. rewrite run_gets.
  unfold guard_ctx in Hc. destruct (List.find _ _) as [m|]; cbn in Hc |- *; [|done].
  destruct (find_workspace _ _ _) as [x|]; cbn in Hc |- *; [|done]. injection Hc as <-. cbn in Hr. by rewrite Hr.
Qed.
